(* ===== verification/_CoqProject ===== *)
-Q . S2P
Prelude.v
Text.v
Json.v
Encoding.v
JsonText.v
Http.v
Schema.v
Effects.v
Rls.v
Outcomes.v
Failures.v
DbTenancy.v
DbWorkload.v
DbCluster.v
Cursor.v
Wire.v
Sample.v
Slug.v
Settings.v
EventBus.v
Scheduler.v
DeployController.v
ServiceController.v
LbRegistry.v
LoadBalancer.v
Certificates.v
Auth.v
Concrete.v
ApiCore.v
ApiOrgs.v
ApiApps.v
ApiAuth.v
Handlers.v
Isolation.v
Quotas.v
Writes.v
Routes.v
Bodies.v
Members.v
Runtime.v
NodeAgent.v
Docker.v
WorkerServer.v
WorkerClient.v
ImageBuilder.v
Startup.v
Started.v
AtWork.v
SimNet.v
Pipeline.v
Deploys.v
Accounts.v
Traffic.v
ApiMux.v
Typed.v
Pages.v
Cluster.v
Platform.v
Served.v
Races.v
CliTypes.v
ApiClient.v
Replies.v
CliBodies.v
CliConfig.v
CliCommands.v
CliSession.v
CliErrors.v
CliRecovery.v
Cli.v
