(* ===== verification/Prelude.v ===== *)
(** * The PaaS platform: a verification development

    ** What the program is

    A platform that runs tenants' containers.  An API server
    (src/services/apiserver) keeps organizations, users, projects,
    applications and their deployments in PostgreSQL and answers the HTTP API;
    a scheduler places containers on nodes; a controller manager compares what
    should run with what runs, and what runs with what the load balancer
    knows; a worker on every node starts the containers on its engine; an
    image builder turns a repository into an image; a load balancer proxies
    requests to the instances; a command line (src/apps/cli) is the users'
    client.  The services share the database (src/internal/db) and send each
    other messages over NATS (src/internal/eventbus).

    A deployment goes: handleDeploy (ApiApps) writes a deployment and publishes
    placement.requested; handlePlacement (Scheduler) picks a node, writes a
    pending container and publishes node.<id>.assign; handleAssignment
    (NodeAgent) starts it on the engine (Runtime, Docker) and publishes
    node.<id>.status; handleStatus (Scheduler) writes the container's row;
    tick (ServiceController) records the instance and publishes
    service.updated, which the balancer reads (LoadBalancer).  From a
    repository, handleGitDeploy publishes build.requested, the builder answers
    build.completed (ImageBuilder) and handleBuildCompleted (ApiApps) deploys.
    The deployment controller (DeployController) asks for what is missing.

    ** The files

    Foundations.  [Prelude]: tables as finite maps, their scans, counts and
    updates, ORDER BY, ranges over Go maps.  [Text], [Encoding], [Slug]: the
    string functions of Go the source uses, base64, names to identifiers.
    [Json]: documents, Unmarshal and Marshal; [JsonText]: their text, printed
    and read; [Http]: methods, queries; [Settings]: the environment.
    - [Schema]: the structs of src/internal/db/*.go as records (a field is the
      struct's field prefixed by the struct's name) and the database as a
      record of tables, after src/infrastructure/postgres/migrations.
    - [Effects]: the monad of the services.  A Go function
      [func(ctx, ...) (T, error)] is [M T]; its world holds the database, the
      session of the current transaction, the clock, the next identifier, the
      trace of what was sent, and the faults to come.
    - [Rls]: row-level security, constraints, quota triggers, cascades.
    - [Outcomes], [Failures], [Handlers], [Writes], [Bodies], [Quotas]: the
      program logics: what a computation has done if it succeeds, how many
      calls failed if it does not, how a handler ends, what each statement
      writes, what holds along every transaction of every route.
    - [Wire]: the messages and subjects, each with the round trip between the
      sender's encoder and the receiver's decoder.
    - [Sample], [Concrete], [SimNet]: inputs for the witnesses, the parameters
      instantiated, and a concrete network.

    The database (src/internal/db): [DbTenancy], [DbWorkload], [DbCluster], one
    Module per repository, one definition per method; [Cursor], the text of the
    page cursors.

    The scheduler (src/services/scheduler): [Scheduler].  The controller
    manager: [DeployController], [ServiceController].  The balancer:
    [LbRegistry] (registry, strategy, health checks), [LoadBalancer] (proxy,
    resync, events), [Certificates] (TLS).  The worker: [Runtime] (the
    interface of engines), [NodeAgent], [Docker], [WorkerServer].  The builder:
    [ImageBuilder].

    The API server: [Auth] (internal/auth), [ApiCore] (errors, permissions,
    quotas, audit), [ApiOrgs], [ApiApps], [ApiAuth] (the handlers_*.go files),
    [ApiMux] (the patterns of server.go and what they match), [WorkerClient];
    [Routes] composes the handlers the way server.go does.

    The processes: [EventBus] (the NATS adapter and a server's streams),
    [Startup] (each main.go, up to the end of its run), [Started] (what the
    services are once started), [AtWork] (the processes while they run).

    The command line (src/apps/cli): [CliTypes] and [ApiClient]
    (internal/apiclient), [CliConfig] (internal/config), [CliCommands]
    (internal/cmd).

    Theorems over several components: [Isolation], [Members], [Accounts],
    [Deploys], [Traffic], [Replies], [Typed], [Pages] over the API; [Pipeline]
    from a placement request to the engine; [Cluster] and [Platform], every
    service at work on one database; [Served], from a running container to the
    tenant's domain; [Races], two transactions at once; [CliBodies],
    [CliSession], [CliErrors], [CliRecovery], [Cli], the command line and the
    API together.

    ** What the theorems show

    - Tenancy: no request changes a row of an organization in which its caller
      lacks the permission the route needs (Routes.serve_isolated), nor does
      any sequence of requests by outsiders (outsiders_never_touch); no
      organization is left without an owner by any traffic
      (Traffic.every_organization_keeps_an_owner), as long as two owners do not
      leave at the same instant (Races.last_owners_race).
    - The whole: whatever the services do to the database, in any order, it
      stays typed, consistent, owned and its cluster tables in step
      (Platform.platform_sound); a registered host reaches its tenant's
      containers and nobody else's (Platform.hosts_reach_their_tenant).
    - Accounts: what signup, login and refresh do on every branch; a refused
      login tells nothing about the account; a refresh token is answered once
      (Traffic.refresh_single_use, for requests served one at a time).
    - Placement: handlePlacement writes one pending container on the least
      loaded eligible node within quota, or nothing; the liveness sweep, the
      status handler and each step of a running scheduler
      (AtWork.scheduler_at_work);
      when nothing fails, a request reaches the engine and its answer reaches
      the row (Pipeline.placement_reaches_the_engine), and a running container
      becomes reachable under its tenant's domains
      (Served.running_container_reached).
    - Deployment: handleDeploy and handleBuildCompleted on every branch: a new
      deployment or build comes with exactly one message, or is marked failed
      because that message was lost; what a tick of the deployment controller
      sends (DeployController.tick_correct) and what one of the service
      controller removes.
    - Building: the build context is the tree outside .git, a build leaves no
      clone behind, each request is answered by what its build came to, unless
      the answer's publish fails.
    - Balancing: round robin is fair, the registry's invariant is kept by a
      running balancer (AtWork.balancer_at_work), a resync leaves the
      database's instances, ServeHTTP on every branch, one certificate per
      host (Certificates.certificate_stable).
    - Worker: assignments, releases and polls report exactly what happened; the
      API server's client over the worker's server refines the engine's own
      operations over a network that loses requests or answers
      (WorkerClient.client_refines_engine).
    - Answers: every request gets a success, an error envelope of its route's
      list or the internal error (Replies.every_request_is_answered); traffic
      keeps the columns' types (Typed.traffic_well_typed); the pages of a list
      are the list (Pages.pages_complete).
    - Start-up: connecting to the bus ends (EventBus.connectEventBus_correct);
      how the API server and the worker start, on every branch
      (Started.apiserver_starts, AtWork.worker_starts); which service starts
      last decides what the assignments stream takes
      (Started.last_start_decides); what is delivered is handled and then
      acknowledged, whatever the handler did (Started.always_acknowledged);
      what a text, a number or a duration of the environment is read as
      (Settings.settings_read).
    - Command line: the client reaches the route it means over the mux
      (CliSession.client_reaches_routes), both sides read each other's bodies
      (CliBodies.client_and_server_agree), the session and its file hold the
      tokens received last (Cli.session_never_lost), an expired session recovers
      (CliRecovery.session_recovers), errors reach the user
      (CliErrors.errors_reach_the_user).
    - Text: cursors, port bindings, messages and JSON documents are read back
      as written.

    ** Conventions

    Failures.  Every call that leaves a process consumes one element of
    [w_faults]: [None], or [Some e], the call failing with [e].  A theorem
    holds for all fault lists unless it assumes [calm] (none left).  A failed
    call has had no effect and a transaction whose COMMIT fails is rolled back;
    the requests of [WorkerClient] and of the command line may be lost after
    their effect.  [Failures] counts the failed calls of a run, so that a
    theorem can say that an outcome is possible only when a certain call
    failed.

    Parameters: the text of a UUID and of a time ([UUIDText], [TimeText]), page
    cursors ([CursorText]), hashing, JWT and bcrypt ([Credentials]), key pairs
    and certificates ([Crypto]), the order of a range over a map ([MapOrder]),
    the container engine ([ContainerRuntime]), the Docker client
    ([DockerClient], [DockerPorts]), the builder's host ([BuildHost]), the NATS
    server and the sockets a process opens ([Network]), the HTTP transports of
    [WorkerClient] and [ApiClient], the latter's store of tokens
    ([TokenStore]).  Their laws are documented behaviour (a text form is ASCII
    and is read back, a hash verifies its password) and each has a concrete
    instance in a witness; [CursorText] has the source's own code for an
    instance, [Cursor.cursorText].

    Numbers are [Z]; where a width matters (ports, replica counts, base 62
    bytes, Atoi, durations) the bounds are written out.  Recursions are
    structural: over the fault list, the input bytes, the rows or the list of
    chunks of a stream.  Where the source has no bound of its own there is
    fuel: the connect loop has seventeen dials, two seconds apart within thirty
    (connectEventBus_correct shows that no run needs more); ParseDuration has
    the text's length; the JSON reader twice the text's length, and
    JsonText.fuel_enough shows that more reads nothing more; the
    sampling of [randomBase62] recurs over the random bytes drawn and
    randomBase62_correct says how many are enough; the copying of a log stream
    recurs over the chunks the stream delivers.

    ** Not modelled

    The shutdown after the signal, logging, cobra's parsing of arguments and
    flags and the alignment of its tables, the cryptography itself, the HTTP
    transports' own timeouts, redelivery by the NATS server (of a message whose
    acknowledgement is lost, or whose handler never returns), the dashboards
    and the manifests of src/infrastructure.  A request, a message or a tick is one step: their
    statements are interleaved only in [Races] (and, for two refreshes, a
    redelivered build and two ticks, on the concrete runs
    concurrent_refreshes_both_succeed, redelivered_build_deploys_again and
    ticks_ask_again).  What is left of the Go files is interfaces, constructors,
    column lists and row scans, which say nothing the operations do not. *)
From stdpp Require Import base gmap strings list sorting pretty.
From Stdlib Require Import ZArith Lia.

#[global] Open Scope Z_scope.

(** ** Identifiers, time, tables *)

(** A [uuid.UUID] (128 bits) read as a number; [uuid.Nil] is 0. *)
Abbreviation uuid := N (only parsing).
Definition Nil : uuid := 0%N.

(** A [time.Time]/[timestamptz], in nanoseconds since the epoch. *)
Abbreviation time := Z (only parsing).
Definition Second : time := 1000000000.
Definition Hour : time := 3600 * Second.
(** The zero [time.Time]: year 1. *)
Definition zeroTime : time := - 62135596800 * Second.

(** A table keyed by its primary key. *)
Abbreviation table A := (gmap uuid A).

Section table.
Context {A : Type}.
Implicit Types (t : table A) (P : A → Prop) (f : A → A).

(** The rows of a table, in the (unspecified, here fixed) scan order. *)
Definition rows t : list A := (map_to_list t).*2.

(** [SELECT ... WHERE P]. *)
Definition select P `{!∀ x, Decision (P x)} t : list A := filter P (rows t).

(** [SELECT count] of the rows satisfying [P]. *)
Definition count P `{!∀ x, Decision (P x)} t : Z := Z.of_nat (length (select P t)).

(** [UPDATE ... SET f WHERE P]. *)
Definition update_where P `{!∀ x, Decision (P x)} f t : table A :=
  (λ x, if decide (P x) then f x else x) <$> t.

(** [DELETE ... WHERE P]. *)
Definition delete_where P `{!∀ x, Decision (P x)} t : table A :=
  filter (λ kv, ¬ P kv.2) t.

Lemma elem_of_rows t x : x ∈ rows t ↔ ∃ i, t !! i = Some x.
Proof.
  unfold rows. rewrite list_elem_of_fmap. split.
  - intros ([i y] & -> & Hin). exists i. by apply elem_of_map_to_list.
  - intros (i & Hi). exists (i, x). split; [done|]. by apply elem_of_map_to_list.
Qed.

Lemma elem_of_select P `{!∀ x, Decision (P x)} t x :
  x ∈ select P t ↔ P x ∧ ∃ i, t !! i = Some x.
Proof. unfold select. by rewrite list_elem_of_filter, elem_of_rows. Qed.

Lemma rows_insert_fresh t i x : t !! i = None → rows (<[i:=x]> t) ≡ₚ x :: rows t.
Proof. intros Hi. unfold rows. by rewrite map_to_list_insert by done. Qed.

Lemma rows_delete t i x : t !! i = Some x → rows t ≡ₚ x :: rows (delete i t).
Proof.
  intros Hi. rewrite <-(insert_delete_id t i x Hi) at 1.
  apply rows_insert_fresh, lookup_delete_eq.
Qed.

Lemma select_insert_fresh P `{!∀ x, Decision (P x)} t i x :
  t !! i = None →
  select P (<[i:=x]> t) ≡ₚ if decide (P x) then x :: select P t else select P t.
Proof.
  intros Hi. unfold select. rewrite rows_insert_fresh by done.
  rewrite filter_cons. by case_decide.
Qed.

Lemma count_insert_fresh P `{!∀ x, Decision (P x)} t i x :
  t !! i = None →
  count P (<[i:=x]> t) = count P t + if decide (P x) then 1 else 0.
Proof.
  intros Hi. unfold count. rewrite select_insert_fresh by done.
  case_decide; simpl; lia.
Qed.

Lemma count_delete P `{!∀ x, Decision (P x)} t i x :
  t !! i = Some x →
  count P t = count P (delete i t) + if decide (P x) then 1 else 0.
Proof.
  intros Hi. rewrite <-(insert_delete_id t i x Hi) at 1.
  apply count_insert_fresh, lookup_delete_eq.
Qed.

Lemma count_update P `{!∀ x, Decision (P x)} t i x y :
  t !! i = Some x →
  count P (<[i:=y]> t) + (if decide (P x) then 1 else 0)
  = count P t + if decide (P y) then 1 else 0.
Proof.
  intros Hi. rewrite (count_delete P t i x Hi), <-insert_delete_eq.
  rewrite count_insert_fresh by apply lookup_delete_eq. lia.
Qed.

Lemma count_nonneg P `{!∀ x, Decision (P x)} t : 0 ≤ count P t.
Proof. unfold count. lia. Qed.

Lemma count_empty P `{!∀ x, Decision (P x)} : count P ∅ = 0.
Proof. unfold count, select, rows. by rewrite map_to_list_empty. Qed.

Lemma lookup_update_where P `{!∀ x, Decision (P x)} f t i :
  update_where P f t !! i = (λ x, if decide (P x) then f x else x) <$> t !! i.
Proof. unfold update_where. by rewrite lookup_fmap. Qed.

Lemma lookup_delete_where P `{!∀ x, Decision (P x)} t i x :
  delete_where P t !! i = Some x ↔ t !! i = Some x ∧ ¬ P x.
Proof. unfold delete_where. by rewrite map_lookup_filter_Some. Qed.
End table.

(** ** Sorting by a key *)

Definition key_le {A} (key : A → Z) (x y : A) : Prop := key x ≤ key y.
Definition key_ge {A} (key : A → Z) (x y : A) : Prop := key y ≤ key x.
#[export] Instance key_le_dec {A} (key : A → Z) : RelDecision (key_le key).
Proof. intros x y. unfold key_le. apply _. Defined.
#[export] Instance key_ge_dec {A} (key : A → Z) : RelDecision (key_ge key).
Proof. intros x y. unfold key_ge. apply _. Defined.
#[export] Instance key_le_trans {A} (key : A → Z) : Transitive (key_le key).
Proof. unfold key_le. intros x y z ??. lia. Qed.
#[export] Instance key_ge_trans {A} (key : A → Z) : Transitive (key_ge key).
Proof. unfold key_ge. intros x y z ??. lia. Qed.
#[export] Instance key_le_total {A} (key : A → Z) : Total (key_le key).
Proof. unfold key_le. intros x y. lia. Qed.
#[export] Instance key_ge_total {A} (key : A → Z) : Total (key_ge key).
Proof. unfold key_ge. intros x y. lia. Qed.

(** [ORDER BY key] and [ORDER BY key DESC]: a stable sort of the scan order. *)
Definition order_by {A} (key : A → Z) (l : list A) : list A := merge_sort (key_le key) l.
Definition order_by_desc {A} (key : A → Z) (l : list A) : list A := merge_sort (key_ge key) l.

Lemma order_by_perm {A} (key : A → Z) l : order_by key l ≡ₚ l.
Proof. apply merge_sort_Permutation. Qed.
Lemma order_by_desc_perm {A} (key : A → Z) l : order_by_desc key l ≡ₚ l.
Proof. apply merge_sort_Permutation. Qed.
Lemma order_by_sorted {A} (key : A → Z) l : StronglySorted (key_le key) (order_by key l).
Proof. apply StronglySorted_merge_sort; apply _. Qed.
Lemma order_by_desc_sorted {A} (key : A → Z) l :
  StronglySorted (key_ge key) (order_by_desc key l).
Proof. apply StronglySorted_merge_sort; apply _. Qed.

(** ** Logic and lists *)

Lemma and_iff_compat_l_dep (A B C : Prop) : (A → (B ↔ C)) → (A ∧ B ↔ A ∧ C).
Proof. tauto. Qed.

Lemma filter_all {A} (P : A → Prop) `{!∀ x, Decision (P x)} (l : list A) :
  Forall P l → filter P l = l.
Proof. induction 1; [done|]. rewrite filter_cons_True by done. by f_equal. Qed.

(** ** Options as lists *)

Definition option_list {A} (o : option A) : list A :=
  match o with Some a => [a] | None => [] end.

(** ** Ranging over a map *)

(** The order of [for k, v := range m]: any order of the entries. *)
Class MapOrder := {
  visit : ∀ {K A} `{Countable K}, gmap K A → list (K * A);
  visit_perm : ∀ {K A} `{Countable K} (m : gmap K A), visit m ≡ₚ map_to_list m }.

Definition fixed_order : MapOrder :=
  {| visit := λ K A _ _ m, map_to_list m; visit_perm := λ K A _ _ m, Permutation_refl _ |}.

Lemma elem_of_visit `{MapOrder} {K A} `{Countable K} (m : gmap K A) k a :
  (k, a) ∈ visit m ↔ m !! k = Some a.
Proof. by rewrite visit_perm, elem_of_map_to_list. Qed.
