(* ===== verification/Text.v ===== *)
(** * Text: Go's strings package, as far as the services use it *)
From S2P Require Import Prelude.
From stdpp Require Import base strings list pretty.
From Stdlib Require Import ZArith Lia Ascii.
Open Scope Z_scope.

Lemma append_assoc (a b c : string) : (a +:+ b) +:+ c = a +:+ b +:+ c.
Proof. induction a as [|x a IH]; [done|]. change (String x ((a +:+ b) +:+ c) = String x (a +:+ b +:+ c)). by rewrite IH. Qed.
Lemma append_nil_r (a : string) : a +:+ "" = a.
Proof. induction a as [|x a IH]; [done|]. change (String x (a +:+ "") = String x a). by rewrite IH. Qed.

(** [strings.Split(s, sep)] for a one-byte [sep]. *)
Fixpoint split_on (sep : ascii) (s : string) : list string :=
  match s with
  | "" => [""]
  | String c s =>
      if decide (c = sep) then "" :: split_on sep s
      else match split_on sep s with x :: l => String c x :: l | [] => [String c ""] end
  end.
(** [strings.Cut(s, sep)]: what is before, and after, the first [sep]. *)
Fixpoint cut_on (sep : ascii) (s : string) : string * option string :=
  match s with
  | "" => ("", None)
  | String c s => if decide (c = sep) then ("", Some s)
                  else let '(a, b) := cut_on sep s in (String c a, b)
  end.

Lemma split_on_nonempty sep s : split_on sep s ≠ [].
Proof. destruct s as [|c s]; simpl; [done|]. case_decide; [done|]. by destruct (split_on sep s). Qed.
Lemma split_on_join sep s t :
  split_on sep (s +:+ String sep t) = split_on sep s ++ split_on sep t.
Proof.
  induction s as [|c s IH]; simpl.
  - by rewrite decide_True.
  - change (String c s +:+ String sep t) with (String c (s +:+ String sep t)). simpl.
    case_decide; rewrite IH; [done|]. pose proof (split_on_nonempty sep s). by destruct (split_on sep s).
Qed.
Lemma split_on_plain sep x :
  Forall (λ c, c ≠ sep) (String.list_ascii_of_string x) → split_on sep x = [x].
Proof.
  induction x as [|c x IH]; simpl; intros Hx; [done|].
  apply Forall_cons in Hx as [? ?]. rewrite decide_False by done. by rewrite IH.
Qed.
Lemma split_on_app sep x y :
  Forall (λ c, c ≠ sep) (String.list_ascii_of_string x) →
  split_on sep (x +:+ String sep y) = x :: split_on sep y.
Proof. intros Hx. by rewrite split_on_join, split_on_plain. Qed.
Lemma cut_on_app sep x y :
  Forall (λ c, c ≠ sep) (String.list_ascii_of_string x) →
  cut_on sep (x +:+ y) = (let '(a, b) := cut_on sep y in (x +:+ a, b)).
Proof.
  induction x as [|c x IH]; simpl; intros Hx; [change ("" +:+ y) with y; by destruct (cut_on sep y)|].
  apply Forall_cons in Hx as [? ?]. rewrite decide_False, IH by done. by destruct (cut_on sep y).
Qed.
Lemma cut_on_plain sep x :
  Forall (λ c, c ≠ sep) (String.list_ascii_of_string x) → cut_on sep x = (x, None).
Proof.
  induction x as [|c x IH]; simpl; intros Hx; [done|].
  apply Forall_cons in Hx as [? ?]. rewrite decide_False by done. by rewrite IH.
Qed.

(** ** Numbers *)

(** [strconv.Atoi]: an optional sign, then digits, within 64 bits. *)
Definition digit (c : ascii) : option Z :=
  let n := Z.of_nat (nat_of_ascii c) in if decide (48 ≤ n ≤ 57) then Some (n - 48) else None.
Fixpoint digits (acc : Z) (s : string) : option Z :=
  match s with
  | "" => Some acc
  | String c s => d ← digit c; digits (10 * acc + d) s
  end.
Definition Atoi (s : string) : option Z :=
  let unsigned s := if decide (s = "") then None else digits 0 s in
  n ← match s with
      | String "-" s => Z.opp <$> unsigned s
      | String "+" s => unsigned s
      | s => unsigned s
      end;
  if decide (- 2 ^ 63 ≤ n < 2 ^ 63) then Some n else None.

Lemma ten (P : N → Prop) :
  P 0%N → P 1%N → P 2%N → P 3%N → P 4%N → P 5%N → P 6%N → P 7%N → P 8%N → P 9%N →
  ∀ x, (x < 10)%N → P x.
Proof. intros. destruct x as [|p]; [done|]. do 4 (try (destruct p as [p|p|]; try done; try lia)). Qed.
Lemma digit_pretty x : (x < 10)%N → digit (pretty_N_char x) = Some (Z.of_N x).
Proof. revert x. by apply ten. Qed.
Lemma digits_pretty_go x s : digits 0 (pretty_N_go x s) = digits (Z.of_N x) s.
Proof.
  revert s. induction (N.lt_wf_0 x) as [x _ IH]; intros s.
  destruct (decide (x = 0%N)) as [->|Hx]; [by rewrite pretty_N_go_0|].
  rewrite pretty_N_go_step by lia. rewrite IH by (apply N.div_lt; lia).
  cbn [digits]. rewrite digit_pretty by (apply N.mod_lt; lia). simpl. f_equal.
  pose proof (N.div_mod x 10). lia.
Qed.
Lemma pretty_N_go_head x s :
  (0 < x)%N → ∃ y s', (y < 10)%N ∧ pretty_N_go x s = String (pretty_N_char y) s'.
Proof.
  revert s. induction (N.lt_wf_0 x) as [x _ IH]; intros s Hx. rewrite pretty_N_go_step by lia.
  destruct (decide (N.div x 10 = 0%N)) as [->|Hd]; [|apply IH; [apply N.div_lt; lia|by apply N.neq_0_lt_0]].
  rewrite pretty_N_go_0. eexists _, _. split; [|done]. apply N.mod_lt. lia.
Qed.
Lemma digits_pretty x : 0 < x → digits 0 (pretty x) = Some x ∧ ∃ y s, (y < 10)%N ∧ pretty x = String (pretty_N_char y) s.
Proof.
  intros Hx. destruct x as [|p|p]; [lia| |lia].
  change (pretty (Z.pos p)) with (if decide (N.pos p = 0%N) then "0" else pretty_N_go (N.pos p) "").
  rewrite decide_False by done. split; [apply digits_pretty_go|]. by apply pretty_N_go_head.
Qed.
(** What [%d] prints of a port is read back. *)
Lemma Atoi_pretty x : 0 < x < 2 ^ 63 → Atoi (pretty x) = Some x.
Proof.
  intros Hx. destruct (digits_pretty x) as (Hd & y & s & Hy & E); [lia|]. rewrite E in Hd |- *.
  unfold Atoi. clear E. revert Hd. pattern y. revert y Hy.
  apply ten; cbn [pretty_N_char]; intros Hd;
    rewrite decide_False by done; rewrite Hd; simpl; by rewrite decide_True by lia.
Qed.
Lemma digits_plain acc s n : digits acc s = Some n → Forall (λ c, c ≠ "/"%char) (String.list_ascii_of_string s).
Proof.
  revert acc. induction s as [|c s IH]; intros acc; [by constructor|]. simpl.
  destruct (digit c) as [d|] eqn:Ed; [|done]. intros Hs%IH. constructor; [|done]. by intros ->.
Qed.
