(* ===== verification/Json.v ===== *)
(** * Json: the wire values and encoding/json

    A JSON document as the parser of encoding/json delivers it, the way
    [json.Unmarshal] decodes one into a Go value ([Into]), the way
    [json.Marshal] writes one ([ToJSON]), and the law that links the two for a
    type that travels between services ([WireType]).  Text forms owned by other
    packages (the canonical form of a [uuid.UUID], the RFC 3339 form of a
    [time.Time]) are the classes [UUIDText] and [TimeText]. *)
From S2P Require Import Prelude.
From stdpp Require Import base gmap strings list.
From Stdlib Require Import ZArith Lia Ascii HexString.
Open Scope Z_scope.

(** ** Documents *)

(** [JInt] is a number whose literal has neither fraction nor exponent,
    [JFrac] any other number (by its literal). *)
#[warnings="-register-all"] Inductive json :=
| JNull
| JBool (b : bool)
| JInt (z : Z)
| JFrac (lit : string)
| JString (s : string)
| JArray (l : list json)
| JObject (kvs : list (string * json)).

(** A payload: [None] for bytes which are not a JSON document. *)
Abbreviation wire := (option json) (only parsing).

(** Go's [int] is 64 bits wide; an INT column 32. *)
Definition int64_ok (z : Z) : bool := bool_decide (- 2 ^ 63 ≤ z < 2 ^ 63).
Definition int4_ok (z : Z) : bool := bool_decide (- 2 ^ 31 ≤ z < 2 ^ 31).
(** Wrap-around of [int] arithmetic. *)
Definition wrap64 (z : Z) : Z := (z + 2 ^ 63) mod 2 ^ 64 - 2 ^ 63.

Lemma wrap64_id z : int64_ok z = true → wrap64 z = z.
Proof.
  unfold int64_ok, wrap64. intros H%bool_decide_eq_true.
  rewrite Z.mod_small; lia.
Qed.

(** ** Text forms owned by other packages *)

Definition ascii_only (s : string) : Prop :=
  Forall (λ c, (Ascii.N_of_ascii c < 128)%N) (String.list_ascii_of_string s).

(** github.com/google/uuid: [String] and [Parse]; parsing the canonical form,
    which is ASCII, gives the value back. *)
Class UUIDText := {
  uuid_String : uuid → string;
  uuid_Parse : string → option uuid;
  uuid_Parse_String : ∀ u, uuid_Parse (uuid_String u) = Some u;
  uuid_String_ascii : ∀ u, ascii_only (uuid_String u) }.

#[export] Instance uuid_String_inj `{UUIDText} : Inj (=) (=) uuid_String.
Proof. intros u v Huv. apply (f_equal uuid_Parse) in Huv. rewrite !uuid_Parse_String in Huv. by simplify_eq. Qed.

(** The text form of a timestamp, in ASCII; reading back what was written
    gives it. *)
Class TimeText := {
  time_String : time → string;
  time_Parse : string → option time;
  time_Parse_String : ∀ t, time_Parse (time_String t) = Some t;
  time_String_ascii : ∀ t, ascii_only (time_String t) }.

(** Instances for evaluating the model on concrete inputs. *)
Section canonical.
#[local] Open Scope list_scope.
#[local] Abbreviation chars := (list Ascii.ascii).

(** The digits of [u], at least 32 of them. *)
Definition hex_digits (u : N) : chars :=
  let raw := String.list_ascii_of_string
    match u with N0 => "" | Npos p => HexString.Raw.of_pos p "" end in
  replicate (32 - length raw) "0"%char ++ raw.
(** 8-4-4-4-12, and back. *)
Definition dashed (l : chars) : chars :=
  take 8 l ++ "-"%char :: take 4 (drop 8 l) ++ "-"%char :: take 4 (drop 12 l)
  ++ "-"%char :: take 4 (drop 16 l) ++ "-"%char :: drop 20 l.
Definition undashed (l : chars) : chars :=
  take 8 l ++ take 4 (drop 9 l) ++ take 4 (drop 14 l) ++ take 4 (drop 19 l) ++ drop 24 l.
Definition canonical_String (u : uuid) : string :=
  String.string_of_list_ascii (dashed (hex_digits u)).
Definition canonical_Parse (s : string) : option uuid :=
  let u := HexString.Raw.to_N (String.string_of_list_ascii
             (undashed (String.list_ascii_of_string s))) 0 in
  if decide (canonical_String u = s) then Some u else None.

Lemma undashed_dashed l : (20 ≤ length l)%nat → undashed (dashed l) = l.
Proof.
  intros Hl. do 20 (destruct l as [|? l]; [simpl in Hl; lia|]). reflexivity.
Qed.
Lemma to_N_zeros n l :
  HexString.Raw.to_N (String.string_of_list_ascii (replicate n "0"%char ++ l)) 0
  = HexString.Raw.to_N (String.string_of_list_ascii l) 0.
Proof. by induction n. Qed.
Lemma canonical_digits u :
  HexString.Raw.to_N (String.string_of_list_ascii
    (undashed (String.list_ascii_of_string (canonical_String u)))) 0 = u.
Proof.
  unfold canonical_String. rewrite String.list_ascii_of_string_of_list_ascii, undashed_dashed.
  2:{ unfold hex_digits. rewrite length_app, length_replicate. lia. }
  unfold hex_digits. rewrite to_N_zeros, String.string_of_list_ascii_of_string.
  destruct u as [|p]; [done|]. by rewrite HexString.Raw.to_N_of_pos.
Qed.
Lemma of_pos_ascii p : ∀ s, ascii_only s → ascii_only (HexString.Raw.of_pos p s).
Proof.
  assert (∀ n p s, (Pos.to_nat p < n)%nat → ascii_only s → ascii_only (HexString.Raw.of_pos p s)) as H.
  { induction n as [|n IH]; intros q s Hq Hs; [lia|].
    destruct q as [[[[q|q|]|[q|q|]|]|[[q|q|]|[q|q|]|]|]|[[[q|q|]|[q|q|]|]|[[q|q|]|[q|q|]|]|]|];
      simpl; try (apply IH; [lia|]); unfold ascii_only in *; simpl; (constructor; [reflexivity|exact Hs]). }
  intros s. apply (H (S (Pos.to_nat p))). lia.
Qed.
Lemma canonical_String_ascii u : ascii_only (canonical_String u).
Proof.
  unfold ascii_only, canonical_String. rewrite String.list_ascii_of_string_of_list_ascii.
  assert (Forall (λ c, (Ascii.N_of_ascii c < 128)%N) (hex_digits u)) as Hd.
  { unfold hex_digits. apply Forall_app. split; [by apply Forall_replicate|].
    destruct u; [by constructor|]. by apply of_pos_ascii; constructor. }
  unfold dashed.
  repeat first [apply Forall_app; split | apply Forall_cons; split | by apply Forall_take
               | by apply Forall_drop | apply Forall_take | done].
Qed.
Lemma hex_ascii t : ascii_only (HexString.of_Z t).
Proof.
  destruct t; simpl; [by repeat constructor|..]; unfold ascii_only; simpl;
    repeat (constructor; [done|]); by apply of_pos_ascii; constructor.
Qed.
Lemma canonical_Parse_String u : canonical_Parse (canonical_String u) = Some u.
Proof. unfold canonical_Parse. rewrite canonical_digits. by rewrite decide_True. Qed.
End canonical.

(** The form of RFC 4122: 32 hexadecimal digits in groups 8-4-4-4-12. *)
Definition hexUUID : UUIDText :=
  {| uuid_String := canonical_String; uuid_Parse := canonical_Parse;
     uuid_Parse_String := canonical_Parse_String; uuid_String_ascii := canonical_String_ascii |}.

Definition hexTime_Parse (s : string) : option time :=
  if decide (HexString.of_Z (HexString.to_Z s) = s) then Some (HexString.to_Z s) else None.

Lemma hexTime_Parse_of_Z t : hexTime_Parse (HexString.of_Z t) = Some t.
Proof. unfold hexTime_Parse. rewrite HexString.to_Z_of_Z. by rewrite decide_True. Qed.

Definition hexTime : TimeText :=
  {| time_String := HexString.of_Z; time_Parse := hexTime_Parse;
     time_Parse_String := hexTime_Parse_of_Z; time_String_ascii := hex_ascii |}.

(** ** Decoding *)

(** [json.Unmarshal] into a variable which already holds a value: [None] is
    an [UnmarshalTypeError] (or the error of a text unmarshaler). *)
Class Into (A : Type) := into : A → json → option A.
Class ToJSON (A : Type) := to_json : A → json.

#[export] Instance into_string : Into string := λ old j,
  match j with JNull => Some old | JString s => Some s | _ => None end.
#[export] Instance into_bool : Into bool := λ old j,
  match j with JNull => Some old | JBool b => Some b | _ => None end.
#[export] Instance into_int : Into Z := λ old j,
  match j with JNull => Some old | JInt z => if int64_ok z then Some z else None | _ => None end.
#[export] Instance into_uuid `{UUIDText} : Into uuid := λ old j,
  match j with JNull => Some old | JString s => uuid_Parse s | _ => None end.
(** [time.Time] shares its carrier with [int]: its decoder is named. *)
Definition into_time `{TimeText} (old : time) (j : json) : option time :=
  match j with JNull => Some old | JString s => time_Parse s | _ => None end.
(** A pointer: null makes it nil, anything else is decoded into what it
    points to (a fresh zero value here: the pointers decoded start nil). *)
#[export] Instance into_option {A} `{!Into A, !Inhabited A} : Into (option A) := λ old j,
  match j with JNull => Some None | _ => Some <$> into (default inhabitant old) j end.
#[export] Instance into_list {A} `{!Into A, !Inhabited A} : Into (list A) := λ _ j,
  match j with JNull => Some [] | JArray l => mapM (into inhabitant) l | _ => None end.
#[export] Instance into_map : Into (gmap string string) := λ old j,
  match j with
  | JNull => Some ∅
  | JObject kvs => foldl (λ acc kv, m ← acc; v ← into "" kv.2; Some (<[kv.1:=v]> m)) (Some old) kvs
  | _ => None
  end.

#[export] Instance to_json_string : ToJSON string := JString.
#[export] Instance to_json_bool : ToJSON bool := JBool.
#[export] Instance to_json_int : ToJSON Z := JInt.
#[export] Instance to_json_uuid `{UUIDText} : ToJSON uuid := λ u, JString (uuid_String u).
#[export] Instance to_json_option {A} `{!ToJSON A} : ToJSON (option A) := λ o,
  match o with None => JNull | Some a => to_json a end.
#[export] Instance to_json_list {A} `{!ToJSON A} : ToJSON (list A) := λ l, JArray (to_json <$> l).
#[export] Instance to_json_map : ToJSON (gmap string string) := λ m,
  JObject (prod_map id to_json <$> map_to_list m).

(** *** Structs *)

Definition lower_ascii (c : Ascii.ascii) : Ascii.ascii :=
  let n := Ascii.N_of_ascii c in
  if (65 <=? n)%N && (n <=? 90)%N then Ascii.ascii_of_N (n + 32) else c.
Fixpoint ToLower (s : string) : string :=
  match s with "" => "" | String c s => String (lower_ascii c) (ToLower s) end.

(** A struct's fields: the name in the tag and how a value is decoded into
    the field. *)
Abbreviation fields A := (list (string * (A → json → option A))) (only parsing).

(** The field an object key selects: the exact name, else the name up to
    (ASCII) case. *)
Definition find_field {A} (fs : fields A) (k : string) : option (A → json → option A) :=
  match list_find (λ f, f.1 = k) fs with
  | Some (_, f) => Some f.2
  | None => (λ x, x.2.2) <$> list_find (λ f, ToLower f.1 = ToLower k) fs
  end.

Definition decode_struct {A} (fs : fields A) (a : A) (j : json) : option A :=
  match j with
  | JNull => Some a
  | JObject kvs =>
      foldl (λ acc kv, a ← acc;
                       match find_field fs kv.1 with Some d => d a kv.2 | None => Some a end)
            (Some a) kvs
  | _ => None
  end.

(** An invariant of the fields' decoders holds of what is decoded. *)
Lemma decode_struct_keeps {A} (I : A → Prop) (fs : fields A) a j b :
  Forall (λ f, ∀ a v a', I a → f.2 a v = Some a' → I a') fs →
  I a → decode_struct fs a j = Some b → I b.
Proof.
  intros Hfs Ha. destruct j as [| | | | | |kvs]; simpl; try done; [by intros [= <-]|].
  assert (∀ k d, find_field fs k = Some d → ∀ a v a', I a → d a v = Some a' → I a') as Hd.
  { intros k d. rewrite Forall_forall in Hfs. unfold find_field. intros Hk.
    assert (∃ x, x ∈ fs ∧ d = x.2) as (x & Hx & ->); [|by apply Hfs].
    destruct (list_find (λ f, f.1 = k) fs) as [[i x]|] eqn:E; simplify_eq/=.
    - apply list_find_Some in E as (E & _). exists x. split; [by eapply list_elem_of_lookup_2|done].
    - destruct (list_find (λ f, ToLower f.1 = ToLower k) fs) as [[i x]|] eqn:E'; simplify_eq/=.
      apply list_find_Some in E' as (E' & _). exists x. split; [by eapply list_elem_of_lookup_2|done]. }
  revert a Ha. induction kvs as [|[k v] kvs IH]; intros a Ha; simpl; [by intros [= <-]|].
  destruct (find_field fs k) as [d|] eqn:Ek; [|by apply IH].
  destruct (d a v) as [a'|] eqn:Ea; [eapply IH, (Hd _ _ Ek); eauto|].
  intros Hnone. exfalso. clear -Hnone. induction kvs as [|kv kvs IH]; [done|]. by apply IH.
Qed.

(** A type read from a payload: its zero value and [Into]. *)
Definition Unmarshal {A} `{!Into A, !Inhabited A} (w : wire) : option A :=
  j ← w; into inhabitant j.

(** An [omitempty] field. *)
Definition omitempty (empty : bool) (k : string) (j : json) : list (string * json) :=
  if empty then [] else [(k, j)].

(** ** Types which travel *)

(** What one service promises another about a message type: reading what was
    written gives it back, for the values the writer produces ([wire_ok]). *)
Create HintDb wire.

Class WireType (A : Type) `{!Into A, !ToJSON A, !Inhabited A} := {
  wire_ok : A → Prop;
  wire_roundtrip : ∀ a, wire_ok a → Unmarshal (Some (to_json a)) = Some a }.

Arguments into : simpl never.
Arguments to_json : simpl never.
Arguments into_time : simpl never.

Lemma into_int_to_json old z : int64_ok z = true → into old (to_json z) = Some z.
Proof. intros H. unfold into, into_int, to_json, to_json_int. by rewrite H. Qed.
Lemma into_string_to_json old (s : string) : into old (to_json s) = Some s.
Proof. done. Qed.
Lemma into_bool_to_json old (b : bool) : into old (to_json b) = Some b.
Proof. done. Qed.
Lemma into_uuid_to_json `{UUIDText} old (u : uuid) : into old (to_json u) = Some u.
Proof. apply uuid_Parse_String. Qed.
Lemma into_time_String `{TimeText} old t : into_time old (JString (time_String t)) = Some t.
Proof. apply time_Parse_String. Qed.

Lemma mapM_into_list {A B} (f : B → option A) (g : A → B) l :
  (∀ x, x ∈ l → f (g x) = Some x) → mapM f (g <$> l) = Some l.
Proof.
  induction l as [|x l IH]; intros H; [done|].
  apply mapM_Some. constructor.
  - apply H. set_solver.
  - apply mapM_Some, IH. set_solver.
Qed.

Lemma into_map_to_json m : into ∅ (to_json m) = Some m.
Proof.
  unfold to_json, to_json_map, into, into_map.
  rewrite <-(list_to_map_to_list m) at 2. rewrite <-(map_union_empty (list_to_map _)).
  generalize (NoDup_fst_map_to_list m).
  generalize (map_to_list m) as l; intros l; generalize (∅ : gmap string string) as old.
  induction l as [|[k v] l IH]; intros old Hnd; simpl.
  - by rewrite (left_id_L ∅ (∪)).
  - simpl in Hnd. apply NoDup_cons in Hnd as [Hk Hnd].
    rewrite IH by done. f_equal. rewrite <-insert_union_l, <-insert_union_r; [done|].
    by apply not_elem_of_list_to_map_1.
Qed.

Lemma into_list_to_json {A} `{!Into A, !Inhabited A, !ToJSON A} old (l : list A) :
  (∀ x, x ∈ l → into inhabitant (to_json x) = Some x) → into old (to_json l) = Some l.
Proof. apply mapM_into_list. Qed.

(** Reads a written object field by field. *)
Ltac wire_step :=
  first [ rewrite into_int_to_json by assumption | rewrite into_string_to_json
        | rewrite into_bool_to_json | rewrite into_uuid_to_json | rewrite into_time_String
        | rewrite into_map_to_json ]; simpl.
Ltac wire_fields := unfold omitempty; repeat case_bool_decide; simplify_eq/=; repeat wire_step.
