(* ===== verification/Encoding.v ===== *)
(** * Encoding: the text forms the API uses in URLs

    encoding/base64's RawURLEncoding and strconv's Itoa/Atoi, as the revision
    cursors of services/apiserver (handlers_deployments.go:
    [encodeRevisionCursor], [decodeRevisionCursor]) and the refresh tokens of
    internal/auth use them. *)
From S2P Require Import Prelude Json.
From stdpp Require Import base strings list.
From Stdlib Require Import ZArith Lia Ascii DecimalString DecimalZ.
Open Scope Z_scope.
Open Scope list_scope.

Abbreviation chars := (list ascii) (only parsing).
Abbreviation bytes := (list Z) (only parsing).

(** ** base64.RawURLEncoding *)

Definition url_alphabet : chars := String.list_ascii_of_string
  "ABCDEFGHIJKLMNOPQRSTUVWXYZabcdefghijklmnopqrstuvwxyz0123456789-_".
Definition sextet_char (d : Z) : ascii := default "A"%char (url_alphabet !! Z.to_nat d).
Definition char_sextet (c : ascii) : option Z :=
  (λ x, Z.of_nat x.1) <$> list_find (λ a, a = c) url_alphabet.

Fixpoint EncodeToString (src : bytes) : chars :=
  match src with
  | [] => []
  | [a] => [sextet_char (Z.shiftr a 2); sextet_char (Z.shiftl (Z.land a 3) 4)]
  | [a; b] =>
      [sextet_char (Z.shiftr a 2);
       sextet_char (Z.lor (Z.shiftl (Z.land a 3) 4) (Z.shiftr b 4));
       sextet_char (Z.shiftl (Z.land b 15) 2)]
  | a :: b :: c :: src =>
      sextet_char (Z.shiftr a 2)
      :: sextet_char (Z.lor (Z.shiftl (Z.land a 3) 4) (Z.shiftr b 4))
      :: sextet_char (Z.lor (Z.shiftl (Z.land b 15) 2) (Z.shiftr c 6))
      :: sextet_char (Z.land c 63) :: EncodeToString src
  end.

(** The decoder skips carriage returns and line feeds, and does not look at
    the bits past the last byte. *)
Definition newline (c : ascii) : bool :=
  bool_decide (c = "010"%char ∨ c = "013"%char).
Fixpoint decode_sextets (l : list Z) : option bytes :=
  match l with
  | [] => Some []
  | [_] => None
  | [p; q] => Some [Z.lor (Z.shiftl p 2) (Z.shiftr q 4)]
  | [p; q; r] => Some [Z.lor (Z.shiftl p 2) (Z.shiftr q 4);
                       Z.lor (Z.shiftl (Z.land q 15) 4) (Z.shiftr r 2)]
  | p :: q :: r :: s :: l =>
      (λ rest, Z.lor (Z.shiftl p 2) (Z.shiftr q 4)
               :: Z.lor (Z.shiftl (Z.land q 15) 4) (Z.shiftr r 2)
               :: Z.lor (Z.shiftl (Z.land r 3) 6) s :: rest) <$> decode_sextets l
  end.
Definition DecodeString (s : chars) : option bytes :=
  mapM char_sextet (filter (λ c, newline c = false) s) ≫= decode_sextets.

(** Finite tables settle the bit arithmetic: each lemma about bytes is checked
    on all of them. *)
Definition below (n : nat) : list Z := seqZ 0 (Z.of_nat n).
Lemma below_elem n z : 0 ≤ z < Z.of_nat n → z ∈ below n.
Proof. intros. by apply elem_of_seqZ. Qed.

Lemma sextet_roundtrip d : 0 ≤ d < 64 → char_sextet (sextet_char d) = Some d.
Proof.
  intros Hd. assert (Forall (λ d, char_sextet (sextet_char d) = Some d) (below 64)) as Hall
    by (apply (bool_decide_unpack _); vm_compute; exact I).
  rewrite Forall_forall in Hall. apply Hall, below_elem. lia.
Qed.
Lemma sextet_newline d : 0 ≤ d < 64 → newline (sextet_char d) = false.
Proof.
  intros Hd. assert (Forall (λ d, newline (sextet_char d) = false) (below 64)) as Hall
    by (apply (bool_decide_unpack _); vm_compute; exact I).
  rewrite Forall_forall in Hall. apply Hall, below_elem. lia.
Qed.

(** The four sextets of three bytes. *)
Definition s1 (a : Z) : Z := Z.shiftr a 2.
Definition s2 (a b : Z) : Z := Z.lor (Z.shiftl (Z.land a 3) 4) (Z.shiftr b 4).
Definition s3 (b c : Z) : Z := Z.lor (Z.shiftl (Z.land b 15) 2) (Z.shiftr c 6).
Definition s4 (c : Z) : Z := Z.land c 63.
Definition is_byte (a : Z) : Prop := 0 ≤ a < 256.

Lemma s1_range a : is_byte a → 0 ≤ s1 a < 64.
Proof. unfold is_byte, s1. intros.
  rewrite Z.shiftr_div_pow2 by lia. change (2 ^ 2) with 4.
  split; [apply Z.div_pos|apply Z.div_lt_upper_bound]; lia.
Qed.
Lemma s4_range c : is_byte c → 0 ≤ s4 c < 64.
Proof.
  intros. unfold s4. change 63 with (Z.ones 6). rewrite Z.land_ones by lia.
  apply Z.mod_pos_bound. lia.
Qed.

(** Checked on every pair of bytes. *)
Definition pairs_ok (f : Z → Z → bool) : bool :=
  forallb (λ a, forallb (f a) (below 256)) (below 256).
Lemma pairs_ok_spec f a b : pairs_ok f = true → is_byte a → is_byte b → f a b = true.
Proof.
  unfold pairs_ok, is_byte. intros Hf Ha Hb.
  rewrite forallb_forall in Hf. specialize (Hf a (proj1 (list_elem_of_In _ _) (below_elem 256 a Ha))).
  rewrite forallb_forall in Hf. apply Hf, list_elem_of_In, below_elem. lia.
Qed.
Definition in_range (d : Z) : bool := (0 <=? d) && (d <? 64).
Lemma s2_ok a b : is_byte a → is_byte b →
  0 ≤ s2 a b < 64 ∧ Z.lor (Z.shiftl (s1 a) 2) (Z.shiftr (s2 a b) 4) = a.
Proof.
  intros Ha Hb. assert (pairs_ok (λ a b, in_range (s2 a b)
    && (Z.lor (Z.shiftl (s1 a) 2) (Z.shiftr (s2 a b) 4) =? a)) = true) as Hall by (vm_compute; done).
  pose proof (pairs_ok_spec _ a b Hall Ha Hb) as Hx. unfold in_range in Hx. lia.
Qed.
Lemma s3_ok b c : is_byte b → is_byte c →
  0 ≤ s3 b c < 64 ∧ Z.lor (Z.shiftl (Z.land (s3 b c) 3) 6) (s4 c) = c.
Proof.
  intros Hb Hc. assert (pairs_ok (λ b c, in_range (s3 b c)
    && (Z.lor (Z.shiftl (Z.land (s3 b c) 3) 6) (s4 c) =? c)) = true) as Hall by (vm_compute; done).
  pose proof (pairs_ok_spec _ b c Hall Hb Hc) as Hx. unfold in_range in Hx. lia.
Qed.
Lemma s2_high a b : is_byte a → is_byte b → Z.lor (Z.shiftl (s1 a) 2) (Z.shiftr (s2 a b) 4) = a.
Proof. intros. by apply s2_ok. Qed.
Lemma s3_low b c : is_byte b → is_byte c → Z.lor (Z.shiftl (Z.land (s3 b c) 3) 6) (s4 c) = c.
Proof. intros. by apply s3_ok. Qed.
(** The middle byte comes from the low nibble of [s2], which only depends on
    it, and from [s3]. *)
Lemma s2_low a b : is_byte a → is_byte b → Z.land (s2 a b) 15 = Z.shiftr b 4.
Proof.
  intros Ha Hb. assert (pairs_ok (λ a b, Z.land (s2 a b) 15 =? Z.shiftr b 4) = true) as Hall
    by (vm_compute; done).
  pose proof (pairs_ok_spec _ a b Hall Ha Hb) as Hx. simpl in Hx. lia.
Qed.
Lemma middle b c : is_byte b → is_byte c →
  Z.lor (Z.shiftl (Z.shiftr b 4) 4) (Z.shiftr (s3 b c) 2) = b.
Proof.
  intros Hb Hc. assert (pairs_ok (λ b c,
    Z.lor (Z.shiftl (Z.shiftr b 4) 4) (Z.shiftr (s3 b c) 2) =? b) = true) as Hall
    by (vm_compute; done).
  pose proof (pairs_ok_spec _ b c Hall Hb Hc) as Hx. simpl in Hx. lia.
Qed.

(** The sextets of a byte string. *)
Fixpoint sextets (src : bytes) : list Z :=
  match src with
  | [] => []
  | [a] => [s1 a; s2 a 0]
  | [a; b] => [s1 a; s2 a b; s3 b 0]
  | a :: b :: c :: src => s1 a :: s2 a b :: s3 b c :: s4 c :: sextets src
  end.

(** Induction three elements at a time. *)
Lemma list_ind3 {A} (P : list A → Prop) :
  P [] → (∀ a, P [a]) → (∀ a b, P [a; b]) → (∀ a b c l, P l → P (a :: b :: c :: l)) → ∀ l, P l.
Proof.
  intros H0 H1 H2 H3. fix IH 1. intros [|a [|b [|c l]]]; [done|done|done|]. apply H3, IH.
Qed.

Lemma zero_byte : is_byte 0.
Proof. unfold is_byte. lia. Qed.
Lemma Encode_sextets src : EncodeToString src = sextet_char <$> sextets src.
Proof.
  induction src as [| | |a b c src IH] using list_ind3; simpl.
  - done.
  - unfold s2. by rewrite Z.lor_0_r.
  - unfold s3. by rewrite Z.lor_0_r.
  - by rewrite IH.
Qed.
Lemma sextets_range src : Forall is_byte src → Forall (λ d, 0 ≤ d < 64) (sextets src).
Proof.
  induction src as [| | |a b c src IH] using list_ind3; simpl; intros Hall;
    rewrite ?Forall_cons in Hall; pose proof zero_byte;
    repeat (apply Forall_cons_2 || apply Forall_nil_2);
    solve [ apply s1_range; tauto | apply s2_ok; tauto | apply s3_ok; tauto
          | apply s4_range; tauto | apply IH; tauto ].
Qed.
Lemma decode_sextets_of src : Forall is_byte src → decode_sextets (sextets src) = Some src.
Proof.
  induction src as [| | |a b c src IH] using list_ind3; simpl; intros Hall;
    rewrite ?Forall_cons in Hall; pose proof zero_byte.
  - done.
  - destruct Hall as [? _]. by rewrite s2_high.
  - destruct Hall as (? & ? & _). by rewrite s2_high, s2_low, middle.
  - destruct Hall as (? & ? & ? & ?). rewrite IH by done. simpl.
    by rewrite s2_high, s2_low, middle, s3_low.
Qed.

Lemma Decode_Encode src : Forall is_byte src → DecodeString (EncodeToString src) = Some src.
Proof.
  intros Hb. pose proof (sextets_range src Hb) as Hr. unfold DecodeString.
  rewrite Encode_sextets, filter_all.
  - rewrite (mapM_into_list _ _ (sextets src)); [simpl; by apply decode_sextets_of|].
    intros d Hd. apply sextet_roundtrip. by rewrite Forall_forall in Hr; apply Hr.
  - apply Forall_forall. intros c (d & -> & Hd)%list_elem_of_fmap. apply sextet_newline.
    by rewrite Forall_forall in Hr; apply Hr.
Qed.

(** ** strconv *)

Definition Itoa (z : Z) : string := NilZero.string_of_int (Z.to_int z).
(** An optional sign, then digits; out of the range of [int] is an error. *)
Definition Atoi (s : string) : option Z :=
  d ← match s with
      | "" => None
      | String c s' => if decide (c = "+"%char) then Decimal.Pos <$> NilZero.uint_of_string s'
                       else NilZero.int_of_string s
      end;
  let z := Z.of_int d in if int64_ok z then Some z else None.

Lemma Atoi_Itoa z : int64_ok z = true → Atoi (Itoa z) = Some z.
Proof.
  intros Hz. unfold Atoi, Itoa.
  assert (NilZero.int_of_string (NilZero.string_of_int (Z.to_int z)) = Some (Z.to_int z)) as Hd.
  { apply NilZero.isi; intros Hn; pose proof (f_equal Z.of_int Hn) as Hz0;
      rewrite of_to in Hz0; subst z; discriminate Hn. }
  destruct (NilZero.string_of_int (Z.to_int z)) as [|c s]; [by cbn in Hd|].
  destruct (decide (c = "+"%char)) as [->|_]; [by cbn in Hd; destruct (NilEmpty.uint_of_string s)|]. rewrite Hd. simpl.
  by rewrite of_to, Hz.
Qed.

(** ** Revision cursors (services/apiserver/internal/server/handlers_deployments.go) *)

Definition bytes_of_string (s : string) : bytes :=
  (λ c, Z.of_N (N_of_ascii c)) <$> String.list_ascii_of_string s.
Definition string_of_bytes (b : bytes) : string :=
  String.string_of_list_ascii ((λ z, ascii_of_N (Z.to_N z)) <$> b).
Lemma string_of_bytes_of_string s : string_of_bytes (bytes_of_string s) = s.
Proof.
  unfold string_of_bytes, bytes_of_string. rewrite <-list_fmap_compose.
  rewrite <-(String.string_of_list_ascii_of_string s) at 2. f_equal.
  rewrite <-(list_fmap_id (String.list_ascii_of_string s)) at 2.
  apply list_fmap_ext. intros i c _. simpl. by rewrite N2Z.id, ascii_N_embedding.
Qed.
Lemma bytes_of_string_bytes s : Forall is_byte (bytes_of_string s).
Proof.
  apply Forall_forall. intros b (c & -> & _)%list_elem_of_fmap. unfold is_byte.
  pose proof (N_ascii_bounded c). lia.
Qed.

Definition encodeRevisionCursor (revision : Z) : string :=
  String.string_of_list_ascii (EncodeToString (bytes_of_string (Itoa revision))).
(** The empty cursor is the first page; [None] is an error. *)
Definition decodeRevisionCursor (cursor : string) : option (option Z) :=
  if decide (cursor = "") then Some None
  else raw ← DecodeString (String.list_ascii_of_string cursor);
       revision ← Atoi (string_of_bytes raw); Some (Some revision).

(** a revision cursor read back is the revision it was made from, for every
    value of [int]; it is never the empty cursor of the first page. *)
Theorem revision_cursor_roundtrip revision :
  int64_ok revision = true →
  decodeRevisionCursor (encodeRevisionCursor revision) = Some (Some revision).
Proof.
  intros Hr. unfold decodeRevisionCursor, encodeRevisionCursor.
  pose proof (Decode_Encode _ (bytes_of_string_bytes (Itoa revision))) as Hd.
  case_decide as He.
  - apply (f_equal String.list_ascii_of_string) in He.
    rewrite String.list_ascii_of_string_of_list_ascii in He. rewrite He in Hd.
    injection Hd as Hd. apply (f_equal string_of_bytes) in Hd.
    rewrite string_of_bytes_of_string in Hd. pose proof (Atoi_Itoa _ Hr) as Ha.
    by rewrite <-Hd in Ha.
  - rewrite String.list_ascii_of_string_of_list_ascii, Hd. simpl.
    by rewrite string_of_bytes_of_string, Atoi_Itoa.
Qed.
Lemma revision_cursor_roundtrip_witness :
  decodeRevisionCursor (encodeRevisionCursor 137) = Some (Some 137).
Proof. apply (revision_cursor_roundtrip 137). reflexivity. Defined.
