(* ===== verification/JsonText.v ===== *)
(** * JsonText: encoding/json's text

    The bytes [json.Marshal] writes for a document and the reader of
    [json.Unmarshal] (whitespace, literals, numbers, strings with their
    escapes and surrogate pairs, nesting to 10000), and that reading back what
    was written gives the document.  Strings are bytes; what is not UTF-8 in
    them becomes U+FFFD both ways. *)
From S2P Require Import Prelude Json Encoding.
From stdpp Require Import base strings list.
From Stdlib Require Import ZArith Lia Ascii DecimalString DecimalZ DecimalPos DecimalFacts.
Open Scope Z_scope.
Open Scope list_scope.

(** ** UTF-8 *)

Definition within (lo hi : N) (c : ascii) : bool := (lo <=? N_of_ascii c)%N && (N_of_ascii c <=? hi)%N.
Lemma within_spec lo hi c : within lo hi c = true ↔ (lo ≤ N_of_ascii c ≤ hi)%N.
Proof. unfold within. rewrite andb_true_iff, !N.leb_le. done. Qed.
Definition cont : ascii → bool := within 128 191.
Definition two (a b : ascii) : bool := within 194 223 a && cont b.
Definition three (a b c : ascii) : bool :=
  (within 224 224 a && within 160 191 b
   || (within 225 236 a || within 238 239 a) && cont b
   || within 237 237 a && within 128 159 b) && cont c.
Definition four (a b c d : ascii) : bool :=
  (within 240 240 a && within 144 191 b || within 241 243 a && cont b
   || within 244 244 a && within 128 143 b) && cont c && cont d.

(** The length of the character at the head ([utf8.DecodeRune]), 0 when it is
    none. *)
Definition rune_len (l : chars) : nat :=
  match l with
  | [] => 0
  | a :: l1 =>
      if within 0 127 a then 1
      else match l1 with
      | [] => 0
      | b :: l2 =>
          if two a b then 2
          else match l2 with
          | [] => 0
          | c :: l3 =>
              if three a b c then 3
              else match l3 with [] => 0 | d :: _ => if four a b c d then 4 else 0 end
          end
      end
  end.

(** [utf8.EncodeRune]. *)
Definition byte (n : N) : ascii := ascii_of_N n.
Definition encode_rune (r : N) : chars :=
  (if r <? 128 then [byte r]
   else if r <? 2048 then [byte (192 + r / 64); byte (128 + r mod 64)]
   else if r <? 65536 then
     [byte (224 + r / 4096); byte (128 + r / 64 mod 64); byte (128 + r mod 64)]
   else [byte (240 + r / 262144); byte (128 + r / 4096 mod 64); byte (128 + r / 64 mod 64);
         byte (128 + r mod 64)])%N.
Definition replacement : chars := encode_rune 65533.

(** ** Writing *)

Definition quotation : ascii := "034".
Definition backslash : ascii := "\".
Definition hex_char (n : N) : ascii := byte (if (n <? 10)%N then 48 + n else 87 + n).
(** One ASCII character: the two-letter escapes, the control characters and
    the three HTML ones as [\u00XX], the others as they are. *)
Definition escape_ascii (c : ascii) : chars :=
  if bool_decide (c = quotation ∨ c = backslash) then [backslash; c]
  else if bool_decide (c = "008"%char) then [backslash; "b"%char]
  else if bool_decide (c = "012"%char) then [backslash; "f"%char]
  else if bool_decide (c = "010"%char) then [backslash; "n"%char]
  else if bool_decide (c = "013"%char) then [backslash; "r"%char]
  else if bool_decide (c = "009"%char) then [backslash; "t"%char]
  else if within 0 31 c || bool_decide (c ∈ ["<"; ">"; "&"]%char)
  then [backslash; "u"; "0"; "0"; hex_char (N_of_ascii c / 16); hex_char (N_of_ascii c mod 16)]%char
  else [c].
(** A longer character: the line and paragraph separators are escaped. *)
Definition escape_rune (s : chars) : chars :=
  if bool_decide (s = encode_rune 8232) then [backslash; "u"; "2"; "0"; "2"; "8"]%char
  else if bool_decide (s = encode_rune 8233) then [backslash; "u"; "2"; "0"; "2"; "9"]%char
  else s.
Fixpoint escape (fuel : nat) (l : chars) : chars :=
  match fuel, l with
  | S fuel, c :: l' =>
      match rune_len l with
      | 0%nat => [backslash; "u"; "f"; "f"; "f"; "d"]%char ++ escape fuel l'
      | 1%nat => escape_ascii c ++ escape fuel l'
      | n => escape_rune (take n l) ++ escape fuel (drop n l)
      end
  | _, _ => []
  end.
Definition quote (s : string) : chars :=
  let l := String.list_ascii_of_string s in quotation :: escape (length l) l ++ [quotation].

Fixpoint commas (ls : list chars) : chars :=
  match ls with
  | [] => []
  | [l] => l
  | l :: ls => l ++ ","%char :: commas ls
  end.
Definition word (s : string) : chars := String.list_ascii_of_string s.
Fixpoint Marshal_text (j : json) : chars :=
  match j with
  | JNull => word "null"
  | JBool b => word (if b then "true" else "false")
  | JInt z => word (Itoa z)
  | JFrac lit => word lit
  | JString s => quote s
  | JArray l => "["%char :: commas (Marshal_text <$> l) ++ ["]"%char]
  | JObject kvs =>
      "{"%char :: commas ((λ kv, quote kv.1 ++ ":"%char :: Marshal_text kv.2) <$> kvs) ++ ["}"%char]
  end.

(** ** Reading *)

Definition space (c : ascii) : bool := bool_decide (c ∈ [" "; "009"; "010"; "013"]%char).
Fixpoint skip (l : chars) : chars :=
  match l with c :: l' => if space c then skip l' else l | [] => [] end.

Definition hex_value (c : ascii) : option N :=
  let n := N_of_ascii c in
  if within 48 57 c then Some (n - 48)%N
  else if within 97 102 c then Some (n - 87)%N
  else if within 65 70 c then Some (n - 55)%N
  else None.
Definition hex4 (l : chars) : option (N * chars) :=
  match l with
  | a :: b :: c :: d :: l =>
      a ← hex_value a; b ← hex_value b; c ← hex_value c; d ← hex_value d;
      Some (((a * 16 + b) * 16 + c) * 16 + d, l)%N
  | _ => None
  end.
Definition surrogate (r : N) : bool := ((55296 <=? r) && (r <? 57344))%N.
(** [\uXXXX] after the first [\u]: a surrogate takes its other half with it
    or is replaced. *)
Definition unicode_escape (l : chars) : option (chars * chars) :=
  '(r, l) ← hex4 l;
  if surrogate r then
    Some match l with
         | a :: b :: l' =>
             if decide (a = backslash ∧ b = "u"%char) then
               match hex4 l' with
               | Some (r2, l'') =>
                   if ((r <? 56320) && (56320 <=? r2) && (r2 <? 57344))%N
                   then (encode_rune ((r - 55296) * 1024 + (r2 - 56320) + 65536)%N, l'')
                   else (replacement, l)
               | None => (replacement, l)
               end
             else (replacement, l)
         | _ => (replacement, l)
         end
  else Some (encode_rune r, l).
Definition simple_escape (c : ascii) : option ascii :=
  match c with
  | "034" | "\" | "/" => Some c
  | "b" => Some "008"
  | "f" => Some "012"
  | "n" => Some "010"
  | "r" => Some "013"
  | "t" => Some "009"
  | _ => None
  end%char.
(** What a string holds, up to its closing quotation mark. *)
Fixpoint unquote (fuel : nat) (l : chars) : option (chars * chars) :=
  match fuel, l with
  | S fuel, c :: l' =>
      if decide (c = quotation) then Some ([], l')
      else
        '(s, rest) ← (if decide (c = backslash) then
            match l' with
            | e :: l'' =>
                if decide (e = "u"%char) then unicode_escape l''
                else (λ x, ([x], l'')) <$> simple_escape e
            | [] => None
            end
          else if within 0 31 c then None
          else match rune_len l with
               | 0%nat => Some (replacement, l')
               | n => Some (take n l, drop n l)
               end);
        '(t, rest) ← unquote fuel rest;
        Some (s ++ t, rest)
  | _, _ => None
  end.
Definition string_of (l : chars) : string := String.string_of_list_ascii l.

Definition is_digit : ascii → bool := within 48 57.
Fixpoint span_digits (l : chars) : chars * chars :=
  match l with
  | c :: l' => if is_digit c then let '(ds, r) := span_digits l' in (c :: ds, r) else ([], l)
  | [] => ([], [])
  end.
Definition at_head (c : ascii) (l : chars) : option chars :=
  match l with d :: l => if decide (d = c) then Some l else None | [] => None end.
(** [None] for a fraction or exponent without digits. *)
Definition fraction (l : chars) : option (chars * chars) :=
  match at_head "." l with
  | Some l' => let '(ds, r) := span_digits l' in
               if decide (ds = []) then None else Some ("."%char :: ds, r)
  | None => Some ([], l)
  end.
Definition exponent (l : chars) : option (chars * chars) :=
  match l with
  | e :: l' =>
      if decide (e = "e"%char ∨ e = "E"%char) then
        let '(sign, l'') := match l' with
                            | s :: l'' => if decide (s = "+"%char ∨ s = "-"%char) then ([s], l'')
                                          else ([], l')
                            | [] => ([], l') end in
        let '(ds, r) := span_digits l'' in
        if decide (ds = []) then None else Some (e :: sign ++ ds, r)
      else Some ([], l)
  | [] => Some ([], l)
  end.
(** No digits, or a zero before others. *)
Definition no_integer (ds : chars) : bool :=
  match ds with [] => true | c :: _ :: _ => bool_decide (c = "0"%char) | _ => false end.
Definition unsigned (sign l : chars) : option (json * chars) :=
  let '(ds, l) := span_digits l in
  if no_integer ds then None
  else
    '(fs, l) ← fraction l; '(es, l) ← exponent l;
    if decide (fs = [] ∧ es = [])
    then (λ d, (JInt (Z.of_int d), l)) <$> NilZero.int_of_string (string_of (sign ++ ds))
    else Some (JFrac (string_of (sign ++ ds ++ fs ++ es)), l).
Definition number (l : chars) : option (json * chars) :=
  match at_head "-" l with Some l' => unsigned ["-"%char] l' | None => unsigned [] l end.

(** The rest after a word that must stand there. *)
Fixpoint expect (w l : chars) : option chars :=
  match w, l with
  | [], _ => Some l
  | c :: w, d :: l => if decide (c = d) then expect w l else None
  | _ :: _, [] => None
  end.

Definition maxNestingDepth : N := 10000.
(** A value at the head; the elements of an array and the members of an
    object, up to their closing bracket.  Each call but one in two takes a
    byte, so twice the length is fuel enough. *)
Fixpoint value (fuel : nat) (depth : N) (l : chars) : option (json * chars) :=
  match fuel, l with
  | S fuel, c :: l' =>
      match c with
      | "{"%char =>
          if (maxNestingDepth <? depth + 1)%N then None
          else match at_head "}" (skip l') with
               | Some r => Some (JObject [], r)
               | None => '(kvs, r) ← members fuel (depth + 1)%N (skip l'); Some (JObject kvs, r)
               end
      | "["%char =>
          if (maxNestingDepth <? depth + 1)%N then None
          else match at_head "]" (skip l') with
               | Some r => Some (JArray [], r)
               | None => '(xs, r) ← elements fuel (depth + 1)%N (skip l'); Some (JArray xs, r)
               end
      | "034"%char => '(s, r) ← unquote (length l') l'; Some (JString (string_of s), r)
      | "n"%char => r ← expect (word "null") l; Some (JNull, r)
      | "t"%char => r ← expect (word "true") l; Some (JBool true, r)
      | "f"%char => r ← expect (word "false") l; Some (JBool false, r)
      | _ => number l
      end
  | _, _ => None
  end
with elements (fuel : nat) (depth : N) (l : chars) : option (list json * chars) :=
  match fuel with
  | O => None
  | S fuel =>
      '(x, r) ← value fuel depth l;
      match at_head "," (skip r) with
      | Some r => '(xs, r) ← elements fuel depth (skip r); Some (x :: xs, r)
      | None => r ← at_head "]" (skip r); Some ([x], r)
      end
  end
with members (fuel : nat) (depth : N) (l : chars) : option (list (string * json) * chars) :=
  match fuel with
  | O => None
  | S fuel =>
      l ← at_head quotation l;
      '(k, r) ← unquote (length l) l;
      r ← at_head ":" (skip r);
      '(x, r) ← value fuel depth (skip r);
      match at_head "," (skip r) with
      | Some r => '(kvs, r) ← members fuel depth (skip r); Some ((string_of k, x) :: kvs, r)
      | None => r ← at_head "}" (skip r); Some ([(string_of k, x)], r)
      end
  end.

(** The whole text is one value with whitespace around it. *)
Definition parse_text (l : chars) : wire :=
  '(j, r) ← value (2 * length l) 0 (skip l);
  match skip r with [] => Some j | _ => None end.

(** ** Strings read back *)

(** Text in UTF-8: characters one after the other. *)
Inductive utf8 : chars → Prop :=
| utf8_nil : utf8 []
| utf8_rune s l : s ≠ [] → (∀ r, rune_len (s ++ r) = length s) → utf8 l → utf8 (s ++ l).

Lemma ascii_utf8 l : Forall (λ c, within 0 127 c = true) l → utf8 l.
Proof.
  induction 1 as [|c l Hc _ IH]; [constructor|]. apply (utf8_rune [c] l); [done| |done].
  intros r. simpl. by rewrite Hc.
Qed.

Lemma unquote_ascii c f t :
  within 0 127 c = true →
  unquote (S f) (escape_ascii c ++ t) = '(s, r) ← unquote f t; Some (c :: s, r).
Proof.
  destruct c as [[] [] [] [] [] [] [] []]; try discriminate; intros _; reflexivity.
Qed.
Lemma unquote_rune s f t :
  (2 ≤ length s)%nat → (∀ r, rune_len (s ++ r) = length s) →
  unquote (S f) (escape_rune s ++ t) = '(s', r) ← unquote f t; Some (s ++ s', r).
Proof.
  intros Hs Hr. unfold escape_rune. case_bool_decide as H1; [by rewrite H1|].
  case_bool_decide as H2; [by rewrite H2|].
  pose proof (Hr t) as Ht. destruct s as [|c s]; [simpl in Hs; lia|].
  assert (within 0 127 c = false) as Hc.
  { destruct (within 0 127 c) eqn:E; [|done]. simpl in Ht, Hs. rewrite E in Ht. lia. }
  cbn [app unquote]. 
  rewrite decide_False by (intros ->; discriminate).
  rewrite decide_False by (intros ->; discriminate).
  assert (within 0 31 c = false) as ->.
  { apply not_true_iff_false. apply not_true_iff_false in Hc. rewrite within_spec in *. lia. }
  change (c :: s ++ t) with ((c :: s) ++ t). rewrite Ht.
  destruct (length (c :: s)) as [|n] eqn:El; [simpl in Hs; lia|].
  rewrite <- El, take_app_length, drop_app_length. done.
Qed.
Lemma unquote_escape l : utf8 l → ∀ f f' r,
  (length l ≤ f)%nat → (length l < f')%nat →
  unquote f' (escape f l ++ quotation :: r) = Some (l, r).
Proof.
  induction 1 as [|s l Hne Hs Hl IH]; intros f f' r Hf Hf'.
  - destruct f' as [|f']; [simpl in Hf'; lia|]. by destruct f.
  - rewrite length_app in Hf, Hf'. destruct s as [|c s]; [done|]. simpl in Hf, Hf'.
    destruct f as [|f]; [lia|]. destruct f' as [|f']; [lia|].
    cbn [escape app]. change (c :: s ++ l) with ((c :: s) ++ l). rewrite (Hs l).
    destruct s as [|c' s].
    + assert (within 0 127 c = true) as Hc.
      { pose proof (Hs []) as H1. simpl in H1. by destruct (within 0 127 c). }
      cbn [length app]. rewrite <- app_assoc, unquote_ascii by done. by rewrite IH by lia.
    + destruct (length (c :: c' :: s)) as [|[|n]] eqn:El; [done..|].
      rewrite <- El, take_app_length, drop_app_length.
      rewrite <- app_assoc, unquote_rune; [|simpl; lia|by rewrite El].
      simpl in Hf, Hf'. by rewrite IH by lia.
Qed.
Lemma escape_grows l : utf8 l → ∀ f, (length l ≤ f)%nat → (length l ≤ length (escape f l))%nat.
Proof.
  induction 1 as [|s l Hne Hs Hl IH]; intros f Hf; [simpl; lia|].
  rewrite length_app in *. destruct s as [|c s]; [done|]. simpl in Hf.
  destruct f as [|f]; [lia|]. cbn [escape app]. change (c :: s ++ l) with ((c :: s) ++ l).
  rewrite (Hs l). destruct s as [|c' s].
  - cbn [length app]. rewrite length_app. specialize (IH f ltac:(simpl in Hf; lia)).
    assert (1 ≤ length (escape_ascii c))%nat; [|lia].
    unfold escape_ascii. repeat case_match; simpl; lia.
  - destruct (length (c :: c' :: s)) as [|[|n]] eqn:El; [done..|].
    rewrite <- El, take_app_length, drop_app_length, length_app.
    specialize (IH f ltac:(simpl in Hf; lia)). unfold escape_rune.
    case_bool_decide as H1; [rewrite H1; simpl; lia|].
    case_bool_decide as H2; [rewrite H2; simpl; lia|]. lia.
Qed.
Lemma quote_read s r :
  utf8 (word s) →
  ∃ l, quote s ++ r = quotation :: l ∧ unquote (length l) l = Some (word s, r).
Proof.
  intros Hs. exists (escape (length (word s)) (word s) ++ quotation :: r). split.
  - unfold quote. cbn [app]. by rewrite <- app_assoc.
  - apply unquote_escape; [done..|]. rewrite length_app. simpl.
    pose proof (escape_grows _ Hs (length (word s))). lia.
Qed.

(** ** Numbers read back *)

(** What may follow a number without being taken for its continuation. *)
Definition delimited (r : chars) : Prop :=
  match r with [] => True | c :: _ => ¬ is_digit c ∧ c ∉ ["."; "e"; "E"]%char end.

Lemma span_digits_app ds r :
  Forall is_digit ds → delimited r → span_digits (ds ++ r) = (ds, r).
Proof.
  intros Hds Hr. induction Hds as [|c ds Hc _ IH].
  - destruct r as [|c r]; [done|]. simpl. destruct Hr as [Hc _]. by destruct (is_digit c).
  - simpl. rewrite IH. by destruct (is_digit c).
Qed.
Lemma digits_of_uint u : Forall is_digit (word (NilZero.string_of_uint u)).
Proof.
  assert (Forall is_digit (word (NilEmpty.string_of_uint u))) as H.
  { induction u; simpl; constructor; done. }
  destruct u; try done. by repeat constructor.
Qed.
Lemma normal_integer u : Decimal.unorm u = u → no_integer (word (NilZero.string_of_uint u)) = false.
Proof.
  destruct u as [|u| | | | | | | | |]; try done; intros Hu; simpl.
  2-10: unfold word; by destruct (String.list_ascii_of_string (NilEmpty.string_of_uint _)).
  unfold Decimal.unorm in Hu. rewrite nzhead_D0 in Hu.
  destruct (Decimal.nzhead u) as [|d| | | | | | | | |] eqn:E; simplify_eq; [done|].
  by destruct (nzhead_nonzero u u).
Qed.
Lemma to_int_normal z : Decimal.norm (Z.to_int z) = Z.to_int z.
Proof. by rewrite <- to_of, of_to. Qed.
Lemma int_of_string_Itoa z : NilZero.int_of_string (Itoa z) = Some (Z.to_int z).
Proof.
  apply NilZero.isi; intros Hn; pose proof (f_equal Z.of_int Hn) as Hz;
    rewrite of_to in Hz; subst z; discriminate Hn.
Qed.

(** A number starts with a sign or a digit, and only numbers do. *)
Lemma value_number c f d l : c = "-"%char ∨ is_digit c → value (S f) d (c :: l) = number (c :: l).
Proof.
  destruct c as [[] [] [] [] [] [] [] []]; try reflexivity; intros [?|Hc]; done.
Qed.
Lemma unsigned_read sign u i r :
  Decimal.unorm u = u → delimited r →
  NilZero.int_of_string (string_of (sign ++ word (NilZero.string_of_uint u))) = Some i →
  unsigned sign (word (NilZero.string_of_uint u) ++ r) = Some (JInt (Z.of_int i), r).
Proof.
  intros Hu Hr Hi. unfold unsigned.
  rewrite span_digits_app, normal_integer by (done || apply digits_of_uint).
  assert (fraction r = Some ([], r) ∧ exponent r = Some ([], r)) as [-> He].
  { destruct r as [|c r]; [done|]. destruct Hr as [_ Hc]. unfold fraction, exponent, at_head.
    rewrite !decide_False by (repeat (intros [->| ->] || intros ->); apply Hc; repeat constructor).
    done. }
  simpl. rewrite He. simpl. by rewrite Hi.
Qed.
Lemma number_read z r : delimited r → number (word (Itoa z) ++ r) = Some (JInt z, r).
Proof.
  intros Hr. pose proof (int_of_string_Itoa z) as Hz. pose proof (to_int_normal z) as Hn.
  rewrite <- (of_to z) at 2. unfold number, Itoa in *.
  destruct (Z.to_int z) as [u|u] eqn:E.
  - assert (at_head "-" (word (NilZero.string_of_uint u) ++ r) = None) as Hh.
    { pose proof (digits_of_uint u) as Hd. destruct (word (NilZero.string_of_uint u)) as [|c l] eqn:Ew.
      - by destruct u.
      - simpl. apply Forall_cons in Hd as [Hd _]. rewrite decide_False; [done|]. by intros ->. }
    simpl in Hz |- *. rewrite Hh. apply (unsigned_read [] u (Decimal.Pos u)); [by injection Hn|done|].
    unfold string_of, word. simpl. by rewrite String.string_of_list_ascii_of_string.
  - simpl. apply (unsigned_read ["-"%char] u (Decimal.Neg u)); [|done|].
    + unfold Decimal.norm, Decimal.unorm in *. by destruct (Decimal.nzhead u); simplify_eq.
    + unfold string_of, word. simpl. by rewrite String.string_of_list_ascii_of_string.
Qed.

(** ** Documents read back *)

Definition json_rec' (P : json → Prop) (Hnull : P JNull) (Hbool : ∀ b, P (JBool b))
    (Hint : ∀ z, P (JInt z)) (Hfrac : ∀ s, P (JFrac s)) (Hstring : ∀ s, P (JString s))
    (Harray : ∀ l, Forall P l → P (JArray l))
    (Hobject : ∀ kvs, Forall (λ kv, P kv.2) kvs → P (JObject kvs)) : ∀ j, P j :=
  fix go j :=
    match j with
    | JNull => Hnull | JBool b => Hbool b | JInt z => Hint z | JFrac s => Hfrac s
    | JString s => Hstring s
    | JArray l => Harray l ((fix all l : Forall P l := match l with
        | [] => List.Forall_nil P | x :: l => @List.Forall_cons _ P x l (go x) (all l) end) l)
    | JObject kvs => Hobject kvs ((fix all l : Forall (λ kv, P kv.2) l := match l with
        | [] => List.Forall_nil _
        | x :: l => @List.Forall_cons _ (λ kv, P kv.2) x l (go x.2) (all l) end) kvs)
    end.

(** What the services write: strings in UTF-8, integers, and no deeper than
    the reader goes; [depth] brackets are open around it. *)
Fixpoint writable (depth : N) (j : json) : Prop :=
  match j with
  | JNull | JBool _ | JInt _ => True
  | JFrac _ => False
  | JString s => utf8 (word s)
  | JArray l => (depth < maxNestingDepth)%N
                ∧ foldr (λ x P, writable (depth + 1) x ∧ P) True l
  | JObject kvs => (depth < maxNestingDepth)%N
      ∧ foldr (λ kv P, (utf8 (word kv.1) ∧ writable (depth + 1) kv.2) ∧ P) True kvs
  end.

Lemma number_head z : ∃ c l, word (Itoa z) = c :: l ∧ (c = "-"%char ∨ is_digit c).
Proof.
  unfold Itoa. destruct (Z.to_int z) as [u|u]; [|by eexists _, _; split; [|left]].
  pose proof (digits_of_uint u) as Hd. simpl.
  destruct (word (NilZero.string_of_uint u)) as [|c l] eqn:E; [by destruct u|].
  apply Forall_cons in Hd as [Hd _]. eexists _, _. by split; [|right].
Qed.
(** The first byte of a value: no space, no bracket that closes. *)
Lemma value_head d j :
  writable d j → ∃ c l, Marshal_text j = c :: l ∧ space c = false ∧ c ≠ "]"%char.
Proof.
  destruct j as [|[]|z|lit|s|l|kvs]; simpl; intros Hj; try done; try (by eexists _, _).
  change (∃ c l, word (Itoa z) = c :: l ∧ space c = false ∧ c ≠ "]"%char).
  destruct (number_head z) as (c & l & -> & Hc).
  exists c, l. split; [done|]. destruct Hc as [->|Hc]; [done|].
  split; [|by intros ->]. unfold space. apply bool_decide_eq_false. intros Hs.
  repeat (apply elem_of_cons in Hs as [->|Hs]; [done|]). by apply not_elem_of_nil in Hs.
Qed.

Ltac punctuation := split; [by intros []|by apply (bool_decide_unpack (_ ∉ _))].
Lemma delimited_comma r : delimited (","%char :: r).
Proof. punctuation. Qed.
Lemma delimited_bracket r : delimited ("]"%char :: r).
Proof. punctuation. Qed.
Lemma delimited_brace r : delimited ("}"%char :: r).
Proof. punctuation. Qed.
#[local] Hint Resolve delimited_comma delimited_bracket delimited_brace : core.

Definition reads (j : json) : Prop := ∀ d f r,
  writable d j → (2 * length (Marshal_text j) ≤ f)%nat → delimited r →
  value f d (Marshal_text j ++ r) = Some (j, r).

Lemma commas_cons a l : l ≠ [] → commas (a :: l) = a ++ ","%char :: commas l.
Proof. by destruct l. Qed.
Lemma commas_head a ls c t : a = c :: t → ∃ t', commas (a :: ls) = c :: t'.
Proof. intros ->. destruct ls; by eexists. Qed.

Lemma elements_read l d f r :
  Forall reads l → l ≠ [] → foldr (λ x P, writable d x ∧ P) True l →
  (1 + 2 * length (commas (Marshal_text <$> l)) ≤ f)%nat →
  elements f d (commas (Marshal_text <$> l) ++ "]"%char :: r) = Some (l, r).
Proof.
  intros Hl. revert f. induction Hl as [|x l Hx Hl IH]; intros f Hne Hw Hf; [done|].
  destruct Hw as [Hwx Hwl]. destruct f as [|f]; [lia|]. rewrite fmap_cons in *.
  destruct (decide (l = [])) as [->|Hl'].
  - simpl in *. rewrite Hx by (auto || lia). done.
  - rewrite commas_cons in * by by destruct l. rewrite length_app in Hf. simpl in Hf.
    rewrite <- app_assoc. cbn [elements app]. rewrite Hx by (auto || lia).
    simpl. assert (skip (commas (Marshal_text <$> l) ++ "]"%char :: r)
                   = commas (Marshal_text <$> l) ++ "]"%char :: r) as ->.
    { destruct l as [|y l]; [done|]. destruct Hwl as [Hwy _].
      destruct (value_head d y Hwy) as (c & t & Hy & Hc & _).
      rewrite fmap_cons. destruct (commas_head _ (Marshal_text <$> l) _ _ Hy) as [t' ->].
      simpl. by rewrite Hc. }
    rewrite IH by (done || lia). done.
Qed.

Definition member_text (kv : string * json) : chars := quote kv.1 ++ ":"%char :: Marshal_text kv.2.
Lemma member_read kv d f r :
  reads kv.2 → utf8 (word kv.1) → writable d kv.2 →
  (2 * length (member_text kv) ≤ S f)%nat → delimited r →
  members (S f) d (member_text kv ++ r)
  = match at_head "," (skip r) with
    | Some r => '(kvs, r) ← members f d (skip r); Some (kv :: kvs, r)
    | None => r ← at_head "}" (skip r); Some ([kv], r)
    end.
Proof.
  intros Hkv Hk Hw Hf Hr. unfold member_text in *. rewrite <- app_assoc.
  destruct (quote_read kv.1 ((":"%char :: Marshal_text kv.2) ++ r) Hk) as (l & -> & Hl).
  cbn [members at_head]. rewrite decide_True by done. cbn [mbind option_bind]. rewrite Hl. simpl.
  destruct (value_head d kv.2 Hw) as (c & t & Hy & Hc & _).
  rewrite Hy. simpl. rewrite Hc. change (c :: t ++ r) with ((c :: t) ++ r). rewrite <- Hy.
  rewrite length_app in Hf. simpl in Hf. rewrite Hkv by (done || lia). simpl.
  unfold string_of, word. rewrite String.string_of_list_ascii_of_string. by destruct kv.
Qed.
Lemma members_read kvs d f r :
  Forall (λ kv, reads kv.2) kvs → kvs ≠ [] →
  foldr (λ kv P, (utf8 (word kv.1) ∧ writable d kv.2) ∧ P) True kvs →
  (1 + 2 * length (commas (member_text <$> kvs)) ≤ f)%nat →
  members f d (commas (member_text <$> kvs) ++ "}"%char :: r) = Some (kvs, r).
Proof.
  intros Hl. revert f. induction Hl as [|kv l Hx Hl IH]; intros f Hne Hw Hf; [done|].
  destruct Hw as [[Hk Hwx] Hwl]. destruct f as [|f]; [lia|]. rewrite fmap_cons in *.
  destruct (decide (l = [])) as [->|Hl'].
  - cbn [fmap list_fmap commas] in *. rewrite member_read by (done || auto || lia). done.
  - rewrite commas_cons in * by by destruct l. rewrite length_app in Hf. cbn [length] in Hf.
    rewrite <- app_assoc. cbn [app]. rewrite member_read by (done || auto || lia).
    simpl. assert (skip (commas (member_text <$> l) ++ "}"%char :: r)
                   = commas (member_text <$> l) ++ "}"%char :: r) as ->.
    { destruct l as [|y l]; [done|]. rewrite fmap_cons.
      by destruct (commas_head (member_text y) (member_text <$> l) quotation
                     (tail (member_text y)) eq_refl) as [t' ->]. }
    rewrite IH by (done || lia). done.
Qed.

(** a written document is read back, with enough fuel, whatever follows it *)
Lemma value_read j : reads j.
Proof.
  induction j as [|b|z|lit|s|l IH|kvs IH] using json_rec'; intros d f r Hw Hf Hr; try done.
  - destruct f as [|f]; [simpl in Hf; lia|]. done.
  - destruct b; (destruct f as [|f]; [simpl in Hf; lia|]); done.
  - cbn [Marshal_text]. pose proof (number_read z r Hr) as Hn.
    destruct (number_head z) as (c & t & Hz & Hc). simpl in Hf. rewrite Hz in *.
    destruct f as [|f]; [simpl in Hf; lia|]. cbn [app] in *. by rewrite value_number.
  - cbn [Marshal_text]. destruct (quote_read s r Hw) as (l & -> & Hl).
    destruct f as [|f]; [simpl in Hf; lia|]. simpl. rewrite Hl. simpl.
    unfold string_of, word. by rewrite String.string_of_list_ascii_of_string.
  - destruct Hw as [Hd Hw]. cbn [Marshal_text] in *. simpl in Hf. rewrite length_app in Hf.
    destruct f as [|f]; [lia|]. simpl. rewrite (proj2 (N.ltb_ge _ _)) by lia.
    destruct (decide (l = [])) as [->|Hl]; [done|]. rewrite <- app_assoc.
    assert (∀ t, skip (commas (Marshal_text <$> l) ++ t) = commas (Marshal_text <$> l) ++ t
                 ∧ at_head "]" (commas (Marshal_text <$> l) ++ t) = None) as Hskip.
    { intros t. destruct l as [|y l]; [done|]. destruct Hw as [Hwy _].
      destruct (value_head _ y Hwy) as (c & t' & Hy & Hc & Hn).
      rewrite fmap_cons. destruct (commas_head _ (Marshal_text <$> l) _ _ Hy) as [t'' ->].
      simpl. rewrite Hc. by rewrite decide_False. }
    simpl app. destruct (Hskip ("]"%char :: r)) as [-> ->].
    simpl in Hf. rewrite elements_read; [done..|lia].
  - destruct Hw as [Hd Hw]. cbn [Marshal_text] in *. fold member_text in *. simpl in Hf.
    rewrite length_app in Hf.
    destruct f as [|f]; [lia|]. simpl. rewrite (proj2 (N.ltb_ge _ _)) by lia.
    destruct (decide (kvs = [])) as [->|Hl]; [done|]. rewrite <- app_assoc.
    assert (∀ t, skip (commas (member_text <$> kvs) ++ t) = commas (member_text <$> kvs) ++ t
                 ∧ at_head "}" (commas (member_text <$> kvs) ++ t) = None) as Hskip.
    { intros t. destruct kvs as [|y kvs]; [done|]. rewrite fmap_cons.
      by destruct (commas_head (member_text y) (member_text <$> kvs) quotation
                     (tail (member_text y)) eq_refl) as [t' ->]. }
    simpl app. destruct (Hskip ("}"%char :: r)) as [-> ->].
    simpl in Hf. rewrite members_read; [done..|lia].
Qed.

(** A written document read back. *)
Lemma parse_Marshal j : writable 0 j → parse_text (Marshal_text j) = Some j.
Proof.
  intros Hj. unfold parse_text. destruct (value_head 0%N j Hj) as (c & t & Hc & Hs & _).
  rewrite Hc at 2. simpl skip. rewrite Hs, <- Hc.
  pose proof (value_read j 0%N (2 * length (Marshal_text j))%nat []) as Hv. rewrite (right_id_L [] (++)) in Hv.
  rewrite Hv by done. done.
Qed.

(** ** The fuel is enough *)

Lemma skip_length l : (length (skip l) ≤ length l)%nat.
Proof. induction l as [|c l IH]; simpl; [lia|]. destruct (space c); simpl; lia. Qed.
Lemma at_head_length c l r : at_head c l = Some r → (length r < length l)%nat.
Proof. destruct l; simpl; [done|]. case_decide; [|done]. intros [= ->]. lia. Qed.
Lemma expect_length w l r : expect w l = Some r → (length r ≤ length l)%nat.
Proof.
  revert l. induction w as [|c w IH]; intros [|d l]; simpl; try (intros [= <-]; simpl; lia).
  case_decide; [|done]. intros Hr%IH. lia.
Qed.
Lemma span_digits_length l : (length (span_digits l).2 ≤ length l)%nat.
Proof.
  induction l as [|c l IH]; simpl; [lia|]. destruct (is_digit c); [|done].
  destruct (span_digits l). simpl in *. lia.
Qed.
Lemma span_digits_shrinks l ds r : span_digits l = (ds, r) → ds ≠ [] → (length r < length l)%nat.
Proof.
  destruct l as [|c l]; simpl; [by intros [= <- <-]|]. pose proof (span_digits_length l) as Hl.
  destruct (is_digit c); [|by intros [= <- <-]]. destruct (span_digits l). simpl in *.
  intros [= <- <-] _. lia.
Qed.
Lemma fraction_length l ds r : fraction l = Some (ds, r) → (length r ≤ length l)%nat.
Proof.
  unfold fraction. destruct (at_head "." l) as [l'|] eqn:E; [|by intros [= _ <-]].
  pose proof (at_head_length _ _ _ E). pose proof (span_digits_length l').
  destruct (span_digits l') as [x y]. case_decide; [done|]. intros [= _ <-]. simpl in *. lia.
Qed.
Lemma exponent_length l ds r : exponent l = Some (ds, r) → (length r ≤ length l)%nat.
Proof.
  destruct l as [|e l]; simpl; [by intros [= _ <-]|]. case_decide; [|by intros [= _ <-]].
  assert (∀ x y, match l with
    | s :: l'' => if decide (s = "+"%char ∨ s = "-"%char) then ([s], l'') else ([], l)
    | [] => ([], l) end = (x, y) → (length y ≤ length l)%nat) as Hs.
  { intros x y. destruct l as [|s l]; [by intros [= _ <-]|].
    case_decide; intros [= _ <-]; simpl; lia. }
  destruct (match l with [] => _ | _ => _ end) as [sign l'']. specialize (Hs _ _ eq_refl).
  pose proof (span_digits_length l''). destruct (span_digits l'').
  case_decide; [done|]. intros [= _ <-]. simpl in *. lia.
Qed.
Lemma unsigned_shrinks sign l j r : unsigned sign l = Some (j, r) → (length r < length l)%nat.
Proof.
  unfold unsigned. destruct (span_digits l) as [ds l1] eqn:E. destruct (no_integer ds) eqn:En; [done|].
  pose proof (span_digits_shrinks _ _ _ E) as Hl. assert (ds ≠ []) as Hds by by intros ->.
  specialize (Hl Hds). destruct (fraction l1) as [[fs l2]|] eqn:Ef; [|done]. simpl.
  apply fraction_length in Ef.
  destruct (exponent l2) as [[es l3]|] eqn:Ee; [|done]. simpl. apply exponent_length in Ee.
  case_decide; [|intros [= _ <-]; lia].
  destruct (NilZero.int_of_string _); [|done]. intros [= _ <-]. lia.
Qed.
Lemma number_shrinks l j r : number l = Some (j, r) → (length r < length l)%nat.
Proof.
  unfold number. destruct (at_head "-" l) as [l'|] eqn:E.
  - pose proof (at_head_length _ _ _ E). intros ?%unsigned_shrinks. lia.
  - apply unsigned_shrinks.
Qed.
Lemma hex4_length l n r : hex4 l = Some (n, r) → (length r < length l)%nat.
Proof.
  destruct l as [|a [|b [|c [|d l]]]]; try done. simpl.
  destruct (hex_value a), (hex_value b), (hex_value c), (hex_value d); try done.
  intros H. simplify_eq/=. lia.
Qed.
Lemma unicode_escape_length l s r : unicode_escape l = Some (s, r) → (length r ≤ length l)%nat.
Proof.
  unfold unicode_escape. destruct (hex4 l) as [[n l1]|] eqn:E; [|done]. simpl.
  apply hex4_length in E. destruct (surrogate n); [|intros [= _ <-]; lia].
  destruct l1 as [|a [|b l2]]; try (intros [= _ <-]; simpl in *; lia).
  case_decide; [|intros [= _ <-]; simpl in *; lia].
  destruct (hex4 l2) as [[n2 l3]|] eqn:E2; [|intros [= _ <-]; simpl in *; lia].
  apply hex4_length in E2.
  destruct (_ && _); intros [= _ <-]; simpl in *; lia.
Qed.
Lemma unquote_shrinks f l s r : unquote f l = Some (s, r) → (length r < length l)%nat.
Proof.
  revert l s r. induction f as [|f IH]; intros [|c l] s r; try done. cbn [unquote length].
  case_decide; [intros [= _ <-]; lia|].
  destruct (if decide (c = backslash) then _ else _) as [[t l1]|] eqn:E; [|done].
  cbn [mbind option_bind].
  destruct (unquote f l1) as [[t' l2]|] eqn:E1; [|done]. apply IH in E1.
  cbn [mbind option_bind]. intros [= _ <-].
  assert (length l1 ≤ length l)%nat; [|lia]. clear E1. case_decide.
  - destruct l as [|e l]; [done|]. case_decide; [apply unicode_escape_length in E; simpl; lia|].
    destruct (simple_escape e); simplify_eq/=. lia.
  - destruct (within 0 31 c); [done|].
    destruct (rune_len (c :: l)) as [|n]; injection E as _ <-; [lia|].
    cbn [drop]. rewrite length_drop. lia.
Qed.

(** What needs no brackets needs no fuel. *)
Definition leaf (l : chars) (v : option (json * chars)) : Prop :=
  ∀ j r, v = Some (j, r) → (length r < length l)%nat.
Lemma leaf_word w c l j : expect w (c :: l) = expect w (c :: l) → w ≠ [] →
  leaf (c :: l) (r ← expect w (c :: l); Some (j, r)).
Proof.
  intros _ Hw j' r. destruct w as [|a w]; [done|]. simpl. case_decide; [|done].
  destruct (expect w l) eqn:E; [|done]. apply expect_length in E. intros [= _ <-]. simpl. lia.
Qed.
Lemma leaf_string l :
  leaf (quotation :: l) ('(s, r) ← unquote (length l) l; Some (JString (string_of s), r)).
Proof.
  intros j r. destruct (unquote (length l) l) as [[s l1]|] eqn:E; [|done].
  apply unquote_shrinks in E. intros [= _ <-]. simpl. lia.
Qed.
Lemma value_leaf f d c l :
  c ≠ "{"%char → c ≠ "["%char →
  value (S f) d (c :: l) = value 1 d (c :: l) ∧ leaf (c :: l) (value 1 d (c :: l)).
Proof.
  destruct c as [[] [] [] [] [] [] [] []]; try (intros H _; by destruct H);
    try (intros _ H; by destruct H); intros _ _; (split; [reflexivity|]);
    first [apply leaf_string | by apply (leaf_word (word "null"))
          | by apply (leaf_word (word "true")) | by apply (leaf_word (word "false"))
          | intros j r; apply number_shrinks].
Qed.

Lemma value_shrinks f :
  (∀ d l j r, value f d l = Some (j, r) → (length r < length l)%nat)
  ∧ (∀ d l xs r, elements f d l = Some (xs, r) → (length r < length l)%nat)
  ∧ (∀ d l kvs r, members f d l = Some (kvs, r) → (length r < length l)%nat).
Proof.
  induction f as [|f (IHv & IHe & IHm)]; [done|]. split_and!.
  - intros d [|c l] j r; [done|]. pose proof (skip_length l).
    destruct (decide (c = "{"%char)) as [->|Hb]; [|destruct (decide (c = "["%char)) as [->|Hs]].
    + simpl. destruct (_ <? _)%N; [done|].
      destruct (at_head "}" (skip l)) as [l1|] eqn:E;
        [apply at_head_length in E; intros [= _ <-]; lia|].
      destruct (members f (d + 1) (skip l)) as [[kvs l1]|] eqn:E1; [|done]. apply IHm in E1.
      intros [= _ <-]. lia.
    + simpl. destruct (_ <? _)%N; [done|].
      destruct (at_head "]" (skip l)) as [l1|] eqn:E;
        [apply at_head_length in E; intros [= _ <-]; lia|].
      destruct (elements f (d + 1) (skip l)) as [[xs l1]|] eqn:E1; [|done]. apply IHe in E1.
      intros [= _ <-]. lia.
    + destruct (value_leaf f d c l Hb Hs) as [-> Hl]. apply Hl.
  - intros d l xs r. simpl. destruct (value f d l) as [[x l1]|] eqn:E; [|done]. simpl.
    apply IHv in E. pose proof (skip_length l1).
    destruct (at_head "," (skip l1)) as [l2|] eqn:E2; [apply at_head_length in E2|].
    + pose proof (skip_length l2). destruct (elements f d (skip l2)) as [[ys l3]|] eqn:E3; [|done].
      apply IHe in E3. intros [= _ <-]. lia.
    + destruct (at_head "]" (skip l1)) as [l3|] eqn:E3; [|done]. apply at_head_length in E3.
      intros [= _ <-]. lia.
  - intros d l kvs r. simpl. destruct (at_head quotation l) as [l1|] eqn:E1; [|done]. simpl.
    destruct (unquote (length l1) l1) as [[k l2]|] eqn:E2; [|done]. simpl.
    destruct (at_head ":" (skip l2)) as [l3|] eqn:E3; [|done]. simpl.
    destruct (value f d (skip l3)) as [[x l4]|] eqn:E4; [|done]. simpl.
    apply at_head_length in E1, E3. apply unquote_shrinks in E2. apply IHv in E4.
    pose proof (skip_length l2). pose proof (skip_length l3). pose proof (skip_length l4).
    destruct (at_head "," (skip l4)) as [l5|] eqn:E5; [apply at_head_length in E5|].
    + pose proof (skip_length l5). destruct (members f d (skip l5)) as [[ys l6]|] eqn:E6; [|done].
      apply IHm in E6. intros [= _ <-]. lia.
    + destruct (at_head "}" (skip l4)) as [l6|] eqn:E6; [|done]. apply at_head_length in E6.
      intros [= _ <-]. lia.
Qed.

(** Twice the length is fuel enough: more changes nothing. *)
Lemma fuel_enough f :
  (∀ f' d l, (2 * length l ≤ f → 2 * length l ≤ f' → value f d l = value f' d l)%nat)
  ∧ (∀ f' d l, (2 * length l < f → 2 * length l < f' → elements f d l = elements f' d l)%nat)
  ∧ (∀ f' d l, (2 * length l < f → 2 * length l < f' → members f d l = members f' d l)%nat).
Proof.
  induction f as [|f (IHv & IHe & IHm)].
  { split_and!; intros f' d l Hf Hf'; [|lia..]. destruct l; simpl in Hf; [by destruct f'|lia]. }
  split_and!; intros [|f'] d l Hf Hf'; try lia.
  - destruct l; simpl in Hf'; [done|lia].
  - destruct l as [|c l]; [done|]. pose proof (skip_length l). simpl in Hf, Hf'.
    destruct (decide (c = "{"%char)) as [->|Hb]; [|destruct (decide (c = "["%char)) as [->|Hs]].
    + simpl. by rewrite (IHm f') by lia.
    + simpl. by rewrite (IHe f') by lia.
    + by rewrite (proj1 (value_leaf f d c l Hb Hs)), (proj1 (value_leaf f' d c l Hb Hs)).
  - simpl. rewrite (IHv f') by lia. destruct (value f' d l) as [[x l1]|] eqn:E; [|done].
    simpl. apply value_shrinks in E. pose proof (skip_length l1).
    destruct (at_head "," (skip l1)) as [l2|] eqn:E2; [|done]. apply at_head_length in E2.
    pose proof (skip_length l2). by rewrite (IHe f') by lia.
  - simpl. destruct (at_head quotation l) as [l1|] eqn:E1; [|done]. simpl.
    destruct (unquote (length l1) l1) as [[k l2]|] eqn:E2; [|done]. simpl.
    destruct (at_head ":" (skip l2)) as [l3|] eqn:E3; [|done]. simpl.
    apply at_head_length in E1, E3. apply unquote_shrinks in E2.
    pose proof (skip_length l2). pose proof (skip_length l3). rewrite (IHv f') by lia.
    destruct (value f' d (skip l3)) as [[x l4]|] eqn:E4; [|done]. simpl. apply value_shrinks in E4.
    pose proof (skip_length l4). destruct (at_head "," (skip l4)) as [l5|] eqn:E5; [|done].
    apply at_head_length in E5. pose proof (skip_length l5). by rewrite (IHm f') by lia.
Qed.
Lemma parse_text_fuel f l :
  (2 * length l ≤ f)%nat →
  parse_text l = '(j, r) ← value f 0 (skip l); match skip r with [] => Some j | _ => None end.
Proof.
  intros Hf. unfold parse_text. pose proof (skip_length l).
  by rewrite (proj1 (fuel_enough (2 * length l)) f) by lia.
Qed.
