(* ===== verification/Http.v ===== *)
(** * Http: methods and queries, as net/http and net/url give them

    [query_get_escaped]: a value a client escapes is the value the server's
    [r.URL.Query().Get] returns. *)
From S2P Require Import Prelude Text Json.
From stdpp Require Import base strings list.
From Stdlib Require Import ZArith Lia Ascii.
Open Scope Z_scope.

Inductive Method := GET | POST | PATCH | DELETE | OtherMethod.
#[export] Instance Method_eq_dec : EqDecision Method.
Proof. solve_decision. Defined.
Definition Method_text (m : Method) : string :=
  match m with GET => "GET" | POST => "POST" | PATCH => "PATCH" | DELETE => "DELETE" | OtherMethod => "" end.

(** ** Queries *)

Definition unreserved (c : ascii) : bool :=
  let n := nat_of_ascii c in
  ((48 <=? n) && (n <=? 57) || (65 <=? n) && (n <=? 90) || (97 <=? n) && (n <=? 122))%nat
  || bool_decide (c = "-"%char) || bool_decide (c = "_"%char) || bool_decide (c = "."%char) || bool_decide (c = "~"%char).
Definition hex_of (n : nat) : ascii := ascii_of_nat (if (n <? 10)%nat then 48 + n else 55 + n).
Definition of_hex (c : ascii) : option nat :=
  let n := nat_of_ascii c in
  if ((48 <=? n) && (n <=? 57))%nat then Some (n - 48)%nat
  else if ((65 <=? n) && (n <=? 70))%nat then Some (n - 55)%nat
  else if ((97 <=? n) && (n <=? 102))%nat then Some (n - 87)%nat
  else None.

(** [url.QueryEscape] and [url.QueryUnescape]. *)
Fixpoint QueryEscape (s : string) : string :=
  match s with
  | "" => ""
  | String c s =>
      if unreserved c then String c (QueryEscape s)
      else if decide (c = " "%char) then String "+"%char (QueryEscape s)
      else String "%"%char (String (hex_of (nat_of_ascii c / 16)) (String (hex_of (nat_of_ascii c mod 16))
             (QueryEscape s)))
  end.
Fixpoint QueryUnescape (s : string) : option string :=
  match s with
  | "" => Some ""
  | String c s =>
      if decide (c = "%"%char) then
        match s with
        | String h (String l s) =>
            h ← of_hex h; l ← of_hex l; String (ascii_of_nat (16 * h + l)) <$> QueryUnescape s
        | _ => None
        end
      else if decide (c = "+"%char) then String " "%char <$> QueryUnescape s
      else String c <$> QueryUnescape s
  end.
Lemma escape_char c :
  unreserved c = false → c ≠ " "%char →
  of_hex (hex_of (nat_of_ascii c / 16)) = Some (nat_of_ascii c / 16)%nat
  ∧ of_hex (hex_of (nat_of_ascii c mod 16)) = Some (nat_of_ascii c mod 16)%nat
  ∧ ascii_of_nat (16 * (nat_of_ascii c / 16) + nat_of_ascii c mod 16) = c.
Proof. destruct c as [[] [] [] [] [] [] [] []]; by vm_compute. Qed.
Lemma unreserved_plain c :
  unreserved c = true → c ≠ "%"%char ∧ c ≠ "+"%char ∧ c ≠ "&"%char ∧ c ≠ "="%char ∧ c ≠ ";"%char.
Proof. intros Hc. split_and!; intros ->; discriminate Hc. Qed.
Lemma unescape_escape s : QueryUnescape (QueryEscape s) = Some s.
Proof.
  induction s as [|c s IH]; [done|]. cbn [QueryEscape]. destruct (unreserved c) eqn:Hc.
  - destruct (unreserved_plain c Hc) as (? & ? & _). cbn [QueryUnescape].
    rewrite !decide_False by done. by rewrite IH.
  - destruct (decide (c = " "%char)) as [->|Hs]; [cbn [QueryUnescape]; by rewrite IH|].
    destruct (escape_char c Hc Hs) as (Hh & Hl & Hcc). cbn [QueryUnescape].
    rewrite decide_True, Hh by done. cbn [mbind option_bind]. rewrite Hl. cbn [mbind option_bind].
    rewrite IH. cbn [fmap option_fmap option_map]. by rewrite Hcc.
Qed.

(** [r.URL.Query().Get(key)]: the first well-formed pair of the key. *)
Definition query_pair (pair : string) : option (string * string) :=
  if decide (pair = "" ∨ ";"%char ∈ String.list_ascii_of_string pair) then None
  else let '(k, v) := cut_on "="%char pair in
       k ← QueryUnescape k; v ← QueryUnescape (default "" v); Some (k, v).
Definition query_get (key : string) (query : option string) : string :=
  match filter (λ kv, kv.1 = key) (omap query_pair (split_on "&"%char (default "" query))) with
  | kv :: _ => kv.2
  | [] => ""
  end.

(** An escaped text has none of the separators. *)
Lemma escaped_plain s :
  Forall (λ c, c ≠ "&"%char ∧ c ≠ "="%char ∧ c ≠ ";"%char ∧ c ≠ "?"%char) (String.list_ascii_of_string (QueryEscape s)).
Proof.
  assert (∀ n, (n < 16)%nat → let c := hex_of n in c ≠ "&"%char ∧ c ≠ "="%char ∧ c ≠ ";"%char ∧ c ≠ "?"%char) as Hhex.
  { intros n Hn. do 16 (destruct n as [|n]; [by vm_compute|]). lia. }
  induction s as [|c s IH]; [constructor|]. cbn [QueryEscape].
  destruct (unreserved c) eqn:Hc; [|destruct (decide (c = " "%char))].
  - constructor; [|done]. destruct (unreserved_plain c Hc) as (_ & _ & ? & ? & ?).
    split_and!; try done. intros ->. discriminate Hc.
  - by constructor.
  - assert (nat_of_ascii c < 256)%nat by apply nat_ascii_bounded.
    repeat constructor; try done; try (by apply Hhex; apply Nat.Div0.div_lt_upper_bound; lia);
      by apply Hhex; apply Nat.mod_upper_bound.
Qed.
(** A query of one escaped pair. *)
Lemma omap_escaped key v :
  Forall (λ c, c ≠ "&"%char ∧ c ≠ "="%char ∧ c ≠ ";"%char) (String.list_ascii_of_string key) →
  QueryUnescape key = Some key →
  omap query_pair (split_on "&"%char (key +:+ String "="%char (QueryEscape v))) = [(key, v)].
Proof.
  intros Hkey Hun.
  pose proof (escaped_plain v) as Hv.
  assert (String.list_ascii_of_string (key +:+ String "="%char (QueryEscape v))
          = (String.list_ascii_of_string key ++ "="%char :: String.list_ascii_of_string (QueryEscape v))%list) as Happ.
  { clear. induction key as [|c key IH]; [done|].
    change (c :: String.list_ascii_of_string (key +:+ String "="%char (QueryEscape v))
            = c :: (String.list_ascii_of_string key ++ "="%char :: String.list_ascii_of_string (QueryEscape v)))%list.
    by rewrite IH. }
  rewrite split_on_plain.
  2:{ rewrite Happ. apply Forall_app. split; [eapply Forall_impl; [exact Hkey|]; naive_solver|].
      constructor; [done|]. eapply Forall_impl; [exact Hv|]; naive_solver. }
  cbn [omap list_omap]. unfold query_pair. rewrite decide_False.
  2:{ rewrite Happ. intros [E|Hin]; [by destruct key|]. revert Hin. rewrite Forall_forall in Hkey, Hv.
      intros [?%Hkey|[[=]|?%Hv]%elem_of_cons]%elem_of_app; naive_solver. }
  rewrite cut_on_app by (eapply Forall_impl; [exact Hkey|]; naive_solver).
  cbn [cut_on]. rewrite decide_True, append_nil_r, Hun by done.
  cbn [mbind option_bind default from_option]. change (id (QueryEscape v)) with (QueryEscape v).
  rewrite unescape_escape. by cbn [mbind option_bind].
Qed.
(** What a client escapes is what the server gets; other keys are absent. *)
Lemma query_get_escaped key key' v :
  Forall (λ c, c ≠ "&"%char ∧ c ≠ "="%char ∧ c ≠ ";"%char) (String.list_ascii_of_string key) →
  QueryUnescape key = Some key →
  query_get key' (Some (key +:+ String "="%char (QueryEscape v))) = if decide (key = key') then v else "".
Proof.
  intros Hkey Hun. unfold query_get. simpl default. rewrite omap_escaped by done.
  rewrite filter_cons. simpl. by case_decide.
Qed.
