(* ===== verification/Schema.v ===== *)
(** * Schema: the row types and the database

    The Go structs of internal/db, one [Record] each (fields prefixed by the
    struct's name), the enum columns as inductive types with their text form,
    and the database as one table per CREATE TABLE of
    infrastructure/postgres/migrations. *)
From S2P Require Import Prelude Json.
From stdpp Require Import base gmap strings list.
From Stdlib Require Import ZArith.
Open Scope Z_scope.

(** ** Enumerations (typed strings in Go, enum types in Postgres) *)

(** A typed string with a closed set of constants: its text form and the
    partial inverse, with the law that the two agree. *)
Class TextEnum (A : Type) := {
  to_text : A → string;
  of_text : string → option A;
  of_to_text : ∀ a, of_text (to_text a) = Some a;
  to_of_text : ∀ s a, of_text s = Some a → to_text a = s }.

Arguments to_text : simpl never.
Arguments of_text : simpl never.

(** The inverse is looked up in the list of the constants. *)
Definition find_text {A} (f : A → string) (all : list A) (s : string) : option A :=
  snd <$> list_find (λ a, f a = s) all.

Lemma find_text_Some {A} (f : A → string) all s a : find_text f all s = Some a → f a = s.
Proof.
  unfold find_text. intros ((i & a') & Hf & ?)%fmap_Some; simplify_eq/=.
  by apply list_find_Some in Hf as (_ & ? & _).
Qed.

Lemma find_text_self {A} (f : A → string) all a :
  Inj (=) (=) f → a ∈ all → find_text f all (f a) = Some a.
Proof.
  intros Hinj Hin. unfold find_text.
  destruct (list_find_elem_of (λ b, f b = f a) all a Hin eq_refl) as [[i b] Hb].
  rewrite Hb. apply list_find_Some in Hb as (_ & Hb & _). simpl. by f_equal; apply Hinj.
Qed.

Ltac text_enum f all :=
  refine {| to_text := f; of_text := find_text f all;
            to_of_text := find_text_Some f all |};
  intros []; reflexivity.

Inductive MembershipRole :=
  MembershipRoleOwner | MembershipRoleAdmin | MembershipRoleDeveloper | MembershipRoleViewer.
Inductive ContainerStatus :=
  ContainerStatusPending | ContainerStatusRunning | ContainerStatusCrashed | ContainerStatusStopped.
Inductive NodeStatus := NodeStatusHealthy | NodeStatusDegraded | NodeStatusUnreachable.
Inductive DeploymentStatus :=
  DeploymentStatusPending | DeploymentStatusScheduling | DeploymentStatusRunning
| DeploymentStatusFailed | DeploymentStatusRolledBack.
Inductive BuildStatus :=
  BuildStatusPending | BuildStatusCloning | BuildStatusBuilding | BuildStatusPushing
| BuildStatusSucceeded | BuildStatusFailed.
Inductive DomainTLSStatus := DomainTLSStatusPending | DomainTLSStatusActive | DomainTLSStatusFailed.

#[export] Instance MembershipRole_eq_dec : EqDecision MembershipRole.
Proof. solve_decision. Defined.
#[export] Instance ContainerStatus_eq_dec : EqDecision ContainerStatus.
Proof. solve_decision. Defined.
#[export] Instance NodeStatus_eq_dec : EqDecision NodeStatus.
Proof. solve_decision. Defined.
#[export] Instance DeploymentStatus_eq_dec : EqDecision DeploymentStatus.
Proof. solve_decision. Defined.
#[export] Instance BuildStatus_eq_dec : EqDecision BuildStatus.
Proof. solve_decision. Defined.
#[export] Instance DomainTLSStatus_eq_dec : EqDecision DomainTLSStatus.
Proof. solve_decision. Defined.

Definition MembershipRole_text (r : MembershipRole) : string :=
  match r with
  | MembershipRoleOwner => "owner" | MembershipRoleAdmin => "admin"
  | MembershipRoleDeveloper => "developer" | MembershipRoleViewer => "viewer"
  end.
Definition ContainerStatus_text (s : ContainerStatus) : string :=
  match s with
  | ContainerStatusPending => "pending" | ContainerStatusRunning => "running"
  | ContainerStatusCrashed => "crashed" | ContainerStatusStopped => "stopped"
  end.
Definition NodeStatus_text (s : NodeStatus) : string :=
  match s with
  | NodeStatusHealthy => "healthy" | NodeStatusDegraded => "degraded"
  | NodeStatusUnreachable => "unreachable"
  end.
Definition DeploymentStatus_text (s : DeploymentStatus) : string :=
  match s with
  | DeploymentStatusPending => "pending" | DeploymentStatusScheduling => "scheduling"
  | DeploymentStatusRunning => "running" | DeploymentStatusFailed => "failed"
  | DeploymentStatusRolledBack => "rolled_back"
  end.
Definition BuildStatus_text (s : BuildStatus) : string :=
  match s with
  | BuildStatusPending => "pending" | BuildStatusCloning => "cloning"
  | BuildStatusBuilding => "building" | BuildStatusPushing => "pushing"
  | BuildStatusSucceeded => "succeeded" | BuildStatusFailed => "failed"
  end.
Definition DomainTLSStatus_text (s : DomainTLSStatus) : string :=
  match s with
  | DomainTLSStatusPending => "pending" | DomainTLSStatusActive => "active"
  | DomainTLSStatusFailed => "failed"
  end.

#[export] Instance MembershipRole_TextEnum : TextEnum MembershipRole.
Proof.
  text_enum MembershipRole_text
    [MembershipRoleOwner; MembershipRoleAdmin; MembershipRoleDeveloper; MembershipRoleViewer].
Defined.
#[export] Instance ContainerStatus_TextEnum : TextEnum ContainerStatus.
Proof.
  text_enum ContainerStatus_text
    [ContainerStatusPending; ContainerStatusRunning; ContainerStatusCrashed; ContainerStatusStopped].
Defined.
#[export] Instance NodeStatus_TextEnum : TextEnum NodeStatus.
Proof.
  text_enum NodeStatus_text
    [NodeStatusHealthy; NodeStatusDegraded; NodeStatusUnreachable].
Defined.
#[export] Instance DeploymentStatus_TextEnum : TextEnum DeploymentStatus.
Proof.
  text_enum DeploymentStatus_text
    [DeploymentStatusPending; DeploymentStatusScheduling; DeploymentStatusRunning; DeploymentStatusFailed; DeploymentStatusRolledBack].
Defined.
#[export] Instance BuildStatus_TextEnum : TextEnum BuildStatus.
Proof.
  text_enum BuildStatus_text
    [BuildStatusPending; BuildStatusCloning; BuildStatusBuilding; BuildStatusPushing; BuildStatusSucceeded; BuildStatusFailed].
Defined.
#[export] Instance DomainTLSStatus_TextEnum : TextEnum DomainTLSStatus.
Proof.
  text_enum DomainTLSStatus_text
    [DomainTLSStatusPending; DomainTLSStatusActive; DomainTLSStatusFailed].
Defined.

(** ** Rows *)

Record PortSpec := {
  PortSpec_ContainerPort : Z; PortSpec_HostPort : Z; PortSpec_Protocol : string }.

Record Organization := {
  Organization_ID : uuid; Organization_Name : string; Organization_Slug : string;
  Organization_CreatedAt : time }.

Record User := {
  User_ID : uuid; User_Email : string; User_PasswordHash : string; User_CreatedAt : time }.

Record Membership := {
  Membership_ID : uuid; Membership_OrgID : uuid; Membership_UserID : uuid;
  Membership_Role : MembershipRole; Membership_CreatedAt : time }.

(** The table's row: the Go struct [APIKey] and the [key_hash] column it omits. *)
Record APIKey := {
  APIKey_ID : uuid; APIKey_OrgID : uuid; APIKey_Name : string; APIKey_Scopes : list string;
  APIKey_CreatedBy : uuid; APIKey_CreatedAt : time; APIKey_RevokedAt : option time }.
Record APIKeyRow := { APIKeyRow_key : APIKey; APIKeyRow_KeyHash : string }.

Record Project := {
  Project_ID : uuid; Project_OrgID : uuid; Project_Name : string; Project_Slug : string;
  Project_CreatedAt : time }.

Record Application := {
  Application_ID : uuid; Application_OrgID : uuid; Application_ProjectID : uuid;
  Application_Name : string; Application_Image : string; Application_ReplicasDesired : Z;
  Application_CPUMillicores : Z; Application_MemoryMB : Z; Application_Ports : list PortSpec;
  Application_HealthCheckPath : option string;
  Application_CreatedAt : time; Application_UpdatedAt : time }.

Record Deployment := {
  Deployment_ID : uuid; Deployment_OrgID : uuid; Deployment_ApplicationID : uuid;
  Deployment_Image : string; Deployment_Revision : Z; Deployment_Status : DeploymentStatus;
  Deployment_Strategy : string; Deployment_WorkerContainerID : option string;
  Deployment_CreatedBy : uuid; Deployment_CreatedAt : time;
  Deployment_CompletedAt : option time }.

Record RefreshToken := {
  RefreshToken_ID : uuid; RefreshToken_UserID : uuid; RefreshToken_TokenHash : string;
  RefreshToken_CreatedAt : time; RefreshToken_ExpiresAt : time;
  RefreshToken_RevokedAt : option time; RefreshToken_ReplacedByID : option uuid }.

Record Node := {
  Node_ID : uuid; Node_Hostname : string; Node_IP : string;
  Node_CPUCapacityMillicores : Z; Node_MemoryCapacityMB : Z; Node_Status : NodeStatus;
  Node_LastHeartbeatAt : time; Node_Labels : gmap string string; Node_CreatedAt : time }.

Record Container := {
  Container_ID : uuid; Container_DeploymentID : uuid; Container_NodeID : uuid;
  Container_ContainerRuntimeID : option string; Container_Status : ContainerStatus;
  Container_RestartCount : Z; Container_StartedAt : option time;
  Container_StoppedAt : option time }.

Record Service := {
  Service_ID : uuid; Service_ApplicationID : uuid; Service_DNSName : string;
  Service_CreatedAt : time }.

Record ServiceInstance := {
  ServiceInstance_ID : uuid; ServiceInstance_ServiceID : uuid;
  ServiceInstance_ContainerID : uuid; ServiceInstance_IP : string;
  ServiceInstance_Port : Z; ServiceInstance_Healthy : bool;
  ServiceInstance_LastSeenAt : time }.

Record Domain := {
  Domain_ID : uuid; Domain_OrgID : uuid; Domain_ProjectID : uuid;
  Domain_ApplicationID : uuid; Domain_Hostname : string;
  Domain_TLSStatus : DomainTLSStatus; Domain_CreatedAt : time }.

Record ResourceQuota := {
  ResourceQuota_OrgID : uuid; ResourceQuota_MaxCPUMillicores : Z;
  ResourceQuota_MaxMemoryMB : Z; ResourceQuota_MaxContainers : Z;
  ResourceQuota_MaxProjects : Z; ResourceQuota_MaxDeploymentsPerDay : Z;
  ResourceQuota_CreatedAt : time }.

Record AuditLogEntry := {
  AuditLogEntry_ID : uuid; AuditLogEntry_OrgID : uuid;
  AuditLogEntry_ActorUserID : option uuid; AuditLogEntry_Action : string;
  AuditLogEntry_TargetType : string; AuditLogEntry_TargetID : uuid;
  AuditLogEntry_Metadata : option json; AuditLogEntry_CreatedAt : time }.

Record Build := {
  Build_ID : uuid; Build_OrgID : uuid; Build_ApplicationID : uuid; Build_GitURL : string;
  Build_GitRef : string; Build_CommitSHA : option string; Build_Status : BuildStatus;
  Build_Image : option string; Build_ErrorMessage : option string; Build_CreatedBy : uuid;
  Build_CreatedAt : time; Build_CompletedAt : option time }.

(** ** The database *)
Record DB := mkDB {
  organizations : table Organization;
  users : table User;
  memberships : table Membership;
  api_keys : table APIKeyRow;
  projects : table Project;
  applications : table Application;
  deployments : table Deployment;
  refresh_tokens : table RefreshToken;
  nodes : table Node;
  containers : table Container;
  services : table Service;
  service_instances : table ServiceInstance;
  domains : table Domain;
  resource_quotas : table ResourceQuota;
  audit_logs : table AuditLogEntry;
  builds : table Build }.

Definition emptyDB : DB :=
  mkDB ∅ ∅ ∅ ∅ ∅ ∅ ∅ ∅ ∅ ∅ ∅ ∅ ∅ ∅ ∅ ∅.

Definition set_organizations (t : table Organization) (d : DB) : DB :=
  mkDB t d.(users) d.(memberships) d.(api_keys) d.(projects) d.(applications) d.(deployments) d.(refresh_tokens) d.(nodes) d.(containers) d.(services) d.(service_instances) d.(domains) d.(resource_quotas) d.(audit_logs) d.(builds).
Definition set_users (t : table User) (d : DB) : DB :=
  mkDB d.(organizations) t d.(memberships) d.(api_keys) d.(projects) d.(applications) d.(deployments) d.(refresh_tokens) d.(nodes) d.(containers) d.(services) d.(service_instances) d.(domains) d.(resource_quotas) d.(audit_logs) d.(builds).
Definition set_memberships (t : table Membership) (d : DB) : DB :=
  mkDB d.(organizations) d.(users) t d.(api_keys) d.(projects) d.(applications) d.(deployments) d.(refresh_tokens) d.(nodes) d.(containers) d.(services) d.(service_instances) d.(domains) d.(resource_quotas) d.(audit_logs) d.(builds).
Definition set_api_keys (t : table APIKeyRow) (d : DB) : DB :=
  mkDB d.(organizations) d.(users) d.(memberships) t d.(projects) d.(applications) d.(deployments) d.(refresh_tokens) d.(nodes) d.(containers) d.(services) d.(service_instances) d.(domains) d.(resource_quotas) d.(audit_logs) d.(builds).
Definition set_projects (t : table Project) (d : DB) : DB :=
  mkDB d.(organizations) d.(users) d.(memberships) d.(api_keys) t d.(applications) d.(deployments) d.(refresh_tokens) d.(nodes) d.(containers) d.(services) d.(service_instances) d.(domains) d.(resource_quotas) d.(audit_logs) d.(builds).
Definition set_applications (t : table Application) (d : DB) : DB :=
  mkDB d.(organizations) d.(users) d.(memberships) d.(api_keys) d.(projects) t d.(deployments) d.(refresh_tokens) d.(nodes) d.(containers) d.(services) d.(service_instances) d.(domains) d.(resource_quotas) d.(audit_logs) d.(builds).
Definition set_deployments (t : table Deployment) (d : DB) : DB :=
  mkDB d.(organizations) d.(users) d.(memberships) d.(api_keys) d.(projects) d.(applications) t d.(refresh_tokens) d.(nodes) d.(containers) d.(services) d.(service_instances) d.(domains) d.(resource_quotas) d.(audit_logs) d.(builds).
Definition set_refresh_tokens (t : table RefreshToken) (d : DB) : DB :=
  mkDB d.(organizations) d.(users) d.(memberships) d.(api_keys) d.(projects) d.(applications) d.(deployments) t d.(nodes) d.(containers) d.(services) d.(service_instances) d.(domains) d.(resource_quotas) d.(audit_logs) d.(builds).
Definition set_nodes (t : table Node) (d : DB) : DB :=
  mkDB d.(organizations) d.(users) d.(memberships) d.(api_keys) d.(projects) d.(applications) d.(deployments) d.(refresh_tokens) t d.(containers) d.(services) d.(service_instances) d.(domains) d.(resource_quotas) d.(audit_logs) d.(builds).
Definition set_containers (t : table Container) (d : DB) : DB :=
  mkDB d.(organizations) d.(users) d.(memberships) d.(api_keys) d.(projects) d.(applications) d.(deployments) d.(refresh_tokens) d.(nodes) t d.(services) d.(service_instances) d.(domains) d.(resource_quotas) d.(audit_logs) d.(builds).
Definition set_services (t : table Service) (d : DB) : DB :=
  mkDB d.(organizations) d.(users) d.(memberships) d.(api_keys) d.(projects) d.(applications) d.(deployments) d.(refresh_tokens) d.(nodes) d.(containers) t d.(service_instances) d.(domains) d.(resource_quotas) d.(audit_logs) d.(builds).
Definition set_service_instances (t : table ServiceInstance) (d : DB) : DB :=
  mkDB d.(organizations) d.(users) d.(memberships) d.(api_keys) d.(projects) d.(applications) d.(deployments) d.(refresh_tokens) d.(nodes) d.(containers) d.(services) t d.(domains) d.(resource_quotas) d.(audit_logs) d.(builds).
Definition set_domains (t : table Domain) (d : DB) : DB :=
  mkDB d.(organizations) d.(users) d.(memberships) d.(api_keys) d.(projects) d.(applications) d.(deployments) d.(refresh_tokens) d.(nodes) d.(containers) d.(services) d.(service_instances) t d.(resource_quotas) d.(audit_logs) d.(builds).
Definition set_resource_quotas (t : table ResourceQuota) (d : DB) : DB :=
  mkDB d.(organizations) d.(users) d.(memberships) d.(api_keys) d.(projects) d.(applications) d.(deployments) d.(refresh_tokens) d.(nodes) d.(containers) d.(services) d.(service_instances) d.(domains) t d.(audit_logs) d.(builds).
Definition set_audit_logs (t : table AuditLogEntry) (d : DB) : DB :=
  mkDB d.(organizations) d.(users) d.(memberships) d.(api_keys) d.(projects) d.(applications) d.(deployments) d.(refresh_tokens) d.(nodes) d.(containers) d.(services) d.(service_instances) d.(domains) d.(resource_quotas) t d.(builds).
Definition set_builds (t : table Build) (d : DB) : DB :=
  mkDB d.(organizations) d.(users) d.(memberships) d.(api_keys) d.(projects) d.(applications) d.(deployments) d.(refresh_tokens) d.(nodes) d.(containers) d.(services) d.(service_instances) d.(domains) d.(resource_quotas) d.(audit_logs) t.
