(* ===== verification/Effects.v ===== *)
(** * Effects: errors, the world a request runs in, the monad of the services

    A Go function [func(ctx, ...) (T, error)] is a computation [M T]: it reads
    and writes the [World] (the database, the session variables of the current
    transaction, the clock, the messages sent so far) and gives a value or an
    error; what it did before an error stays done, as in Go.  Every call that
    leaves the process asks the [w_faults] oracle whether it fails, so that
    every error branch of the source is a branch of the model. *)
From S2P Require Import Prelude Json Schema.
From stdpp Require Import base gmap strings list.
From Stdlib Require Import ZArith Lia.
Open Scope Z_scope.

(** ** Errors *)

(** Sentinel errors of internal/db, [pgx.ErrNoRows], a [*pgconn.PgError] by
    its code, an API error (handlers), an error of another package by its
    text, and [fmt.Errorf("prefix: %w", cause)]. *)
Inductive error :=
| ErrNotFound
| ErrConflict
| ErrNoRows
| PgError (code : string)
| APIError (status : Z) (code message : string)
| Opaque (msg : string)
| Errorf (prefix : string) (cause : error).

#[export] Instance error_eq_dec : EqDecision error.
Proof. solve_decision. Defined.

(** [errors.Is(err, target)] and [errors.As(err, &pgErr)] look through the
    wrapping. *)
Fixpoint errors_Is (e target : error) : bool :=
  if decide (e = target) then true
  else match e with Errorf _ c => errors_Is c target | _ => false end.
Fixpoint errors_As_PgError (e : error) : option string :=
  match e with PgError c => Some c | Errorf _ c => errors_As_PgError c | _ => None end.

Definition pgUniqueViolation : string := "23505".
Definition pgForeignKeyViolation : string := "23503".
Definition pgCheckViolation : string := "23514".
Definition pgInsufficientPrivilege : string := "42501".
Definition pgNumericOutOfRange : string := "22003".

(** internal/db/errors.go *)
Definition isUniqueViolation (e : error) : bool :=
  bool_decide (errors_As_PgError e = Some pgUniqueViolation).

(** ** Results *)

Inductive Res (A : Type) := Ok (a : A) | Err (e : error).
Arguments Ok {A} a.
Arguments Err {A} e.

(** ** The world *)

(** [app.current_user_id] and [app.current_org_id]. *)
Record Session := mkSession {
  app_current_user_id : option uuid; app_current_org_id : option uuid }.
Definition noSession : Session := mkSession None None.

(** What the process tells the outside, in order. *)
Inductive Event :=
| EvPublish (subject : string) (payload : json)
| EvPublishDurable (subject : string) (payload : json)
| EvLog (msg : string).

Record World := mkWorld {
  w_db : DB; w_sess : Session; w_now : time; w_gen : uuid;
  w_faults : list (option string); w_trace : list Event }.

Definition set_db (d : DB) (w : World) : World :=
  mkWorld d w.(w_sess) w.(w_now) w.(w_gen) w.(w_faults) w.(w_trace).
Definition set_sess (s : Session) (w : World) : World :=
  mkWorld w.(w_db) s w.(w_now) w.(w_gen) w.(w_faults) w.(w_trace).
Definition set_gen (g : uuid) (w : World) : World :=
  mkWorld w.(w_db) w.(w_sess) w.(w_now) g w.(w_faults) w.(w_trace).
Definition set_faults (f : list (option string)) (w : World) : World :=
  mkWorld w.(w_db) w.(w_sess) w.(w_now) w.(w_gen) f w.(w_trace).
Definition add_event (e : Event) (w : World) : World :=
  mkWorld w.(w_db) w.(w_sess) w.(w_now) w.(w_gen) w.(w_faults) (w.(w_trace) ++ [e]).

(** ** The monad *)

Definition M (A : Type) : Type := World → Res A * World.

#[export] Instance M_ret : MRet M := λ A a w, (Ok a, w).
#[export] Instance M_bind : MBind M := λ A B k m w,
  match m w with (Ok a, w') => k a w' | (Err e, w') => (Err e, w') end.
#[export] Instance M_fmap : FMap M := λ A B f m, a ← m; mret (f a).

Definition fail {A} (e : error) : M A := λ w, (Err e, w).
(** [x, err := m]: the error is a value for the caller to look at. *)
Definition try {A} (m : M A) : M (Res A) := λ w, let '(r, w') := m w in (Ok r, w').
(** [if err != nil { return h(err) }] *)
Definition catch {A} (m : M A) (h : error → M A) : M A := λ w,
  match m w with (Ok a, w') => (Ok a, w') | (Err e, w') => h e w' end.
(** [return fmt.Errorf("prefix: %w", err)] *)
Definition wrap {A} (prefix : string) (m : M A) : M A := catch m (λ e, fail (Errorf prefix e)).
(** [_ = m]: the error is dropped. *)
Definition ignore {A} (m : M A) : M unit := λ w, (Ok tt, (m w).2).
Definition gets {A} (f : World → A) : M A := λ w, (Ok (f w), w).
Definition lift {A} (r : Res A) : M A := λ w, (r, w).

(** The loop [for _, x := range l { ... }]: a body that fails ends it. *)
Fixpoint forM {A} (f : A → M unit) (l : list A) : M unit :=
  match l with [] => mret tt | x :: l => f x ;; forM f l end.

(** ** Calls that leave the process *)

(** Does the next outgoing call fail? *)
Definition external : M unit := λ w,
  match w.(w_faults) with
  | [] => (Ok tt, w)
  | None :: fs => (Ok tt, set_faults fs w)
  | Some msg :: fs => (Err (Opaque msg), set_faults fs w)
  end.

(** [time.Now()] / [now()] *)
Definition now : M time := gets w_now.
Definition emit (e : Event) : M unit := λ w, (Ok tt, add_event e w).
Definition logf (msg : string) : M unit := emit (EvLog msg).

(** ** SQL statements *)

(** The connection a repository was built over (internal/db/conn.go): the
    bare pool (no session variables: every row under row-level security is
    hidden), the request's transaction, or the superuser connection of the
    control plane (no row-level security). *)
Inductive Conn := PoolConn | TxConn | AdminConn.

Record StmtEnv := mkStmtEnv {
  s_sess : Session; s_bypass : bool; s_now : time; s_gen : uuid }.

Definition stmt_env (c : Conn) (w : World) : StmtEnv :=
  mkStmtEnv (match c with TxConn => w.(w_sess) | _ => noSession end)
            (match c with AdminConn => true | _ => false end) w.(w_now) w.(w_gen).

(** A statement sees the session and the database and either fails, changing
    nothing, or gives its result and the database after it.  [s_gen] is what
    [gen_random_uuid()] gives it. *)
Definition Stmt (A : Type) : Type := StmtEnv → DB → Res (A * DB).

Definition execute {A} (c : Conn) (st : Stmt A) : M A := λ w,
  let w' := set_gen (N.succ w.(w_gen)) w in
  match st (stmt_env c w) w.(w_db) with
  | Ok (a, d) => (Ok a, set_db d w')
  | Err e => (Err e, w')
  end.
Definition run_stmt {A} (c : Conn) (st : Stmt A) : M A :=
  external ;; execute c st.

(** A query: a statement that changes nothing. *)
Definition query {A} (q : StmtEnv → DB → A) : Stmt A := λ s d, Ok (q s d, d).
(** [QueryRow]: the first row, or [pgx.ErrNoRows]. *)
Definition query_row {A} (q : StmtEnv → DB → list A) : Stmt A := λ s d,
  match q s d with x :: _ => Ok (x, d) | [] => Err ErrNoRows end.

(** ** Transactions (internal/db/conn.go) *)

Definition set_session (f : Session → Session) : M unit := λ w,
  (Ok tt, set_sess (f w.(w_sess)) w).

Definition SetCurrentUser (userID : uuid) : M unit :=
  wrap "setting app.current_user_id" (
    external ;;
    set_session (λ s, mkSession (Some userID) s.(app_current_org_id))).

Definition SetCurrentOrg (orgID : uuid) : M unit :=
  wrap "setting app.current_org_id" (
    external ;;
    set_session (λ s, mkSession s.(app_current_user_id) (Some orgID))).

(** The transaction's end: [Commit], or the deferred [Rollback], which puts
    the database back; the session variables were local to the transaction. *)
Definition in_tx {A} (body : M A) : M A := λ w,
  match body (set_sess noSession w) with
  | (Ok a, w') => (Ok a, set_sess w.(w_sess) w')
  | (Err e, w') => (Err e, set_sess w.(w_sess) (set_db w.(w_db) w'))
  end.

Definition WithTx {A} (userID orgID : uuid) (fn : M A) : M A :=
  wrap "beginning transaction" external ;;
  in_tx (
    (if decide (userID = Nil) then mret tt else SetCurrentUser userID) ;;
    (if decide (orgID = Nil) then mret tt else SetCurrentOrg orgID) ;;
    a ← fn;
    wrap "committing transaction" external ;;
    mret a).

(** ** The event bus (internal/eventbus: [EventBus], its NATS adapter) *)

Definition Publish (subject : string) (payload : json) : M unit :=
  wrap ("publishing to " +:+ subject) (
    external ;; emit (EvPublish subject payload)).

Definition PublishDurable (subject : string) (payload : json) : M unit :=
  wrap ("publishing durably to " +:+ subject) (
    external ;; emit (EvPublishDurable subject payload)).

(** ** Reasoning: what a computation does to the database

    [moves R m]: whatever [m] returns, the database after it is [R]-related to
    the one before.  For a preorder [R] this is closed under the monad's
    operations; a transaction only needs its body to move along [R], because a
    rolled-back body leaves the database where it was. *)
Definition moves {A} (R : DB → DB → Prop) (m : M A) : Prop :=
  ∀ w, R w.(w_db) (m w).2.(w_db).

(** The relation of an invariant. *)
Definition keeping (I : DB → Prop) (d d' : DB) : Prop := I d → I d'.
#[export] Instance keeping_preorder I : PreOrder (keeping I).
Proof. unfold keeping. split; [intros d; auto | intros d1 d2 d3; auto]. Qed.

Section moves.
Context (R : DB → DB → Prop) `{!PreOrder R}.

Lemma moves_ret {A} (a : A) : moves R (mret a).
Proof. intros w. simpl. reflexivity. Qed.
Lemma moves_fail {A} e : moves R (@fail A e).
Proof. intros w. simpl. reflexivity. Qed.
Lemma moves_lift {A} (r : Res A) : moves R (lift r).
Proof. intros w. simpl. reflexivity. Qed.
Lemma moves_gets {A} (f : World → A) : moves R (gets f).
Proof. intros w. simpl. reflexivity. Qed.
Lemma moves_now : moves R now.
Proof. apply moves_gets. Qed.
Lemma moves_emit e : moves R (emit e).
Proof. intros w. simpl. reflexivity. Qed.
Lemma moves_logf msg : moves R (logf msg).
Proof. apply moves_emit. Qed.
Lemma moves_set_session f : moves R (set_session f).
Proof. intros w. simpl. reflexivity. Qed.
Lemma moves_external : moves R external.
Proof. intros w. unfold external. destruct (w_faults w) as [|[?|] ?]; simpl; reflexivity. Qed.
Lemma moves_bind {A B} (m : M A) (k : A → M B) :
  moves R m → (∀ a, moves R (k a)) → moves R (m ≫= k).
Proof.
  intros Hm Hk w. unfold mbind, M_bind. specialize (Hm w).
  destruct (m w) as [[a|e] w'] eqn:E; simpl in *; [|done].
  transitivity (w_db w'); [done | apply Hk].
Qed.
Lemma moves_fmap {A B} (f : A → B) (m : M A) : moves R m → moves R (f <$> m).
Proof. intros Hm. apply moves_bind; [done|]. intros. apply moves_ret. Qed.
Lemma moves_try {A} (m : M A) : moves R m → moves R (try m).
Proof. intros Hm w. unfold try. specialize (Hm w). by destruct (m w). Qed.
Lemma moves_ignore {A} (m : M A) : moves R m → moves R (ignore m).
Proof. intros Hm w. apply Hm. Qed.
Lemma moves_catch {A} (m : M A) h :
  moves R m → (∀ e, moves R (h e)) → moves R (catch m h).
Proof.
  intros Hm Hh w. unfold catch. specialize (Hm w).
  destruct (m w) as [[a|e] w'] eqn:E; simpl in *; [done|].
  transitivity (w_db w'); [done | apply Hh].
Qed.
Lemma moves_wrap {A} p (m : M A) : moves R m → moves R (wrap p m).
Proof. intros Hm. apply moves_catch; [done|]. intros. apply moves_fail. Qed.
Lemma moves_forM {A} (f : A → M unit) l : (∀ x, moves R (f x)) → moves R (forM f l).
Proof.
  intros Hf. induction l as [|x l IH]; simpl; [apply moves_ret|].
  by apply moves_bind.
Qed.
Lemma moves_SetCurrentUser u : moves R (SetCurrentUser u).
Proof.
  apply moves_wrap, moves_bind; [apply moves_external | intros; apply moves_set_session].
Qed.
Lemma moves_SetCurrentOrg u : moves R (SetCurrentOrg u).
Proof.
  apply moves_wrap, moves_bind; [apply moves_external | intros; apply moves_set_session].
Qed.
Lemma moves_Publish s p : moves R (Publish s p).
Proof. apply moves_wrap, moves_bind; [apply moves_external | intros; apply moves_emit]. Qed.
Lemma moves_PublishDurable s p : moves R (PublishDurable s p).
Proof. apply moves_wrap, moves_bind; [apply moves_external | intros; apply moves_emit]. Qed.

(** A statement: it suffices that every outcome it can have is along [R]. *)
Lemma moves_run_stmt {A} c (st : Stmt A) :
  (∀ s d a d', st s d = Ok (a, d') → R d d') → moves R (run_stmt c st).
Proof.
  intros Hst. apply moves_bind; [apply moves_external|]. intros _ w. unfold execute.
  destruct (st (stmt_env c w) (w_db w)) as [[a d]|e] eqn:E; simpl;
    [by eapply Hst | reflexivity].
Qed.
Lemma moves_in_tx {A} (m : M A) : moves R m → moves R (in_tx m).
Proof.
  intros Hm w. unfold in_tx. specialize (Hm (set_sess noSession w)).
  destruct (m (set_sess noSession w)) as [[a|e] w'] eqn:E; simpl in *;
    [done | reflexivity].
Qed.
Lemma moves_WithTx {A} u o (fn : M A) : moves R fn → moves R (WithTx u o fn).
Proof.
  intros Hfn. apply moves_bind; [apply moves_wrap, moves_external|]. intros _.
  apply moves_in_tx.
  apply moves_bind; [case_decide; [apply moves_ret | apply moves_SetCurrentUser]|]. intros _.
  apply moves_bind; [case_decide; [apply moves_ret | apply moves_SetCurrentOrg]|]. intros _.
  apply moves_bind; [done|]. intros a.
  apply moves_bind; [apply moves_wrap, moves_external|]. intros _. apply moves_ret.
Qed.
End moves.

Lemma query_id {A} (q : StmtEnv → DB → A) s d a d' : query q s d = Ok (a, d') → d = d'.
Proof. unfold query. by intros [=]. Qed.
Lemma query_row_id {A} (q : StmtEnv → DB → list A) s d a d' :
  query_row q s d = Ok (a, d') → d = d'.
Proof. unfold query_row. destruct (q s d); by intros [=]. Qed.

Lemma moves_query (R : DB → DB → Prop) `{!PreOrder R} {A} c (q : StmtEnv → DB → A) :
  moves R (run_stmt c (query q)).
Proof. apply moves_run_stmt; [done|]. intros s d a d' ->%query_id. reflexivity. Qed.
Lemma moves_query_row (R : DB → DB → Prop) `{!PreOrder R} {A} c (q : StmtEnv → DB → list A) :
  moves R (run_stmt c (query_row q)).
Proof. apply moves_run_stmt; [done|]. intros s d a d' ->%query_row_id. reflexivity. Qed.

Create HintDb moves.
Create HintDb effects.
#[export] Hint Resolve moves_ret moves_fail moves_lift moves_gets moves_now moves_emit moves_logf
  moves_set_session moves_external moves_try moves_ignore moves_wrap moves_SetCurrentUser
  moves_SetCurrentOrg moves_Publish moves_PublishDurable moves_in_tx moves_WithTx
  moves_query moves_query_row : moves.

(** Decomposes a [moves] goal along the code, down to the statements that
    write. *)
Ltac moves_step :=
  match goal with
  | |- moves _ (mbind _ _) => apply moves_bind; [try apply _ | | intros ?]
  | |- moves _ (catch _ _) => apply moves_catch; [try apply _ | | intros ?]
  | |- moves _ (fmap _ _) => apply moves_fmap; [try apply _ | ]
  | |- moves _ (forM _ _) => apply moves_forM; [try apply _ | intros ?]
  | |- moves _ (match ?x with _ => _ end) => destruct x
  | |- moves _ _ => solve [eauto 4 with moves typeclass_instances]
  | |- PreOrder _ => apply _
  | |- moves _ (wrap _ _) => apply moves_wrap; [try apply _ | ]
  | |- moves _ (try _) => apply moves_try
  | |- moves _ (ignore _) => apply moves_ignore
  | |- moves _ (WithTx _ _ _) => apply moves_WithTx; [try apply _ | ]
  | |- moves _ (in_tx _) => apply moves_in_tx; [try apply _ | ]
  end.
Ltac moves_auto := repeat moves_step.

(** ** Reasoning: computations that only look

    [observes m q]: [m] changes nothing anyone can see (database, session,
    clock, messages), and a value it returns satisfies [q] in the state it
    looked at. *)
Record Env := mkEnv { e_db : DB; e_sess : Session; e_now : time }.
Definition env_of (w : World) : Env := mkEnv w.(w_db) w.(w_sess) w.(w_now).
Definition same (w w' : World) : Prop := env_of w' = env_of w ∧ w'.(w_trace) = w.(w_trace).

#[export] Instance same_preorder : PreOrder same.
Proof. unfold same. split; [done|]. intros w1 w2 w3 [? ?] [? ?]. split; congruence. Qed.

Definition observes {A} (m : M A) (q : Env → A → Prop) : Prop :=
  ∀ w, same w (m w).2 ∧ ∀ a, (m w).1 = Ok a → q (env_of w) a.

Section observes.
Lemma observes_mono {A} (m : M A) q1 q2 :
  observes m q1 → (∀ e a, q1 e a → q2 e a) → observes m q2.
Proof. intros Hm Hq w. destruct (Hm w) as [? Hr]. split; auto. Qed.
Lemma observes_ret {A} (a : A) : observes (mret a) (λ _ b, b = a).
Proof. intros w. split; [done|]. by intros b [=]. Qed.
Lemma observes_fail {A} e : observes (@fail A e) (λ _ _, False).
Proof. intros w. split; [done|]. by intros b [=]. Qed.
Lemma observes_now : observes now (λ e t, t = e.(e_now)).
Proof. intros w. split; [done|]. by intros b [=]. Qed.
Lemma observes_external : observes external (λ _ _, True).
Proof.
  intros w. unfold external. destruct (w_faults w) as [|[?|] ?]; done.
Qed.
Lemma observes_bind {A B} (m : M A) (k : A → M B) q1 q2 :
  observes m q1 → (∀ a, observes (k a) (q2 a)) →
  observes (m ≫= k) (λ e b, ∃ a, q1 e a ∧ q2 a e b).
Proof.
  intros Hm Hk w. unfold mbind, M_bind. destruct (Hm w) as [Hs Hq].
  destruct (m w) as [[a|e] w'] eqn:E; simpl in *; [|done].
  destruct (Hk a w') as [Hs' Hq']. split; [by transitivity w'|].
  intros b Hb. exists a. split; [by apply Hq|]. destruct Hs as [<- _]. by apply Hq'.
Qed.
Lemma observes_fmap {A B} (f : A → B) (m : M A) q :
  observes m q → observes (f <$> m) (λ e b, ∃ a, q e a ∧ b = f a).
Proof. intros Hm. apply (observes_bind _ _ _ (λ a e b, b = f a) Hm). intros a. apply observes_ret. Qed.
Lemma observes_catch {A} (m : M A) h q :
  observes m q → (∀ e, observes (h e) q) → observes (catch m h) q.
Proof.
  intros Hm Hh w. unfold catch. destruct (Hm w) as [Hs Hq].
  destruct (m w) as [[a|e] w'] eqn:E; simpl in *.
  - split; [done|]. by intros b [= ->]; apply Hq.
  - destruct (Hh e w') as [Hs' Hq']. split; [by transitivity w'|].
    intros b Hb. destruct Hs as [<- _]. by apply Hq'.
Qed.
Lemma observes_catch_fail {A} (m : M A) (h : error → error) q :
  observes m q → observes (catch m (λ e, fail (h e))) q.
Proof.
  intros Hm. apply observes_catch; [done|]. intros e.
  eapply observes_mono; [apply observes_fail|]. done.
Qed.
Lemma observes_wrap {A} p (m : M A) q : observes m q → observes (wrap p m) q.
Proof. apply observes_catch_fail. Qed.
(** The environment a statement sees over a connection. *)
Definition stmt_in (c : Conn) (e : Env) (g : uuid) : StmtEnv :=
  mkStmtEnv (match c with TxConn => e.(e_sess) | _ => noSession end)
            (match c with AdminConn => true | _ => false end) e.(e_now) g.
Lemma stmt_env_in c w w1 : same w w1 → stmt_env c w1 = stmt_in c (env_of w) w1.(w_gen).
Proof. intros [[= Hd Hs Hn] _]. unfold stmt_env, stmt_in. simpl. by rewrite Hs, Hn. Qed.

Lemma observes_query {A} c (f : StmtEnv → DB → A) :
  observes (run_stmt c (query f)) (λ e a, ∃ g, a = f (stmt_in c e g) e.(e_db)).
Proof.
  intros w. unfold run_stmt, mbind, M_bind. destruct (observes_external w) as [Hs _].
  destruct (external w) as [[[]|e] w1]; simpl in *; [|done]. split; [done|].
  intros a [= <-]. exists (w_gen w1). rewrite (stmt_env_in c w) by done.
  destruct Hs as [[= Hd _ _] _]. simpl. by rewrite Hd.
Qed.
Lemma observes_query_row {A} c (f : StmtEnv → DB → list A) :
  observes (run_stmt c (query_row f))
    (λ e a, ∃ g l, f (stmt_in c e g) e.(e_db) = a :: l).
Proof.
  intros w. unfold run_stmt, mbind, M_bind. destruct (observes_external w) as [Hs _].
  destruct (external w) as [[[]|e] w1]; simpl in *; [|done].
  unfold execute, query_row. rewrite (stmt_env_in c w) by done.
  destruct Hs as [[= Hd Hs Hn] Ht].
  destruct (f _ (w_db w1)) as [|x l] eqn:E; (split; [by split; [unfold env_of; simpl; congruence|]|]);
    intros a Ha; simplify_eq/=.
  exists (w_gen w1), l. by rewrite <-Hd.
Qed.
End observes.

Lemma observes_run {A} (m : M A) q w r w' :
  observes m q → m w = (r, w') → same w w' ∧ ∀ a, r = Ok a → q (env_of w) a.
Proof. intros Hm Hw. specialize (Hm w). by rewrite Hw in Hm. Qed.

(** ** Reasoning: the outcomes of one call *)

(** [changed w d w']: [d] is the new database and nothing else is new. *)
Definition changed (w : World) (d : DB) (w' : World) : Prop :=
  env_of w' = mkEnv d w.(w_sess) w.(w_now) ∧ w'.(w_trace) = w.(w_trace).

Lemma same_changed w w' : same w w' ↔ changed w w.(w_db) w'.
Proof. done. Qed.
Lemma same_then_changed w w1 d w' : same w w1 → changed w1 d w' → changed w d w'.
Proof. intros [[= ???] ?] [[= ???] ?]. split; [unfold env_of|]; congruence. Qed.
Lemma changed_then_same w d w1 w' : changed w d w1 → same w1 w' → changed w d w'.
Proof. intros [[= ???] ?] [[= ???] ?]. split; [unfold env_of|]; congruence. Qed.

Lemma external_cases w r w' : external w = (r, w') → same w w'.
Proof. intros E. destruct (observes_external w) as [Hs _]. by rewrite E in Hs. Qed.

Lemma run_stmt_cases {A} c (st : Stmt A) w r w' :
  run_stmt c st w = (r, w') →
  (∃ e, r = Err e ∧ same w w')
  ∨ ∃ a d g, r = Ok a ∧ st (stmt_in c (env_of w) g) w.(w_db) = Ok (a, d) ∧ changed w d w'.
Proof.
  unfold run_stmt, mbind, M_bind. intros Hr.
  destruct (external w) as [[[]|e] w1] eqn:E; apply external_cases in E; [|left; naive_solver].
  unfold execute in Hr. rewrite (stmt_env_in c w) in Hr by done.
  assert (w_db w1 = w_db w) as Hd by (destruct E as [[=] _]; congruence). rewrite Hd in Hr.
  destruct (st _ _) as [[a d]|e] eqn:Hst; simplify_eq/=; [right|left].
  - exists a, d, (w_gen w1). split; [done|]. split; [done|].
    destruct E as [[= ???] ?]. split; [unfold env_of|]; simpl; congruence.
  - exists e. split; [done|]. destruct E as [[= ???] ?]. split; [unfold env_of|]; simpl; congruence.
Qed.

(** A statement that never changes the database only looks. *)
Lemma observes_stmt {A} c (st : Stmt A) :
  (∀ s d a d', st s d = Ok (a, d') → d' = d) →
  observes (run_stmt c st) (λ e a, ∃ g, st (stmt_in c e g) e.(e_db) = Ok (a, e.(e_db))).
Proof.
  intros Hst w. destruct (run_stmt c st w) as [r w'] eqn:E.
  apply run_stmt_cases in E as [(e & -> & ?)|(a & d & g & -> & Hok & Hc)]; simpl.
  - split; [done|]. intros a [=].
  - assert (d = w_db w) as -> by (by eapply Hst). split; [done|].
    intros b [= ->]. by exists g.
Qed.

(** A handler of errors that only turns them into other errors. *)
Definition refails {A} (h : error → M A) : Prop := ∀ e w, ∃ e', h e w = (Err e', w).

Lemma refails_fail {A} (f : error → error) : refails (λ e, @fail A (f e)).
Proof. intros e w. by eexists. Qed.
Lemma refails_if {A} (b : error → bool) (f g : error → error) :
  refails (λ e, if b e then @fail A (f e) else fail (g e)).
Proof. intros e w. destruct (b e); by eexists. Qed.

Lemma catch_cases {A} (m : M A) h w r w' :
  refails h → catch m h w = (r, w') →
  (∃ a, r = Ok a ∧ m w = (Ok a, w')) ∨ (∃ e e0, r = Err e ∧ m w = (Err e0, w')).
Proof.
  intros Hh. unfold catch. destruct (m w) as [[a|e] w1]; [naive_solver|].
  destruct (Hh e w1) as [e' ->]. naive_solver.
Qed.

Lemma PublishDurable_cases s p w r w' :
  PublishDurable s p w = (r, w') →
  (∃ e, r = Err e ∧ same w w')
  ∨ (r = Ok tt ∧ env_of w' = env_of w
     ∧ w'.(w_trace) = w.(w_trace) ++ [EvPublishDurable s p]).
Proof.
  intros [(a & -> & Hm)|(e & e0 & -> & Hm)]%catch_cases; [| |apply refails_fail];
    unfold mbind, M_bind in Hm;
    destruct (external w) as [[[]|?] w1] eqn:E; apply external_cases in E; simplify_eq/=.
  - right. destruct E as [[= ???] ?]. split; [by destruct a|]. unfold emit in Hm; simplify_eq. split; [unfold env_of|]; simpl; congruence.
  - left. eauto.
Qed.

(** The messages of a trace, without the log. *)
Definition is_message (e : Event) : Prop := match e with EvLog _ => False | _ => True end.
#[export] Instance is_message_dec e : Decision (is_message e).
Proof. destruct e; apply _. Defined.
Definition messages (w : World) : list Event := filter is_message w.(w_trace).

Lemma messages_logf msg w : messages (logf msg w).2 = messages w.
Proof. unfold messages. simpl. by rewrite filter_app, app_nil_r. Qed.

(** [keeps w w']: same database and same messages (a log line may be new). *)
Definition keeps (w w' : World) : Prop := w'.(w_db) = w.(w_db) ∧ messages w' = messages w.
Lemma keeps_refl w : keeps w w.
Proof. done. Qed.
Lemma same_keeps w w' : same w w' → keeps w w'.
Proof. intros [[= ???] Ht]. split; [done|]. unfold messages. by rewrite Ht. Qed.
Lemma keeps_logf msg w w' : keeps w w' → keeps w (logf msg w').2.
Proof. intros [? ?]. split; [done|]. by rewrite messages_logf. Qed.

Lemma bind_try {A B} (m : M A) (k : Res A → M B) w :
  (try m ≫= k) w = k (m w).1 (m w).2.
Proof. unfold mbind, M_bind, try. by destruct (m w). Qed.
Lemma keeps_same_l w w1 w' : same w w1 → keeps w1 w' → keeps w w'.
Proof. intros [? ?]%same_keeps [? ?]. split; congruence. Qed.

(** ** Reasoning: when every outgoing call succeeds

    [yields m w a]: from [w] the computation returns [a], having only looked. *)
Definition calm (w : World) : Prop := w.(w_faults) = [].
Definition yields {A} (m : M A) (w : World) (a : A) : Prop :=
  ∃ w', m w = (Ok a, w') ∧ same w w' ∧ calm w' ∧ (w.(w_gen) ≤ w'.(w_gen))%N.

Lemma external_calm w : calm w → external w = (Ok tt, w).
Proof. unfold calm, external. by intros ->. Qed.
Lemma yields_ret {A} (a : A) w : calm w → yields (mret a) w a.
Proof. intros. exists w. by split_and!. Qed.
Lemma yields_bind {A B} (m : M A) (k : A → M B) w a b :
  yields m w a → (∀ w', same w w' → calm w' → yields (k a) w' b) → yields (m ≫= k) w b.
Proof.
  intros (w1 & Hm & Hs & Hc & ?) Hk. destruct (Hk w1 Hs Hc) as (w2 & Hk2 & Hs2 & Hc2 & ?).
  exists w2. unfold mbind, M_bind. rewrite Hm. split; [done|]. split; [by transitivity w1|].
  split; [done|]. by transitivity (w_gen w1).
Qed.
Lemma yields_catch {A} (m : M A) h w a : yields m w a → yields (catch m h) w a.
Proof. intros (w' & Hm & ?). exists w'. unfold catch. by rewrite Hm. Qed.
Lemma yields_wrap {A} p (m : M A) w a : yields m w a → yields (wrap p m) w a.
Proof. apply yields_catch. Qed.
Lemma yields_fmap {A B} (f : A → B) (m : M A) w a : yields m w a → yields (f <$> m) w (f a).
Proof. intros Hm. eapply yields_bind; [done|]. intros. by apply yields_ret. Qed.

Lemma run_stmt_calm {A} c (st : Stmt A) w :
  calm w → run_stmt c st w = execute c st w.
Proof. intros. unfold run_stmt, mbind, M_bind. by rewrite external_calm. Qed.
Lemma yields_stmt {A} c (st : Stmt A) w a :
  calm w → st (stmt_env c w) w.(w_db) = Ok (a, w.(w_db)) → yields (run_stmt c st) w a.
Proof.
  intros Hc Hst. unfold yields. rewrite run_stmt_calm by done. unfold execute. rewrite Hst.
  eexists. split; [done|]. split_and!; [done..|]. apply N.le_succ_diag_r.
Qed.
Lemma yields_query {A} c (f : StmtEnv → DB → A) w a :
  calm w → f (stmt_env c w) w.(w_db) = a → yields (run_stmt c (query f)) w a.
Proof. intros ? <-. by apply yields_stmt. Qed.
Lemma yields_query_row {A} c (f : StmtEnv → DB → list A) w a l :
  calm w → f (stmt_env c w) w.(w_db) = a :: l → yields (run_stmt c (query_row f)) w a.
Proof. intros ? Hf. apply yields_stmt; [done|]. unfold query_row. by rewrite Hf. Qed.

Lemma PublishDurable_calm s p w :
  calm w → PublishDurable s p w = (Ok tt, add_event (EvPublishDurable s p) w).
Proof.
  intros. unfold PublishDurable, wrap, catch, mbind, M_bind. by rewrite external_calm.
Qed.
Lemma Publish_calm s p w : calm w → Publish s p w = (Ok tt, add_event (EvPublish s p) w).
Proof. intros. unfold Publish, wrap, catch, mbind, M_bind. by rewrite external_calm. Qed.

(** ** Reasoning: computations that only send

    [sends w ms w']: the database is untouched and what was sent is some of
    [ms], in order; all of it when no call fails.
    [reports m f]: [m] never fails and, from any world, sends (at most) [f]. *)
Definition sends (w : World) (ms : list Event) (w' : World) : Prop :=
  env_of w' = env_of w
  ∧ ∃ l, messages w' = messages w ++ l ∧ l `sublist_of` ms ∧ (calm w → l = ms ∧ calm w').
Definition reports (m : M unit) (f : Env → list Event) : Prop :=
  ∀ w, ∃ w', m w = (Ok tt, w') ∧ sends w (f (env_of w)) w'.

(** A read: it observes, and it succeeds when no call fails. *)
Definition reads {A} (m : M A) (q : Env → A → Prop) : Prop :=
  observes m q ∧ ∀ w, calm w → ∃ a w', m w = (Ok a, w') ∧ calm w'.

Lemma sends_nil w : sends w [] w.
Proof. split; [done|]. exists []. rewrite app_nil_r. by split_and!. Qed.
Lemma sends_app w ms1 w1 ms2 w' :
  sends w ms1 w1 → sends w1 ms2 w' → sends w (ms1 ++ ms2) w'.
Proof.
  intros [E1 (l1 & M1 & S1 & C1)] [E2 (l2 & M2 & S2 & C2)]. split; [congruence|].
  exists (l1 ++ l2). rewrite M2, M1, <-app_assoc. split; [done|]. split; [by apply sublist_app|].
  intros Hc. destruct (C1 Hc) as [-> Hc1]. by destruct (C2 Hc1) as [-> ?].
Qed.
Lemma sends_same w w1 ms w' :
  same w w1 → (calm w → calm w1) → sends w1 ms w' → sends w ms w'.
Proof.
  intros [He Ht] Hc [E (l & M & S & C)]. split; [congruence|]. exists l.
  unfold messages in *. rewrite <-Ht. auto.
Qed.
Lemma sends_less w ms w' : ¬ calm w → sends w [] w' → sends w ms w'.
Proof.
  intros Hc [E (l & M & ->%sublist_nil_r & C)]. split; [done|]. exists [].
  split; [done|]. split; [apply sublist_nil_l|]. by intros.
Qed.

Lemma reports_ret f : (∀ e, f e = []) → reports (mret tt) f.
Proof. intros Hf w. exists w. rewrite Hf. split; [done|apply sends_nil]. Qed.
Lemma reports_logf msg : reports (logf msg) (λ _, []).
Proof.
  intros w. eexists. split; [done|]. split; [done|]. exists [].
  unfold messages. simpl. rewrite filter_app, !app_nil_r. by split_and!.
Qed.
Lemma reports_mono m f g : (∀ e, f e = g e) → reports m f → reports m g.
Proof. intros Hfg Hm w. destruct (Hm w) as (w' & ? & ?). exists w'. by rewrite <-Hfg. Qed.
Lemma reports_seq m1 m2 f1 f2 :
  reports m1 f1 → reports m2 f2 → reports (m1 ;; m2) (λ e, f1 e ++ f2 e).
Proof.
  intros H1 H2 w. destruct (H1 w) as (w1 & E1 & S1). destruct (H2 w1) as (w2 & E2 & S2).
  exists w2. unfold mbind, M_bind. rewrite E1. split; [done|].
  eapply sends_app; [done|]. destruct S1 as [<- _]. done.
Qed.
Lemma reports_forM {A} (f : A → M unit) (g : A → Env → list Event) l :
  (∀ x, reports (f x) (g x)) → reports (forM f l) (λ e, l ≫= λ x, g x e).
Proof.
  intros Hf. induction l as [|x l IH]; simpl; [by apply reports_ret|].
  by apply (reports_seq _ _ (g x)).
Qed.
Lemma reports_read {A} (m : M A) (k : Res A → M unit) q f :
  reads m q → (∀ e, reports (k (Err e)) (λ _, [])) →
  (∀ a w, q (env_of w) a → ∃ w', k (Ok a) w = (Ok tt, w') ∧ sends w (f (env_of w)) w') →
  reports (try m ≫= k) f.
Proof.
  intros [Ho Hr] He Hk w. rewrite bind_try. destruct (Ho w) as [Hs Hq].
  destruct (m w) as [[a|e] w1] eqn:Hm; simpl in *.
  - pose proof Hs as [Hs' _]. destruct (Hk a w1) as (w' & Ek & Sk).
    { rewrite Hs'. by apply Hq. }
    exists w'. split; [done|]. rewrite Hs' in Sk. eapply sends_same; [done| |done].
    intros Hc. destruct (Hr w Hc) as (a' & w'' & Hm' & ?). congruence.
  - destruct (He e w1) as (w' & Ek & Sk). exists w'. split; [done|].
    assert (¬ calm w) as Hc.
    { intros Hc. destruct (Hr w Hc) as (a' & w'' & Hm' & ?). congruence. }
    apply sends_less; [done|]. by eapply sends_same.
Qed.
Lemma reports_ext m m' f : (∀ w, m w = m' w) → reports m' f → reports m f.
Proof. intros Hm Hr w. rewrite Hm. apply Hr. Qed.
Lemma bind_assoc {A B C} (m : M A) (k : A → M B) (k' : B → M C) w :
  ((m ≫= k) ≫= k') w = (m ≫= λ x, k x ≫= k') w.
Proof. unfold mbind, M_bind. by destruct (m w) as [[a|e] w']. Qed.

Definition publishes (m : M unit) (ev : Event) : Prop :=
  is_message ev
  ∧ (∀ w r w', m w = (r, w') → (∃ e, r = Err e ∧ same w w')
       ∨ (r = Ok tt ∧ env_of w' = env_of w ∧ w'.(w_trace) = w.(w_trace) ++ [ev]))
  ∧ ∀ w, calm w → m w = (Ok tt, add_event ev w).
Lemma PublishDurable_publishes s p : publishes (PublishDurable s p) (EvPublishDurable s p).
Proof.
  split; [done|]. split; [|by apply PublishDurable_calm]. intros w r w'. apply PublishDurable_cases.
Qed.
Lemma Publish_publishes s p : publishes (Publish s p) (EvPublish s p).
Proof.
  split; [done|]. split; [|by apply Publish_calm]. intros w r w'.
  intros [(a & -> & Hm)|(e & e0 & -> & Hm)]%catch_cases; [| |apply refails_fail];
    unfold mbind, M_bind in Hm;
    destruct (external w) as [[[]|?] w1] eqn:E; apply external_cases in E; simplify_eq/=.
  - right. destruct E as [[= ???] ?]. split; [by destruct a|]. unfold emit in Hm. simplify_eq.
    split; [unfold env_of|]; simpl; congruence.
  - left. eauto.
Qed.

(** After a publish: nothing more when it failed, [f] when it did not. *)
Lemma reports_publish m ev (k : Res unit → M unit) f :
  publishes m ev → (∀ e, reports (k (Err e)) (λ _, [])) → reports (k (Ok tt)) f →
  reports (try m ≫= k) (λ e, ev :: f e).
Proof.
  intros (He & Hm & Hcalm) Herr Hk w. rewrite bind_try. destruct (m w) as [r w1] eqn:E; simpl.
  destruct (Hm _ _ _ E) as [(e & -> & Hs)|(-> & Henv & Ht)].
  - destruct (Herr e w1) as (w' & Ek & Sk). exists w'. split; [done|].
    assert (¬ calm w) as Hc by (intros Hc; by rewrite Hcalm in E).
    apply sends_less; [done|]. by eapply sends_same.
  - destruct (Hk w1) as (w' & Ek & Sk). exists w'. split; [done|].
    change (ev :: f (env_of w)) with ([ev] ++ f (env_of w)). rewrite Henv in Sk.
    eapply sends_app; [|exact Sk]. split; [done|]. exists [ev].
    unfold messages. rewrite Ht, filter_app, filter_cons_True by done. split; [done|].
    split; [done|]. intros Hc. split; [done|]. rewrite Hcalm in E by done. by simplify_eq.
Qed.
Lemma reports_publish_last m ev (k : Res unit → M unit) :
  publishes m ev → (∀ r, reports (k r) (λ _, [])) → reports (try m ≫= k) (λ _, [ev]).
Proof. intros. by apply (reports_publish m ev k (λ _, [])). Qed.

Lemma reads_query {A} c (f : StmtEnv → DB → A) :
  reads (run_stmt c (query f)) (λ e a, ∃ g, a = f (stmt_in c e g) e.(e_db)).
Proof.
  split; [apply observes_query|]. intros w Hc. rewrite run_stmt_calm by done. by do 2 eexists.
Qed.
Lemma reads_wrap {A} p (m : M A) q : reads m q → reads (wrap p m) q.
Proof.
  intros [? Hr]. split; [by apply observes_wrap|]. intros w Hc.
  destruct (Hr w Hc) as (a & w' & E & ?). exists a, w'. unfold wrap, catch. by rewrite E.
Qed.
Lemma reads_mono {A} (m : M A) q1 q2 :
  reads m q1 → (∀ e a, q1 e a → q2 e a) → reads m q2.
Proof. intros [? ?] ?. split; [by eapply observes_mono|done]. Qed.

Lemma observes_moves (R : DB → DB → Prop) `{!PreOrder R} {A} (m : M A) q :
  observes m q → moves R m.
Proof. intros Hm w. destruct (Hm w) as [[[= -> _ _] _] _]. reflexivity. Qed.

(** ** Reasoning: a world where no call fails stays one *)

Definition calmly {A} (m : M A) : Prop := ∀ w, calm w → calm (m w).2.

Lemma calmly_ret {A} (a : A) : calmly (mret a).
Proof. by intros w. Qed.
Lemma calmly_fail {A} e : calmly (@fail A e).
Proof. by intros w. Qed.
Lemma calmly_gets {A} (f : World → A) : calmly (gets f).
Proof. by intros w. Qed.
Lemma calmly_emit e : calmly (emit e).
Proof. by intros w. Qed.
Lemma calmly_set_session f : calmly (set_session f).
Proof. by intros w. Qed.
Lemma calmly_external : calmly external.
Proof. intros w Hc. by rewrite external_calm. Qed.
Lemma calmly_bind {A B} (m : M A) (k : A → M B) :
  calmly m → (∀ a, calmly (k a)) → calmly (m ≫= k).
Proof.
  intros Hm Hk w Hc. unfold mbind, M_bind. specialize (Hm w Hc).
  destruct (m w) as [[a|e] w']; simpl in *; [by apply Hk|done].
Qed.
Lemma calmly_fmap {A B} (f : A → B) (m : M A) : calmly m → calmly (f <$> m).
Proof. intros. apply calmly_bind; [done|]. intros. apply calmly_ret. Qed.
Lemma calmly_try {A} (m : M A) : calmly m → calmly (try m).
Proof. intros Hm w Hc. unfold try. specialize (Hm w Hc). by destruct (m w). Qed.
Lemma calmly_ignore {A} (m : M A) : calmly m → calmly (ignore m).
Proof. intros Hm w Hc. apply (Hm w Hc). Qed.
Lemma calmly_catch {A} (m : M A) h : calmly m → (∀ e, calmly (h e)) → calmly (catch m h).
Proof.
  intros Hm Hh w Hc. unfold catch. specialize (Hm w Hc).
  destruct (m w) as [[a|e] w']; simpl in *; [done|by apply Hh].
Qed.
Lemma calmly_wrap {A} p (m : M A) : calmly m → calmly (wrap p m).
Proof. intros. apply calmly_catch; [done|]. intros. apply calmly_fail. Qed.
Lemma calmly_forM {A} (f : A → M unit) l : (∀ x, calmly (f x)) → calmly (forM f l).
Proof.
  intros Hf. induction l as [|x l IH]; simpl; [apply calmly_ret|]. by apply calmly_bind.
Qed.
Lemma calmly_run_stmt {A} c (st : Stmt A) : calmly (run_stmt c st).
Proof.
  apply calmly_bind; [apply calmly_external|]. intros _ w Hc. unfold execute.
  by destruct (st _ _) as [[a d]|e].
Qed.
Lemma calmly_Publish s p : calmly (Publish s p).
Proof. apply calmly_wrap, calmly_bind; [apply calmly_external|intros; apply calmly_emit]. Qed.
Lemma calmly_PublishDurable s p : calmly (PublishDurable s p).
Proof. apply calmly_wrap, calmly_bind; [apply calmly_external|intros; apply calmly_emit]. Qed.
Lemma calmly_SetCurrentUser u : calmly (SetCurrentUser u).
Proof. apply calmly_wrap, calmly_bind; [apply calmly_external|intros; apply calmly_set_session]. Qed.
Lemma calmly_SetCurrentOrg u : calmly (SetCurrentOrg u).
Proof. apply calmly_wrap, calmly_bind; [apply calmly_external|intros; apply calmly_set_session]. Qed.
Lemma calmly_in_tx {A} (m : M A) : calmly m → calmly (in_tx m).
Proof.
  intros Hm w Hc. unfold in_tx. specialize (Hm (set_sess noSession w) Hc).
  by destruct (m _) as [[a|e] w'].
Qed.
Lemma calmly_WithTx {A} u o (fn : M A) : calmly fn → calmly (WithTx u o fn).
Proof.
  intros Hfn. apply calmly_bind; [apply calmly_wrap, calmly_external|]. intros _.
  apply calmly_in_tx. apply calmly_bind; [case_decide; [apply calmly_ret|apply calmly_SetCurrentUser]|].
  intros _. apply calmly_bind; [case_decide; [apply calmly_ret|apply calmly_SetCurrentOrg]|].
  intros _. apply calmly_bind; [done|]. intros a.
  apply calmly_bind; [apply calmly_wrap, calmly_external|]. intros _. apply calmly_ret.
Qed.

Create HintDb calm.
#[export] Hint Resolve calmly_ret calmly_fail calmly_gets calmly_emit calmly_set_session
  calmly_external calmly_run_stmt calmly_Publish calmly_PublishDurable calmly_SetCurrentUser
  calmly_SetCurrentOrg calmly_try calmly_ignore calmly_wrap calmly_in_tx calmly_WithTx : calm.
Ltac calm_step :=
  match goal with
  | |- calmly (mbind _ _) => apply calmly_bind; [|intros ?]
  | |- calmly (catch _ _) => apply calmly_catch; [|intros ?]
  | |- calmly (fmap _ _) => apply calmly_fmap
  | |- calmly (forM _ _) => apply calmly_forM; intros ?
  | |- calmly (match ?x with _ => _ end) => destruct x
  | |- calmly _ => solve [eauto 4 with calm]
  | |- calmly (wrap _ _) => apply calmly_wrap
  | |- calmly (try _) => apply calmly_try
  | |- calmly (WithTx _ _ _) => apply calmly_WithTx
  end.
Ltac calm_auto := repeat calm_step.

(** ** Reasoning: handlers that return no error *)

Definition errorless {A} (m : M A) : Prop := ∀ w, ∃ a w', m w = (Ok a, w').

Lemma errorless_ret {A} (a : A) : errorless (mret a).
Proof. intros w. by do 2 eexists. Qed.
Lemma errorless_logf msg : errorless (logf msg).
Proof. intros w. by do 2 eexists. Qed.
Lemma errorless_gets {A} (f : World → A) : errorless (gets f).
Proof. intros w. by do 2 eexists. Qed.
Lemma errorless_try {A} (m : M A) : errorless (try m).
Proof. intros w. unfold try. destruct (m w). by do 2 eexists. Qed.
Lemma errorless_bind {A B} (m : M A) (k : A → M B) : errorless m → (∀ a, errorless (k a)) → errorless (m ≫= k).
Proof.
  intros Hm Hk w. destruct (Hm w) as (a & w' & E). unfold mbind, M_bind. rewrite E. apply Hk.
Qed.
Lemma errorless_forM {A} (f : A → M unit) l : (∀ x, errorless (f x)) → errorless (forM f l).
Proof. intros Hf. induction l; simpl; [apply errorless_ret|by apply errorless_bind]. Qed.
Ltac errorless_auto :=
  repeat match goal with
  | |- errorless (mbind _ _) => apply errorless_bind; [|intros ?]
  | |- errorless (try _) => apply errorless_try
  | |- errorless (logf _) => apply errorless_logf
  | |- errorless (mret _) => apply errorless_ret
  | |- errorless (gets _) => apply errorless_gets
  | |- errorless now => apply errorless_gets
  | |- errorless (forM _ _) => apply errorless_forM; intros ?
  | |- errorless (match ?x with _ => _ end) => destruct x
  end.
