(* ===== verification/Rls.v ===== *)
(** * Rls: what the database itself enforces

    Row-level security (the policies of infrastructure/postgres/migrations),
    the constraint checks and the quota triggers an INSERT meets, and the ON
    DELETE CASCADE chains.  A statement of a repository is written with these. *)
From S2P Require Import Prelude Json Schema Effects.
From stdpp Require Import base gmap strings list.
From Stdlib Require Import ZArith Lia.
Open Scope Z_scope.

(** ** Checks of a statement *)

#[export] Instance Res_ret : MRet Res := @Ok.
#[export] Instance Res_bind : MBind Res := λ A B k r,
  match r with Ok a => k a | Err e => Err e end.

(** The statement fails with [code] unless [P]. *)
Definition require (P : Prop) `{Decision P} (code : string) : Res unit :=
  if decide P then Ok tt else Err (PgError code).

Lemma require_Ok P `{Decision P} code {A} (k : unit → Res A) a :
  (require P code ≫= k) = Ok a → P ∧ k tt = Ok a.
Proof. unfold require. case_decide; simpl; by intros. Qed.

Lemma require_true P `{Decision P} code {A} (k : unit → Res A) :
  P → (require P code ≫= k) = k tt.
Proof. intros. unfold require. by rewrite decide_True. Qed.
Lemma require_false P `{Decision P} code {A} (k : unit → Res A) :
  ¬ P → (require P code ≫= k) = Err (PgError code).
Proof. intros. unfold require. by rewrite decide_False. Qed.

(** pgx refuses to encode an [int] that does not fit an INT parameter. *)
Definition encode_int4 (z : Z) : Res unit :=
  if int4_ok z then Ok tt else Err (Opaque "failed to encode int4").

Lemma encode_int4_Ok z {A} (k : unit → Res A) a :
  (encode_int4 z ≫= k) = Ok a → int4_ok z = true ∧ k tt = Ok a.
Proof. unfold encode_int4. destruct (int4_ok z); simpl; by intros. Qed.

(** Takes a successful statement apart, check by check. *)
Ltac stmt_inv H :=
  repeat first
    [ apply require_Ok in H as [? H]
    | apply encode_int4_Ok in H as [? H] ];
  try (unfold mret, Res_ret in H); simplify_eq/=.

(** ** Row-level security *)

(** [EXISTS (SELECT 1 FROM memberships WHERE org_id = o AND user_id = u)] *)
Definition is_member (d : DB) (u o : uuid) : Prop :=
  Exists (λ m, m.(Membership_OrgID) = o ∧ m.(Membership_UserID) = u) (rows d.(memberships)).

(** [is_org_admin(check_org_id)], which reads every row. *)
Definition is_org_admin (s : StmtEnv) (d : DB) (o : uuid) : Prop :=
  Exists (λ m, m.(Membership_OrgID) = o
               ∧ Some m.(Membership_UserID) = s.(s_sess).(app_current_user_id)
               ∧ (m.(Membership_Role) = MembershipRoleOwner
                  ∨ m.(Membership_Role) = MembershipRoleAdmin)) (rows d.(memberships)).

(** The two-branch policy shared by every tenant table. *)
Definition org_visible (s : StmtEnv) (d : DB) (o : uuid) : Prop :=
  s.(s_bypass) = true
  ∨ s.(s_sess).(app_current_org_id) = Some o
  ∨ Exists (λ m, m.(Membership_OrgID) = o
                 ∧ Some m.(Membership_UserID) = s.(s_sess).(app_current_user_id))
           (rows d.(memberships)).

(** The policy of memberships. *)
Definition membership_visible (s : StmtEnv) (d : DB) (m : Membership) : Prop :=
  s.(s_bypass) = true
  ∨ s.(s_sess).(app_current_user_id) = Some m.(Membership_UserID)
  ∨ is_org_admin s d m.(Membership_OrgID).

#[export] Instance is_member_dec d u o : Decision (is_member d u o).
Proof. unfold is_member. apply _. Defined.
#[export] Instance is_org_admin_dec s d o : Decision (is_org_admin s d o).
Proof. unfold is_org_admin. apply _. Defined.
#[export] Instance org_visible_dec s d o : Decision (org_visible s d o).
Proof. unfold org_visible. apply _. Defined.
#[export] Instance membership_visible_dec s d m : Decision (membership_visible s d m).
Proof. unfold membership_visible. apply _. Defined.

Lemma is_member_spec d u o :
  is_member d u o ↔ ∃ i m, d.(memberships) !! i = Some m
                           ∧ m.(Membership_OrgID) = o ∧ m.(Membership_UserID) = u.
Proof.
  unfold is_member. rewrite list.Exists_exists. setoid_rewrite elem_of_rows. naive_solver.
Qed.

Lemma org_visible_spec s d o :
  org_visible s d o ↔
  s.(s_bypass) = true ∨ s.(s_sess).(app_current_org_id) = Some o
  ∨ ∃ u, s.(s_sess).(app_current_user_id) = Some u ∧ is_member d u o.
Proof.
  unfold org_visible, is_member. rewrite !list.Exists_exists.
  setoid_rewrite list.Exists_exists. naive_solver.
Qed.

(** ** Aggregates the quota checks read *)

Definition active (c : Container) : Prop :=
  c.(Container_Status) = ContainerStatusPending ∨ c.(Container_Status) = ContainerStatusRunning.
#[export] Instance active_dec c : Decision (active c).
Proof. unfold active. apply _. Defined.

(** The organization of a container, through its deployment. *)
Definition container_org (d : DB) (c : Container) : option uuid :=
  Deployment_OrgID <$> d.(deployments) !! c.(Container_DeploymentID).

(** [SELECT count( * ) FROM containers c JOIN deployments d ... WHERE d.org_id
    = o AND c.status IN ('pending', 'running')] *)
Definition active_containers (d : DB) (o : uuid) : Z :=
  count (λ c, active c ∧ container_org d c = Some o) d.(containers).
Definition projects_of (d : DB) (o : uuid) : Z :=
  count (λ p, p.(Project_OrgID) = o) d.(projects).

(** [enforce_container_quota()]: the insert of a container of [deploymentID]
    passes the trigger. *)
Definition container_quota_ok (d : DB) (deploymentID : uuid) : Prop :=
  match d.(deployments) !! deploymentID with
  | None => True
  | Some dep =>
      match d.(resource_quotas) !! dep.(Deployment_OrgID) with
      | None => True
      | Some q => active_containers d dep.(Deployment_OrgID) + 1 ≤ q.(ResourceQuota_MaxContainers)
      end
  end.
(** [enforce_project_quota()] *)
Definition project_quota_ok (d : DB) (o : uuid) : Prop :=
  match d.(resource_quotas) !! o with
  | None => True
  | Some q => projects_of d o + 1 ≤ q.(ResourceQuota_MaxProjects)
  end.
#[export] Instance container_quota_ok_dec d i : Decision (container_quota_ok d i).
Proof.
  unfold container_quota_ok. destruct (d.(deployments) !! i) as [dep|]; [|apply _].
  destruct (d.(resource_quotas) !! dep.(Deployment_OrgID)); apply _.
Defined.
#[export] Instance project_quota_ok_dec d o : Decision (project_quota_ok d o).
Proof. unfold project_quota_ok. destruct (d.(resource_quotas) !! o); apply _. Defined.

(** ** ON DELETE CASCADE *)

(** The keys of the rows satisfying [P]. *)
Definition keys_where {A} (P : A → Prop) `{!∀ x, Decision (P x)} (t : table A) : gset uuid :=
  dom (filter (λ kv, P kv.2) t).

Definition drop_containers (P : Container → Prop) `{!∀ x, Decision (P x)} (d : DB) : DB :=
  let gone := keys_where P d.(containers) in
  set_service_instances
    (delete_where (λ si, si.(ServiceInstance_ContainerID) ∈ gone) d.(service_instances))
    (set_containers (delete_where P d.(containers)) d).

Definition drop_deployments (P : Deployment → Prop) `{!∀ x, Decision (P x)} (d : DB) : DB :=
  let gone := keys_where P d.(deployments) in
  drop_containers (λ c, c.(Container_DeploymentID) ∈ gone)
    (set_deployments (delete_where P d.(deployments)) d).

Definition drop_services (P : Service → Prop) `{!∀ x, Decision (P x)} (d : DB) : DB :=
  let gone := keys_where P d.(services) in
  set_service_instances
    (delete_where (λ si, si.(ServiceInstance_ServiceID) ∈ gone) d.(service_instances))
    (set_services (delete_where P d.(services)) d).

Definition drop_domains (P : Domain → Prop) `{!∀ x, Decision (P x)} (d : DB) : DB :=
  set_domains (delete_where P d.(domains)) d.
Definition drop_builds (P : Build → Prop) `{!∀ x, Decision (P x)} (d : DB) : DB :=
  set_builds (delete_where P d.(builds)) d.

Definition drop_applications (P : Application → Prop) `{!∀ x, Decision (P x)} (d : DB) : DB :=
  let gone := keys_where P d.(applications) in
  drop_deployments (λ x, x.(Deployment_ApplicationID) ∈ gone)
  (drop_services (λ x, x.(Service_ApplicationID) ∈ gone)
  (drop_domains (λ x, x.(Domain_ApplicationID) ∈ gone)
  (drop_builds (λ x, x.(Build_ApplicationID) ∈ gone)
  (set_applications (delete_where P d.(applications)) d)))).

Definition drop_projects (P : Project → Prop) `{!∀ x, Decision (P x)} (d : DB) : DB :=
  let gone := keys_where P d.(projects) in
  drop_applications (λ x, x.(Application_ProjectID) ∈ gone)
  (drop_domains (λ x, x.(Domain_ProjectID) ∈ gone)
  (set_projects (delete_where P d.(projects)) d)).

Definition drop_organization (o : uuid) (d : DB) : DB :=
  drop_projects (λ x, x.(Project_OrgID) = o)
  (drop_applications (λ x, x.(Application_OrgID) = o)
  (drop_deployments (λ x, x.(Deployment_OrgID) = o)
  (drop_domains (λ x, x.(Domain_OrgID) = o)
  (drop_builds (λ x, x.(Build_OrgID) = o)
  (set_memberships (delete_where (λ x, x.(Membership_OrgID) = o) d.(memberships))
  (set_api_keys (delete_where (λ x, x.(APIKeyRow_key).(APIKey_OrgID) = o) d.(api_keys))
  (set_resource_quotas (delete_where (λ x, x.(ResourceQuota_OrgID) = o) d.(resource_quotas))
  (set_audit_logs (delete_where (λ x, x.(AuditLogEntry_OrgID) = o) d.(audit_logs))
  (set_organizations (delete o d.(organizations)) d))))))))).

(** ** Shapes every repository repeats *)

(** [if isUniqueViolation(err) { return ErrConflict }; return fmt.Errorf(prefix, err)] *)
Definition or_conflict {A} (prefix : string) (m : M A) : M A :=
  catch m (λ e, if isUniqueViolation e then fail ErrConflict else fail (Errorf prefix e)).
(** [if errors.Is(err, pgx.ErrNoRows) { return ErrNotFound }; return fmt.Errorf(prefix, err)] *)
Definition or_not_found {A} (prefix : string) (m : M A) : M A :=
  catch m (λ e, if errors_Is e ErrNoRows then fail ErrNotFound else fail (Errorf prefix e)).
(** The [scanX(row)] helpers: as above, other errors returned as they are. *)
Definition scan {A} (m : M A) : M A :=
  catch m (λ e, if errors_Is e ErrNoRows then fail ErrNotFound else fail e).
(** [Exec], then [if tag.RowsAffected() == 0 { return ErrNotFound }]. *)
Definition exec_affected (prefix : string) (c : Conn) (st : Stmt Z) : M unit :=
  n ← wrap prefix (run_stmt c st);
  if decide (n = 0) then fail ErrNotFound else mret tt.

(** [UPDATE t SET f WHERE id = $1] on a tenant table: the policy hides the row
    or it is rewritten (its org_id is never changed, so the policy's check of
    the new row passes). *)
Definition update_by_id {A} (t : DB → table A) (put : table A → DB → DB) (org : A → uuid)
    (f : StmtEnv → A → A) (id : uuid) : Stmt Z := λ s d,
  match t d !! id with
  | Some x => if decide (org_visible s d (org x))
              then Ok (1, put (<[id := f s x]> (t d)) d) else Ok (0, d)
  | None => Ok (0, d)
  end.
(** [DELETE FROM t WHERE id = $1], [drop] doing the cascade. *)
Definition delete_by_id {A} (t : DB → table A) (org : A → uuid) (drop : DB → DB) (id : uuid)
    : Stmt Z := λ s d,
  match t d !! id with
  | Some x => if decide (org_visible s d (org x)) then Ok (1, drop d) else Ok (0, d)
  | None => Ok (0, d)
  end.
(** [SELECT org_id FROM t WHERE id = $1] on a tenant table. *)
Definition org_of {A} (t : DB → table A) (org : A → uuid) (id : uuid) : Stmt uuid :=
  query_row (λ s d, filter (org_visible s d) (org <$> option_list (t d !! id))).

Lemma update_by_id_Ok {A} (t : DB → table A) put org f id s d n d' :
  update_by_id t put org f id s d = Ok (n, d') →
  d' = d ∨ ∃ x, t d !! id = Some x ∧ org_visible s d (org x)
                ∧ d' = put (<[id := f s x]> (t d)) d.
Proof. unfold update_by_id. intros. repeat case_match; naive_solver. Qed.
Lemma delete_by_id_Ok {A} (t : DB → table A) org drop id s d n d' :
  delete_by_id t org drop id s d = Ok (n, d') →
  d' = d ∨ ∃ x, t d !! id = Some x ∧ org_visible s d (org x) ∧ d' = drop d.
Proof. unfold delete_by_id. intros. repeat case_match; naive_solver. Qed.

Lemma moves_or_conflict R `{!PreOrder R} {A} p (m : M A) : moves R m → moves R (or_conflict p m).
Proof. intros. apply moves_catch; [done..|]. intros e. destruct (isUniqueViolation e); apply moves_fail; done. Qed.
Lemma moves_or_not_found R `{!PreOrder R} {A} p (m : M A) : moves R m → moves R (or_not_found p m).
Proof. intros. apply moves_catch; [done..|]. intros e. destruct (errors_Is e ErrNoRows); apply moves_fail; done. Qed.
Lemma moves_scan R `{!PreOrder R} {A} (m : M A) : moves R m → moves R (scan m).
Proof. intros. apply moves_catch; [done..|]. intros e. destruct (errors_Is e ErrNoRows); apply moves_fail; done. Qed.
Lemma moves_exec_affected R `{!PreOrder R} p c st :
  moves R (run_stmt c st) → moves R (exec_affected p c st).
Proof.
  intros. apply moves_bind; [done| |].
  - by apply moves_wrap.
  - intros n. case_decide; [by apply moves_fail | by apply moves_ret].
Qed.
#[export] Hint Resolve moves_or_conflict moves_or_not_found moves_scan moves_exec_affected : moves.

Lemma refails_or_conflict {A} p :
  refails (λ e, if isUniqueViolation e then @fail A ErrConflict else fail (Errorf p e)).
Proof. apply (refails_if isUniqueViolation (λ _, ErrConflict)). Qed.
Lemma refails_or_not_found {A} p :
  refails (λ e, if errors_Is e ErrNoRows then @fail A ErrNotFound else fail (Errorf p e)).
Proof. apply (refails_if (λ e, errors_Is e ErrNoRows) (λ _, ErrNotFound)). Qed.
Lemma refails_scan {A} :
  refails (λ e, if errors_Is e ErrNoRows then @fail A ErrNotFound else fail e).
Proof. apply (refails_if (λ e, errors_Is e ErrNoRows) (λ _, ErrNotFound) id). Qed.
#[export] Hint Resolve refails_fail refails_or_conflict refails_or_not_found refails_scan : effects.

Lemma observes_refails {A} (m : M A) h q : refails h → observes m q → observes (catch m h) q.
Proof.
  intros Hh Hm. apply observes_catch; [done|]. intros e w. destruct (Hh e w) as [e' ->]. done.
Qed.
Lemma observes_or_not_found {A} p (m : M A) q : observes m q → observes (or_not_found p m) q.
Proof. apply observes_refails, refails_or_not_found. Qed.
Lemma observes_scan {A} (m : M A) q : observes m q → observes (scan m) q.
Proof. apply observes_refails, refails_scan. Qed.

(** The superuser connection sees everything. *)
Lemma org_visible_bypass e g d o : org_visible (stmt_in AdminConn e g) d o.
Proof. by left. Qed.

(** What [Exec]-style calls do, whatever happens: nothing, or the statement. *)
Lemma exec_affected_cases p c (st : Stmt Z) w r w' :
  exec_affected p c st w = (r, w') →
  (∃ e, r = Err e ∧ same w w')
  ∨ ∃ n d g, st (stmt_in c (env_of w) g) w.(w_db) = Ok (n, d) ∧ changed w d w'
             ∧ r = if decide (n = 0) then Err ErrNotFound else Ok tt.
Proof.
  unfold exec_affected, mbind, M_bind. intros Hr.
  destruct (wrap p (run_stmt c st) w) as [r1 w1] eqn:E.
  apply catch_cases in E as [(n & -> & E)|(e & e0 & -> & E)]; [| |apply refails_fail];
    apply run_stmt_cases in E as [(e1 & He & Hs)|(n' & d & g & He & Hst & Hc)]; try discriminate He.
  - injection He as ->. right. exists n', d, g.
    destruct (decide (n' = 0)); unfold fail, mret, M_ret in Hr; by simplify_eq.
  - simplify_eq/=. left. eauto.
Qed.

Lemma exec_affected_calm p c (st : Stmt Z) w n d :
  calm w → st (stmt_env c w) w.(w_db) = Ok (n, d) →
  exec_affected p c st w =
    (if decide (n = 0) then Err ErrNotFound else Ok tt, set_db d (set_gen (N.succ w.(w_gen)) w)).
Proof.
  intros Hc Hst. unfold exec_affected, wrap, catch, mbind, M_bind.
  rewrite run_stmt_calm by done. unfold execute. rewrite Hst. by case_decide.
Qed.
