(* ===== verification/Outcomes.v ===== *)
(** * Outcomes: what a computation has done when it succeeds

    [gives m Q]: if [m] returns a value from environment [e], the value and
    the environment after are [Q]-related to [e], and [m] sent nothing.
    Closed under the monad's operations and, with [WithTx], under
    transactions, whose failures leave no trace ([WithTx_cases]). *)
From S2P Require Import Prelude Json Schema Effects Rls.
From stdpp Require Import base gmap strings list.
From Stdlib Require Import ZArith Lia.
Open Scope Z_scope.

Definition gives {A} (m : M A) (Q : Env → A → Env → Prop) : Prop :=
  ∀ w a w', m w = (Ok a, w') → Q (env_of w) a (env_of w') ∧ messages w' = messages w.

(** The environment with another database. *)
Definition with_db (e : Env) (d : DB) : Env := mkEnv d e.(e_sess) e.(e_now).

Lemma gives_mono {A} (m : M A) (Q1 Q2 : Env → A → Env → Prop) :
  gives m Q1 → (∀ e a e', Q1 e a e' → Q2 e a e') → gives m Q2.
Proof. intros Hm HQ w a w' E. destruct (Hm w a w' E). auto. Qed.
Lemma gives_ret {A} (a : A) : gives (mret a) (λ e b e', b = a ∧ e' = e).
Proof. by intros w b w' [= <- <-]. Qed.
Lemma gives_fail {A} er : gives (@fail A er) (λ _ _ _, False).
Proof. by intros w b w' [=]. Qed.
Lemma gives_lift {A} (r : Res A) : gives (lift r) (λ e b e', r = Ok b ∧ e' = e).
Proof. by intros w b w' [= -> <-]. Qed.
Lemma gives_now : gives now (λ e t e', t = e.(e_now) ∧ e' = e).
Proof. by intros w b w' [= <- <-]. Qed.
Lemma gives_logf msg : gives (logf msg) (λ e _ e', e' = e).
Proof. intros w b w' [= <- <-]. split; [done|]. apply (messages_logf msg w). Qed.
Lemma gives_bind {A B} (m : M A) (k : A → M B) Q1 Q2 :
  gives m Q1 → (∀ a, gives (k a) (Q2 a)) →
  gives (m ≫= k) (λ e b e'', ∃ a e', Q1 e a e' ∧ Q2 a e' b e'').
Proof.
  intros Hm Hk w b w'' E. unfold mbind, M_bind in E.
  destruct (m w) as [[a|er] w'] eqn:Em; [|done].
  destruct (Hm w a w' Em) as [? Ht]. destruct (Hk a w' b w'' E) as [? Ht'].
  split; [eauto|congruence].
Qed.
Lemma gives_fmap {A B} (f : A → B) (m : M A) Q :
  gives m Q → gives (f <$> m) (λ e b e', ∃ a, b = f a ∧ Q e a e').
Proof.
  intros Hm. eapply gives_mono; [apply gives_bind; [done|intros; apply gives_ret]|].
  naive_solver.
Qed.
Lemma gives_catch {A} (m : M A) h Q : gives m Q → refails h → gives (catch m h) Q.
Proof.
  intros Hm Hh w a w' [(b & [= ->] & E)|(? & ? & [=] & _)]%catch_cases; [|done]. by apply Hm.
Qed.
Lemma gives_wrap {A} p (m : M A) Q : gives m Q → gives (wrap p m) Q.
Proof. intros. apply gives_catch; [done|apply refails_fail]. Qed.
Lemma gives_if {A} (P : Prop) `{Decision P} (m1 m2 : M A) Q1 Q2 :
  gives m1 Q1 → gives m2 Q2 →
  gives (if decide P then m1 else m2) (λ e a e', (P ∧ Q1 e a e') ∨ (¬ P ∧ Q2 e a e')).
Proof. intros H1 H2. case_decide; intros w a w' E; [apply H1 in E|apply H2 in E]; naive_solver. Qed.
(** A guard: past it, its condition does not hold. *)
Lemma gives_guard {A} (P : Prop) `{Decision P} er (m : M A) Q :
  gives m Q → gives (if decide P then fail er else m) (λ e a e', ¬ P ∧ Q e a e').
Proof. intros Hm. case_decide; intros w a w' E; [done|]. by destruct (Hm w a w' E). Qed.
(** A check: past it, its condition holds. *)
Lemma gives_check (b : bool) er :
  gives (if b then mret tt else fail er) (λ e _ e', b = true ∧ e' = e).
Proof. destruct b; intros w [] w' [=]; by subst. Qed.
Lemma gives_external : gives external (λ e _ e', e' = e).
Proof.
  intros w a w' E. split; [|unfold messages]; apply external_cases in E as [He Ht]; [done|by rewrite Ht].
Qed.
Lemma gives_run_stmt {A} c (st : Stmt A) :
  gives (run_stmt c st)
    (λ e a e', ∃ g d, st (stmt_in c e g) e.(e_db) = Ok (a, d) ∧ e' = with_db e d).
Proof.
  intros w a w' [(e & [=] & _)|(b & d & g & [= ->] & Hst & Henv & Ht)]%run_stmt_cases.
  split; [by exists g, d|]. unfold messages. by rewrite Ht.
Qed.
Lemma gives_query {A} c (f : StmtEnv → DB → A) :
  gives (run_stmt c (query f)) (λ e a e', e' = e ∧ ∃ g, a = f (stmt_in c e g) e.(e_db)).
Proof.
  eapply gives_mono; [apply gives_run_stmt|]. intros e a e' (g & d & Hst & ->).
  unfold query in Hst. simplify_eq. destruct e; naive_solver.
Qed.
Lemma gives_query_row {A} c (f : StmtEnv → DB → list A) :
  gives (run_stmt c (query_row f))
    (λ e a e', e' = e ∧ ∃ g l, f (stmt_in c e g) e.(e_db) = a :: l).
Proof.
  eapply gives_mono; [apply gives_run_stmt|]. intros e a e' (g & d & Hst & ->).
  unfold query_row in Hst. destruct (f _ _) eqn:E; [done|]. simplify_eq.
  split; [by destruct e|eauto].
Qed.
(** What an observer sees is what its success says. *)
Lemma gives_observes {A} (m : M A) q :
  observes m q → gives m (λ e a e', e' = e ∧ q e a).
Proof.
  intros Hm w a w' E. destruct (observes_run _ _ _ _ _ Hm E) as [[He Ht] Hq].
  split; [auto|]. unfold messages. by rewrite Ht.
Qed.
Lemma gives_exec_affected p c (st : Stmt Z) :
  gives (exec_affected p c st)
    (λ e _ e', ∃ n g d, n ≠ 0 ∧ st (stmt_in c e g) e.(e_db) = Ok (n, d) ∧ e' = with_db e d).
Proof.
  intros w a w' [(e & [=] & _)|(n & d & g & Hst & [Henv Ht] & Hr)]%exec_affected_cases.
  case_decide; [done|]. split; [by exists n, g, d|]. unfold messages. by rewrite Ht.
Qed.
Lemma gives_set_session f :
  gives (set_session f) (λ e _ e', e' = mkEnv e.(e_db) (f e.(e_sess)) e.(e_now)).
Proof. by intros w a w' [= <- <-]. Qed.
Lemma gives_SetCurrentOrg o :
  gives (SetCurrentOrg o) (λ e _ e',
    e' = mkEnv e.(e_db) (mkSession e.(e_sess).(app_current_user_id) (Some o)) e.(e_now)).
Proof.
  apply gives_wrap. eapply gives_mono.
  - apply gives_bind; [apply gives_external|]. intros a. apply gives_set_session.
  - by intros e a e' (_ & ? & -> & ->).
Qed.
Lemma gives_SetCurrentUser u :
  gives (SetCurrentUser u) (λ e _ e',
    e' = mkEnv e.(e_db) (mkSession (Some u) e.(e_sess).(app_current_org_id)) e.(e_now)).
Proof.
  apply gives_wrap. eapply gives_mono.
  - apply gives_bind; [apply gives_external|]. intros a. apply gives_set_session.
  - by intros e a e' (_ & ? & -> & ->).
Qed.

(** ** Transactions *)

Definition not_nil (u : uuid) : option uuid := if decide (u = Nil) then None else Some u.
(** The session a transaction's body starts with. *)
Definition tx_session (u o : uuid) : Session := mkSession (not_nil u) (not_nil o).
Definition tx_env (e : Env) (u o : uuid) : Env := mkEnv e.(e_db) (tx_session u o) e.(e_now).

Lemma gives_tx_body {A} u o (fn : M A) Q :
  gives fn Q →
  gives ((if decide (u = Nil) then mret tt else SetCurrentUser u) ;;
         (if decide (o = Nil) then mret tt else SetCurrentOrg o) ;;
         a ← fn; wrap "committing transaction" external ;; mret a)
    (λ e a e', e.(e_sess) = noSession → Q (tx_env e u o) a e').
Proof.
  intros Hfn. eapply gives_mono.
  - apply gives_bind; [apply gives_if; [apply gives_ret|apply gives_SetCurrentUser]|]. intros x1.
    apply gives_bind; [apply gives_if; [apply gives_ret|apply gives_SetCurrentOrg]|]. intros x2.
    apply gives_bind; [exact Hfn|]. intros a.
    apply gives_bind; [apply gives_wrap, gives_external|]. intros x3. apply gives_ret.
  - simpl. intros e a e' ([] & e1 & H1 & [] & e2 & H2 & b & e3 & Hb & _ & e4 & -> & -> & ->) Hs.
    unfold tx_env, tx_session, not_nil. destruct e as [d s t]. simpl in *. subst s.
    destruct H1 as [(? & _ & ->)|(? & ->)], H2 as [(? & _ & ->)|(? & ->)]; simpl in *;
      repeat case_decide; done.
Qed.

(** A transaction succeeds with its body, or changes nothing. *)
Lemma WithTx_cases {A} u o (fn : M A) Q w r w' :
  gives fn Q → WithTx u o fn w = (r, w') →
  (∃ er, r = Err er ∧ w'.(w_db) = w.(w_db) ∧ w'.(w_sess) = w.(w_sess))
  ∨ ∃ a e1, r = Ok a ∧ Q (tx_env (env_of w) u o) a e1 ∧ w'.(w_db) = e1.(e_db)
            ∧ w'.(w_sess) = w.(w_sess) ∧ w'.(w_now) = e1.(e_now) ∧ messages w' = messages w.
Proof.
  intros Hfn E. unfold WithTx in E. unfold mbind at 1, M_bind at 1 in E.
  destruct (wrap "beginning transaction" external w) as [[[]|er] w1] eqn:Eb.
  2:{ apply catch_cases in Eb as [(? & ? & ?)|(? & ? & _ & Eb)]; [done| |apply refails_fail].
      apply external_cases in Eb as [[= ???] _]. simplify_eq. eauto. }
  apply catch_cases in Eb as [(? & _ & Eb)|(? & ? & ? & _)]; [|done|apply refails_fail].
  apply external_cases in Eb as [[= Hd Hs Hn] Ht]. unfold in_tx in E.
  pose proof (gives_tx_body u o fn Q Hfn (set_sess noSession w1)) as Hbody.
  set (body := mbind _ _) in E. fold body in Hbody.
  destruct (body (set_sess noSession w1)) as [[a|er] w2] eqn:E2; simplify_eq/=.
  - right. destruct (Hbody a w2 eq_refl) as [HQ Hm].
    exists a, (env_of w2). split; [done|]. split.
    { replace (tx_env (env_of w) u o) with (tx_env (env_of (set_sess noSession w1)) u o); [by apply HQ|].
      unfold tx_env. simpl. congruence. }
    split; [done|]. split; [done|]. split; [done|].
    unfold messages in *. simpl in *. by rewrite Hm, Ht.
  - left. exists er. simpl. split; [done|]. split; [|done]. by rewrite Hd.
Qed.

(** ** Computations that send nothing, whether they fail or not *)

Definition quiet {A} (m : M A) : Prop := ∀ w, messages (m w).2 = messages w.

Lemma quiet_ret {A} (a : A) : quiet (mret a).
Proof. by intros w. Qed.
Lemma quiet_fail {A} e : quiet (@fail A e).
Proof. by intros w. Qed.
Lemma quiet_gets {A} (f : World → A) : quiet (gets f).
Proof. by intros w. Qed.
Lemma quiet_logf msg : quiet (logf msg).
Proof. intros w. apply messages_logf. Qed.
Lemma quiet_set_session f : quiet (set_session f).
Proof. by intros w. Qed.
Lemma quiet_external : quiet external.
Proof.
  intros w. destruct (external w) as [r w'] eqn:E. apply external_cases in E as [_ Ht].
  unfold messages. simpl. by rewrite Ht.
Qed.
Lemma quiet_bind {A B} (m : M A) (k : A → M B) : quiet m → (∀ a, quiet (k a)) → quiet (m ≫= k).
Proof.
  intros Hm Hk w. unfold mbind, M_bind. specialize (Hm w).
  destruct (m w) as [[a|e] w']; simpl in *; [by rewrite Hk|done].
Qed.
Lemma quiet_fmap {A B} (f : A → B) (m : M A) : quiet m → quiet (f <$> m).
Proof. intros. apply quiet_bind; [done|]. intros. apply quiet_ret. Qed.
Lemma quiet_try {A} (m : M A) : quiet m → quiet (try m).
Proof. intros Hm w. unfold try. specialize (Hm w). by destruct (m w). Qed.
Lemma quiet_catch {A} (m : M A) h : quiet m → (∀ e, quiet (h e)) → quiet (catch m h).
Proof.
  intros Hm Hh w. unfold catch. specialize (Hm w).
  destruct (m w) as [[a|e] w']; simpl in *; [done|by rewrite Hh].
Qed.
Lemma quiet_wrap {A} p (m : M A) : quiet m → quiet (wrap p m).
Proof. intros. apply quiet_catch; [done|]. intros. apply quiet_fail. Qed.
Lemma quiet_run_stmt {A} c (st : Stmt A) : quiet (run_stmt c st).
Proof.
  apply quiet_bind; [apply quiet_external|]. intros u w. unfold execute.
  by destruct (st _ _) as [[a d]|e].
Qed.
Lemma quiet_SetCurrentUser u : quiet (SetCurrentUser u).
Proof. apply quiet_wrap, quiet_bind; [apply quiet_external|intros; apply quiet_set_session]. Qed.
Lemma quiet_SetCurrentOrg u : quiet (SetCurrentOrg u).
Proof. apply quiet_wrap, quiet_bind; [apply quiet_external|intros; apply quiet_set_session]. Qed.
Lemma quiet_exec_affected p c st : quiet (exec_affected p c st).
Proof.
  apply quiet_bind; [apply quiet_wrap, quiet_run_stmt|]. intros n.
  case_decide; [apply quiet_fail|apply quiet_ret].
Qed.
Lemma quiet_WithTx {A} u o (fn : M A) : quiet fn → quiet (WithTx u o fn).
Proof.
  intros Hfn. apply quiet_bind; [apply quiet_wrap, quiet_external|]. intros _ w. unfold in_tx.
  match goal with |- context [mbind ?k ?m] => set (body := mbind k m) end.
  assert (quiet body) as Hbody.
  { apply quiet_bind; [case_decide; [apply quiet_ret|apply quiet_SetCurrentUser]|]. intros _.
    apply quiet_bind; [case_decide; [apply quiet_ret|apply quiet_SetCurrentOrg]|]. intros _.
    apply quiet_bind; [done|]. intros a.
    apply quiet_bind; [apply quiet_wrap, quiet_external|]. intros _. apply quiet_ret. }
  specialize (Hbody (set_sess noSession w)). by destruct (body _) as [[a|e] w'].
Qed.

Create HintDb quiet.
#[export] Hint Resolve quiet_ret quiet_fail quiet_gets quiet_logf quiet_set_session quiet_external
  quiet_run_stmt quiet_SetCurrentUser quiet_SetCurrentOrg quiet_exec_affected quiet_try quiet_wrap
  quiet_WithTx : quiet.
Ltac quiet_step :=
  match goal with
  | |- quiet (mbind _ _) => apply quiet_bind; [|intros ?]
  | |- quiet (catch _ _) => apply quiet_catch; [|intros ?]
  | |- quiet (fmap _ _) => apply quiet_fmap
  | |- quiet (match ?x with _ => _ end) => destruct x
  | |- quiet _ => solve [eauto 4 with quiet]
  | |- quiet (wrap _ _) => apply quiet_wrap
  | |- quiet (or_conflict _ _) => apply quiet_catch; [|intros ?]
  | |- quiet (or_not_found _ _) => apply quiet_catch; [|intros ?]
  | |- quiet (scan _) => apply quiet_catch; [|intros ?]
  | |- quiet (try _) => apply quiet_try
  | |- quiet (WithTx _ _ _) => apply quiet_WithTx
  end.
Ltac quiet_auto := repeat quiet_step.

(** ** Automation: one lemma per operation in the database [gives] *)

Create HintDb gives.
#[export] Hint Constants Opaque : gives.
#[export] Hint Resolve gives_ret gives_fail gives_lift gives_now gives_logf gives_external
  gives_run_stmt gives_query gives_query_row gives_exec_affected gives_SetCurrentOrg
  gives_SetCurrentUser : gives.
Ltac gives_step :=
  match goal with
  | |- gives (mret _) _ => apply gives_ret
  | |- gives ?m _ =>
      let H := fresh in eassert (gives m _) as H by (eauto 2 with gives nocore); exact H
  | |- gives (mbind _ _) _ => eapply gives_bind; [|intros ?]
  | |- gives (if decide _ then fail _ else _) _ => eapply gives_guard
  | |- gives (if decide _ then _ else _) _ => eapply gives_if
  | |- gives (fmap _ _) _ => eapply gives_fmap
  | |- gives (wrap _ _) _ => eapply gives_wrap
  | |- gives (catch _ _) _ => eapply gives_catch; [|solve [eauto with effects]]
  | |- gives (or_conflict _ _) _ => eapply gives_catch; [|solve [eauto with effects]]
  | |- gives (or_not_found _ _) _ => eapply gives_catch; [|solve [eauto with effects]]
  | |- gives (scan _) _ => eapply gives_catch; [|solve [eauto with effects]]
  end.
Ltac gives_auto := repeat gives_step.
(** Takes the resulting description apart. *)
Ltac gives_inv :=
  repeat match goal with
  | H : ∃ _, _ |- _ => destruct H
  | H : _ ∧ _ |- _ => destruct H
  | H : False |- _ => destruct H
  | H : ?x = _ |- _ => subst x
  | H : _ = ?x |- _ => subst x
  end.
