(* ===== verification/Failures.v ===== *)
(** * Failures: which calls failed

    The oracle of a world says of each outgoing call to come whether it fails.
    [failures w] counts the failing ones, so a computation that ends in [w']
    met [failures w - failures w'] of them.  A computation is [blameless] when
    its only errors are failed calls: past it, an error means that the count
    went down.  Closed under the monad's operations, statement by statement:
    a statement is blameless where the database accepts it. *)
From S2P Require Import Prelude Json Schema Effects Rls Outcomes.
From stdpp Require Import base gmap strings list.
From Stdlib Require Import ZArith Lia.

Fixpoint failing (fs : list (option string)) : nat :=
  match fs with [] => 0 | Some _ :: fs => S (failing fs) | None :: fs => failing fs end.
Definition failures (w : World) : nat := failing w.(w_faults).
(** Between the two worlds, at least [n] calls failed. *)
Definition lost (n : nat) (w w' : World) : Prop := failures w' + n ≤ failures w.
(** The world moved on: identifiers are drawn and calls are made. *)
Definition onward (w w' : World) : Prop :=
  (w.(w_gen) ≤ w'.(w_gen))%N ∧ failures w' ≤ failures w.
#[export] Instance onward_preorder : PreOrder onward.
Proof. unfold onward. split; [split; lia|]. intros ??? [] []. split; lia. Qed.

Lemma lost_onward_l n w w1 w' : onward w w1 → lost n w1 w' → lost n w w'.
Proof. unfold onward, lost. lia. Qed.
Lemma lost_onward_r n w w1 w' : lost n w w1 → onward w1 w' → lost n w w'.
Proof. unfold onward, lost. lia. Qed.
Lemma lost_add n m w w1 w' : lost n w w1 → lost m w1 w' → lost (n + m) w w'.
Proof. unfold lost. lia. Qed.
Lemma lost_calm n w w' : calm w → lost n w w' → n = 0.
Proof. unfold calm, lost, failures. intros ->. simpl. lia. Qed.

(** ** Every computation moves the world on *)

Definition onwards {A} (m : M A) : Prop := ∀ w, onward w (m w).2.

Lemma onwards_run {A} (m : M A) w r w' : onwards m → m w = (r, w') → onward w w'.
Proof. intros Hm E. specialize (Hm w). by rewrite E in Hm. Qed.
Lemma onwards_ret {A} (a : A) : onwards (mret a).
Proof. intros w. simpl. reflexivity. Qed.
Lemma onwards_fail {A} e : onwards (@fail A e).
Proof. intros w. simpl. reflexivity. Qed.
Lemma onwards_gets {A} (f : World → A) : onwards (gets f).
Proof. intros w. simpl. reflexivity. Qed.
Lemma onwards_emit e : onwards (emit e).
Proof. intros w. split; simpl; unfold failures; simpl; lia. Qed.
Lemma onwards_set_session f : onwards (set_session f).
Proof. intros w. split; simpl; unfold failures; simpl; lia. Qed.
Lemma external_failures w :
  match external w with
  | (Ok _, w') => onward w w'
  | (Err _, w') => onward w w' ∧ lost 1 w w'
  end.
Proof.
  unfold external, onward, lost, failures.
  destruct (w_faults w) as [|[m|] fs] eqn:E; simpl; rewrite ?E; simpl; lia.
Qed.
Lemma onwards_external : onwards external.
Proof. intros w. pose proof (external_failures w). destruct (external w) as [[[]|e] w']; tauto. Qed.
Lemma onwards_bind {A B} (m : M A) (k : A → M B) :
  onwards m → (∀ a, onwards (k a)) → onwards (m ≫= k).
Proof.
  intros Hm Hk w. unfold mbind, M_bind. specialize (Hm w).
  destruct (m w) as [[a|e] w']; simpl in *; [|done]. etransitivity; [done|apply Hk].
Qed.
Lemma onwards_fmap {A B} (f : A → B) (m : M A) : onwards m → onwards (f <$> m).
Proof. intros. apply onwards_bind; [done|]. intros. apply onwards_ret. Qed.
Lemma onwards_try {A} (m : M A) : onwards m → onwards (try m).
Proof. intros Hm w. unfold try. specialize (Hm w). by destruct (m w). Qed.
Lemma onwards_catch {A} (m : M A) h : onwards m → (∀ e, onwards (h e)) → onwards (catch m h).
Proof.
  intros Hm Hh w. unfold catch. specialize (Hm w).
  destruct (m w) as [[a|e] w']; simpl in *; [done|]. etransitivity; [done|apply Hh].
Qed.
Lemma onwards_wrap {A} p (m : M A) : onwards m → onwards (wrap p m).
Proof. intros. apply onwards_catch; [done|]. intros. apply onwards_fail. Qed.
Lemma onwards_run_stmt {A} c (st : Stmt A) : onwards (run_stmt c st).
Proof.
  apply onwards_bind; [apply onwards_external|]. intros _ w. unfold execute.
  destruct (st _ _) as [[a d]|e]; split; simpl; unfold failures; simpl; lia.
Qed.
Lemma onwards_PublishDurable s p : onwards (PublishDurable s p).
Proof. apply onwards_wrap, onwards_bind; [apply onwards_external|intros; apply onwards_emit]. Qed.
Lemma onwards_exec_affected p c st : onwards (exec_affected p c st).
Proof.
  apply onwards_bind; [apply onwards_wrap, onwards_run_stmt|]. intros n.
  case_decide; [apply onwards_fail|apply onwards_ret].
Qed.
Lemma onwards_SetCurrentUser u : onwards (SetCurrentUser u).
Proof. apply onwards_wrap, onwards_bind; [apply onwards_external|intros; apply onwards_set_session]. Qed.
Lemma onwards_SetCurrentOrg u : onwards (SetCurrentOrg u).
Proof. apply onwards_wrap, onwards_bind; [apply onwards_external|intros; apply onwards_set_session]. Qed.
Lemma onwards_in_tx {A} (m : M A) : onwards m → onwards (in_tx m).
Proof.
  intros Hm w. unfold in_tx. specialize (Hm (set_sess noSession w)).
  by destruct (m _) as [[a|e] w'].
Qed.
Lemma onwards_WithTx {A} u o (fn : M A) : onwards fn → onwards (WithTx u o fn).
Proof.
  intros Hfn. apply onwards_bind; [apply onwards_wrap, onwards_external|]. intros _.
  apply onwards_in_tx.
  apply onwards_bind; [case_decide; [apply onwards_ret|apply onwards_SetCurrentUser]|]. intros _.
  apply onwards_bind; [case_decide; [apply onwards_ret|apply onwards_SetCurrentOrg]|]. intros _.
  apply onwards_bind; [done|]. intros a.
  apply onwards_bind; [apply onwards_wrap, onwards_external|]. intros _. apply onwards_ret.
Qed.

Create HintDb onwards.
#[export] Hint Resolve onwards_ret onwards_fail onwards_gets onwards_emit onwards_set_session
  onwards_external onwards_run_stmt onwards_PublishDurable onwards_exec_affected onwards_SetCurrentUser
  onwards_SetCurrentOrg onwards_try onwards_wrap onwards_in_tx onwards_WithTx : onwards.
Ltac onwards_step :=
  match goal with
  | |- onwards (mbind _ _) => apply onwards_bind; [|intros ?]
  | |- onwards (catch _ _) => apply onwards_catch; [|intros ?]
  | |- onwards (fmap _ _) => apply onwards_fmap
  | |- onwards (match ?x with _ => _ end) => destruct x
  | |- onwards _ => solve [eauto 4 with onwards]
  | |- onwards (wrap _ _) => apply onwards_wrap
  | |- onwards (or_conflict _ _) => apply onwards_catch; [|intros ?]
  | |- onwards (or_not_found _ _) => apply onwards_catch; [|intros ?]
  | |- onwards (scan _) => apply onwards_catch; [|intros ?]
  | |- onwards (try _) => apply onwards_try
  | |- onwards (WithTx _ _ _) => apply onwards_WithTx
  end.
Ltac onwards_auto := repeat onwards_step.

(** ** Errors that are failed calls *)

Definition blameless {A} (m : M A) (w : World) : Prop :=
  match m w with
  | (Ok _, w') => onward w w'
  | (Err _, w') => onward w w' ∧ lost 1 w w'
  end.

Lemma blameless_onward {A} (m : M A) w : blameless m w → onward w (m w).2.
Proof. unfold blameless. destruct (m w) as [[a|e] w']; simpl; tauto. Qed.
Lemma blameless_Err {A} (m : M A) w e w' : blameless m w → m w = (Err e, w') → lost 1 w w'.
Proof. unfold blameless. intros Hm E. rewrite E in Hm. apply Hm. Qed.
Lemma blameless_ret {A} (a : A) w : blameless (mret a) w.
Proof. unfold blameless. simpl. reflexivity. Qed.
Lemma blameless_emit e w : blameless (emit e) w.
Proof. apply (onwards_emit e w). Qed.
Lemma blameless_external w : blameless external w.
Proof. apply external_failures. Qed.
Lemma blameless_set_session f w : blameless (set_session f) w.
Proof. apply (onwards_set_session f w). Qed.
(** What follows is run where the first part leaves the world. *)
Lemma blameless_bind {A B} (m : M A) (k : A → M B) w :
  blameless m w → (∀ a w', m w = (Ok a, w') → onward w w' → blameless (k a) w') →
  blameless (m ≫= k) w.
Proof.
  unfold blameless, mbind, M_bind. intros Hm Hk. destruct (m w) as [[a|e] w']; [|done].
  specialize (Hk a w' eq_refl Hm). destruct (k a w') as [[b|e] w''].
  - by transitivity w'.
  - destruct Hk. split; [by transitivity w'|by eapply lost_onward_l].
Qed.
Lemma blameless_catch {A} (m : M A) h w : refails h → blameless m w → blameless (catch m h) w.
Proof.
  unfold blameless, catch. intros Hh. destruct (m w) as [[a|e] w']; [done|].
  destruct (Hh e w') as [e' ->]. done.
Qed.
Lemma blameless_wrap {A} p (m : M A) w : blameless m w → blameless (wrap p m) w.
Proof. apply blameless_catch, refails_fail. Qed.
Lemma blameless_SetCurrentUser u w : blameless (SetCurrentUser u) w.
Proof.
  apply blameless_wrap, blameless_bind; [apply blameless_external|]. intros. apply blameless_set_session.
Qed.
Lemma blameless_SetCurrentOrg u w : blameless (SetCurrentOrg u) w.
Proof.
  apply blameless_wrap, blameless_bind; [apply blameless_external|]. intros. apply blameless_set_session.
Qed.
Lemma blameless_PublishDurable s p w : blameless (PublishDurable s p) w.
Proof.
  apply blameless_wrap, blameless_bind; [apply blameless_external|]. intros. apply blameless_emit.
Qed.
(** A statement the database accepts, whatever identifier it draws. *)
Lemma blameless_run_stmt {A} c (st : Stmt A) w :
  (∀ g, (w.(w_gen) ≤ g)%N → ∃ a d, st (stmt_in c (env_of w) g) w.(w_db) = Ok (a, d)) →
  blameless (run_stmt c st) w.
Proof.
  intros Hst. apply blameless_bind; [apply blameless_external|]. intros [] w' E [Hg Hf].
  apply external_cases in E. unfold blameless, execute. rewrite (stmt_env_in c w w') by done.
  assert (w_db w' = w_db w) as -> by (destruct E as [[=] _]; congruence).
  destruct (Hst (w_gen w') Hg) as (a & d & ->). split; simpl; unfold failures; simpl; lia.
Qed.
Lemma blameless_query {A} c (f : StmtEnv → DB → A) w : blameless (run_stmt c (query f)) w.
Proof. apply blameless_run_stmt. intros. by do 2 eexists. Qed.
Lemma blameless_query_row {A} c (f : StmtEnv → DB → list A) w :
  (∀ g, f (stmt_in c (env_of w) g) w.(w_db) ≠ []) → blameless (run_stmt c (query_row f)) w.
Proof.
  intros Hf. apply blameless_run_stmt. intros g _. unfold query_row.
  destruct (f _ _) eqn:E; [by apply Hf in E|]. by do 2 eexists.
Qed.
Lemma blameless_exec_affected p c (st : Stmt Z) w :
  (∀ g, ∃ n d, st (stmt_in c (env_of w) g) w.(w_db) = Ok (n, d) ∧ n ≠ 0%Z) →
  blameless (exec_affected p c st) w.
Proof.
  intros Hst. apply blameless_bind.
  - apply blameless_wrap, blameless_run_stmt. intros g _. destruct (Hst g) as (n & d & -> & _). by do 2 eexists.
  - intros n w' [(b & [= ->] & E)|(? & ? & [=] & _)]%catch_cases _; [|apply refails_fail].
    apply run_stmt_cases in E as [(e & [=] & _)|(n' & d & g & [= ->] & E & _)].
    destruct (Hst g) as (n & d' & E' & Hn). rewrite E in E'. simplify_eq.
    rewrite decide_False by done. apply blameless_ret.
Qed.
(** An update of a row the policy shows. *)
Lemma blameless_update p {A} (t : DB → table A) put org f i c w x :
  t w.(w_db) !! i = Some x → (∀ g, org_visible (stmt_in c (env_of w) g) w.(w_db) (org x)) →
  blameless (exec_affected p c (update_by_id t put org f i)) w.
Proof.
  intros Hx Hv. apply blameless_exec_affected. intros g. unfold update_by_id. rewrite Hx.
  rewrite decide_True by apply Hv. by do 2 eexists.
Qed.
Lemma blameless_in_tx {A} (m : M A) w : blameless m (set_sess noSession w) → blameless (in_tx m) w.
Proof. unfold blameless, in_tx. by destruct (m _) as [[a|e] w']. Qed.
(** How a transaction's session is set. *)
Lemma gives_as_user u :
  gives (if decide (u = Nil) then mret tt else SetCurrentUser u)
    (λ e _ e', e.(e_sess) = noSession → e' = mkEnv e.(e_db) (mkSession (not_nil u) None) e.(e_now)).
Proof.
  unfold not_nil. case_decide; (eapply gives_mono; [first [apply gives_ret|apply gives_SetCurrentUser]|]);
    intros [d s t] []; simpl; naive_solver.
Qed.
Lemma gives_as_org o :
  gives (if decide (o = Nil) then mret tt else SetCurrentOrg o)
    (λ e _ e', e.(e_sess).(app_current_org_id) = None →
       e' = mkEnv e.(e_db) (mkSession e.(e_sess).(app_current_user_id) (not_nil o)) e.(e_now)).
Proof.
  unfold not_nil. case_decide; (eapply gives_mono; [first [apply gives_ret|apply gives_SetCurrentOrg]|]);
    intros [d [su so] t] []; simpl; naive_solver.
Qed.
(** A transaction whose body is blameless in the session it starts with. *)
Lemma blameless_WithTx {A} u o (fn : M A) w :
  (∀ w1, onward w w1 → env_of w1 = tx_env (env_of w) u o → blameless fn w1) →
  blameless (WithTx u o fn) w.
Proof.
  intros Hfn. apply blameless_bind; [apply blameless_wrap, blameless_external|]. intros [] w1 E1 Ho1.
  apply catch_cases in E1 as [(? & _ & E1)|(? & ? & [=] & _)]; [|apply refails_fail].
  apply external_cases in E1 as [E1 _]. apply blameless_in_tx.
  apply blameless_bind; [case_decide; [apply blameless_ret|apply blameless_SetCurrentUser]|].
  intros [] w2 E2 Ho2.
  apply blameless_bind; [destruct (decide (o = Nil)); [apply blameless_ret|apply blameless_SetCurrentOrg]|].
  intros [] w3 E3 Ho3. apply blameless_bind.
  - apply Hfn; [by transitivity w1; [|transitivity w2]|].
    destruct (gives_as_user u _ _ _ E2) as [He2 _]. destruct (gives_as_org o _ _ _ E3) as [He3 _].
    specialize (He2 eq_refl). rewrite He2 in He3. specialize (He3 eq_refl). rewrite He3.
    unfold tx_env, tx_session. simpl. unfold env_of in E1. simplify_eq. congruence.
  - intros a w4 _ _. apply blameless_bind; [apply blameless_wrap, blameless_external|]. intros. apply blameless_ret.
Qed.
