(* ===== verification/DbTenancy.v ===== *)
(** * DbTenancy: the repositories of the tenancy tables

    internal/db/organization.go, user.go, membership.go, project.go,
    application.go, api_key.go, domain.go, refresh_token.go and quota.go: one
    Module per repository, one definition per method.  A method is its SQL
    statement ([*_sql]) run over the connection, and what the Go code makes of
    the outcome. *)
From S2P Require Import Prelude Json Schema Effects Rls.
From stdpp Require Import base gmap strings list sorting.
From Stdlib Require Import ZArith Lia.
Open Scope Z_scope.

Module OrganizationRepository.
Definition Create_sql (name slug : string) : Stmt Organization := λ s d,
  let org := {| Organization_ID := s.(s_gen); Organization_Name := name;
                Organization_Slug := slug; Organization_CreatedAt := s.(s_now) |} in
  require (d.(organizations) !! s.(s_gen) = None
           ∧ Forall (λ o, o.(Organization_Slug) ≠ slug) (rows d.(organizations)))
          pgUniqueViolation ;;
  mret (org, set_organizations (<[s.(s_gen) := org]> d.(organizations)) d).
Definition Create (c : Conn) (name slug : string) : M Organization :=
  or_conflict "creating organization" (run_stmt c (Create_sql name slug)).

Definition Get (c : Conn) (id : uuid) : M Organization :=
  or_not_found "fetching organization"
    (run_stmt c (query_row (λ _ d, option_list (d.(organizations) !! id)))).

Definition Update_sql (id : uuid) (name : string) : Stmt Organization := λ _ d,
  match d.(organizations) !! id with
  | None => Err ErrNoRows
  | Some o =>
      let o' := {| Organization_ID := o.(Organization_ID); Organization_Name := name;
                   Organization_Slug := o.(Organization_Slug);
                   Organization_CreatedAt := o.(Organization_CreatedAt) |} in
      Ok (o', set_organizations (<[id := o']> d.(organizations)) d)
  end.
Definition Update (c : Conn) (id : uuid) (name : string) : M Organization :=
  or_not_found "updating organization" (run_stmt c (Update_sql id name)).

Definition Delete_sql (id : uuid) : Stmt Z := λ _ d,
  match d.(organizations) !! id with
  | None => Ok (0, d)
  | Some _ => Ok (1, drop_organization id d)
  end.
Definition Delete (c : Conn) (id : uuid) : M unit :=
  exec_affected "deleting organization" c (Delete_sql id).
End OrganizationRepository.

Module UserRepository.
Definition Create_sql (email passwordHash : string) : Stmt User := λ s d,
  let u := {| User_ID := s.(s_gen); User_Email := email; User_PasswordHash := passwordHash;
              User_CreatedAt := s.(s_now) |} in
  require (d.(users) !! s.(s_gen) = None
           ∧ Forall (λ u, u.(User_Email) ≠ email) (rows d.(users))) pgUniqueViolation ;;
  mret (u, set_users (<[s.(s_gen) := u]> d.(users)) d).
Definition Create (c : Conn) (email passwordHash : string) : M User :=
  or_conflict "creating user" (run_stmt c (Create_sql email passwordHash)).

Definition GetByEmail (c : Conn) (email : string) : M User :=
  or_not_found "fetching user by email"
    (run_stmt c (query_row (λ _ d, select (λ u, u.(User_Email) = email) d.(users)))).

Definition GetByID (c : Conn) (id : uuid) : M User :=
  or_not_found "fetching user by id"
    (run_stmt c (query_row (λ _ d, option_list (d.(users) !! id)))).
End UserRepository.

Module MembershipRepository.
Definition Create_sql (orgID userID : uuid) (role : MembershipRole) : Stmt Membership := λ s d,
  let m := {| Membership_ID := s.(s_gen); Membership_OrgID := orgID;
              Membership_UserID := userID; Membership_Role := role;
              Membership_CreatedAt := s.(s_now) |} in
  require (membership_visible s d m) pgInsufficientPrivilege ;;
  require (d.(memberships) !! s.(s_gen) = None ∧ ¬ is_member d userID orgID)
          pgUniqueViolation ;;
  require (is_Some (d.(organizations) !! orgID) ∧ is_Some (d.(users) !! userID))
          pgForeignKeyViolation ;;
  mret (m, set_memberships (<[s.(s_gen) := m]> d.(memberships)) d).
Definition Create (c : Conn) (orgID userID : uuid) (role : MembershipRole) : M Membership :=
  or_conflict "creating membership" (run_stmt c (Create_sql orgID userID role)).

Definition RoleForUser (c : Conn) (userID orgID : uuid) : M MembershipRole :=
  or_not_found "fetching membership role"
    (run_stmt c (query_row (λ s d,
       Membership_Role <$>
         select (λ m, (m.(Membership_UserID) = userID ∧ m.(Membership_OrgID) = orgID)
                      ∧ membership_visible s d m) d.(memberships)))).

Definition ListForUser (c : Conn) (userID : uuid) : M (list Membership) :=
  wrap "listing memberships"
    (run_stmt c (query (λ s d,
       select (λ m, m.(Membership_UserID) = userID ∧ membership_visible s d m)
              d.(memberships)))).

(** The join with users drops a row without a user. *)
Definition ListByOrg (c : Conn) (orgID : uuid) : M (list (Membership * string)) :=
  wrap "listing org members"
    (run_stmt c (query (λ s d,
       omap (λ m, (λ u, (m, u.(User_Email))) <$> d.(users) !! m.(Membership_UserID))
         (order_by Membership_CreatedAt
           (select (λ m, m.(Membership_OrgID) = orgID ∧ membership_visible s d m)
                   d.(memberships)))))).

Definition with_role (role : MembershipRole) (m : Membership) : Membership :=
  {| Membership_ID := m.(Membership_ID); Membership_OrgID := m.(Membership_OrgID);
     Membership_UserID := m.(Membership_UserID); Membership_Role := role;
     Membership_CreatedAt := m.(Membership_CreatedAt) |}.
(** (org_id, user_id) is unique: at most one row. *)
Definition UpdateRole_sql (orgID userID : uuid) (role : MembershipRole) : Stmt Membership :=
  λ s d,
  let P m := (m.(Membership_OrgID) = orgID ∧ m.(Membership_UserID) = userID)
             ∧ membership_visible s d m in
  match select P d.(memberships) with
  | [] => Err ErrNoRows
  | m :: _ =>
      require (membership_visible s d (with_role role m)) pgInsufficientPrivilege ;;
      mret (with_role role m,
            set_memberships (update_where P (with_role role) d.(memberships)) d)
  end.
Definition UpdateRole (c : Conn) (orgID userID : uuid) (role : MembershipRole) : M Membership :=
  or_not_found "updating membership role" (run_stmt c (UpdateRole_sql orgID userID role)).

Definition Delete_sql (orgID userID : uuid) : Stmt Z := λ s d,
  let P m := (m.(Membership_OrgID) = orgID ∧ m.(Membership_UserID) = userID)
             ∧ membership_visible s d m in
  mret (count P d.(memberships), set_memberships (delete_where P d.(memberships)) d).
Definition Delete (c : Conn) (orgID userID : uuid) : M unit :=
  exec_affected "deleting membership" c (Delete_sql orgID userID).

Definition CountOwners (c : Conn) (orgID : uuid) : M Z :=
  wrap "counting org owners"
    (run_stmt c (query (λ s d,
       count (λ m, (m.(Membership_OrgID) = orgID ∧ m.(Membership_Role) = MembershipRoleOwner)
                   ∧ membership_visible s d m) d.(memberships)))).
End MembershipRepository.

Module ProjectRepository.
Definition Create_sql (orgID : uuid) (name slug : string) : Stmt Project := λ s d,
  let p := {| Project_ID := s.(s_gen); Project_OrgID := orgID; Project_Name := name;
              Project_Slug := slug; Project_CreatedAt := s.(s_now) |} in
  require (project_quota_ok d orgID) pgCheckViolation ;;
  require (org_visible s d orgID) pgInsufficientPrivilege ;;
  require (d.(projects) !! s.(s_gen) = None
           ∧ Forall (λ q, ¬ (q.(Project_OrgID) = orgID ∧ q.(Project_Slug) = slug))
                    (rows d.(projects))) pgUniqueViolation ;;
  require (is_Some (d.(organizations) !! orgID)) pgForeignKeyViolation ;;
  mret (p, set_projects (<[s.(s_gen) := p]> d.(projects)) d).
Definition Create (c : Conn) (orgID : uuid) (name slug : string) : M Project :=
  or_conflict "creating project" (run_stmt c (Create_sql orgID name slug)).

Definition OrgID (c : Conn) (id : uuid) : M uuid :=
  or_not_found "resolving project org"
    (run_stmt c (org_of projects Project_OrgID id)).
End ProjectRepository.

Module ApplicationRepository.
(** The columns the INSERT leaves out take the defaults of
    0004_applications_env_vars.sql. *)
Definition Create_sql (orgID projectID : uuid) (name image : string) (ports : list PortSpec)
    : Stmt Application := λ s d,
  let a := {| Application_ID := s.(s_gen); Application_OrgID := orgID;
              Application_ProjectID := projectID; Application_Name := name;
              Application_Image := image; Application_ReplicasDesired := 1;
              Application_CPUMillicores := 0; Application_MemoryMB := 0;
              Application_Ports := ports; Application_HealthCheckPath := None;
              Application_CreatedAt := s.(s_now); Application_UpdatedAt := s.(s_now) |} in
  require (org_visible s d orgID) pgInsufficientPrivilege ;;
  require (d.(applications) !! s.(s_gen) = None) pgUniqueViolation ;;
  require (is_Some (d.(organizations) !! orgID) ∧ is_Some (d.(projects) !! projectID))
          pgForeignKeyViolation ;;
  mret (a, set_applications (<[s.(s_gen) := a]> d.(applications)) d).
Definition Create (c : Conn) (orgID projectID : uuid) (name image : string)
    (ports : list PortSpec) : M Application :=
  or_conflict "creating application"
    (run_stmt c (Create_sql orgID projectID name image ports)).

Definition Get (c : Conn) (id : uuid) : M Application :=
  or_not_found "fetching application"
    (run_stmt c (query_row (λ s d,
       filter (λ a, org_visible s d a.(Application_OrgID))
              (option_list (d.(applications) !! id))))).

Definition OrgID (c : Conn) (id : uuid) : M uuid :=
  or_not_found "resolving application org"
    (run_stmt c (org_of applications Application_OrgID id)).

Definition with_image (image : string) (s : StmtEnv) (a : Application) : Application :=
  {| Application_ID := a.(Application_ID); Application_OrgID := a.(Application_OrgID);
     Application_ProjectID := a.(Application_ProjectID);
     Application_Name := a.(Application_Name); Application_Image := image;
     Application_ReplicasDesired := a.(Application_ReplicasDesired);
     Application_CPUMillicores := a.(Application_CPUMillicores);
     Application_MemoryMB := a.(Application_MemoryMB);
     Application_Ports := a.(Application_Ports);
     Application_HealthCheckPath := a.(Application_HealthCheckPath);
     Application_CreatedAt := a.(Application_CreatedAt);
     Application_UpdatedAt := s.(s_now) |}.
Definition UpdateImage_sql (id : uuid) (image : string) : Stmt Z :=
  update_by_id applications set_applications Application_OrgID (with_image image) id.
Definition UpdateImage (c : Conn) (id : uuid) (image : string) : M unit :=
  exec_affected "updating application image" c (UpdateImage_sql id image).

Definition with_replicas (replicas : Z) (s : StmtEnv) (a : Application) : Application :=
  {| Application_ID := a.(Application_ID); Application_OrgID := a.(Application_OrgID);
     Application_ProjectID := a.(Application_ProjectID);
     Application_Name := a.(Application_Name); Application_Image := a.(Application_Image);
     Application_ReplicasDesired := replicas;
     Application_CPUMillicores := a.(Application_CPUMillicores);
     Application_MemoryMB := a.(Application_MemoryMB);
     Application_Ports := a.(Application_Ports);
     Application_HealthCheckPath := a.(Application_HealthCheckPath);
     Application_CreatedAt := a.(Application_CreatedAt);
     Application_UpdatedAt := s.(s_now) |}.
Definition UpdateReplicas_sql (id : uuid) (replicas : Z) : Stmt Z := λ s d,
  encode_int4 replicas ;;
  update_by_id applications set_applications Application_OrgID (with_replicas replicas) id s d.
Definition UpdateReplicas (c : Conn) (id : uuid) (replicas : Z) : M unit :=
  exec_affected "updating application replicas" c (UpdateReplicas_sql id replicas).

Definition Delete_sql (id : uuid) : Stmt Z :=
  delete_by_id applications Application_OrgID
    (drop_applications (λ a, a.(Application_ID) = id)) id.
Definition Delete (c : Conn) (id : uuid) : M unit :=
  exec_affected "deleting application" c (Delete_sql id).
End ApplicationRepository.

Module APIKeyRepository.
(** A nil [scopes] is coerced to the empty slice. *)
Definition Create_sql (orgID : uuid) (name : string) (scopes : list string)
    (createdBy : uuid) (keyHash : string) : Stmt APIKey := λ s d,
  let k := {| APIKey_ID := s.(s_gen); APIKey_OrgID := orgID; APIKey_Name := name;
              APIKey_Scopes := scopes; APIKey_CreatedBy := createdBy;
              APIKey_CreatedAt := s.(s_now); APIKey_RevokedAt := None |} in
  require (org_visible s d orgID) pgInsufficientPrivilege ;;
  require (d.(api_keys) !! s.(s_gen) = None) pgUniqueViolation ;;
  require (is_Some (d.(organizations) !! orgID) ∧ is_Some (d.(users) !! createdBy))
          pgForeignKeyViolation ;;
  mret (k, set_api_keys (<[s.(s_gen) := {| APIKeyRow_key := k;
                                           APIKeyRow_KeyHash := keyHash |}]> d.(api_keys)) d).
Definition Create (c : Conn) (orgID : uuid) (name : string) (scopes : option (list string))
    (createdBy : uuid) (keyHash : string) : M APIKey :=
  wrap "creating api key"
    (run_stmt c (Create_sql orgID name (default [] scopes) createdBy keyHash)).

Definition ListByOrg (c : Conn) (orgID : uuid) : M (list APIKey) :=
  wrap "listing api keys"
    (run_stmt c (query (λ s d,
       order_by APIKey_CreatedAt (APIKeyRow_key <$>
         select (λ k, k.(APIKeyRow_key).(APIKey_OrgID) = orgID
                      ∧ org_visible s d k.(APIKeyRow_key).(APIKey_OrgID)) d.(api_keys))))).

Definition row_org (k : APIKeyRow) : uuid := k.(APIKeyRow_key).(APIKey_OrgID).
Definition OrgID (c : Conn) (id : uuid) : M uuid :=
  or_not_found "resolving api key org" (run_stmt c (org_of api_keys row_org id)).

Definition revoke (now : time) (r : APIKeyRow) : APIKeyRow :=
  let k := r.(APIKeyRow_key) in
  {| APIKeyRow_key :=
       {| APIKey_ID := k.(APIKey_ID); APIKey_OrgID := k.(APIKey_OrgID);
          APIKey_Name := k.(APIKey_Name); APIKey_Scopes := k.(APIKey_Scopes);
          APIKey_CreatedBy := k.(APIKey_CreatedBy); APIKey_CreatedAt := k.(APIKey_CreatedAt);
          APIKey_RevokedAt := Some now |};
     APIKeyRow_KeyHash := r.(APIKeyRow_KeyHash) |}.
(** [... WHERE id = $1 AND revoked_at IS NULL] *)
Definition Revoke_sql (id : uuid) : Stmt Z := λ s d,
  match d.(api_keys) !! id with
  | Some r =>
      if decide (org_visible s d (row_org r) ∧ r.(APIKeyRow_key).(APIKey_RevokedAt) = None)
      then Ok (1, set_api_keys (<[id := revoke s.(s_now) r]> d.(api_keys)) d)
      else Ok (0, d)
  | None => Ok (0, d)
  end.
Definition Revoke (c : Conn) (id : uuid) : M unit :=
  exec_affected "revoking api key" c (Revoke_sql id).

(** Through [lookup_active_api_key]: no policy applies. *)
Definition LookupActiveByHash (c : Conn) (hash : string) : M APIKey :=
  or_not_found "looking up api key"
    (run_stmt c (query_row (λ _ d, APIKeyRow_key <$>
       select (λ r, r.(APIKeyRow_KeyHash) = hash
                    ∧ r.(APIKeyRow_key).(APIKey_RevokedAt) = None) d.(api_keys)))).
End APIKeyRepository.

Module DomainRepository.
Definition Create_sql (orgID projectID applicationID : uuid) (hostname : string)
    : Stmt Domain := λ s d,
  let x := {| Domain_ID := s.(s_gen); Domain_OrgID := orgID; Domain_ProjectID := projectID;
              Domain_ApplicationID := applicationID; Domain_Hostname := hostname;
              Domain_TLSStatus := DomainTLSStatusPending; Domain_CreatedAt := s.(s_now) |} in
  require (org_visible s d orgID) pgInsufficientPrivilege ;;
  require (d.(domains) !! s.(s_gen) = None
           ∧ Forall (λ y, y.(Domain_Hostname) ≠ hostname) (rows d.(domains)))
          pgUniqueViolation ;;
  require (is_Some (d.(organizations) !! orgID) ∧ is_Some (d.(projects) !! projectID)
           ∧ is_Some (d.(applications) !! applicationID)) pgForeignKeyViolation ;;
  mret (x, set_domains (<[s.(s_gen) := x]> d.(domains)) d).
Definition Create (c : Conn) (orgID projectID applicationID : uuid) (hostname : string)
    : M Domain :=
  or_conflict "creating domain"
    (run_stmt c (Create_sql orgID projectID applicationID hostname)).

Definition ListByProject (c : Conn) (projectID : uuid) : M (list Domain) :=
  wrap "listing domains"
    (run_stmt c (query (λ s d,
       order_by Domain_CreatedAt
         (select (λ x, x.(Domain_ProjectID) = projectID ∧ org_visible s d x.(Domain_OrgID))
                 d.(domains))))).

Definition OrgID (c : Conn) (id : uuid) : M uuid :=
  or_not_found "resolving domain org" (run_stmt c (org_of domains Domain_OrgID id)).

Definition with_tls (status : DomainTLSStatus) (_ : StmtEnv) (x : Domain) : Domain :=
  {| Domain_ID := x.(Domain_ID); Domain_OrgID := x.(Domain_OrgID);
     Domain_ProjectID := x.(Domain_ProjectID);
     Domain_ApplicationID := x.(Domain_ApplicationID); Domain_Hostname := x.(Domain_Hostname);
     Domain_TLSStatus := status; Domain_CreatedAt := x.(Domain_CreatedAt) |}.
Definition UpdateTLSStatus_sql (id : uuid) (status : DomainTLSStatus) : Stmt Z :=
  update_by_id domains set_domains Domain_OrgID (with_tls status) id.
Definition UpdateTLSStatus (c : Conn) (id : uuid) (status : DomainTLSStatus) : M unit :=
  exec_affected "updating domain tls_status" c (UpdateTLSStatus_sql id status).

Definition Delete_sql (id : uuid) : Stmt Z :=
  delete_by_id domains Domain_OrgID (drop_domains (λ x, x.(Domain_ID) = id)) id.
Definition Delete (c : Conn) (id : uuid) : M unit :=
  exec_affected "deleting domain" c (Delete_sql id).
End DomainRepository.

Module RefreshTokenRepository.
Definition Create_sql (userID : uuid) (tokenHash : string) (expiresAt : time)
    : Stmt RefreshToken := λ s d,
  let t := {| RefreshToken_ID := s.(s_gen); RefreshToken_UserID := userID;
              RefreshToken_TokenHash := tokenHash; RefreshToken_CreatedAt := s.(s_now);
              RefreshToken_ExpiresAt := expiresAt; RefreshToken_RevokedAt := None;
              RefreshToken_ReplacedByID := None |} in
  require (d.(refresh_tokens) !! s.(s_gen) = None
           ∧ Forall (λ x, x.(RefreshToken_TokenHash) ≠ tokenHash) (rows d.(refresh_tokens)))
          pgUniqueViolation ;;
  require (is_Some (d.(users) !! userID)) pgForeignKeyViolation ;;
  mret (t, set_refresh_tokens (<[s.(s_gen) := t]> d.(refresh_tokens)) d).
Definition Create (c : Conn) (userID : uuid) (tokenHash : string) (expiresAt : time)
    : M RefreshToken :=
  or_conflict "creating refresh token"
    (scan (run_stmt c (Create_sql userID tokenHash expiresAt))).

(** [errors.Is(err, ErrNotFound)] of an already-scanned error. *)
Definition GetByHash (c : Conn) (tokenHash : string) : M RefreshToken :=
  catch (scan (run_stmt c (query_row (λ _ d,
           select (λ t, t.(RefreshToken_TokenHash) = tokenHash) d.(refresh_tokens)))))
        (λ e, if errors_Is e ErrNotFound then fail ErrNotFound
              else fail (Errorf "fetching refresh token" e)).

Definition revoke (now : time) (replacedBy : option uuid) (t : RefreshToken) : RefreshToken :=
  {| RefreshToken_ID := t.(RefreshToken_ID); RefreshToken_UserID := t.(RefreshToken_UserID);
     RefreshToken_TokenHash := t.(RefreshToken_TokenHash);
     RefreshToken_CreatedAt := t.(RefreshToken_CreatedAt);
     RefreshToken_ExpiresAt := t.(RefreshToken_ExpiresAt);
     RefreshToken_RevokedAt := Some now;
     RefreshToken_ReplacedByID := replacedBy |}.
Definition Rotate_sql (id newID : uuid) : Stmt Z := λ s d,
  match d.(refresh_tokens) !! id with
  | None => Ok (0, d)
  | Some t =>
      require (is_Some (d.(refresh_tokens) !! newID)) pgForeignKeyViolation ;;
      mret (1, set_refresh_tokens
                 (<[id := revoke s.(s_now) (Some newID) t]> d.(refresh_tokens)) d)
  end.
Definition Rotate (c : Conn) (id newID : uuid) : M unit :=
  exec_affected "rotating refresh token" c (Rotate_sql id newID).

Definition Revoke_sql (id : uuid) : Stmt Z := λ s d,
  match d.(refresh_tokens) !! id with
  | None => Ok (0, d)
  | Some t =>
      Ok (1, set_refresh_tokens
               (<[id := revoke s.(s_now) t.(RefreshToken_ReplacedByID) t]>
                  d.(refresh_tokens)) d)
  end.
Definition Revoke (c : Conn) (id : uuid) : M unit :=
  exec_affected "revoking refresh token" c (Revoke_sql id).
End RefreshTokenRepository.

(** internal/db/quota.go *)
Record ResourceUsage := {
  ResourceUsage_Projects : Z; ResourceUsage_Containers : Z;
  ResourceUsage_CPUMillicores : Z; ResourceUsage_MemoryMB : Z;
  ResourceUsage_DeploymentsToday : Z }.

Definition DefaultResourceQuota : ResourceQuota :=
  {| ResourceQuota_OrgID := Nil; ResourceQuota_MaxCPUMillicores := 8000;
     ResourceQuota_MaxMemoryMB := 16384; ResourceQuota_MaxContainers := 20;
     ResourceQuota_MaxProjects := 10; ResourceQuota_MaxDeploymentsPerDay := 100;
     ResourceQuota_CreatedAt := 0 |}.

(** [SUM(col * replicas_desired)]: each product is an INT and must fit one. *)
Fixpoint sum_int4 (l : list Z) : Res Z :=
  match l with
  | [] => mret 0
  | z :: l => require (int4_ok z = true) pgNumericOutOfRange ;;
              n ← sum_int4 l; mret (z + n)
  end.

Module QuotaRepository.
Definition Create_sql (orgID : uuid) (q : ResourceQuota) : Stmt ResourceQuota := λ s d,
  encode_int4 q.(ResourceQuota_MaxCPUMillicores) ;;
  encode_int4 q.(ResourceQuota_MaxMemoryMB) ;;
  encode_int4 q.(ResourceQuota_MaxContainers) ;;
  encode_int4 q.(ResourceQuota_MaxProjects) ;;
  encode_int4 q.(ResourceQuota_MaxDeploymentsPerDay) ;;
  let out := {| ResourceQuota_OrgID := orgID;
                ResourceQuota_MaxCPUMillicores := q.(ResourceQuota_MaxCPUMillicores);
                ResourceQuota_MaxMemoryMB := q.(ResourceQuota_MaxMemoryMB);
                ResourceQuota_MaxContainers := q.(ResourceQuota_MaxContainers);
                ResourceQuota_MaxProjects := q.(ResourceQuota_MaxProjects);
                ResourceQuota_MaxDeploymentsPerDay := q.(ResourceQuota_MaxDeploymentsPerDay);
                ResourceQuota_CreatedAt := s.(s_now) |} in
  require (org_visible s d orgID) pgInsufficientPrivilege ;;
  require (d.(resource_quotas) !! orgID = None) pgUniqueViolation ;;
  require (is_Some (d.(organizations) !! orgID)) pgForeignKeyViolation ;;
  mret (out, set_resource_quotas (<[orgID := out]> d.(resource_quotas)) d).
Definition Create (c : Conn) (orgID : uuid) (q : ResourceQuota) : M ResourceQuota :=
  or_conflict "creating resource quota" (run_stmt c (Create_sql orgID q)).

Definition Get (c : Conn) (orgID : uuid) : M ResourceQuota :=
  or_not_found "getting resource quota"
    (run_stmt c (query_row (λ s d,
       filter (λ q, org_visible s d q.(ResourceQuota_OrgID))
              (option_list (d.(resource_quotas) !! orgID))))).

(** The rows of a tenant table a session sees for one organization. *)
Definition visible_of {A} (t : DB → table A) (org : A → uuid) (orgID : uuid)
    (s : StmtEnv) (d : DB) : list A :=
  select (λ x, org x = orgID ∧ org_visible s d (org x)) (t d).

Definition containers_sql (orgID : uuid) : Stmt Z := query (λ s d,
  count (λ ct, active ct ∧ container_org d ct = Some orgID ∧ org_visible s d orgID)
        d.(containers)).
Definition desired_sql (orgID : uuid) : Stmt (Z * Z) := λ s d,
  let apps := visible_of applications Application_OrgID orgID s d in
  cpu ← sum_int4 ((λ a, a.(Application_CPUMillicores) * a.(Application_ReplicasDesired)) <$> apps);
  mem ← sum_int4 ((λ a, a.(Application_MemoryMB) * a.(Application_ReplicasDesired)) <$> apps);
  mret ((cpu, mem), d).
Definition today_sql (orgID : uuid) : Stmt Z := query (λ s d,
  Z.of_nat (length (filter (λ x, s.(s_now) - 24 * Hour ≤ x.(Deployment_CreatedAt))
    (visible_of deployments Deployment_OrgID orgID s d)))).

Definition CurrentUsage (c : Conn) (orgID : uuid) : M ResourceUsage :=
  prj ← wrap "counting projects" (run_stmt c (query (λ s d,
          Z.of_nat (length (visible_of projects Project_OrgID orgID s d)))));
  ctr ← wrap "counting containers" (run_stmt c (containers_sql orgID));
  des ← wrap "summing desired cpu/memory" (run_stmt c (desired_sql orgID));
  dep ← wrap "counting today's deployments" (run_stmt c (today_sql orgID));
  mret {| ResourceUsage_Projects := prj; ResourceUsage_Containers := ctr;
          ResourceUsage_CPUMillicores := des.1; ResourceUsage_MemoryMB := des.2;
          ResourceUsage_DeploymentsToday := dep |}.
End QuotaRepository.

(** ** What the quota reads return over the superuser connection *)

Lemma Get_observes_admin o :
  observes (QuotaRepository.Get AdminConn o)
    (λ e q, e.(e_db).(resource_quotas) !! o = Some q).
Proof.
  apply observes_or_not_found. eapply observes_mono; [apply observes_query_row|].
  intros e q (g & l & Hl). destruct (resource_quotas (e_db e) !! o) as [x|]; [|done].
  simpl in Hl. rewrite filter_cons_True in Hl by apply org_visible_bypass. by simplify_eq.
Qed.

Lemma count_ext {A} (P Q : A → Prop) `{!∀ x, Decision (P x)} `{!∀ x, Decision (Q x)} t :
  (∀ x, P x ↔ Q x) → count P t = count Q t.
Proof. intros HPQ. unfold count, select. by rewrite (list_filter_iff P Q). Qed.

Lemma desired_sql_pure o s d a d' : QuotaRepository.desired_sql o s d = Ok (a, d') → d' = d.
Proof.
  unfold QuotaRepository.desired_sql. intros Hr.
  unfold mbind, Res_bind in Hr. repeat case_match; unfold mret, Res_ret in Hr; by simplify_eq.
Qed.

Lemma CurrentUsage_observes_admin o :
  observes (QuotaRepository.CurrentUsage AdminConn o)
    (λ e u, u.(ResourceUsage_Containers) = active_containers e.(e_db) o).
Proof.
  unfold QuotaRepository.CurrentUsage. eapply observes_mono.
  - eapply observes_bind; [apply observes_wrap, observes_query|]. intros prj.
    eapply observes_bind; [apply observes_wrap, observes_query|]. intros ctr.
    eapply observes_bind; [apply observes_wrap, observes_stmt, desired_sql_pure|].
    intros des. eapply observes_bind; [apply observes_wrap, observes_query|]. intros dep.
    apply observes_ret.
  - simpl. intros e u (prj & _ & ctr & [g ->] & des & _ & dep & _ & ->). simpl.
    apply count_ext. intros x. pose proof (org_visible_bypass e g (e_db e) o). naive_solver.
Qed.

Lemma Get_yields_admin o q w :
  calm w → w.(w_db).(resource_quotas) !! o = Some q →
  yields (QuotaRepository.Get AdminConn o) w q.
Proof.
  intros Hc Hq. apply yields_catch. eapply yields_query_row; [done|]. rewrite Hq. simpl.
  rewrite filter_cons_True by by left. done.
Qed.

(** What an organization has declared: the sums of [CurrentUsage]. *)
Definition desired (d : DB) (o : uuid) : Res (Z * Z) :=
  let apps := select (λ a, a.(Application_OrgID) = o) d.(applications) in
  cpu ← sum_int4 ((λ a, a.(Application_CPUMillicores) * a.(Application_ReplicasDesired)) <$> apps);
  mem ← sum_int4 ((λ a, a.(Application_MemoryMB) * a.(Application_ReplicasDesired)) <$> apps);
  mret (cpu, mem).

Lemma visible_of_bypass {A} (t : DB → table A) org o s d :
  s.(s_bypass) = true →
  QuotaRepository.visible_of t org o s d = select (λ x, org x = o) (t d).
Proof.
  intros Hs. unfold QuotaRepository.visible_of, select. apply list_filter_iff.
  intros x. unfold org_visible. naive_solver.
Qed.

(** The live usage of an organization. *)
Definition deployments_today (d : DB) (o : uuid) (t : time) : Z :=
  Z.of_nat (length (filter (λ x, t - 24 * Hour ≤ x.(Deployment_CreatedAt))
                           (select (λ x, x.(Deployment_OrgID) = o) d.(deployments)))).
Definition usage_of (d : DB) (o : uuid) (t : time) : Res ResourceUsage :=
  des ← desired d o;
  mret {| ResourceUsage_Projects := projects_of d o;
          ResourceUsage_Containers := active_containers d o;
          ResourceUsage_CPUMillicores := des.1; ResourceUsage_MemoryMB := des.2;
          ResourceUsage_DeploymentsToday := deployments_today d o t |}.

Lemma CurrentUsage_yields_admin o u w :
  calm w → usage_of w.(w_db) o w.(w_now) = Ok u →
  yields (QuotaRepository.CurrentUsage AdminConn o) w u.
Proof.
  intros Hc Hu. unfold usage_of, mbind, Res_bind in Hu.
  destruct (desired _ _) as [des|] eqn:Hd; [|done]. unfold mret, Res_ret in Hu. simplify_eq.
  unfold QuotaRepository.CurrentUsage.
  eapply yields_bind.
  { apply yields_wrap, yields_query; [done|]. by rewrite visible_of_bypass. }
  intros w1 H1 Hc1. eapply yields_bind.
  { apply yields_wrap, yields_query; [done|].
    instantiate (1 := active_containers (w_db w) o). destruct H1 as [[= -> _ _] _].
    apply count_ext. intros x. unfold org_visible. naive_solver. }
  intros w2 H2 Hc2. assert (same w w2) as [[= Hdb Hs2 Hn2] _] by (by transitivity w1).
  eapply yields_bind.
  { apply yields_wrap, yields_stmt; [done|]. instantiate (1 := des).
    unfold QuotaRepository.desired_sql. rewrite !visible_of_bypass by done. rewrite Hdb.
    unfold desired, mbind, Res_bind in Hd |- *. repeat case_match; try done.
    unfold mret, Res_ret in Hd |- *. by simplify_eq. }
  intros w3 H3 Hc3. assert (w_db w3 = w_db w ∧ w_now w3 = w_now w) as [Hdb3 Hn3]
    by (destruct H3 as [[=] _]; split; congruence).
  eapply yields_bind.
  { apply yields_wrap, yields_query; [done|]. rewrite visible_of_bypass by done.
    simpl. by rewrite Hdb3, Hn3. }
  intros w4 _ Hc4. by apply yields_ret.
Qed.
