(* ===== verification/DbWorkload.v ===== *)
(** * DbWorkload: the repositories of deployments, containers, nodes, builds

    internal/db/deployment.go, container.go, node.go, build.go and the
    read-only joins of reconcile.go, one Module per repository. *)
From S2P Require Import Prelude Json Schema Effects Rls.
From stdpp Require Import base gmap strings list sorting.
From Stdlib Require Import ZArith Lia.
Open Scope Z_scope.

(** [SELECT MAX(revision) FROM deployments WHERE application_id = a], 0 for
    none, and the deployment [ORDER BY revision DESC LIMIT 1] picks. *)
Definition revisions (d : DB) (a : uuid) : list Deployment :=
  select (λ x, x.(Deployment_ApplicationID) = a) d.(deployments).
Definition max_revision (l : list Deployment) : Z :=
  match l with
  | [] => 0
  | x :: l => foldr (λ y n, Z.max y.(Deployment_Revision) n) x.(Deployment_Revision) l
  end.
Definition latest_of (l : list Deployment) : option Deployment :=
  head (order_by_desc Deployment_Revision l).

Module DeploymentRepository.
(** The subquery runs under the policy of deployments; the sum is an INT. *)
Definition Create_sql (orgID applicationID : uuid) (image : string) (createdBy : uuid)
    : Stmt Deployment := λ s d,
  let revision := max_revision (filter (λ x, org_visible s d x.(Deployment_OrgID))
                                       (revisions d applicationID)) + 1 in
  require (int4_ok revision = true) pgNumericOutOfRange ;;
  let x := {| Deployment_ID := s.(s_gen); Deployment_OrgID := orgID;
              Deployment_ApplicationID := applicationID; Deployment_Image := image;
              Deployment_Revision := revision; Deployment_Status := DeploymentStatusPending;
              Deployment_Strategy := "recreate"; Deployment_WorkerContainerID := None;
              Deployment_CreatedBy := createdBy; Deployment_CreatedAt := s.(s_now);
              Deployment_CompletedAt := None |} in
  require (org_visible s d orgID) pgInsufficientPrivilege ;;
  require (d.(deployments) !! s.(s_gen) = None
           ∧ Forall (λ y, y.(Deployment_Revision) ≠ revision) (revisions d applicationID))
          pgUniqueViolation ;;
  require (is_Some (d.(organizations) !! orgID) ∧ is_Some (d.(applications) !! applicationID)
           ∧ is_Some (d.(users) !! createdBy)) pgForeignKeyViolation ;;
  mret (x, set_deployments (<[s.(s_gen) := x]> d.(deployments)) d).
Definition Create (c : Conn) (orgID applicationID : uuid) (image : string) (createdBy : uuid)
    : M Deployment :=
  or_conflict "creating deployment"
    (scan (run_stmt c (Create_sql orgID applicationID image createdBy))).

Definition with_result (status : DeploymentStatus) (workerContainerID : option string)
    (s : StmtEnv) (x : Deployment) : Deployment :=
  {| Deployment_ID := x.(Deployment_ID); Deployment_OrgID := x.(Deployment_OrgID);
     Deployment_ApplicationID := x.(Deployment_ApplicationID);
     Deployment_Image := x.(Deployment_Image); Deployment_Revision := x.(Deployment_Revision);
     Deployment_Status := status; Deployment_Strategy := x.(Deployment_Strategy);
     Deployment_WorkerContainerID := workerContainerID;
     Deployment_CreatedBy := x.(Deployment_CreatedBy);
     Deployment_CreatedAt := x.(Deployment_CreatedAt);
     Deployment_CompletedAt := Some s.(s_now) |}.
Definition UpdateResult_sql (id : uuid) (status : DeploymentStatus)
    (workerContainerID : option string) : Stmt Z :=
  update_by_id deployments set_deployments Deployment_OrgID
    (with_result status workerContainerID) id.
Definition UpdateResult (c : Conn) (id : uuid) (status : DeploymentStatus)
    (workerContainerID : option string) : M unit :=
  exec_affected "updating deployment result" c (UpdateResult_sql id status workerContainerID).

(** The [int] parameters go to int4 columns ([revision]) and int8 ([LIMIT]);
    a negative LIMIT is an error. *)
Definition ListByApplication (c : Conn) (applicationID : uuid) (limit : Z)
    (afterRevision : option Z) : M (list Deployment) :=
  wrap "listing deployments" (run_stmt c (λ s d,
    match afterRevision with Some r => encode_int4 r | None => Ok tt end ;;
    require (0 ≤ limit) "2201W" ;;
    mret (take (Z.to_nat limit) (order_by_desc Deployment_Revision
            (filter (λ x, org_visible s d x.(Deployment_OrgID)
                          ∧ (match afterRevision with
                             | Some r => bool_decide (x.(Deployment_Revision) < r)
                             | None => true end) = true)
                    (revisions d applicationID))), d))).

Definition Latest (c : Conn) (applicationID : uuid) : M Deployment :=
  scan (run_stmt c (query_row (λ s d,
    option_list (latest_of (filter (λ x, org_visible s d x.(Deployment_OrgID))
                                   (revisions d applicationID)))))).

Definition OrgID (c : Conn) (id : uuid) : M uuid :=
  or_not_found "resolving deployment org" (run_stmt c (org_of deployments Deployment_OrgID id)).
End DeploymentRepository.

Module ContainerRepository.
(** The quota trigger runs before the row is checked; no policy applies. *)
Definition Create_sql (deploymentID nodeID : uuid) : Stmt Container := λ s d,
  let x := {| Container_ID := s.(s_gen); Container_DeploymentID := deploymentID;
              Container_NodeID := nodeID; Container_ContainerRuntimeID := None;
              Container_Status := ContainerStatusPending; Container_RestartCount := 0;
              Container_StartedAt := None; Container_StoppedAt := None |} in
  require (container_quota_ok d deploymentID) pgCheckViolation ;;
  require (d.(containers) !! s.(s_gen) = None) pgUniqueViolation ;;
  require (is_Some (d.(deployments) !! deploymentID) ∧ is_Some (d.(nodes) !! nodeID))
          pgForeignKeyViolation ;;
  mret (x, set_containers (<[s.(s_gen) := x]> d.(containers)) d).
Definition Create (c : Conn) (deploymentID nodeID : uuid) : M Container :=
  wrap "creating container" (scan (run_stmt c (Create_sql deploymentID nodeID))).

Definition Get (c : Conn) (id : uuid) : M Container :=
  scan (run_stmt c (query_row (λ _ d, option_list (d.(containers) !! id)))).

(** One container row under [UPDATE containers SET status = ...]. *)
Definition with_status (status : ContainerStatus) (containerRuntimeID : option string)
    (now : time) (x : Container) : Container :=
  {| Container_ID := x.(Container_ID); Container_DeploymentID := x.(Container_DeploymentID);
     Container_NodeID := x.(Container_NodeID);
     Container_ContainerRuntimeID :=
       match containerRuntimeID with
       | Some r => Some r | None => x.(Container_ContainerRuntimeID) end;
     Container_Status := status; Container_RestartCount := x.(Container_RestartCount);
     Container_StartedAt :=
       match status, x.(Container_StartedAt) with
       | ContainerStatusRunning, None => Some now
       | _, t => t end;
     Container_StoppedAt :=
       match status, x.(Container_StoppedAt) with
       | (ContainerStatusCrashed | ContainerStatusStopped), None => Some now
       | _, t => t end |}.
Definition UpdateStatus_sql (id : uuid) (status : ContainerStatus)
    (containerRuntimeID : option string) : Stmt Z := λ s d,
  match d.(containers) !! id with
  | None => Ok (0, d)
  | Some x => Ok (1, set_containers
      (<[id := with_status status containerRuntimeID s.(s_now) x]> d.(containers)) d)
  end.
Definition UpdateStatus (c : Conn) (id : uuid) (status : ContainerStatus)
    (containerRuntimeID : option string) : M unit :=
  exec_affected "updating container status" c (UpdateStatus_sql id status containerRuntimeID).

(** [ORDER BY started_at DESC NULLS FIRST] *)
Definition started_before (x y : Container) : Prop :=
  match x.(Container_StartedAt), y.(Container_StartedAt) with
  | None, _ => True
  | Some _, None => False
  | Some t, Some u => u ≤ t
  end.
#[global] Instance started_before_dec : RelDecision started_before.
Proof. intros x y. unfold started_before. repeat case_match; apply _. Defined.
Definition ListByDeployment (c : Conn) (deploymentID : uuid) : M (list Container) :=
  wrap "listing containers by deployment" (run_stmt c (query (λ _ d,
    merge_sort started_before
      (select (λ x, x.(Container_DeploymentID) = deploymentID) d.(containers))))).

Definition ListByNode (c : Conn) (nodeID : uuid) : M (list Container) :=
  wrap "listing containers by node" (run_stmt c (query (λ _ d,
    select (λ x, x.(Container_NodeID) = nodeID) d.(containers)))).

Definition CountActiveByDeployment (c : Conn) (deploymentID : uuid) : M Z :=
  wrap "counting active containers" (run_stmt c (query (λ _ d,
    count (λ x, x.(Container_DeploymentID) = deploymentID ∧ active x) d.(containers)))).
End ContainerRepository.

(** *** Keyset pagination by [(created_at, id) DESC] (builds and audit logs) *)
Section keyset.
Context {A : Type} (at_ : A → time) (key : A → uuid).

(** [(created_at, id) < (t, i)], row comparison. *)
Definition keyset_lt (x : A) (t : time) (i : uuid) : Prop :=
  at_ x < t ∨ (at_ x = t ∧ (key x < i)%N).
#[export] Instance keyset_lt_dec x t i : Decision (keyset_lt x t i).
Proof. unfold keyset_lt. apply _. Defined.

(** [ORDER BY created_at DESC, id DESC] *)
Definition newest_first (x y : A) : Prop :=
  at_ y < at_ x ∨ (at_ x = at_ y ∧ (key y ≤ key x)%N).
#[export] Instance newest_first_dec : RelDecision newest_first.
Proof. intros x y. unfold newest_first. apply _. Defined.
#[export] Instance newest_first_trans : Transitive newest_first.
Proof. unfold newest_first. intros x y z. lia. Qed.
#[export] Instance newest_first_total : Total newest_first.
Proof. unfold newest_first. intros x y. lia. Qed.

(** One page: the rows after the cursor, [limit + 1] of them fetched; when
    the extra one is there, the cursor of the last row kept.  The sum is an
    [int]; a negative LIMIT is an error; [builds[len(builds)-1]] of an empty
    page would panic, which a positive limit excludes. *)
Definition after_cursor (cursor : option (time * uuid)) (x : A) : Prop :=
  match cursor with None => True | Some (t, i) => keyset_lt x t i end.
#[export] Instance after_cursor_dec c x : Decision (after_cursor c x).
Proof. unfold after_cursor. destruct c as [[t i]|]; apply _. Defined.

Definition keyset_rows (l : list A) (cursor : option (time * uuid)) : list A :=
  merge_sort newest_first (filter (after_cursor cursor) l).
Definition keyset_page (l : list A) (limit : nat) (cursor : option (time * uuid))
    : list A * option (time * uuid) :=
  let fetched := take (limit + 1) (keyset_rows l cursor) in
  if decide (limit < length fetched)%nat
  then (take limit fetched,
        (λ x, (at_ x, key x)) <$> last (take limit fetched))
  else (fetched, None).
End keyset.

(** The opaque cursor: base64url of a JSON object (see [Cursor] in the codec
    files); its decoder refuses what it did not write. *)
Class CursorText := {
  encodeCursor : time → uuid → string;
  decodeCursor : string → option (time * uuid);
  decodeCursor_encode : ∀ t i, decodeCursor (encodeCursor t i) = Some (t, i);
  encodeCursor_ne : ∀ t i, encodeCursor t i ≠ "" }.

Module BuildRepository.
Definition Create_sql (orgID applicationID : uuid) (gitURL gitRef : string)
    (createdBy : uuid) : Stmt Build := λ s d,
  let b := {| Build_ID := s.(s_gen); Build_OrgID := orgID;
              Build_ApplicationID := applicationID; Build_GitURL := gitURL;
              Build_GitRef := gitRef; Build_CommitSHA := None;
              Build_Status := BuildStatusPending; Build_Image := None;
              Build_ErrorMessage := None; Build_CreatedBy := createdBy;
              Build_CreatedAt := s.(s_now); Build_CompletedAt := None |} in
  require (org_visible s d orgID) pgInsufficientPrivilege ;;
  require (d.(builds) !! s.(s_gen) = None) pgUniqueViolation ;;
  require (is_Some (d.(organizations) !! orgID) ∧ is_Some (d.(applications) !! applicationID)
           ∧ is_Some (d.(users) !! createdBy)) pgForeignKeyViolation ;;
  mret (b, set_builds (<[s.(s_gen) := b]> d.(builds)) d).
Definition Create (c : Conn) (orgID applicationID : uuid) (gitURL gitRef : string)
    (createdBy : uuid) : M Build :=
  let gitRef := if decide (gitRef = "") then "main" else gitRef in
  wrap "creating build"
    (scan (run_stmt c (Create_sql orgID applicationID gitURL gitRef createdBy))).

Definition Get (c : Conn) (id : uuid) : M Build :=
  catch (scan (run_stmt c (query_row (λ s d,
           filter (λ b, org_visible s d b.(Build_OrgID)) (option_list (d.(builds) !! id))))))
        (λ e, if errors_Is e ErrNotFound then fail ErrNotFound
              else fail (Errorf "getting build" e)).

Definition ListByApplication `{CursorText} (c : Conn) (applicationID : uuid) (limit : Z)
    (cursor : string) : M (list Build * string) :=
  after ← (if decide (cursor = "") then mret None
           else match decodeCursor cursor with
                | Some p => mret (Some p)
                | None => fail (Errorf "invalid cursor" (Opaque "cursor"))
                end);
  page ← wrap "listing builds" (run_stmt c (λ s d,
    require (0 ≤ limit + 1) "2201W" ;;
    mret (keyset_page Build_CreatedAt Build_ID
            (select (λ b, b.(Build_ApplicationID) = applicationID
                          ∧ org_visible s d b.(Build_OrgID)) d.(builds))
            (Z.to_nat limit) after, d)));
  mret (page.1, match page.2 with Some (t, i) => encodeCursor t i | None => "" end).

Definition OrgID (c : Conn) (id : uuid) : M uuid :=
  or_not_found "resolving build org" (run_stmt c (org_of builds Build_OrgID id)).

Definition with_result (status : BuildStatus) (commitSHA image errMsg : option string)
    (s : StmtEnv) (b : Build) : Build :=
  {| Build_ID := b.(Build_ID); Build_OrgID := b.(Build_OrgID);
     Build_ApplicationID := b.(Build_ApplicationID); Build_GitURL := b.(Build_GitURL);
     Build_GitRef := b.(Build_GitRef); Build_CommitSHA := commitSHA; Build_Status := status;
     Build_Image := image; Build_ErrorMessage := errMsg; Build_CreatedBy := b.(Build_CreatedBy);
     Build_CreatedAt := b.(Build_CreatedAt); Build_CompletedAt := Some s.(s_now) |}.
Definition UpdateResult_sql (id : uuid) (status : BuildStatus)
    (commitSHA image errMsg : option string) : Stmt Z :=
  update_by_id builds set_builds Build_OrgID (with_result status commitSHA image errMsg) id.
Definition UpdateResult (c : Conn) (id : uuid) (status : BuildStatus)
    (commitSHA image errMsg : option string) : M unit :=
  exec_affected "updating build result" c (UpdateResult_sql id status commitSHA image errMsg).
End BuildRepository.

(** internal/db/reconcile.go *)
Record ReconcileTarget := {
  ReconcileTarget_ApplicationID : uuid; ReconcileTarget_DeploymentID : uuid;
  ReconcileTarget_Image : string; ReconcileTarget_Ports : list PortSpec;
  ReconcileTarget_ReplicasDesired : Z }.

Definition dead_ended (x : Deployment) : Prop :=
  x.(Deployment_Status) = DeploymentStatusFailed
  ∨ x.(Deployment_Status) = DeploymentStatusRolledBack.
#[export] Instance dead_ended_dec x : Decision (dead_ended x).
Proof. unfold dead_ended. apply _. Defined.

(** [JOIN LATERAL (... ORDER BY revision DESC LIMIT 1) d ON true WHERE d.status
    NOT IN ('failed', 'rolled_back')], for one application; the superuser
    connection of the control plane sees every row. *)
Definition live_deployment (s : StmtEnv) (d : DB) (a : Application) : option Deployment :=
  x ← latest_of (filter (λ x, org_visible s d x.(Deployment_OrgID))
                        (revisions d a.(Application_ID)));
  if decide (dead_ended x) then None else Some x.

Module ReconcileRepository.
Definition target (a : Application) (x : Deployment) : ReconcileTarget :=
  {| ReconcileTarget_ApplicationID := a.(Application_ID);
     ReconcileTarget_DeploymentID := x.(Deployment_ID);
     ReconcileTarget_Image := x.(Deployment_Image);
     ReconcileTarget_Ports := a.(Application_Ports);
     ReconcileTarget_ReplicasDesired := a.(Application_ReplicasDesired) |}.
Definition ListActive (c : Conn) : M (list ReconcileTarget) :=
  wrap "listing reconcile targets" (run_stmt c (query (λ s d,
    omap (λ a, target a <$> live_deployment s d a)
         (select (λ a, org_visible s d a.(Application_OrgID)) d.(applications))))).
End ReconcileRepository.

(** ** What the reads return *)

Lemma ListByNode_observes c n :
  observes (ContainerRepository.ListByNode c n)
    (λ e l, l = select (λ x, x.(Container_NodeID) = n) e.(e_db).(containers)).
Proof.
  apply observes_wrap. eapply observes_mono; [apply observes_query|]. by intros e a [g ->].
Qed.

Lemma OrgID_observes_admin id :
  observes (DeploymentRepository.OrgID AdminConn id)
    (λ e o, ∃ x, e.(e_db).(deployments) !! id = Some x ∧ o = x.(Deployment_OrgID)).
Proof.
  apply observes_or_not_found. eapply observes_mono; [apply observes_query_row|].
  intros e o (g & l & Hl). destruct (deployments (e_db e) !! id) as [x|]; [|done].
  exists x. split; [done|]. simpl in Hl. rewrite filter_cons_True in Hl by apply org_visible_bypass.
  by simplify_eq.
Qed.

(** The row [ContainerRepository.Create] writes. *)
Definition pending_container (id deploymentID nodeID : uuid) : Container :=
  {| Container_ID := id; Container_DeploymentID := deploymentID;
     Container_NodeID := nodeID; Container_ContainerRuntimeID := None;
     Container_Status := ContainerStatusPending; Container_RestartCount := 0;
     Container_StartedAt := None; Container_StoppedAt := None |}.

Lemma container_Create_cases c dep n w r w' :
  ContainerRepository.Create c dep n w = (r, w') →
  (∃ e, r = Err e ∧ same w w')
  ∨ ∃ id, w.(w_db).(containers) !! id = None
          ∧ container_quota_ok w.(w_db) dep ∧ is_Some (w.(w_db).(deployments) !! dep)
          ∧ is_Some (w.(w_db).(nodes) !! n)
          ∧ r = Ok (pending_container id dep n)
          ∧ changed w (set_containers (<[id := pending_container id dep n]>
                                         w.(w_db).(containers)) w.(w_db)) w'.
Proof.
  unfold ContainerRepository.Create, wrap, scan. intros Hr.
  apply catch_cases in Hr as [(x & -> & Hr)|(e & e0 & -> & Hr)]; [| |apply refails_fail];
    (apply catch_cases in Hr as [(x' & He & Hr)|(e' & e1 & He & Hr)]; [| |apply refails_scan]);
    simplify_eq;
    apply run_stmt_cases in Hr as [(e2 & He & Hs)|(a & d & g & He & Hst & Hc)]; simplify_eq;
    try (left; by eauto).
  right. unfold ContainerRepository.Create_sql in Hst. stmt_inv Hst.
  destruct_and?. by exists g.
Qed.

(** ** When every call succeeds *)

Lemma ListByNode_yields c n w :
  calm w → yields (ContainerRepository.ListByNode c n) w
             (select (λ x, x.(Container_NodeID) = n) w.(w_db).(containers)).
Proof. intros. by apply yields_wrap, yields_query. Qed.
Lemma OrgID_yields_admin id x w :
  calm w → w.(w_db).(deployments) !! id = Some x →
  yields (DeploymentRepository.OrgID AdminConn id) w x.(Deployment_OrgID).
Proof.
  intros Hc Hx. apply yields_catch. eapply yields_query_row; [done|]. rewrite Hx. simpl.
  rewrite filter_cons_True by by left. done.
Qed.
Lemma container_Create_calm c dep n w :
  calm w → container_quota_ok w.(w_db) dep → w.(w_db).(containers) !! w.(w_gen) = None →
  is_Some (w.(w_db).(deployments) !! dep) → is_Some (w.(w_db).(nodes) !! n) →
  ContainerRepository.Create c dep n w =
    (Ok (pending_container w.(w_gen) dep n),
     set_db (set_containers (<[w.(w_gen) := pending_container w.(w_gen) dep n]>
                               w.(w_db).(containers)) w.(w_db))
            (set_gen (N.succ w.(w_gen)) w)).
Proof.
  intros Hc Hq Hf Hd Hn. unfold ContainerRepository.Create, wrap, scan, catch.
  rewrite run_stmt_calm by done. unfold execute, ContainerRepository.Create_sql.
  rewrite !require_true by done. done.
Qed.

(** ** The control plane's worklist *)

(** The live deployment of an application, for a reader who sees every row. *)
Definition running_deployment (d : DB) (a : Application) : option Deployment :=
  x ← latest_of (revisions d a.(Application_ID));
  if decide (dead_ended x) then None else Some x.
Definition reconcile_targets (d : DB) : list ReconcileTarget :=
  omap (λ a, ReconcileRepository.target a <$> running_deployment d a) (rows d.(applications)).


Lemma live_deployment_bypass s d a :
  s.(s_bypass) = true → live_deployment s d a = running_deployment d a.
Proof.
  intros Hs. unfold live_deployment, running_deployment. by rewrite filter_all by (apply Forall_true; by left).
Qed.

Lemma ListActive_reads :
  reads (ReconcileRepository.ListActive AdminConn) (λ e l, l = reconcile_targets e.(e_db)).
Proof.
  apply reads_wrap. eapply reads_mono; [apply reads_query|]. intros e a [g ->].
  unfold reconcile_targets, select. rewrite filter_all by (apply Forall_true; by left).
  apply list_omap_ext, Forall2_same_length_lookup. split; [done|]. intros i x y ? ?. simplify_eq.
  by rewrite live_deployment_bypass.
Qed.
