(* ===== verification/DbCluster.v ===== *)
(** * DbCluster: the repositories of the cluster's own state

    internal/db/node.go, service.go, service_instance.go,
    service_reconcile.go, loadbalancer.go, domain_routing.go and audit_log.go. *)
From S2P Require Import Prelude Json Schema Effects Rls DbWorkload.
From stdpp Require Import base gmap strings list sorting.
From Stdlib Require Import ZArith Lia.
Open Scope Z_scope.

Module NodeRepository.
(** INSERT ... ON CONFLICT (id) DO UPDATE: a known node keeps its
    [created_at]; either way it is healthy and just heard of.  A nil map of
    labels is coerced to the empty one. *)
Definition registered (id : uuid) (hostname ip : string) (cpu mem : Z)
    (labels : gmap string string) (now : time) (old : option Node) : Node :=
  {| Node_ID := id; Node_Hostname := hostname; Node_IP := ip;
     Node_CPUCapacityMillicores := cpu; Node_MemoryCapacityMB := mem;
     Node_Status := NodeStatusHealthy; Node_LastHeartbeatAt := now; Node_Labels := labels;
     Node_CreatedAt := match old with Some n => n.(Node_CreatedAt) | None => now end |}.
Definition Register_sql (id : uuid) (hostname ip : string) (cpu mem : Z)
    (labels : gmap string string) : Stmt Node := λ s d,
  encode_int4 cpu ;; encode_int4 mem ;;
  let n := registered id hostname ip cpu mem labels s.(s_now) (d.(nodes) !! id) in
  mret (n, set_nodes (<[id := n]> d.(nodes)) d).
Definition Register (c : Conn) (id : uuid) (hostname ip : string) (cpu mem : Z)
    (labels : gmap string string) : M Node :=
  wrap "registering node" (scan (run_stmt c (Register_sql id hostname ip cpu mem labels))).

Definition heard (timestamp : time) (n : Node) : Node :=
  {| Node_ID := n.(Node_ID); Node_Hostname := n.(Node_Hostname); Node_IP := n.(Node_IP);
     Node_CPUCapacityMillicores := n.(Node_CPUCapacityMillicores);
     Node_MemoryCapacityMB := n.(Node_MemoryCapacityMB); Node_Status := NodeStatusHealthy;
     Node_LastHeartbeatAt := timestamp; Node_Labels := n.(Node_Labels);
     Node_CreatedAt := n.(Node_CreatedAt) |}.
Definition Heartbeat_sql (id : uuid) (timestamp : time) : Stmt Z := λ _ d,
  match d.(nodes) !! id with
  | None => Ok (0, d)
  | Some n => Ok (1, set_nodes (<[id := heard timestamp n]> d.(nodes)) d)
  end.
Definition Heartbeat (c : Conn) (id : uuid) (timestamp : time) : M unit :=
  exec_affected "recording node heartbeat" c (Heartbeat_sql id timestamp).

Definition with_status (status : NodeStatus) (n : Node) : Node :=
  {| Node_ID := n.(Node_ID); Node_Hostname := n.(Node_Hostname); Node_IP := n.(Node_IP);
     Node_CPUCapacityMillicores := n.(Node_CPUCapacityMillicores);
     Node_MemoryCapacityMB := n.(Node_MemoryCapacityMB); Node_Status := status;
     Node_LastHeartbeatAt := n.(Node_LastHeartbeatAt); Node_Labels := n.(Node_Labels);
     Node_CreatedAt := n.(Node_CreatedAt) |}.
Definition SetStatus_sql (id : uuid) (status : NodeStatus) : Stmt Z := λ _ d,
  match d.(nodes) !! id with
  | None => Ok (0, d)
  | Some n => Ok (1, set_nodes (<[id := with_status status n]> d.(nodes)) d)
  end.
Definition SetStatus (c : Conn) (id : uuid) (status : NodeStatus) : M unit :=
  exec_affected "setting node status" c (SetStatus_sql id status).

Definition Get (c : Conn) (id : uuid) : M Node :=
  scan (run_stmt c (query_row (λ _ d, option_list (d.(nodes) !! id)))).

(** [ORDER BY created_at DESC] *)
Definition all_nodes (d : DB) : list Node := order_by_desc Node_CreatedAt (rows d.(nodes)).
Definition List (c : Conn) : M (list Node) :=
  wrap "listing nodes" (run_stmt c (query (λ _ d, all_nodes d))).
End NodeRepository.

Module ServiceRepository.
(** The conflict target is application_id: a known application's row comes
    back as it is; the dns_name of a new one must be free. *)
Definition GetOrCreate_sql (applicationID : uuid) (dnsName : string) : Stmt Service := λ s d,
  match select (λ x, x.(Service_ApplicationID) = applicationID) d.(services) with
  | x :: _ => Ok (x, d)
  | [] =>
      let x := {| Service_ID := s.(s_gen); Service_ApplicationID := applicationID;
                  Service_DNSName := dnsName; Service_CreatedAt := s.(s_now) |} in
      require (d.(services) !! s.(s_gen) = None
               ∧ Forall (λ y, y.(Service_DNSName) ≠ dnsName) (rows d.(services)))
              pgUniqueViolation ;;
      require (is_Some (d.(applications) !! applicationID)) pgForeignKeyViolation ;;
      mret (x, set_services (<[s.(s_gen) := x]> d.(services)) d)
  end.
Definition GetOrCreate (c : Conn) (applicationID : uuid) (dnsName : string) : M Service :=
  wrap "getting or creating service"
    (scan (run_stmt c (GetOrCreate_sql applicationID dnsName))).

Definition GetByApplication (c : Conn) (applicationID : uuid) : M Service :=
  scan (run_stmt c (query_row (λ _ d,
    select (λ x, x.(Service_ApplicationID) = applicationID) d.(services)))).
End ServiceRepository.

Module ServiceInstanceRepository.
Definition of_container (containerID : uuid) (d : DB) : list ServiceInstance :=
  select (λ x, x.(ServiceInstance_ContainerID) = containerID) d.(service_instances).
Definition refreshed (serviceID : uuid) (ip : string) (port : Z) (now : time)
    (x : ServiceInstance) : ServiceInstance :=
  {| ServiceInstance_ID := x.(ServiceInstance_ID); ServiceInstance_ServiceID := serviceID;
     ServiceInstance_ContainerID := x.(ServiceInstance_ContainerID);
     ServiceInstance_IP := ip; ServiceInstance_Port := port;
     ServiceInstance_Healthy := true; ServiceInstance_LastSeenAt := now |}.
Definition Upsert_sql (serviceID containerID : uuid) (ip : string) (port : Z)
    : Stmt ServiceInstance := λ s d,
  encode_int4 port ;;
  match of_container containerID d with
  | x :: _ =>
      require (is_Some (d.(services) !! serviceID)) pgForeignKeyViolation ;;
      let x' := refreshed serviceID ip port s.(s_now) x in
      mret (x', set_service_instances
                  (update_where (λ y, y.(ServiceInstance_ContainerID) = containerID)
                     (refreshed serviceID ip port s.(s_now)) d.(service_instances)) d)
  | [] =>
      let x := {| ServiceInstance_ID := s.(s_gen); ServiceInstance_ServiceID := serviceID;
                  ServiceInstance_ContainerID := containerID; ServiceInstance_IP := ip;
                  ServiceInstance_Port := port; ServiceInstance_Healthy := true;
                  ServiceInstance_LastSeenAt := s.(s_now) |} in
      require (d.(service_instances) !! s.(s_gen) = None) pgUniqueViolation ;;
      require (is_Some (d.(services) !! serviceID) ∧ is_Some (d.(containers) !! containerID))
              pgForeignKeyViolation ;;
      mret (x, set_service_instances (<[s.(s_gen) := x]> d.(service_instances)) d)
  end.
Definition Upsert (c : Conn) (serviceID containerID : uuid) (ip : string) (port : Z)
    : M ServiceInstance :=
  wrap "upserting service instance"
    (scan (run_stmt c (Upsert_sql serviceID containerID ip port))).

Definition unhealthy (x : ServiceInstance) : ServiceInstance :=
  {| ServiceInstance_ID := x.(ServiceInstance_ID);
     ServiceInstance_ServiceID := x.(ServiceInstance_ServiceID);
     ServiceInstance_ContainerID := x.(ServiceInstance_ContainerID);
     ServiceInstance_IP := x.(ServiceInstance_IP);
     ServiceInstance_Port := x.(ServiceInstance_Port); ServiceInstance_Healthy := false;
     ServiceInstance_LastSeenAt := x.(ServiceInstance_LastSeenAt) |}.
Definition MarkUnhealthy_sql (containerID : uuid) : Stmt Z := λ _ d,
  let P x := x.(ServiceInstance_ContainerID) = containerID in
  mret (count P d.(service_instances),
        set_service_instances (update_where P unhealthy d.(service_instances)) d).
Definition MarkUnhealthy (c : Conn) (containerID : uuid) : M unit :=
  exec_affected "marking service instance unhealthy" c (MarkUnhealthy_sql containerID).

Definition DeleteByContainer_sql (containerID : uuid) : Stmt Z := λ _ d,
  let P x := x.(ServiceInstance_ContainerID) = containerID in
  mret (count P d.(service_instances),
        set_service_instances (delete_where P d.(service_instances)) d).
Definition DeleteByContainer (c : Conn) (containerID : uuid) : M unit :=
  exec_affected "deleting service instance" c (DeleteByContainer_sql containerID).

Definition ListHealthyByService (c : Conn) (serviceID : uuid) : M (list ServiceInstance) :=
  wrap "listing healthy service instances" (run_stmt c (query (λ _ d,
    select (λ x, x.(ServiceInstance_ServiceID) = serviceID
                 ∧ x.(ServiceInstance_Healthy) = true) d.(service_instances)))).
End ServiceInstanceRepository.

Record ServiceInstanceCandidate := {
  ServiceInstanceCandidate_ApplicationID : uuid;
  ServiceInstanceCandidate_ProjectSlug : string;
  ServiceInstanceCandidate_ApplicationName : string;
  ServiceInstanceCandidate_ContainerID : uuid;
  ServiceInstanceCandidate_NodeIP : string }.

Module ServiceReconcileRepository.
(** The rows one application contributes to the join. *)
Definition candidates_of (s : StmtEnv) (d : DB) (a : Application)
    : list ServiceInstanceCandidate :=
  match d.(projects) !! a.(Application_ProjectID), live_deployment s d a with
  | Some p, Some x =>
      if decide (org_visible s d p.(Project_OrgID)) then
        omap (λ c, (λ n, {| ServiceInstanceCandidate_ApplicationID := a.(Application_ID);
                            ServiceInstanceCandidate_ProjectSlug := p.(Project_Slug);
                            ServiceInstanceCandidate_ApplicationName := a.(Application_Name);
                            ServiceInstanceCandidate_ContainerID := c.(Container_ID);
                            ServiceInstanceCandidate_NodeIP := n.(Node_IP) |})
                   <$> d.(nodes) !! c.(Container_NodeID))
          (select (λ c, c.(Container_DeploymentID) = x.(Deployment_ID)
                        ∧ c.(Container_Status) = ContainerStatusRunning) d.(containers))
      else []
  | _, _ => []
  end.
Definition ListRunningCandidates (c : Conn) : M (list ServiceInstanceCandidate) :=
  wrap "listing service instance candidates" (run_stmt c (query (λ s d,
    a ← select (λ a, org_visible s d a.(Application_OrgID)) d.(applications);
    candidates_of s d a))).

Definition orphaned (d : DB) (si : ServiceInstance) : option uuid :=
  c ← d.(containers) !! si.(ServiceInstance_ContainerID);
  if decide (c.(Container_Status) = ContainerStatusRunning) then None
  else Some si.(ServiceInstance_ContainerID).
Definition ListOrphanedInstances (c : Conn) : M (list uuid) :=
  wrap "listing orphaned service instances" (run_stmt c (query (λ _ d,
    omap (orphaned d) (rows d.(service_instances))))).
End ServiceReconcileRepository.

Record ServiceRegistryEntry := mkServiceRegistryEntry {
  ServiceRegistryEntry_DNSName : string; ServiceRegistryEntry_ContainerID : uuid;
  ServiceRegistryEntry_IP : string; ServiceRegistryEntry_Port : Z }.

Module LoadBalancerRepository.
(** [serviceRegistryJoin] *)
Definition registry_row (d : DB) (si : ServiceInstance) : option ServiceRegistryEntry :=
  sv ← d.(services) !! si.(ServiceInstance_ServiceID);
  if si.(ServiceInstance_Healthy) then
    Some (mkServiceRegistryEntry sv.(Service_DNSName) si.(ServiceInstance_ContainerID)
            si.(ServiceInstance_IP) si.(ServiceInstance_Port))
  else None.
Definition registry_rows (d : DB) : list ServiceRegistryEntry :=
  omap (registry_row d) (rows d.(service_instances)).
Definition ListHealthyRegistry (c : Conn) : M (list ServiceRegistryEntry) :=
  wrap "listing service registry" (run_stmt c (query (λ _ d, registry_rows d))).

(** [pgx.ErrNoRows] is not an error: [ok] is false. *)
Definition GetHealthyInstanceByContainer (c : Conn) (containerID : uuid)
    : M (option ServiceRegistryEntry) :=
  catch (Some <$> run_stmt c (query_row (λ _ d,
           filter (λ e, e.(ServiceRegistryEntry_ContainerID) = containerID) (registry_rows d))))
        (λ e, if errors_Is e ErrNoRows then mret None
              else fail (Errorf "getting service registry entry" e)).
End LoadBalancerRepository.

Record DomainRoute := mkDomainRoute { DomainRoute_Hostname : string; DomainRoute_DNSName : string }.

Module DomainRoutingRepository.
Definition route_rows (s : StmtEnv) (d : DB) : list DomainRoute :=
  x ← select (λ x, org_visible s d x.(Domain_OrgID)) d.(domains);
  (λ sv, mkDomainRoute x.(Domain_Hostname) sv.(Service_DNSName)) <$>
    select (λ sv, sv.(Service_ApplicationID) = x.(Domain_ApplicationID)) d.(services).
Definition ListRoutes (c : Conn) : M (list DomainRoute) :=
  wrap "listing domain routes" (run_stmt c (query route_rows)).
End DomainRoutingRepository.

Module AuditLogRepository.
(** A nil metadata is written as the empty object. *)
Definition Record_sql (orgID : uuid) (actor : option uuid) (action targetType : string)
    (targetID : uuid) (metadata : option json) : Stmt unit := λ s d,
  let e := {| AuditLogEntry_ID := s.(s_gen); AuditLogEntry_OrgID := orgID;
              AuditLogEntry_ActorUserID := actor; AuditLogEntry_Action := action;
              AuditLogEntry_TargetType := targetType; AuditLogEntry_TargetID := targetID;
              AuditLogEntry_Metadata := Some (default (JObject []) metadata);
              AuditLogEntry_CreatedAt := s.(s_now) |} in
  require (org_visible s d orgID) pgInsufficientPrivilege ;;
  require (d.(audit_logs) !! s.(s_gen) = None) pgUniqueViolation ;;
  require (is_Some (d.(organizations) !! orgID)
           ∧ Forall (λ u, is_Some (d.(users) !! u)) (option_list actor))
          pgForeignKeyViolation ;;
  mret (tt, set_audit_logs (<[s.(s_gen) := e]> d.(audit_logs)) d).
Definition Record_ (c : Conn) (orgID : uuid) (actor : option uuid)
    (action targetType : string) (targetID : uuid) (metadata : option json) : M unit :=
  wrap "recording audit log entry"
    (run_stmt c (Record_sql orgID actor action targetType targetID metadata)).

Definition ListByOrg `{CursorText} (c : Conn) (orgID : uuid) (cursor : string) (limit : Z)
    : M (list AuditLogEntry * string) :=
  after ← (if decide (cursor = "") then mret None
           else match decodeCursor cursor with
                | Some p => mret (Some p)
                | None => fail (Errorf "invalid cursor" (Opaque "cursor"))
                end);
  page ← wrap "listing audit logs" (run_stmt c (λ s d,
    require (0 ≤ limit + 1) "2201W" ;;
    mret (keyset_page AuditLogEntry_CreatedAt AuditLogEntry_ID
            (select (λ e, e.(AuditLogEntry_OrgID) = orgID
                          ∧ org_visible s d e.(AuditLogEntry_OrgID)) d.(audit_logs))
            (Z.to_nat limit) after, d)));
  mret (page.1, match page.2 with Some (t, i) => encodeCursor t i | None => "" end).
End AuditLogRepository.

(** ** What the reads return *)

(** The load the scheduler scores a node by. *)
Definition node_load (d : DB) (n : uuid) : Z :=
  count (λ c, active c ∧ c.(Container_NodeID) = n) d.(containers).

Lemma List_observes c :
  observes (NodeRepository.List c) (λ e l, l = NodeRepository.all_nodes e.(e_db)).
Proof.
  apply observes_wrap. eapply observes_mono; [apply observes_query|]. by intros e a [g ->].
Qed.
Lemma all_nodes_elem d n : n ∈ NodeRepository.all_nodes d ↔ ∃ i, d.(nodes) !! i = Some n.
Proof. unfold NodeRepository.all_nodes. by rewrite order_by_desc_perm, elem_of_rows. Qed.
Lemma List_yields c w :
  calm w → yields (NodeRepository.List c) w (NodeRepository.all_nodes w.(w_db)).
Proof. intros. by apply yields_wrap, yields_query. Qed.
