(* ===== verification/Cursor.v ===== *)
(** * Cursor: the page cursors of the audit log and of the builds

    internal/db's [encodeAuditLogCursor]/[decodeAuditLogCursor] and
    [encodeBuildCursor]/[decodeBuildCursor]: a JSON object of the last row's
    time and id, in base64url.  They keep the contract ([CursorText]) the
    repositories' pages are read under. *)
From S2P Require Import Prelude Json Schema Encoding JsonText DbWorkload.
From stdpp Require Import base strings list.
From Stdlib Require Import ZArith Lia Ascii.
Open Scope Z_scope.

Section cursors.
Context `{UUIDText} `{TimeText}.

(** [auditLogCursor] and [buildCursor] have the same fields and tags. *)
Record pageCursor := { pageCursor_CreatedAt : time; pageCursor_ID : uuid }.
#[export] Instance pageCursor_inhabited : Inhabited pageCursor :=
  populate {| pageCursor_CreatedAt := zeroTime; pageCursor_ID := Nil |}.
#[export] Instance into_pageCursor : Into pageCursor := decode_struct
  [("created_at", λ c j, t ← into_time c.(pageCursor_CreatedAt) j;
      Some {| pageCursor_CreatedAt := t; pageCursor_ID := c.(pageCursor_ID) |});
   ("id", λ c j, i ← into c.(pageCursor_ID) j;
      Some {| pageCursor_CreatedAt := c.(pageCursor_CreatedAt); pageCursor_ID := i |})].
#[export] Instance to_json_pageCursor : ToJSON pageCursor := λ c,
  JObject [("created_at", JString (time_String c.(pageCursor_CreatedAt)));
           ("id", to_json c.(pageCursor_ID))].

Definition encodeAuditLogCursor (createdAt : time) (id : uuid) : string :=
  let data := Marshal_text (to_json {| pageCursor_CreatedAt := createdAt; pageCursor_ID := id |}) in
  string_of (EncodeToString (bytes_of_string (string_of data))).
Definition decodeAuditLogCursor (cursor : string) : option pageCursor :=
  data ← DecodeString (word cursor);
  Unmarshal (parse_text (word (string_of_bytes data))).
Definition encodeBuildCursor (createdAt : time) (id : uuid) : string :=
  let data := Marshal_text (to_json {| pageCursor_CreatedAt := createdAt; pageCursor_ID := id |}) in
  string_of (EncodeToString (bytes_of_string (string_of data))).
Definition decodeBuildCursor (cursor : string) : option pageCursor :=
  data ← DecodeString (word cursor);
  Unmarshal (parse_text (word (string_of_bytes data))).

Lemma ascii_only_utf8 s : ascii_only s → utf8 (word s).
Proof.
  intros Hs. apply ascii_utf8. eapply Forall_impl; [exact Hs|]. intros c Hc.
  apply within_spec. simpl in Hc. lia.
Qed.
Lemma cursor_writable c : writable 0 (to_json c : json).
Proof.
  split; [done|]. repeat split; try (by apply ascii_utf8; repeat constructor).
  - apply ascii_only_utf8, time_String_ascii.
  - apply ascii_only_utf8, uuid_String_ascii.
Qed.
Lemma cursor_roundtrip t i :
  decodeAuditLogCursor (encodeAuditLogCursor t i)
  = Some {| pageCursor_CreatedAt := t; pageCursor_ID := i |}.
Proof.
  unfold decodeAuditLogCursor, encodeAuditLogCursor.
  unfold word at 1, string_of at 1. rewrite String.list_ascii_of_string_of_list_ascii.
  rewrite Decode_Encode by apply bytes_of_string_bytes.
  cbn [mbind option_bind]. rewrite string_of_bytes_of_string. unfold word, string_of.
  rewrite String.list_ascii_of_string_of_list_ascii, parse_Marshal by apply cursor_writable.
  simpl. unfold into, into_pageCursor, decode_struct, to_json, to_json_pageCursor. simpl.
  by repeat wire_step.
Qed.
Lemma cursor_nonempty t i : encodeAuditLogCursor t i ≠ "".
Proof.
  intros He. pose proof (cursor_roundtrip t i) as Hd. rewrite He in Hd. done.
Qed.

(** The contract of the pages. *)
Definition cursorText : CursorText.
Proof.
  refine {| encodeCursor := encodeAuditLogCursor;
            decodeCursor := λ s, (λ c, (c.(pageCursor_CreatedAt), c.(pageCursor_ID)))
                                   <$> decodeAuditLogCursor s |}.
  - intros t i. by rewrite cursor_roundtrip.
  - exact cursor_nonempty.
Defined.
(** The cursors of the builds are the same texts. *)
Lemma build_cursors t i s :
  encodeBuildCursor t i = encodeCursor (CursorText := cursorText) t i
  ∧ (λ c, (c.(pageCursor_CreatedAt), c.(pageCursor_ID))) <$> decodeBuildCursor s
    = decodeCursor (CursorText := cursorText) s.
Proof. done. Qed.
End cursors.
