(* ===== verification/Wire.v ===== *)
(** * Wire: subjects and message schemas (docs/nats-contract.md)

    The subjects of internal/eventbus/subjects.go and the message structs the
    services declare for themselves (ADR-0012: each service has its own copy of
    a schema; copies with the same fields and tags share a record here, a copy
    with fewer fields is a record of its own).  For each message: its decoder
    (the struct's tags), its encoder, and that the consumer reads what the
    producer wrote ([WireType], or a lemma when the two copies differ). *)
From S2P Require Import Prelude Json Schema.
From stdpp Require Import base gmap strings list.
From Stdlib Require Import ZArith Lia.
Open Scope Z_scope.

(** ** Subjects *)

Definition NodeRegisterSubject (nodeID : string) : string := "node." +:+ nodeID +:+ ".register".
Definition NodeHeartbeatSubject (nodeID : string) : string := "node." +:+ nodeID +:+ ".heartbeat".
Definition NodeAssignSubject (nodeID : string) : string := "node." +:+ nodeID +:+ ".assign".
Definition NodeUnassignSubject (nodeID : string) : string := "node." +:+ nodeID +:+ ".unassign".
Definition NodeStatusSubject (nodeID : string) : string := "node." +:+ nodeID +:+ ".status".
Definition PlacementRequestedSubject : string := "placement.requested".
Definition ServiceUpdatedSubject : string := "service.updated".
Definition NodeAssignmentsStream : string := "NODE_ASSIGNMENTS".
Definition NodeAssignmentsStreamFilter : string := "node.*.assign".
Definition NodeUnassignStreamFilter : string := "node.*.unassign".
Definition NodeStatusStream : string := "NODE_STATUS".
Definition NodeStatusStreamFilter : string := "node.*.status".
Definition PlacementStream : string := "PLACEMENT".
Definition PlacementStreamFilter : string := "placement.requested".
Definition BuildRequestedSubject : string := "build.requested".
Definition BuildCompletedSubject : string := "build.completed".
Definition BuildsStream : string := "BUILDS".
Definition BuildsStreamSubjects : list string := [BuildRequestedSubject; BuildCompletedSubject].

(** ** Zero values *)

#[export] Instance Z_inhabited' : Inhabited Z := populate 0.
#[export] Instance string_inhabited' : Inhabited string := populate "".
#[export] Instance bool_inhabited' : Inhabited bool := populate false.
#[export] Instance map_inhabited' : Inhabited (gmap string string) := populate ∅.

(** ** Port bindings *)

#[export] Instance PortSpec_zero : Inhabited PortSpec := populate (Build_PortSpec 0 0 "").
Definition PortSpec_fields : fields PortSpec :=
  [ ("container_port", λ p j, v ← into p.(PortSpec_ContainerPort) j;
                              Some (Build_PortSpec v p.(PortSpec_HostPort) p.(PortSpec_Protocol)));
    ("host_port", λ p j, v ← into p.(PortSpec_HostPort) j;
                         Some (Build_PortSpec p.(PortSpec_ContainerPort) v p.(PortSpec_Protocol)));
    ("protocol", λ p j, v ← into p.(PortSpec_Protocol) j;
                        Some (Build_PortSpec p.(PortSpec_ContainerPort) p.(PortSpec_HostPort) v)) ].
#[export] Instance into_PortSpec : Into PortSpec := decode_struct PortSpec_fields.
#[export] Instance to_json_PortSpec : ToJSON PortSpec := λ p, JObject (
  [("container_port", to_json p.(PortSpec_ContainerPort))]
  ++ omitempty (bool_decide (p.(PortSpec_HostPort) = 0)) "host_port" (to_json p.(PortSpec_HostPort))
  ++ omitempty (bool_decide (p.(PortSpec_Protocol) = "")) "protocol" (to_json p.(PortSpec_Protocol))).

Definition PortSpec_ok (p : PortSpec) : Prop :=
  int64_ok p.(PortSpec_ContainerPort) = true ∧ int64_ok p.(PortSpec_HostPort) = true.

Lemma into_PortSpec_to_json p : PortSpec_ok p → into inhabitant (to_json p) = Some p.
Proof.
  destruct p as [cp hp pr]. intros [? ?]; simpl in *.
  unfold to_json, to_json_PortSpec, into, into_PortSpec. by wire_fields.
Qed.

(** What was read fits the machine. *)
Lemma into_int_ok old j z : int64_ok old = true → into old j = Some z → int64_ok z = true.
Proof. unfold into, into_int. intros ?. destruct j; try done; [by intros [= <-]|]. by case_match; intros [= <-]. Qed.
Lemma PortSpec_read old j p : PortSpec_ok old → into old j = Some p → PortSpec_ok p.
Proof.
  apply decode_struct_keeps. unfold PortSpec_fields, PortSpec_ok.
  repeat apply Forall_cons_2; try apply Forall_nil_2; intros q v q' [??] Hq; simpl in Hq; apply bind_Some in Hq as (x & Hx & [= <-]);
    simpl; eauto using into_int_ok.
Qed.
Lemma ports_read old j (l : list PortSpec) : into old j = Some l → Forall PortSpec_ok l.
Proof.
  unfold into at 1, into_list. destruct j; try done; [by intros [= <-]|].
  rewrite mapM_Some. intros Hl. induction Hl as [|x p js l Hx Hl IH]; constructor; [|done].
  by eapply PortSpec_read, Hx.
Qed.
Lemma into_ports old (l : list PortSpec) :
  Forall PortSpec_ok l → into old (to_json l) = Some l.
Proof.
  intros Hl. apply into_list_to_json. intros x Hx. apply into_PortSpec_to_json.
  by eapply Forall_forall in Hl.
Qed.
Lemma into_strings old (l : list string) : into old (to_json l) = Some l.
Proof. apply into_list_to_json. by intros. Qed.
#[export] Hint Resolve into_PortSpec_to_json : wire.

(** ** Messages of the node lifecycle (worker ↔ scheduler, controllers) *)

(** [node.<id>.register] *)
Record registerMessage := {
  registerMessage_NodeID : string;
  registerMessage_Hostname : string;
  registerMessage_IP : string;
  registerMessage_CPUCapacityMillicores : Z;
  registerMessage_MemoryCapacityMB : Z;
  registerMessage_Labels : gmap string string }.
#[export] Instance registerMessage_zero : Inhabited registerMessage :=
  populate (Build_registerMessage "" "" "" 0 0 ∅).
Definition registerMessage_fields : fields registerMessage :=
  [ ("node_id", λ m j, v ← into m.(registerMessage_NodeID) j;
     Some (Build_registerMessage v m.(registerMessage_Hostname) m.(registerMessage_IP) m.(registerMessage_CPUCapacityMillicores) m.(registerMessage_MemoryCapacityMB) m.(registerMessage_Labels)));
    ("hostname", λ m j, v ← into m.(registerMessage_Hostname) j;
     Some (Build_registerMessage m.(registerMessage_NodeID) v m.(registerMessage_IP) m.(registerMessage_CPUCapacityMillicores) m.(registerMessage_MemoryCapacityMB) m.(registerMessage_Labels)));
    ("ip", λ m j, v ← into m.(registerMessage_IP) j;
     Some (Build_registerMessage m.(registerMessage_NodeID) m.(registerMessage_Hostname) v m.(registerMessage_CPUCapacityMillicores) m.(registerMessage_MemoryCapacityMB) m.(registerMessage_Labels)));
    ("cpu_capacity_millicores", λ m j, v ← into m.(registerMessage_CPUCapacityMillicores) j;
     Some (Build_registerMessage m.(registerMessage_NodeID) m.(registerMessage_Hostname) m.(registerMessage_IP) v m.(registerMessage_MemoryCapacityMB) m.(registerMessage_Labels)));
    ("memory_capacity_mb", λ m j, v ← into m.(registerMessage_MemoryCapacityMB) j;
     Some (Build_registerMessage m.(registerMessage_NodeID) m.(registerMessage_Hostname) m.(registerMessage_IP) m.(registerMessage_CPUCapacityMillicores) v m.(registerMessage_Labels)));
    ("labels", λ m j, v ← into m.(registerMessage_Labels) j;
     Some (Build_registerMessage m.(registerMessage_NodeID) m.(registerMessage_Hostname) m.(registerMessage_IP) m.(registerMessage_CPUCapacityMillicores) m.(registerMessage_MemoryCapacityMB) v)) ].
#[export] Instance into_registerMessage : Into registerMessage := decode_struct registerMessage_fields.
#[export] Instance to_json_registerMessage : ToJSON registerMessage := λ m, JObject (
  [("node_id", to_json m.(registerMessage_NodeID))]
  ++ [("hostname", to_json m.(registerMessage_Hostname))]
  ++ [("ip", to_json m.(registerMessage_IP))]
  ++ [("cpu_capacity_millicores", to_json m.(registerMessage_CPUCapacityMillicores))]
  ++ [("memory_capacity_mb", to_json m.(registerMessage_MemoryCapacityMB))]
  ++ [("labels", to_json m.(registerMessage_Labels))]).

(** [node.<id>.heartbeat] *)
Record heartbeatMessage := {
  heartbeatMessage_NodeID : string;
  heartbeatMessage_Timestamp : time }.
#[export] Instance heartbeatMessage_zero : Inhabited heartbeatMessage :=
  populate (Build_heartbeatMessage "" zeroTime).
Definition heartbeatMessage_fields `{TimeText} : fields heartbeatMessage :=
  [ ("node_id", λ m j, v ← into m.(heartbeatMessage_NodeID) j;
     Some (Build_heartbeatMessage v m.(heartbeatMessage_Timestamp)));
    ("timestamp", λ m j, v ← into_time m.(heartbeatMessage_Timestamp) j;
     Some (Build_heartbeatMessage m.(heartbeatMessage_NodeID) v)) ].
#[export] Instance into_heartbeatMessage `{TimeText} : Into heartbeatMessage := decode_struct heartbeatMessage_fields.
#[export] Instance to_json_heartbeatMessage `{TimeText} : ToJSON heartbeatMessage := λ m, JObject (
  [("node_id", to_json m.(heartbeatMessage_NodeID))]
  ++ [("timestamp", JString (time_String m.(heartbeatMessage_Timestamp)))]).

(** [placement.requested], as the scheduler reads it *)
Record placementRequestedMessage := {
  placementRequestedMessage_DeploymentID : string;
  placementRequestedMessage_ApplicationID : string;
  placementRequestedMessage_Image : string;
  placementRequestedMessage_Env : gmap string string;
  placementRequestedMessage_Ports : list PortSpec;
  placementRequestedMessage_Command : list string }.
#[export] Instance placementRequestedMessage_zero : Inhabited placementRequestedMessage :=
  populate (Build_placementRequestedMessage "" "" "" ∅ [] []).
Definition placementRequestedMessage_fields : fields placementRequestedMessage :=
  [ ("deployment_id", λ m j, v ← into m.(placementRequestedMessage_DeploymentID) j;
     Some (Build_placementRequestedMessage v m.(placementRequestedMessage_ApplicationID) m.(placementRequestedMessage_Image) m.(placementRequestedMessage_Env) m.(placementRequestedMessage_Ports) m.(placementRequestedMessage_Command)));
    ("application_id", λ m j, v ← into m.(placementRequestedMessage_ApplicationID) j;
     Some (Build_placementRequestedMessage m.(placementRequestedMessage_DeploymentID) v m.(placementRequestedMessage_Image) m.(placementRequestedMessage_Env) m.(placementRequestedMessage_Ports) m.(placementRequestedMessage_Command)));
    ("image", λ m j, v ← into m.(placementRequestedMessage_Image) j;
     Some (Build_placementRequestedMessage m.(placementRequestedMessage_DeploymentID) m.(placementRequestedMessage_ApplicationID) v m.(placementRequestedMessage_Env) m.(placementRequestedMessage_Ports) m.(placementRequestedMessage_Command)));
    ("env", λ m j, v ← into m.(placementRequestedMessage_Env) j;
     Some (Build_placementRequestedMessage m.(placementRequestedMessage_DeploymentID) m.(placementRequestedMessage_ApplicationID) m.(placementRequestedMessage_Image) v m.(placementRequestedMessage_Ports) m.(placementRequestedMessage_Command)));
    ("ports", λ m j, v ← into m.(placementRequestedMessage_Ports) j;
     Some (Build_placementRequestedMessage m.(placementRequestedMessage_DeploymentID) m.(placementRequestedMessage_ApplicationID) m.(placementRequestedMessage_Image) m.(placementRequestedMessage_Env) v m.(placementRequestedMessage_Command)));
    ("command", λ m j, v ← into m.(placementRequestedMessage_Command) j;
     Some (Build_placementRequestedMessage m.(placementRequestedMessage_DeploymentID) m.(placementRequestedMessage_ApplicationID) m.(placementRequestedMessage_Image) m.(placementRequestedMessage_Env) m.(placementRequestedMessage_Ports) v)) ].
#[export] Instance into_placementRequestedMessage : Into placementRequestedMessage := decode_struct placementRequestedMessage_fields.
Lemma placementRequest_ports_ok (data : wire) msg :
  Unmarshal (A:=placementRequestedMessage) data = Some msg →
  Forall PortSpec_ok msg.(placementRequestedMessage_Ports).
Proof.
  unfold Unmarshal. destruct data as [j|]; [|done]. simpl.
  apply (decode_struct_keeps (λ m, Forall PortSpec_ok m.(placementRequestedMessage_Ports))); [|constructor].
  unfold placementRequestedMessage_fields.
  repeat apply Forall_cons_2; try apply Forall_nil_2; intros m v m' ? Hm; simpl in Hm; apply bind_Some in Hm as (x & Hx & [= <-]);
    simpl; eauto using ports_read.
Qed.
#[export] Instance to_json_placementRequestedMessage : ToJSON placementRequestedMessage := λ m, JObject (
  [("deployment_id", to_json m.(placementRequestedMessage_DeploymentID))]
  ++ [("application_id", to_json m.(placementRequestedMessage_ApplicationID))]
  ++ [("image", to_json m.(placementRequestedMessage_Image))]
  ++ omitempty (bool_decide (m.(placementRequestedMessage_Env) = ∅)) "env" (to_json m.(placementRequestedMessage_Env))
  ++ omitempty (bool_decide (m.(placementRequestedMessage_Ports) = [])) "ports" (to_json m.(placementRequestedMessage_Ports))
  ++ omitempty (bool_decide (m.(placementRequestedMessage_Command) = [])) "command" (to_json m.(placementRequestedMessage_Command))).

(** [placement.requested], as controller-manager writes it *)
Record placementRequest := {
  placementRequest_DeploymentID : string;
  placementRequest_ApplicationID : string;
  placementRequest_Image : string;
  placementRequest_Ports : list PortSpec }.
#[export] Instance placementRequest_zero : Inhabited placementRequest :=
  populate (Build_placementRequest "" "" "" []).
#[export] Instance to_json_placementRequest : ToJSON placementRequest := λ m, JObject (
  [("deployment_id", to_json m.(placementRequest_DeploymentID))]
  ++ [("application_id", to_json m.(placementRequest_ApplicationID))]
  ++ [("image", to_json m.(placementRequest_Image))]
  ++ omitempty (bool_decide (m.(placementRequest_Ports) = [])) "ports" (to_json m.(placementRequest_Ports))).

(** [node.<id>.assign] *)
Record assignMessage := {
  assignMessage_AssignmentID : string;
  assignMessage_DeploymentID : string;
  assignMessage_Image : string;
  assignMessage_Env : gmap string string;
  assignMessage_Ports : list PortSpec;
  assignMessage_Command : list string }.
#[export] Instance assignMessage_zero : Inhabited assignMessage :=
  populate (Build_assignMessage "" "" "" ∅ [] []).
Definition assignMessage_fields : fields assignMessage :=
  [ ("assignment_id", λ m j, v ← into m.(assignMessage_AssignmentID) j;
     Some (Build_assignMessage v m.(assignMessage_DeploymentID) m.(assignMessage_Image) m.(assignMessage_Env) m.(assignMessage_Ports) m.(assignMessage_Command)));
    ("deployment_id", λ m j, v ← into m.(assignMessage_DeploymentID) j;
     Some (Build_assignMessage m.(assignMessage_AssignmentID) v m.(assignMessage_Image) m.(assignMessage_Env) m.(assignMessage_Ports) m.(assignMessage_Command)));
    ("image", λ m j, v ← into m.(assignMessage_Image) j;
     Some (Build_assignMessage m.(assignMessage_AssignmentID) m.(assignMessage_DeploymentID) v m.(assignMessage_Env) m.(assignMessage_Ports) m.(assignMessage_Command)));
    ("env", λ m j, v ← into m.(assignMessage_Env) j;
     Some (Build_assignMessage m.(assignMessage_AssignmentID) m.(assignMessage_DeploymentID) m.(assignMessage_Image) v m.(assignMessage_Ports) m.(assignMessage_Command)));
    ("ports", λ m j, v ← into m.(assignMessage_Ports) j;
     Some (Build_assignMessage m.(assignMessage_AssignmentID) m.(assignMessage_DeploymentID) m.(assignMessage_Image) m.(assignMessage_Env) v m.(assignMessage_Command)));
    ("command", λ m j, v ← into m.(assignMessage_Command) j;
     Some (Build_assignMessage m.(assignMessage_AssignmentID) m.(assignMessage_DeploymentID) m.(assignMessage_Image) m.(assignMessage_Env) m.(assignMessage_Ports) v)) ].
#[export] Instance into_assignMessage : Into assignMessage := decode_struct assignMessage_fields.
#[export] Instance to_json_assignMessage : ToJSON assignMessage := λ m, JObject (
  [("assignment_id", to_json m.(assignMessage_AssignmentID))]
  ++ [("deployment_id", to_json m.(assignMessage_DeploymentID))]
  ++ [("image", to_json m.(assignMessage_Image))]
  ++ omitempty (bool_decide (m.(assignMessage_Env) = ∅)) "env" (to_json m.(assignMessage_Env))
  ++ omitempty (bool_decide (m.(assignMessage_Ports) = [])) "ports" (to_json m.(assignMessage_Ports))
  ++ omitempty (bool_decide (m.(assignMessage_Command) = [])) "command" (to_json m.(assignMessage_Command))).

(** [node.<id>.unassign] *)
Record unassignMessage := {
  unassignMessage_AssignmentID : string;
  unassignMessage_ContainerID : string }.
#[export] Instance unassignMessage_zero : Inhabited unassignMessage :=
  populate (Build_unassignMessage "" "").
Definition unassignMessage_fields : fields unassignMessage :=
  [ ("assignment_id", λ m j, v ← into m.(unassignMessage_AssignmentID) j;
     Some (Build_unassignMessage v m.(unassignMessage_ContainerID)));
    ("container_id", λ m j, v ← into m.(unassignMessage_ContainerID) j;
     Some (Build_unassignMessage m.(unassignMessage_AssignmentID) v)) ].
#[export] Instance into_unassignMessage : Into unassignMessage := decode_struct unassignMessage_fields.
#[export] Instance to_json_unassignMessage : ToJSON unassignMessage := λ m, JObject (
  [("assignment_id", to_json m.(unassignMessage_AssignmentID))]
  ++ [("container_id", to_json m.(unassignMessage_ContainerID))]).

(** [node.<id>.status], as the worker writes it *)
Record statusMessage := {
  statusMessage_AssignmentID : string;
  statusMessage_ContainerID : string;
  statusMessage_Status : string;
  statusMessage_ExitCode : Z;
  statusMessage_Ports : list PortSpec;
  statusMessage_Timestamp : time }.
#[export] Instance statusMessage_zero : Inhabited statusMessage :=
  populate (Build_statusMessage "" "" "" 0 [] zeroTime).
#[export] Instance to_json_statusMessage `{TimeText} : ToJSON statusMessage := λ m, JObject (
  [("assignment_id", to_json m.(statusMessage_AssignmentID))]
  ++ [("container_id", to_json m.(statusMessage_ContainerID))]
  ++ [("status", to_json m.(statusMessage_Status))]
  ++ [("exit_code", to_json m.(statusMessage_ExitCode))]
  ++ omitempty (bool_decide (m.(statusMessage_Ports) = [])) "ports" (to_json m.(statusMessage_Ports))
  ++ [("timestamp", JString (time_String m.(statusMessage_Timestamp)))]).

(** [node.<id>.status], as the scheduler reads it *)
Record statusObservation := {
  statusObservation_AssignmentID : string;
  statusObservation_ContainerID : string;
  statusObservation_Status : string;
  statusObservation_ExitCode : Z;
  statusObservation_Timestamp : time }.
#[export] Instance statusObservation_zero : Inhabited statusObservation :=
  populate (Build_statusObservation "" "" "" 0 zeroTime).
Definition statusObservation_fields `{TimeText} : fields statusObservation :=
  [ ("assignment_id", λ m j, v ← into m.(statusObservation_AssignmentID) j;
     Some (Build_statusObservation v m.(statusObservation_ContainerID) m.(statusObservation_Status) m.(statusObservation_ExitCode) m.(statusObservation_Timestamp)));
    ("container_id", λ m j, v ← into m.(statusObservation_ContainerID) j;
     Some (Build_statusObservation m.(statusObservation_AssignmentID) v m.(statusObservation_Status) m.(statusObservation_ExitCode) m.(statusObservation_Timestamp)));
    ("status", λ m j, v ← into m.(statusObservation_Status) j;
     Some (Build_statusObservation m.(statusObservation_AssignmentID) m.(statusObservation_ContainerID) v m.(statusObservation_ExitCode) m.(statusObservation_Timestamp)));
    ("exit_code", λ m j, v ← into m.(statusObservation_ExitCode) j;
     Some (Build_statusObservation m.(statusObservation_AssignmentID) m.(statusObservation_ContainerID) m.(statusObservation_Status) v m.(statusObservation_Timestamp)));
    ("timestamp", λ m j, v ← into_time m.(statusObservation_Timestamp) j;
     Some (Build_statusObservation m.(statusObservation_AssignmentID) m.(statusObservation_ContainerID) m.(statusObservation_Status) m.(statusObservation_ExitCode) v)) ].
#[export] Instance into_statusObservation `{TimeText} : Into statusObservation := decode_struct statusObservation_fields.

(** [node.<id>.status], as the service instance controller reads it *)
Record statusPorts := {
  statusPorts_AssignmentID : string;
  statusPorts_Status : string;
  statusPorts_Ports : list PortSpec }.
#[export] Instance statusPorts_zero : Inhabited statusPorts :=
  populate (Build_statusPorts "" "" []).
Definition statusPorts_fields : fields statusPorts :=
  [ ("assignment_id", λ m j, v ← into m.(statusPorts_AssignmentID) j;
     Some (Build_statusPorts v m.(statusPorts_Status) m.(statusPorts_Ports)));
    ("status", λ m j, v ← into m.(statusPorts_Status) j;
     Some (Build_statusPorts m.(statusPorts_AssignmentID) v m.(statusPorts_Ports)));
    ("ports", λ m j, v ← into m.(statusPorts_Ports) j;
     Some (Build_statusPorts m.(statusPorts_AssignmentID) m.(statusPorts_Status) v)) ].
#[export] Instance into_statusPorts : Into statusPorts := decode_struct statusPorts_fields.

(** [service.updated] *)
Record updatedMessage := {
  updatedMessage_ContainerID : string }.
#[export] Instance updatedMessage_zero : Inhabited updatedMessage :=
  populate (Build_updatedMessage "").
Definition updatedMessage_fields : fields updatedMessage :=
  [ ("container_id", λ m j, v ← into m.(updatedMessage_ContainerID) j;
     Some (Build_updatedMessage v)) ].
#[export] Instance into_updatedMessage : Into updatedMessage := decode_struct updatedMessage_fields.
#[export] Instance to_json_updatedMessage : ToJSON updatedMessage := λ m, JObject (
  [("container_id", to_json m.(updatedMessage_ContainerID))]).

(** [build.requested] *)
Record buildRequestedMessage := {
  buildRequestedMessage_BuildID : string;
  buildRequestedMessage_OrgID : string;
  buildRequestedMessage_ApplicationID : string;
  buildRequestedMessage_GitURL : string;
  buildRequestedMessage_GitRef : string;
  buildRequestedMessage_ImageRepository : string }.
#[export] Instance buildRequestedMessage_zero : Inhabited buildRequestedMessage :=
  populate (Build_buildRequestedMessage "" "" "" "" "" "").
Definition buildRequestedMessage_fields : fields buildRequestedMessage :=
  [ ("build_id", λ m j, v ← into m.(buildRequestedMessage_BuildID) j;
     Some (Build_buildRequestedMessage v m.(buildRequestedMessage_OrgID) m.(buildRequestedMessage_ApplicationID) m.(buildRequestedMessage_GitURL) m.(buildRequestedMessage_GitRef) m.(buildRequestedMessage_ImageRepository)));
    ("org_id", λ m j, v ← into m.(buildRequestedMessage_OrgID) j;
     Some (Build_buildRequestedMessage m.(buildRequestedMessage_BuildID) v m.(buildRequestedMessage_ApplicationID) m.(buildRequestedMessage_GitURL) m.(buildRequestedMessage_GitRef) m.(buildRequestedMessage_ImageRepository)));
    ("application_id", λ m j, v ← into m.(buildRequestedMessage_ApplicationID) j;
     Some (Build_buildRequestedMessage m.(buildRequestedMessage_BuildID) m.(buildRequestedMessage_OrgID) v m.(buildRequestedMessage_GitURL) m.(buildRequestedMessage_GitRef) m.(buildRequestedMessage_ImageRepository)));
    ("git_url", λ m j, v ← into m.(buildRequestedMessage_GitURL) j;
     Some (Build_buildRequestedMessage m.(buildRequestedMessage_BuildID) m.(buildRequestedMessage_OrgID) m.(buildRequestedMessage_ApplicationID) v m.(buildRequestedMessage_GitRef) m.(buildRequestedMessage_ImageRepository)));
    ("git_ref", λ m j, v ← into m.(buildRequestedMessage_GitRef) j;
     Some (Build_buildRequestedMessage m.(buildRequestedMessage_BuildID) m.(buildRequestedMessage_OrgID) m.(buildRequestedMessage_ApplicationID) m.(buildRequestedMessage_GitURL) v m.(buildRequestedMessage_ImageRepository)));
    ("image_repository", λ m j, v ← into m.(buildRequestedMessage_ImageRepository) j;
     Some (Build_buildRequestedMessage m.(buildRequestedMessage_BuildID) m.(buildRequestedMessage_OrgID) m.(buildRequestedMessage_ApplicationID) m.(buildRequestedMessage_GitURL) m.(buildRequestedMessage_GitRef) v)) ].
#[export] Instance into_buildRequestedMessage : Into buildRequestedMessage := decode_struct buildRequestedMessage_fields.
#[export] Instance to_json_buildRequestedMessage : ToJSON buildRequestedMessage := λ m, JObject (
  [("build_id", to_json m.(buildRequestedMessage_BuildID))]
  ++ [("org_id", to_json m.(buildRequestedMessage_OrgID))]
  ++ [("application_id", to_json m.(buildRequestedMessage_ApplicationID))]
  ++ [("git_url", to_json m.(buildRequestedMessage_GitURL))]
  ++ [("git_ref", to_json m.(buildRequestedMessage_GitRef))]
  ++ [("image_repository", to_json m.(buildRequestedMessage_ImageRepository))]).

(** [build.completed] *)
Record buildCompletedMessage := {
  buildCompletedMessage_BuildID : string;
  buildCompletedMessage_OrgID : string;
  buildCompletedMessage_Status : string;
  buildCompletedMessage_CommitSHA : string;
  buildCompletedMessage_Image : string;
  buildCompletedMessage_Error : string }.
#[export] Instance buildCompletedMessage_zero : Inhabited buildCompletedMessage :=
  populate (Build_buildCompletedMessage "" "" "" "" "" "").
Definition buildCompletedMessage_fields : fields buildCompletedMessage :=
  [ ("build_id", λ m j, v ← into m.(buildCompletedMessage_BuildID) j;
     Some (Build_buildCompletedMessage v m.(buildCompletedMessage_OrgID) m.(buildCompletedMessage_Status) m.(buildCompletedMessage_CommitSHA) m.(buildCompletedMessage_Image) m.(buildCompletedMessage_Error)));
    ("org_id", λ m j, v ← into m.(buildCompletedMessage_OrgID) j;
     Some (Build_buildCompletedMessage m.(buildCompletedMessage_BuildID) v m.(buildCompletedMessage_Status) m.(buildCompletedMessage_CommitSHA) m.(buildCompletedMessage_Image) m.(buildCompletedMessage_Error)));
    ("status", λ m j, v ← into m.(buildCompletedMessage_Status) j;
     Some (Build_buildCompletedMessage m.(buildCompletedMessage_BuildID) m.(buildCompletedMessage_OrgID) v m.(buildCompletedMessage_CommitSHA) m.(buildCompletedMessage_Image) m.(buildCompletedMessage_Error)));
    ("commit_sha", λ m j, v ← into m.(buildCompletedMessage_CommitSHA) j;
     Some (Build_buildCompletedMessage m.(buildCompletedMessage_BuildID) m.(buildCompletedMessage_OrgID) m.(buildCompletedMessage_Status) v m.(buildCompletedMessage_Image) m.(buildCompletedMessage_Error)));
    ("image", λ m j, v ← into m.(buildCompletedMessage_Image) j;
     Some (Build_buildCompletedMessage m.(buildCompletedMessage_BuildID) m.(buildCompletedMessage_OrgID) m.(buildCompletedMessage_Status) m.(buildCompletedMessage_CommitSHA) v m.(buildCompletedMessage_Error)));
    ("error", λ m j, v ← into m.(buildCompletedMessage_Error) j;
     Some (Build_buildCompletedMessage m.(buildCompletedMessage_BuildID) m.(buildCompletedMessage_OrgID) m.(buildCompletedMessage_Status) m.(buildCompletedMessage_CommitSHA) m.(buildCompletedMessage_Image) v)) ].
#[export] Instance into_buildCompletedMessage : Into buildCompletedMessage := decode_struct buildCompletedMessage_fields.
#[export] Instance to_json_buildCompletedMessage : ToJSON buildCompletedMessage := λ m, JObject (
  [("build_id", to_json m.(buildCompletedMessage_BuildID))]
  ++ [("org_id", to_json m.(buildCompletedMessage_OrgID))]
  ++ [("status", to_json m.(buildCompletedMessage_Status))]
  ++ omitempty (bool_decide (m.(buildCompletedMessage_CommitSHA) = "")) "commit_sha" (to_json m.(buildCompletedMessage_CommitSHA))
  ++ omitempty (bool_decide (m.(buildCompletedMessage_Image) = "")) "image" (to_json m.(buildCompletedMessage_Image))
  ++ omitempty (bool_decide (m.(buildCompletedMessage_Error) = "")) "error" (to_json m.(buildCompletedMessage_Error))).

(** ** The contract: a consumer reads what its producer wrote *)

Ltac wire_message :=
  intros; unfold Unmarshal; simpl;
  match goal with
  | |- @into ?A _ _ (@to_json ?B _ ?m) = _ =>
      destruct m; simpl in *; destruct_and?; unfold into, to_json; simpl
  end;
  wire_fields;
  repeat first [ rewrite into_ports by assumption; simpl | rewrite into_strings; simpl | wire_step ];
  try done.

#[export] Instance registerMessage_wire : WireType registerMessage .
Proof.
  refine {| wire_ok m := int64_ok m.(registerMessage_CPUCapacityMillicores) = true
               ∧ int64_ok m.(registerMessage_MemoryCapacityMB) = true |}. wire_message.
Defined.
#[export] Instance heartbeatMessage_wire `{TimeText} : WireType heartbeatMessage .
Proof.
  refine {| wire_ok _ := True |}. wire_message.
Defined.
#[export] Instance placementRequestedMessage_wire : WireType placementRequestedMessage .
Proof.
  refine {| wire_ok m := Forall PortSpec_ok m.(placementRequestedMessage_Ports) |}. wire_message.
Defined.
#[export] Instance assignMessage_wire : WireType assignMessage .
Proof.
  refine {| wire_ok m := Forall PortSpec_ok m.(assignMessage_Ports) |}. wire_message.
Defined.
#[export] Instance unassignMessage_wire : WireType unassignMessage.
Proof.
  refine {| wire_ok _ := True |}. wire_message.
Defined.
#[export] Instance updatedMessage_wire : WireType updatedMessage.
Proof.
  refine {| wire_ok _ := True |}. wire_message.
Defined.
#[export] Instance buildRequestedMessage_wire : WireType buildRequestedMessage.
Proof.
  refine {| wire_ok _ := True |}. wire_message.
Defined.
#[export] Instance buildCompletedMessage_wire : WireType buildCompletedMessage.
Proof.
  refine {| wire_ok _ := True |}. wire_message.
Defined.

(** The copies that differ: what the scheduler makes of the controller's
    request, and what each reader of a status sees of the worker's. *)
Lemma placementRequest_read m :
  Forall PortSpec_ok m.(placementRequest_Ports) →
  Unmarshal (Some (to_json m)) = Some
    {| placementRequestedMessage_DeploymentID := m.(placementRequest_DeploymentID);
       placementRequestedMessage_ApplicationID := m.(placementRequest_ApplicationID);
       placementRequestedMessage_Image := m.(placementRequest_Image);
       placementRequestedMessage_Env := ∅;
       placementRequestedMessage_Ports := m.(placementRequest_Ports);
       placementRequestedMessage_Command := [] |}.
Proof. wire_message. Qed.

Definition observed (m : statusMessage) : statusObservation :=
  {| statusObservation_AssignmentID := m.(statusMessage_AssignmentID);
     statusObservation_ContainerID := m.(statusMessage_ContainerID);
     statusObservation_Status := m.(statusMessage_Status);
     statusObservation_ExitCode := m.(statusMessage_ExitCode);
     statusObservation_Timestamp := m.(statusMessage_Timestamp) |}.
Definition observed_ports (m : statusMessage) : statusPorts :=
  {| statusPorts_AssignmentID := m.(statusMessage_AssignmentID);
     statusPorts_Status := m.(statusMessage_Status);
     statusPorts_Ports := m.(statusMessage_Ports) |}.

Lemma statusMessage_observed `{TimeText} m :
  int64_ok m.(statusMessage_ExitCode) = true →
  Unmarshal (Some (to_json m)) = Some (observed m).
Proof. wire_message. Qed.
Lemma statusMessage_observed_ports `{TimeText} m :
  Forall PortSpec_ok m.(statusMessage_Ports) →
  Unmarshal (Some (to_json m)) = Some (observed_ports m).
Proof. wire_message. Qed.
