(* ===== verification/Sample.v ===== *)
(** * Sample: a small concrete database

    One organization with an owner and a viewer, a project, an application
    deployed once, two nodes and one running container: the input the
    theorems are instantiated at. *)
From S2P Require Import Prelude Json Schema Effects.
From stdpp Require Import base gmap strings list.
From Stdlib Require Import ZArith.
Open Scope Z_scope.

Definition acme : Organization := Build_Organization 1 "Acme" "acme" 0.
Definition ann : User := Build_User 2 "ann@example.com" "hash" 0.
Definition vic : User := Build_User 3 "vic@example.com" "hash" 0.
Definition ann_owner : Membership := Build_Membership 4 1 2 MembershipRoleOwner 0.
Definition vic_viewer : Membership := Build_Membership 5 1 3 MembershipRoleViewer 0.
Definition web : Project := Build_Project 10 1 "Web" "web" 0.
Definition shop : Application :=
  Build_Application 20 1 10 "Shop" "nginx:1" 2 0 0 [Build_PortSpec 80 0 "tcp"] None 0 0.
Definition shop_v1 : Deployment :=
  Build_Deployment 30 1 20 "nginx:1" 1 DeploymentStatusPending "recreate" None 2 0 None.
Definition node_a : Node :=
  Build_Node 40 "a" "10.0.0.1" 2000 2048 NodeStatusHealthy (100 * Second) ∅ 0.
Definition node_b : Node :=
  Build_Node 41 "b" "10.0.0.2" 2000 2048 NodeStatusHealthy (80 * Second) ∅ 1.
Definition shop_c1 : Container :=
  Build_Container 50 30 40 (Some "c1") ContainerStatusRunning 0 (Some (90 * Second)) None.
Definition acme_quota : ResourceQuota := Build_ResourceQuota 1 8000 16384 20 10 100 0.

Definition sampleDB : DB :=
  set_organizations {[1%N := acme]} (set_users (<[2%N := ann]> {[3%N := vic]})
  (set_memberships (<[4%N := ann_owner]> {[5%N := vic_viewer]})
  (set_projects {[10%N := web]} (set_applications {[20%N := shop]}
  (set_deployments {[30%N := shop_v1]} (set_nodes (<[40%N := node_a]> {[41%N := node_b]})
  (set_containers {[50%N := shop_c1]} (set_resource_quotas {[1%N := acme_quota]} emptyDB)))))))).

(** At 100 s, nothing sent yet, no call about to fail. *)
Definition sampleWorld : World := mkWorld sampleDB noSession (100 * Second) 1000 [] [].
