(* ===== verification/Slug.v ===== *)
(** * Slug: names to identifiers

    [slugify] of services/controller-manager (serviceinstance.go) and of
    services/apiserver (permission.go), which also trims the name's white
    space, and [dnsName].  Strings are read as ASCII: a byte outside it counts
    as one invalid character (a run of them gives one dash either way; the two
    code points outside ASCII whose lower case is ASCII are not modelled). *)
From S2P Require Import Prelude Json.
From stdpp Require Import base gmap strings list.
From Stdlib Require Import ZArith Lia Ascii String.
Open Scope Z_scope.
Open Scope list_scope.

Abbreviation chars := (list ascii) (only parsing).
Definition dash : ascii := "-"%char.

(** [a-z0-9] *)
Definition slug_char (c : ascii) : bool :=
  let n := N_of_ascii c in
  ((97 <=? n) && (n <=? 122) || (48 <=? n) && (n <=? 57))%N.

(** [ReplaceAllString(`[^a-z0-9]+`, s, "-")]: each maximal run of other
    characters becomes one dash; [in_run] when the previous one was part of
    a run. *)
Fixpoint replace_runs (in_run : bool) (s : chars) : chars :=
  match s with
  | [] => []
  | c :: s =>
      if slug_char c then c :: replace_runs false s
      else if in_run then replace_runs true s else dash :: replace_runs true s
  end.

(** [strings.Trim(s, "-")] *)
Fixpoint trim_left (s : chars) : chars :=
  match s with
  | [] => []
  | c :: s' => if decide (c = dash) then trim_left s' else s
  end.
Definition trim (s : chars) : chars := reverse (trim_left (reverse (trim_left s))).

Definition slugify_chars (s : chars) : chars := trim (replace_runs false (lower_ascii <$> s)).
Definition slugify (s : string) : string :=
  string_of_list_ascii (slugify_chars (list_ascii_of_string s)).

(** [strings.TrimSpace] on ASCII white space. *)
Definition is_space (c : ascii) : bool :=
  let n := N_of_ascii c in ((9 <=? n) && (n <=? 13) || (n =? 32))%N.
Fixpoint trim_space_left (s : chars) : chars :=
  match s with [] => [] | c :: s' => if is_space c then trim_space_left s' else s end.
Definition TrimSpace_chars (s : chars) : chars :=
  reverse (trim_space_left (reverse (trim_space_left s))).
Definition TrimSpace (s : string) : string :=
  string_of_list_ascii (TrimSpace_chars (list_ascii_of_string s)).

(** The apiserver's copy. *)
Definition slugify_name (name : string) : string := slugify (TrimSpace name).

(** [strings.ReplaceAll(s, "-", "")] and [s[:8]] (a canonical UUID has 32
    digits). *)
Definition strip_dashes (s : chars) : chars := filter (λ c, c ≠ dash) s.
Definition dnsName `{UUIDText} (projectSlug applicationName : string) (applicationID : uuid)
    : string :=
  let idSuffix := string_of_list_ascii
    (take 8 (strip_dashes (list_ascii_of_string (uuid_String applicationID)))) in
  projectSlug +:+ "-" +:+ slugify applicationName +:+ "-" +:+ idSuffix +:+ ".internal".

(** ** The shape of a slug *)

(** Only [a-z0-9] and dashes, and never two dashes in a row. *)
Fixpoint no_double_dash (s : chars) : Prop :=
  match s with
  | [] => True
  | c :: s' => (slug_char c = true ∨ c = dash)
               ∧ (c = dash → head s' ≠ Some dash) ∧ no_double_dash s'
  end.
Definition slug_shape (s : chars) : Prop :=
  no_double_dash s ∧ head s ≠ Some dash ∧ last s ≠ Some dash.

Lemma dash_not_slug : slug_char dash = false.
Proof. done. Qed.

Lemma replace_runs_shape b s :
  no_double_dash (replace_runs b s) ∧ (b = true → head (replace_runs b s) ≠ Some dash).
Proof.
  revert b. induction s as [|c s IH]; intros b; simpl; [done|].
  destruct (slug_char c) eqn:Hc; simpl.
  - split; [|intros _ [=->]; by rewrite dash_not_slug in Hc].
    split; [by left|]. split; [|apply IH]. intros ->. by rewrite dash_not_slug in Hc.
  - destruct b; [apply IH|]. simpl. split; [|done].
    split; [by right|]. split; [|apply IH]. intros _. by apply (IH true).
Qed.

Lemma no_double_dash_app s1 s2 : no_double_dash (s1 ++ s2) → no_double_dash s1 ∧ no_double_dash s2.
Proof.
  induction s1 as [|c s1 IH]; simpl; [done|]. intros (Hc & Hd & Hs).
  destruct (IH Hs). split; [|done]. split; [done|]. split; [|done].
  intros ->. specialize (Hd eq_refl). by destruct s1.
Qed.

Lemma trim_left_suffix s : ∃ k, s = k ++ trim_left s ∧ Forall (eq dash) k.
Proof.
  induction s as [|c s (k & Hk & Hd)]; simpl; [by exists []|].
  case_decide as Hc; [|by exists []]. subst c. exists (dash :: k).
  split; [by simpl; f_equal|by constructor].
Qed.
Lemma trim_left_head s : head (trim_left s) ≠ Some dash.
Proof. induction s as [|c s IH]; simpl; [done|]. case_decide; [done|]. simpl. congruence. Qed.
Lemma trim_left_id s : head s ≠ Some dash → trim_left s = s.
Proof. destruct s as [|c s]; simpl; [done|]. intros Hc. rewrite decide_False; [done|]. congruence. Qed.
Lemma last_reverse {A} (s : list A) : last (reverse s) = head s.
Proof. destruct s as [|c s]; [done|]. by rewrite reverse_cons, last_snoc. Qed.
Lemma head_reverse {A} (s : list A) : head (reverse s) = last s.
Proof. rewrite <-(reverse_involutive s) at 2. by rewrite last_reverse. Qed.

Lemma trim_parts s :
  ∃ k1 k2, s = k1 ++ trim s ++ k2 ∧ Forall (eq dash) k1 ∧ Forall (eq dash) k2.
Proof.
  unfold trim. destruct (trim_left_suffix s) as (k1 & H1 & F1).
  destruct (trim_left_suffix (reverse (trim_left s))) as (k2 & H2 & F2).
  exists k1, (reverse k2). split; [|by rewrite Forall_reverse]. rewrite H1 at 1. f_equal.
  rewrite <-reverse_app, <-H2. by rewrite reverse_involutive.
Qed.
Lemma trim_id s : head s ≠ Some dash → last s ≠ Some dash → trim s = s.
Proof.
  intros Hh Hl. unfold trim. rewrite (trim_left_id s) by done.
  rewrite trim_left_id by (by rewrite head_reverse). by rewrite reverse_involutive.
Qed.
Lemma trim_ends s : head (trim s) ≠ Some dash ∧ last (trim s) ≠ Some dash.
Proof.
  unfold trim. rewrite last_reverse. split; [|apply trim_left_head]. rewrite head_reverse.
  destruct (trim_left_suffix (reverse (trim_left s))) as (k & Hk & _).
  destruct (trim_left (reverse (trim_left s))) as [|c l] eqn:E; [done|].
  apply (f_equal reverse) in Hk. rewrite reverse_involutive, reverse_app in Hk.
  pose proof (trim_left_head s) as Hh. rewrite Hk in Hh.
  rewrite <-(reverse_involutive (c :: l)), last_reverse. by destruct (reverse (c :: l)).
Qed.

Lemma lower_slug_char c : slug_char c = true ∨ c = dash → lower_ascii c = c.
Proof. destruct c as [[] [] [] [] [] [] [] []]; vm_compute; intros [|]; congruence. Qed.
Lemma lower_id s : no_double_dash s → lower_ascii <$> s = s.
Proof.
  induction s as [|c s IH]; [done|]. intros (Hc & _ & Hs). csimpl.
  by rewrite lower_slug_char, IH.
Qed.
Lemma replace_runs_id b s :
  no_double_dash s → (b = true → head s ≠ Some dash) → replace_runs b s = s.
Proof.
  revert b. induction s as [|c s IH]; intros b; simpl; [done|].
  intros (Hc & Hd & Hs) Hb. destruct (slug_char c) eqn:E; [by rewrite IH|].
  destruct Hc as [?| ->]; [done|]. destruct b; [by specialize (Hb eq_refl)|].
  rewrite IH; auto.
Qed.
Lemma replace_runs_chars b s :
  filter (λ c, slug_char c = true) (replace_runs b s) = filter (λ c, slug_char c = true) s.
Proof.
  revert b. induction s as [|c s IH]; intros b; [done|]. simpl.
  destruct (slug_char c) eqn:E.
  - rewrite !filter_cons_True by done. by rewrite IH.
  - rewrite (filter_cons_False _ c s) by congruence. destruct b; [apply IH|].
    rewrite filter_cons_False by done. apply IH.
Qed.
Lemma filter_dashes s : Forall (eq dash) s → filter (λ c, slug_char c = true) s = [].
Proof. induction 1 as [|c s <- _ IH]; [done|]. by rewrite filter_cons_False. Qed.

Lemma slugify_chars_shape s : slug_shape (slugify_chars s).
Proof.
  unfold slugify_chars, slug_shape. split; [|apply trim_ends].
  destruct (trim_parts (replace_runs false (lower_ascii <$> s))) as (k1 & k2 & Hk & _).
  pose proof (proj1 (replace_runs_shape false (lower_ascii <$> s))) as Hs.
  rewrite Hk in Hs. apply no_double_dash_app in Hs as [_ Hs]. by apply no_double_dash_app in Hs as [? _].
Qed.
Lemma slugify_chars_id s : slug_shape s → slugify_chars s = s.
Proof.
  intros (Hs & Hh & Hl). unfold slugify_chars. rewrite lower_id by done.
  rewrite replace_runs_id by done. by apply trim_id.
Qed.

(** a slug has only lower-case letters, digits and single inner dashes; it
    keeps exactly the letters and digits of the lower-cased name, in order; and
    slugs are the fixed points, so deriving a slug twice changes nothing. *)
Theorem slugify_correct (name : string) :
  let s := list_ascii_of_string (slugify name) in
  slug_shape s
  ∧ filter (λ c, slug_char c = true) s
    = filter (λ c, slug_char c = true) (lower_ascii <$> list_ascii_of_string name)
  ∧ (slugify name = name ↔ slug_shape (list_ascii_of_string name)).
Proof.
  unfold slugify. rewrite list_ascii_of_string_of_list_ascii. simpl.
  set (l := list_ascii_of_string name). split; [apply slugify_chars_shape|]. split.
  - unfold slugify_chars.
    destruct (trim_parts (replace_runs false (lower_ascii <$> l))) as (k1 & k2 & Hk & F1 & F2).
    rewrite <-(replace_runs_chars false (lower_ascii <$> l)). rewrite Hk at 2.
    rewrite !filter_app, (filter_dashes k1), (filter_dashes k2) by done. by rewrite app_nil_r.
  - split.
    + intros Hn. pose proof (slugify_chars_shape l) as Hs.
      apply (f_equal list_ascii_of_string) in Hn.
      rewrite list_ascii_of_string_of_list_ascii in Hn. fold l in Hn. by rewrite Hn in Hs.
    + intros Hs. rewrite slugify_chars_id by done. apply string_of_list_ascii_of_string.
Qed.

(** the claim that appending the id makes a name unique is too strong: only
    the first eight digits of the id are used, so two applications of the same
    name and project slug whose ids share them get the same name. *)
Theorem dnsName_not_injective :
  ∃ (u v : uuid), u ≠ v ∧ (u < 2 ^ 128)%N ∧ (v < 2 ^ 128)%N
    ∧ ∀ slug name, @dnsName hexUUID slug name u = @dnsName hexUUID slug name v.
Proof.
  exists (2 ^ 100)%N, (2 ^ 100 + 1)%N.
  split; [done|]. split; [done|]. split; [done|]. intros. by vm_compute.
Qed.
