(* ===== verification/Settings.v ===== *)
(** * Settings: the environment a service is configured from

    internal/config/config.go over [os.Getenv], and [time.ParseDuration] of
    Go's library, which reads the durations.  The environment is the map of
    the variables that are set. *)
From S2P Require Import Prelude Json Text.
From stdpp Require Import base gmap strings list pretty.
From Stdlib Require Import ZArith Lia Ascii SpecFloat.
Open Scope Z_scope.

(** ** time.ParseDuration *)

Definition Microsecond : time := 1000.
Definition Millisecond : time := 1000000.
Definition Minute : time := 60 * Second.

(** [leadingInt]: the digits at the head of a string, at most [2^63]. *)
Fixpoint leadingInt (x : Z) (s : string) : option (Z * string) :=
  match s with
  | String c s' =>
      match digit c with
      | None => Some (x, s)
      | Some d =>
          if decide (2 ^ 63 / 10 < x) then None
          else if decide (2 ^ 63 < 10 * x + d) then None
          else leadingInt (10 * x + d) s'
      end
  | "" => Some (x, "")
  end%string.

(** A [float64] and what the source's arithmetic on it rounds to. *)
Definition float64 : Type := spec_float.
Definition float64_of (n : Z) : float64 := binary_normalize 53 1024 n 0 false.
Definition float64_mul (a b : float64) : float64 := SFmul 53 1024 a b.
Definition float64_div (a b : float64) : float64 := SFdiv 53 1024 a b.
(** The conversion to [uint64] of a float in its range: towards zero. *)
Definition uint64_of (f : float64) : Z :=
  match f with
  | S754_finite false m e =>
      if decide (0 ≤ e) then Z.pos m * 2 ^ e else Z.pos m / 2 ^ (- e)
  | _ => 0
  end.

(** [leadingFraction]: digits as a number and the power of ten under it;
    digits that no longer fit are dropped. *)
Fixpoint leadingFraction (overflow : bool) (x : Z) (scale : float64) (s : string)
    : Z * float64 * string :=
  match s with
  | String c s' =>
      match digit c with
      | None => (x, scale, s)
      | Some d =>
          if overflow then leadingFraction true x scale s'
          else if decide ((2 ^ 63 - 1) / 10 < x) then leadingFraction true x scale s'
          else if decide (2 ^ 63 < 10 * x + d) then leadingFraction true x scale s'
          else leadingFraction false (10 * x + d) (float64_mul scale (float64_of 10)) s'
      end
  | "" => (x, scale, "")
  end%string.

(** The unit: everything up to the next digit or point. *)
Fixpoint leadingUnit (s : string) : string * string :=
  match s with
  | String c s' =>
      match digit c with
      | Some _ => ("", s)
      | None => if decide (c = "."%char) then ("", s)
                else let '(u, rest) := leadingUnit s' in (String c u, rest)
      end
  | "" => ("", "")
  end%string.
(** The two spellings of the micro sign, in UTF-8. *)
Definition micro_sign : string := String (ascii_of_nat 194) (String (ascii_of_nat 181) "s").
Definition greek_mu : string := String (ascii_of_nat 206) (String (ascii_of_nat 188) "s").
Definition unitMap (u : string) : option Z :=
  if decide (u = "ns") then Some 1
  else if decide (u = "us" ∨ u = micro_sign ∨ u = greek_mu) then Some Microsecond
  else if decide (u = "ms") then Some Millisecond
  else if decide (u = "s") then Some Second
  else if decide (u = "m") then Some Minute
  else if decide (u = "h") then Some Hour
  else None.

(** The fraction after a point, if there is one; whether it has digits. *)
Definition fraction (s : string) : Z * float64 * string * bool :=
  match s with
  | String "." s' =>
      let '(f, scale, s'') := leadingFraction false 0 (float64_of 1) s' in
      (f, scale, s'', bool_decide (s'' ≠ s'))
  | _ => (0, float64_of 1, s, false)
  end.

(** One [123.45ms] of the text: its nanoseconds and what follows it. *)
Definition duration_part (s : string) : option (Z * string) :=
  '(v, s1) ← leadingInt 0 s;
  let pre := bool_decide (s1 ≠ s) in
  let '(f, scale, s2, post) := fraction s1 in
  if negb (pre || post) then None
  else
    let '(u, rest) := leadingUnit s2 in
    if decide (u = "") then None
    else
      unit ← unitMap u;
      if decide (2 ^ 63 / unit < v) then None
      else
        let v := v * unit in
        if decide (0 < f) then
          let v := v + uint64_of (float64_mul (float64_of f)
                                    (float64_div (float64_of unit) scale)) in
          if decide (2 ^ 63 < v) then None else Some (v, rest)
        else Some (v, rest).

(** The loop over the parts; each takes at least one character, so the length
    of the text is enough fuel ([ParseDuration_fuel]).  The sum is a [uint64]. *)
Fixpoint duration_parts (fuel : nat) (d : Z) (s : string) : option Z :=
  match fuel with
  | O => if decide (s = "") then Some d else None
  | S fuel =>
      if decide (s = "") then Some d
      else '(v, rest) ← duration_part s;
           let d := (d + v) mod 2 ^ 64 in
           if decide (2 ^ 63 < d) then None else duration_parts fuel d rest
  end.
Definition ParseDuration (s : string) : option time :=
  let '(neg, s) := match s with
                   | String "-" s => (true, s)
                   | String "+" s => (false, s)
                   | _ => (false, s) end in
  if decide (s = "0") then Some 0
  else if decide (s = "") then None
  else
    d ← duration_parts (String.length s) 0 s;
    if (neg : bool) then Some (- d) else if decide (2 ^ 63 - 1 < d) then None else Some d.

Example ParseDuration_reads :
  ParseDuration "5s" = Some (5 * Second)
  ∧ ParseDuration "1h15m30.918s" = Some (1 * Hour + 15 * Minute + 30918 * Millisecond)
  ∧ ParseDuration "-1.5h" = Some (- (90 * Minute))
  ∧ ParseDuration ".5s" = Some (500 * Millisecond)
  ∧ ParseDuration "0" = Some 0 ∧ ParseDuration "+0s" = Some 0
  ∧ ParseDuration "0.3333333333333333333h" = Some 1200000000000
  ∧ ParseDuration "9223372036854775807ns" = Some (2 ^ 63 - 1)
  ∧ ParseDuration "9223372036854775808ns" = None
  ∧ ParseDuration "-9223372036854775808ns" = Some (- 2 ^ 63)
  ∧ ParseDuration "5" = None ∧ ParseDuration "." = None ∧ ParseDuration "1d" = None
  ∧ ParseDuration "9223372036854775808ns9223372036854775808ns" = Some 0
  ∧ ParseDuration "" = None ∧ ParseDuration "10us" = Some 10000.
Proof. vm_compute. done. Qed.

(** ** config.go *)

Section config.
Context (env : gmap string string).

(** [os.Getenv]: empty when not set. *)
Definition Getenv (key : string) : string := default "" (env !! key).

Definition String_ (key fallback : string) : string :=
  let v := Getenv key in if decide (v ≠ "") then v else fallback.
Definition Int (key : string) (fallback : Z) : Z :=
  let v := Getenv key in
  if decide (v = "") then fallback else match Atoi v with None => fallback | Some n => n end.
Definition Duration (key : string) (fallback : time) : time :=
  let v := Getenv key in
  if decide (v = "") then fallback
  else match ParseDuration v with None => fallback | Some d => d end.
End config.

(** ** Bounds *)

Lemma digit_bounds c d : digit c = Some d → 0 ≤ d ≤ 9.
Proof. unfold digit. case_decide; [|done]. intros [= <-]. lia. Qed.
Lemma leadingInt_bounds s : ∀ x v rest,
  leadingInt x s = Some (v, rest) → 0 ≤ x ≤ 2 ^ 63 → 0 ≤ v ≤ 2 ^ 63.
Proof.
  induction s as [|c s IH]; intros x v rest; [by intros [= <- <-]|]. cbn [leadingInt].
  destruct (digit c) as [d|] eqn:Ed; [|by intros [= <- <-]]. apply digit_bounds in Ed.
  case_decide; [done|]. case_decide; [done|]. intros Hl Hx. apply (IH _ _ _ Hl). lia.
Qed.
Lemma uint64_of_nonneg f : 0 ≤ uint64_of f.
Proof.
  destruct f as [| | |[] m e]; simpl; try lia. case_decide; [lia|].
  apply Z.div_pos; [lia|]. apply Z.pow_pos_nonneg; lia.
Qed.
Lemma unitMap_pos u n : unitMap u = Some n → 0 < n.
Proof. unfold unitMap. repeat case_decide; by intros [= <-]. Qed.

(** Text the parser has passed is gone. *)
Lemma leadingInt_shorter s : ∀ x v rest,
  leadingInt x s = Some (v, rest) → (String.length rest ≤ String.length s)%nat.
Proof.
  induction s as [|c s IH]; intros x v rest; [by intros [= <- <-]|]. cbn [leadingInt].
  destruct (digit c); [|by intros [= <- <-]]. case_decide; [done|]. case_decide; [done|].
  intros Hl%IH. simpl. lia.
Qed.
Lemma leadingFraction_shorter s : ∀ o x sc,
  (String.length (leadingFraction o x sc s).2 ≤ String.length s)%nat.
Proof.
  induction s as [|c s IH]; intros o x sc; [done|]. cbn [leadingFraction].
  destruct (digit c) as [d|]; [|done]. specialize (IH).
  destruct o; [|case_decide; [|case_decide]]; etrans; try apply IH; simpl; lia.
Qed.
Lemma leadingUnit_shorter s :
  (leadingUnit s).1 ≠ "" → (String.length (leadingUnit s).2 < String.length s)%nat.
Proof.
  enough ((String.length (leadingUnit s).2 + String.length (leadingUnit s).1 = String.length s)%nat) as E.
  { intros Hu. destruct ((leadingUnit s).1); [done|]. simpl in E. lia. }
  induction s as [|c s IH]; [done|]. simpl. destruct (digit c); [done|]. case_decide; [done|].
  destruct (leadingUnit s) as [u rest]. simpl in *. lia.
Qed.
Lemma fraction_shorter s f sc s' b :
  fraction s = (f, sc, s', b) → (String.length s' ≤ String.length s)%nat.
Proof.
  unfold fraction. intros E.
  assert (s' = (fraction s).1.2) as -> by (unfold fraction; by rewrite E). clear E. unfold fraction.
  destruct s as [|[[] [] [] [] [] [] [] []] s]; try done.
  pose proof (leadingFraction_shorter s false 0 (float64_of 1)) as Hl.
  destruct (leadingFraction _ _ _ s) as [[f' sc'] s'']. simpl in *. lia.
Qed.

(** A part is a number of nanoseconds no larger than [2^63], and what follows it
    is shorter than it. *)
Lemma duration_part_spec s v rest :
  duration_part s = Some (v, rest) →
  0 ≤ v ≤ 2 ^ 63 ∧ (String.length rest < String.length s)%nat.
Proof.
  unfold duration_part. destruct (leadingInt 0 s) as [[v0 s1]|] eqn:Ei; [|done]. simpl.
  destruct (fraction s1) as [[[f sc] s2] post] eqn:Ef. case_match; [done|].
  pose proof (leadingUnit_shorter s2) as Hu. destruct (leadingUnit s2) as [u s3].
  destruct (decide (u = "")) as [->|Hne]; [discriminate|]. destruct (unitMap u) as [unit|] eqn:Eu; [|done]. simpl in *.
  apply leadingInt_bounds in Ei as Hv; [|lia]. apply leadingInt_shorter in Ei.
  apply fraction_shorter in Ef. apply unitMap_pos in Eu. specialize (Hu Hne).
  destruct (decide (2 ^ 63 / unit < v0)) as [?|Hov]; [discriminate|].
  assert (0 ≤ v0 * unit ≤ 2 ^ 63).
  { split; [nia|]. pose proof (Z.mul_div_le (2 ^ 63) unit Eu). nia. }
  pose proof (uint64_of_nonneg (float64_mul (float64_of f) (float64_div (float64_of unit) sc))).
  repeat case_decide; intros [=]; subst; split; lia.
Qed.
Lemma duration_parts_bounds n : ∀ d s r,
  duration_parts n d s = Some r → 0 ≤ d ≤ 2 ^ 63 → 0 ≤ r ≤ 2 ^ 63.
Proof.
  induction n as [|n IH]; intros d s r; simpl.
  { case_decide; [|done]. by intros [= <-]. }
  case_decide; [by intros [= <-]|]. destruct (duration_part s) as [[v rest]|] eqn:E; [|done]. simpl.
  case_decide; [done|]. intros Hr Hd. apply (IH _ _ _ Hr).
  pose proof (Z.mod_pos_bound (d + v) (2 ^ 64)). lia.
Qed.
(** More fuel than the text is long changes nothing. *)
Lemma duration_parts_fuel n m : ∀ d s,
  (String.length s ≤ n)%nat → (String.length s ≤ m)%nat →
  duration_parts n d s = duration_parts m d s.
Proof.
  revert m. induction n as [|n IH]; intros [|m] d s Hn Hm.
  1-3: destruct s; [done|]; simpl in *; lia.
  simpl. case_decide; [done|]. destruct (duration_part s) as [[v rest]|] eqn:E; [|done]. simpl.
  apply duration_part_spec in E as [_ ?]. case_decide; [done|]. apply IH; lia.
Qed.

(** A duration read is a [time.Duration]. *)
Lemma ParseDuration_bounds s d : ParseDuration s = Some d → - 2 ^ 63 ≤ d < 2 ^ 63.
Proof.
  unfold ParseDuration.
  match goal with |- (let '(_, _) := ?p in _) = _ → _ => destruct p as [neg s'] end.
  case_decide; [intros [= <-]; lia|]. case_decide; [done|].
  destruct (duration_parts _ 0 _) as [r|] eqn:E; [|done]. simpl.
  apply duration_parts_bounds in E; [|lia].
  destruct neg; [intros [= <-]; lia|]. case_decide; [done|]. intros [= <-]. lia.
Qed.

Lemma Atoi_bounds s n : Atoi s = Some n → - 2 ^ 63 ≤ n < 2 ^ 63.
Proof.
  unfold Atoi.
  match goal with |- (?o ≫= _) = _ → _ => destruct o as [m|]; [|done] end. simpl.
  case_decide; [|done]. by intros [= <-].
Qed.

(** ** Durations as they are written *)

Lemma leadingInt_pretty_go x rest :
  ∀ s, leadingInt 0 (pretty_N_go x s +:+ rest) = leadingInt 0 (pretty_N_go x (s +:+ rest)).
Proof.
  induction (N.lt_wf_0 x) as [x _ IH]; intros s. destruct (decide (x = 0%N)) as [->|Hx].
  - by rewrite !pretty_N_go_0.
  - rewrite !(pretty_N_go_step x) by lia. by rewrite IH by (apply N.div_lt; lia).
Qed.
(** A number is read, unless it is beyond [2^63]. *)
Lemma leadingInt_digits x s :
  leadingInt 0 (pretty_N_go x s)
  = if decide (Z.of_N x ≤ 2 ^ 63) then leadingInt (Z.of_N x) s else None.
Proof.
  revert s. induction (N.lt_wf_0 x) as [x _ IH]; intros s.
  destruct (decide (x = 0%N)) as [->|Hx]; [by rewrite pretty_N_go_0|].
  pose proof (N.div_mod x 10 ltac:(done)) as Hdm. pose proof (N.mod_lt x 10 ltac:(done)) as Hm.
  rewrite pretty_N_go_step by lia. rewrite IH by (apply N.div_lt; lia).
  cbn [leadingInt]. rewrite digit_pretty by (apply N.mod_lt; lia).
  apply (f_equal Z.of_N) in Hdm. rewrite N2Z.inj_add, N2Z.inj_mul in Hdm.
  change (Z.of_N 10) with 10 in *. change (2 ^ 63 / 10) with 922337203685477580.
  change (2 ^ 63) with 9223372036854775808 in *.
  assert (0 ≤ Z.of_N (x mod 10) < 10) as Hb.
  { split; [apply N2Z.is_nonneg|]. apply N2Z.inj_lt in Hm. exact Hm. }
  clear IH Hx Hm. revert Hdm Hb.
  generalize (Z.of_N x), (Z.of_N (x / 10)), (Z.of_N (x mod 10)). intros z a b -> Hb.
  repeat case_decide; try reflexivity; exfalso; lia.
Qed.
(** Text that starts with no digit. *)
Definition no_digit (s : string) : Prop :=
  match s with String c _ => digit c = None | "" => True end%string.
Lemma leadingInt_none x s : no_digit s → leadingInt x s = Some (x, s).
Proof. destruct s as [|c s]; simpl; [done|]. by intros ->. Qed.
Lemma leadingInt_pretty n s :
  0 ≤ n → no_digit s →
  leadingInt 0 (pretty n +:+ s) = if decide (n ≤ 2 ^ 63) then Some (n, s) else None.
Proof.
  intros Hn Hs. destruct n as [|p|p]; [|clear Hn|lia].
  - change (pretty 0 +:+ s) with (String "0" s). simpl. by apply leadingInt_none.
  - change (pretty (Z.pos p)) with (if decide (N.pos p = 0%N) then "0" else pretty_N_go (N.pos p) "").
    rewrite decide_False by done. rewrite leadingInt_pretty_go, leadingInt_digits.
    change (Z.of_N (N.pos p)) with (Z.pos p). change ("" +:+ s) with s. by rewrite leadingInt_none.
Qed.
(** A number's text starts with a digit. *)
Lemma pretty_head n : 0 ≤ n → ∃ y s, (y < 10)%N ∧ pretty n = String (pretty_N_char y) s.
Proof.
  intros Hn. destruct (decide (n = 0)) as [->|]; [by exists 0%N, ""|].
  destruct (digits_pretty n) as (_ & y & s & ? & ?); [lia|eauto].
Qed.

(** The units, with their nanoseconds, in the documentation of [ParseDuration]. *)
Definition duration_units : list (string * Z) :=
  [("ns", 1); ("us", 1000); (micro_sign, 1000); (greek_mu, 1000); ("ms", 1000000);
   ("s", 1000000000); ("m", 60 * 1000000000); ("h", 60 * 60 * 1000000000)].
Lemma unitMap_spec u unit : unitMap u = Some unit ↔ (u, unit) ∈ duration_units.
Proof.
  unfold unitMap, duration_units. rewrite !elem_of_cons, elem_of_nil. split.
  - repeat case_decide; try done; intros [= <-]; subst; naive_solver.
  - intros Hu. destruct_or!; simplify_eq; vm_compute; done.
Qed.
(** Letters: no digit and no point. *)
Definition letters (u : string) : Prop :=
  Forall (λ c, digit c = None ∧ c ≠ "."%char) (String.list_ascii_of_string u).
(** What may follow a part: the end, or another one. *)
Definition at_part (s : string) : Prop :=
  match s with String c _ => digit c ≠ None | "" => True end%string.
Lemma leadingUnit_letters u rest : letters u → at_part rest → leadingUnit (u +:+ rest) = (u, rest).
Proof.
  unfold letters. induction u as [|c u IH]; simpl; intros Hu Hr.
  - destruct rest as [|c rest]; [done|]. simpl in *. by destruct (digit c).
  - apply Forall_cons in Hu as [[-> ?] Hu]. rewrite decide_False by done. by rewrite IH.
Qed.
Lemma unit_letters u unit : (u, unit) ∈ duration_units → letters u ∧ u ≠ "".
Proof.
  unfold duration_units. rewrite !elem_of_cons, elem_of_nil. intros Hu.
  destruct_or!; simplify_eq; (split; [repeat constructor; done|done]).
Qed.

Lemma fraction_letters c s :
  c ≠ "."%char → fraction (String c s) = (0, float64_of 1, String c s, false).
Proof. intros Hc. unfold fraction. destruct c as [[] [] [] [] [] [] [] []]; done. Qed.
(** A part that is a whole number: read when its unit is one and it is not
    beyond [2^63] nanoseconds. *)
Lemma duration_part_pretty n u rest :
  0 ≤ n → letters u → u ≠ "" → at_part rest →
  duration_part (pretty n +:+ (u +:+ rest))
  = match unitMap u with
    | Some unit => if decide (n * unit ≤ 2 ^ 63) then Some (n * unit, rest) else None
    | None => None
    end.
Proof.
  intros Hn Hu Hne Hr. pose proof (leadingUnit_letters u rest Hu Hr) as Hl.
  destruct u as [|c u]; [done|]. apply Forall_cons in Hu as [[Hd Hdot] _].
  change (String c u +:+ rest) with (String c (u +:+ rest)) in *.
  destruct (pretty_head n Hn) as (y & s & Hy & Es).
  assert (String c (u +:+ rest) ≠ pretty n +:+ String c (u +:+ rest)) as Hpre.
  { rewrite Es. intros [= -> _]. by rewrite digit_pretty in Hd. }
  unfold duration_part. rewrite leadingInt_pretty by done.
  destruct (unitMap (String c u)) as [unit|] eqn:Eu.
  2:{ case_decide; [|done]. cbn [mbind option_bind]. rewrite fraction_letters by done.
      case_match; [done|]. by rewrite Hl, decide_False, Eu by done. }
  apply unitMap_pos in Eu as Hpos. destruct (decide (n ≤ 2 ^ 63)) as [Hle|Hgt].
  2:{ by rewrite decide_False by nia. }
  cbn [mbind option_bind]. rewrite fraction_letters by done. rewrite bool_decide_true by done.
  cbn [negb orb]. rewrite Hl, decide_False, Eu by done. cbn [mbind option_bind].
  pose proof (Z.mul_div_le (2 ^ 63) unit Hpos).
  destruct (decide (n * unit ≤ 2 ^ 63)) as [Hb|Hb].
  - rewrite decide_False by (apply Z.le_ngt, Z.div_le_lower_bound; lia). done.
  - rewrite decide_True; [done|]. apply Z.div_lt_upper_bound; lia.
Qed.
(** A number with no unit is none. *)
Lemma duration_part_bare n : 0 ≤ n → duration_part (pretty n) = None.
Proof.
  intros Hn. unfold duration_part.
  assert (leadingInt 0 (pretty n) = if decide (n ≤ 2 ^ 63) then Some (n, "") else None) as ->.
  { pose proof (leadingInt_pretty n "" Hn I) as E. by rewrite append_nil_r in E. }
  case_decide; [|done]. simpl. by case_match.
Qed.

(** Parts as they are written, one after the other, and what they are worth. *)
Fixpoint written (parts : list (Z * (string * Z))) : string :=
  match parts with [] => "" | (k, (u, _)) :: parts => pretty k +:+ (u +:+ written parts) end.
Fixpoint worth (parts : list (Z * (string * Z))) : Z :=
  match parts with [] => 0 | (k, (_, unit)) :: parts => k * unit + worth parts end.
Definition whole_units (parts : list (Z * (string * Z))) : Prop :=
  Forall (λ p, 0 ≤ p.1 ∧ p.2 ∈ duration_units) parts.

Lemma written_at_part parts : whole_units parts → at_part (written parts).
Proof.
  destruct 1 as [|[k [u unit]] parts [Hk _] _]; [done|]. simpl.
  destruct (pretty_head k Hk) as (y & s & Hy & ->). simpl. by rewrite digit_pretty.
Qed.
Lemma worth_nonneg parts : whole_units parts → 0 ≤ worth parts.
Proof.
  induction 1 as [|[k [u unit]] parts [Hk Hu%unitMap_spec%unitMap_pos] _ IH]; simpl in *; [lia|]. nia.
Qed.
Lemma duration_parts_written parts : whole_units parts → ∀ n d,
  (String.length (written parts) ≤ n)%nat → 0 ≤ d → d + worth parts ≤ 2 ^ 63 →
  duration_parts n d (written parts) = Some (d + worth parts).
Proof.
  induction 1 as [|[k [u unit]] parts [Hk Hu] Hp IH]; intros n d Hn Hd Hw.
  { replace (d + worth []) with d by (simpl; lia). by destruct n. }
  simpl in Hk, Hu, Hw. destruct (unit_letters _ _ Hu) as [Hl Hne].
  pose proof (worth_nonneg _ Hp). apply unitMap_spec in Hu as Eu. apply unitMap_pos in Eu as Hpos.
  cbn [written] in *. set (t := pretty k +:+ (u +:+ written parts)) in *.
  assert (duration_part t = Some (k * unit, written parts)) as Ep.
  { unfold t. rewrite duration_part_pretty by (try done; by apply written_at_part).
    rewrite Eu. by rewrite decide_True by nia. }
  apply duration_part_spec in Ep as Hlen.
  destruct n as [|n]; [lia|]. cbn [duration_parts].
  rewrite decide_False by (intros E; rewrite E in Hlen; simpl in Hlen; lia).
  rewrite Ep. cbn [mbind option_bind]. rewrite Z.mod_small by nia. rewrite decide_False by nia.
  rewrite IH by nia. f_equal. cbn [worth]. lia.
Qed.

(** A sign, and what it does. *)
Definition signs (sign : string) (f : Z → Z) : Prop :=
  (sign = "" ∨ sign = "+") ∧ f = id ∨ sign = "-" ∧ f = Z.opp.
(** What follows the sign of a text that starts with a digit. *)
Lemma ParseDuration_sign sign f s :
  signs sign f → at_part s → s ≠ "0" → s ≠ "" →
  ParseDuration (sign +:+ s)
  = (d ← duration_parts (String.length s) 0 s;
     if decide (- 2 ^ 63 ≤ f d < 2 ^ 63) then Some (f d) else None).
Proof.
  intros Hs Hd H0 Hne.
  assert (∀ n d t r, duration_parts n d t = Some r → 0 ≤ d ≤ 2 ^ 63 → 0 ≤ r ≤ 2 ^ 63) as Hb
    by (intros; by eapply duration_parts_bounds).
  assert (ParseDuration (sign +:+ s)
    = (d ← duration_parts (String.length s) 0 s;
       if (bool_decide (sign = "-")) then Some (- d) else if decide (2 ^ 63 - 1 < d) then None else Some d)) as ->.
  { unfold ParseDuration. destruct Hs as [[[->| ->] _]|[-> _]].
    - change ("" +:+ s) with s. rewrite bool_decide_false by done. destruct s as [|c s]; [done|]. simpl in Hd.
      assert (match String c s with
              | String "-" s => (true, s) | String "+" s => (false, s)
              | _ => (false, String c s) end = (false, String c s)) as ->.
      { clear -Hd. destruct c as [[] [] [] [] [] [] [] []]; try reflexivity; by destruct Hd. }
      by rewrite !decide_False by done.
    - change ("+" +:+ s) with (String "+" s). by rewrite bool_decide_false, !decide_False by done.
    - change ("-" +:+ s) with (String "-" s). by rewrite bool_decide_true, !decide_False by done. }
  destruct (duration_parts (String.length s) 0 s) as [d|] eqn:E; [|done]. cbn [mbind option_bind].
  apply Hb in E; [|lia]. destruct Hs as [[[->| ->] ->]|[-> ->]]; unfold id.
  - rewrite bool_decide_false by done. case_decide; [by rewrite decide_False by lia|by rewrite decide_True by lia].
  - rewrite bool_decide_false by done. case_decide; [by rewrite decide_False by lia|by rewrite decide_True by lia].
  - rewrite bool_decide_true by done. by rewrite decide_True by lia.
Qed.

(** What the value is, if it is a 64-bit one. *)
Definition fitting (z fallback : Z) : Z := if decide (- 2 ^ 63 ≤ z < 2 ^ 63) then z else fallback.
(** Whole units are read for what they are worth. *)
Lemma ParseDuration_written sign f parts :
  signs sign f → whole_units parts → parts ≠ [] → worth parts ≤ 2 ^ 63 →
  ParseDuration (sign +:+ written parts)
  = if decide (- 2 ^ 63 ≤ f (worth parts) < 2 ^ 63) then Some (f (worth parts)) else None.
Proof.
  intros Hs Hp Hne Hw. pose proof (worth_nonneg _ Hp) as Hpos.
  assert (written parts ≠ "" ∧ written parts ≠ "0") as [He H0].
  { destruct Hp as [|[k [u unit]] parts [Hk Hu] _]; [done|]. simpl in *.
    destruct (pretty_head k Hk) as (y & s & _ & ->). split; [done|].
    apply unit_letters in Hu as [_ Hu]. intros [= _ Hs']. destruct s; [|done]. by destruct u. }
  rewrite (ParseDuration_sign _ f) by (try done; by apply written_at_part).
  by rewrite duration_parts_written by (done || lia).
Qed.
(** A number that is too large, or whose unit is none, is no duration. *)
Lemma written_some sign f parts :
  signs sign f → whole_units parts → parts ≠ [] → sign +:+ written parts ≠ "".
Proof.
  intros Hs Hp Hne. destruct Hs as [[[->| ->] _]|[-> _]]; try done.
  destruct Hp as [|[k [u unit]] parts [Hk _] _]; [done|]. simpl.
  by destruct (pretty_head k Hk) as (y & s & _ & ->).
Qed.
Lemma ParseDuration_bad sign f k u :
  signs sign f → 0 < k → letters u →
  (∀ unit, (u, unit) ∈ duration_units → 2 ^ 63 < k * unit) →
  ParseDuration (sign +:+ (pretty k +:+ u)) = None.
Proof.
  intros Hs Hk Hu Hbad. destruct (pretty_head k) as (y & s & Hy & Es); [lia|].
  assert (pretty k +:+ u ≠ "" ∧ pretty k +:+ u ≠ "0" ∧ at_part (pretty k +:+ u)) as (He & H0 & Ha).
  { rewrite Es. split; [done|]. split; [|simpl; by rewrite digit_pretty].
    intros [= Hy0 Hs']. destruct s; [|done]. destruct u; [|done].
    destruct (digits_pretty k Hk) as [Hd _]. rewrite Es, Hy0 in Hd.
    change (Some 0 = Some k) in Hd. injection Hd as <-. lia. }
  rewrite (ParseDuration_sign _ f) by done.
  assert (duration_part (pretty k +:+ u) = None) as Hn.
  { destruct (decide (u = "")) as [->|Hne].
    { rewrite append_nil_r. apply duration_part_bare. lia. }
    rewrite <-(append_nil_r u), duration_part_pretty by (done || lia).
    destruct (unitMap u) as [unit|] eqn:E; [|done]. apply unitMap_spec, Hbad in E.
    by rewrite decide_False by lia. }
  destruct (pretty k +:+ u) as [|c t] eqn:E; [done|]. cbn [String.length duration_parts].
  rewrite decide_False by done. by rewrite Hn.
Qed.

(** ** Integers as they are written *)

(** The value of a text of digits, the most significant first. *)
Definition value_of (ds : string) : Z :=
  foldl (λ n c, 10 * n + (Z.of_N (N_of_ascii c) - 48)) 0 (String.list_ascii_of_string ds).
Definition numeral (ds : string) : Prop :=
  ds ≠ "" ∧ Forall (λ c, 48 ≤ Z.of_N (N_of_ascii c) ≤ 57) (String.list_ascii_of_string ds).
(** [v] is a decimal integer: an optional sign, then digits. *)
Definition decimal (v : string) (z : Z) : Prop :=
  ∃ sign f ds, signs sign f ∧ numeral ds ∧ v = sign +:+ ds ∧ z = f (value_of ds).

Lemma digit_spec c d :
  digit c = Some d ↔ 48 ≤ Z.of_N (N_of_ascii c) ≤ 57 ∧ d = Z.of_N (N_of_ascii c) - 48.
Proof.
  unfold digit, nat_of_ascii. rewrite N_nat_Z. case_decide; [|naive_solver]. split; [|naive_solver].
  by intros [= <-].
Qed.
Lemma digits_spec s : ∀ acc r,
  digits acc s = Some r ↔
  Forall (λ c, 48 ≤ Z.of_N (N_of_ascii c) ≤ 57) (String.list_ascii_of_string s)
  ∧ r = foldl (λ n c, 10 * n + (Z.of_N (N_of_ascii c) - 48)) acc (String.list_ascii_of_string s).
Proof.
  induction s as [|c s IH]; intros acc r; simpl.
  - split; [intros [= <-]; by split; [constructor|]|by intros [_ ->]].
  - rewrite Forall_cons. destruct (digit c) as [d|] eqn:E.
    + apply digit_spec in E as [Hc ->]. simpl. rewrite IH. naive_solver.
    + simpl. split; [done|]. intros [[Hc _] _].
      assert (digit c = Some (Z.of_N (N_of_ascii c) - 48)) by by apply digit_spec. congruence.
Qed.
Definition unsigned (s : string) : option Z := if decide (s = "") then None else digits 0 s.
Lemma unsigned_spec s r : unsigned s = Some r ↔ numeral s ∧ r = value_of s.
Proof.
  unfold unsigned, numeral. case_decide; [naive_solver|]. rewrite digits_spec. unfold value_of. naive_solver.
Qed.
Lemma Atoi_split s : ∃ sign f ds, signs sign f ∧ s = sign +:+ ds
  ∧ (sign = "" → ∀ t, s ≠ String "+" t ∧ s ≠ String "-" t)
  ∧ Atoi s = (n ← f <$> unsigned ds; if decide (- 2 ^ 63 ≤ n < 2 ^ 63) then Some n else None).
Proof.
  assert (∀ o : option Z, id <$> o = o) as Hid by by intros [].
  destruct s as [|c s]; [by exists "", id, ""; split; [left; auto|]|].
  destruct (decide (c = "-"%char)) as [->|Hm].
  { exists "-", Z.opp, s. split; [by right|]. by split; [|split]. }
  destruct (decide (c = "+"%char)) as [->|Hp].
  { exists "+", id, s. split; [left; auto|]. split; [done|]. split; [done|]. unfold Atoi. rewrite Hid. done. }
  exists "", id, (String c s). split; [left; auto|]. split; [done|]. split; [intros _ t; split; congruence|].
  rewrite Hid. unfold Atoi, unsigned. destruct c as [[] [] [] [] [] [] [] []]; done.
Qed.
(** A sign and digits can be told apart. *)
Lemma numeral_no_sign c t : numeral (String c t) → c ≠ "+"%char ∧ c ≠ "-"%char.
Proof.
  intros [_ Hds]. apply Forall_cons in Hds as [Hc _]. split; intros ->; vm_compute in Hc; by destruct Hc.
Qed.
Lemma numeral_after sign f ds sign' f' ds' :
  signs sign f → signs sign' f' → numeral ds' →
  (sign = "" → ∀ t, sign +:+ ds ≠ String "+" t ∧ sign +:+ ds ≠ String "-" t) →
  sign +:+ ds = sign' +:+ ds' → sign' = sign ∧ ds' = ds.
Proof.
  intros Hs Hs' Hn Hno E.
  destruct Hs as [[[->| ->] ->]|[-> ->]], Hs' as [[[->| ->] ->]|[-> ->]];
    try discriminate E;
    try (first [change (ds = ds') in E; subst ds'
               |change (String "+" ds = String "+" ds') in E; injection E as <-
               |change (String "-" ds = String "-" ds') in E; injection E as <-]; by split).
  all: exfalso; try (destruct (Hno eq_refl ds') as [Hp Hm]; first [exact (Hp E)|exact (Hm E)]).
  all: change ("" +:+ ds') with ds' in E; rewrite <-E in Hn; by apply numeral_no_sign in Hn as [??].
Qed.
Lemma same_sign sign f ds sign' f' ds' :
  signs sign f → signs sign' f' → numeral ds → numeral ds' →
  sign +:+ ds = sign' +:+ ds' → sign' = sign ∧ ds' = ds.
Proof.
  intros Hs Hs' Hn Hn'. eapply numeral_after; [done..|]. intros -> t. change ("" +:+ ds) with ds.
  split; intros ->; by apply numeral_no_sign in Hn as [??].
Qed.
Lemma Atoi_spec s z : Atoi s = Some z ↔ decimal s z ∧ - 2 ^ 63 ≤ z < 2 ^ 63.
Proof.
  destruct (Atoi_split s) as (sign & f & ds & Hs & -> & Hno & ->). split.
  - destruct (unsigned ds) as [r|] eqn:E; [|done]. simpl. case_decide; [|done]. intros [= <-].
    apply unsigned_spec in E as [? ->]. split; [|done]. by exists sign, f, ds.
  - intros [(sign' & f' & ds' & Hs' & Hn & E & ->) Hz].
    destruct (numeral_after _ _ _ _ _ _ Hs Hs' Hn Hno E) as [-> ->].
    assert (f' = f) as -> by (destruct Hs as [[? ->]|[? ->]], Hs' as [[? ->]|[? ->]]; naive_solver).
    assert (unsigned ds = Some (value_of ds)) as -> by by apply unsigned_spec.
    simpl. by rewrite decide_True.
Qed.

Lemma decimal_unique s z z' : decimal s z → decimal s z' → z = z'.
Proof.
  intros (sg & f & ds & Hs & Hn & -> & ->) (sg' & f' & ds' & Hs' & Hn' & E & ->).
  destruct (same_sign _ _ _ _ _ _ Hs Hs' Hn Hn' E) as [-> ->].
  destruct Hs as [[[->| ->] ->]|[-> ->]], Hs' as [[? ->]|[? ->]]; naive_solver.
Qed.
