(* ===== verification/EventBus.v ===== *)
(** * EventBus: the NATS adapter, and what a process starts with

    internal/eventbus/eventbus.go and nats.go, over the NATS client and server,
    which are the class [Network] together with the other things outside a
    process (clock and signals, PostgreSQL, the Docker daemon, the listening
    sockets), and the monad [Boot] in which a service's main sets itself up:
    it may exit or panic, and registers the subscriptions, tickers and
    listeners that run afterwards ([step]). *)
From S2P Require Import Prelude Text Json Schema Effects Settings.
From stdpp Require Import base gmap strings list.
From Stdlib Require Import ZArith Lia Ascii String.
Open Scope Z_scope.
Open Scope list_scope.

(** ** eventbus.go *)

Record Message := mkMessage { Message_Subject : string; Message_Data : wire }.
Record StreamConfig := mkStreamConfig {
  StreamConfig_Name : string; StreamConfig_Subjects : list string }.
(** [jetstream.ConsumerConfig], with explicit acknowledgement. *)
Record ConsumerConfig := mkConsumerConfig {
  ConsumerConfig_Durable : string; ConsumerConfig_FilterSubject : string }.

(** Over the state [S] of a process: a handler, and a durable handler, whose
    [nil] is [None]. *)
Definition Handler (S : Type) : Type := Message → S → S.
Definition DurableHandler (S : Type) : Type := Message → S → option error * S.

(** ** The outside *)

(** Does a filter with the wildcards of NATS match a subject?  Both are tokens
    between points: ["*"] stands for one token, [">"] for all that remain. *)
Fixpoint tokens_match (filter subject : list string) : bool :=
  match filter, subject with
  | [], [] => true
  | f :: filter, s :: subject =>
      if decide (f = ">") then true
      else bool_decide (f = "*" ∨ f = s) && tokens_match filter subject
  | _, _ => false
  end.
Definition tokens (subject : string) : list string := split_on "." subject.
Definition subject_matches (filter subject : string) : bool :=
  tokens_match (tokens filter) (tokens subject).

(** A call answers [None], or the text of its error. *)
Class Network := {
  net : Type;
  (** the time, and whether a signal has cancelled the context *)
  clock : net → time;
  canceled : net → bool;
  (** [select] on [time.After(d)] and [ctx.Done()]: did the timer fire? *)
  after_or_done : time → net → bool * net;
  pgxpool_New : string → net → option string * net;
  pool_Ping : string → net → option string * net;
  (** [client.New(client.FromEnv)], which makes a client of the environment (and
      of the certificates it names) and contacts nobody *)
  docker_New : gmap string string → option string;
  http_Listen : string → net → option string * net;
  nats_Connect : string → net → option string * net;
  jetstream_New : net → option string * net;
  nats_Close : net → net;
  conn_Publish : string → json → net → option string * net;
  conn_Subscribe : string → net → option string * net;
  js_CreateOrUpdateStream : StreamConfig → net → option string * net;
  js_Publish : string → json → net → option string * net;
  js_CreateOrUpdateConsumer : string → ConsumerConfig → net → option string * net;
  consumer_Consume : string → string → net → option string * net;
  (** of a message a consumer was given, by number *)
  msg_Ack : N → net → option string * net;
  msg_Nak : N → net → option string * net;
  (** what the server holds: the subjects of its streams *)
  streams : net → gmap string (list string) }.

(** Does a stream take messages on [subject]? *)
Definition covered `{Network} (subject : string) (n : net) : Prop :=
  ∃ name subjects f, streams n !! name = Some subjects ∧ f ∈ subjects
    ∧ subject_matches f subject = true.

(** What the adapter and the start-up rely on.  Time does not run backwards;
    creating or updating a stream gives it the subjects asked for; a durable
    publish is confirmed only when a stream takes the subject; a consumer needs
    its stream.  Nothing is assumed of acknowledgements: an [Ack] may be lost,
    and delivery is at least once.  Between two calls of a process that starts
    nobody else changes the streams. *)
Class NetworkLaws `{Network} := {
  connect_clock : ∀ url n, clock n ≤ clock (nats_Connect url n).2;
  js_new_clock : ∀ n, clock n ≤ clock (jetstream_New n).2;
  close_clock : ∀ n, clock n ≤ clock (nats_Close n);
  after_clock : ∀ d n, clock n ≤ clock (after_or_done d n).2;
  after_fired : ∀ d n n', after_or_done d n = (true, n') → clock n + d ≤ clock n';
  after_done : ∀ d n n', after_or_done d n = (false, n') → canceled n' = true;
  stream_set : ∀ cfg n n', js_CreateOrUpdateStream cfg n = (None, n') →
    streams n' = <[cfg.(StreamConfig_Name) := cfg.(StreamConfig_Subjects)]> (streams n);
  stream_others : ∀ cfg n name, name ≠ cfg.(StreamConfig_Name) →
    streams (js_CreateOrUpdateStream cfg n).2 !! name = streams n !! name;
  publish_taken : ∀ subject data n n', js_Publish subject data n = (None, n') → covered subject n;
  consumer_stream : ∀ st cfg n n', js_CreateOrUpdateConsumer st cfg n = (None, n') →
    is_Some (streams n !! st);
  consumer_streams : ∀ st cfg n, streams (js_CreateOrUpdateConsumer st cfg n).2 = streams n;
  consume_streams : ∀ st c n, streams (consumer_Consume st c n).2 = streams n;
  subscribe_streams : ∀ s n, streams (conn_Subscribe s n).2 = streams n;
  listen_streams : ∀ addr n, streams (http_Listen addr n).2 = streams n }.

(** ** A process that starts *)

(** How a subscription is delivered: at most once, or by a durable consumer of
    a stream. *)
Inductive Delivery := Core | Durable (stream consumer : string).
Record Subscription (S : Type) := mkSubscription {
  sub_delivery : Delivery; sub_subject : string; sub_handler : DurableHandler S }.
Arguments mkSubscription {S}.
Arguments sub_delivery {S}.
Arguments sub_subject {S}.
Arguments sub_handler {S}.
(** What runs every so often. *)
Record Ticker (S : Type) := mkTicker { tick_every : time; tick_do : S → S }.
Arguments mkTicker {S}.
Arguments tick_every {S}.
Arguments tick_do {S}.

Record Host `{Network} (S : Type) := mkHost {
  h_env : gmap string string; h_net : net; h_state : S;
  h_subs : list (Subscription S); h_tickers : list (Ticker S); h_listening : list string }.
Arguments mkHost {_ S}.
Arguments h_env {_ S}.
Arguments h_net {_ S}.
Arguments h_state {_ S}.
Arguments h_subs {_ S}.
Arguments h_tickers {_ S}.
Arguments h_listening {_ S}.

(** A function ends with a value, with an error it returns, by [os.Exit] or by
    a panic. *)
Inductive Outcome (A : Type) := Done (a : A) | Failed (e : error) | Exit (code : Z) | Panic (msg : string).
Arguments Done {A}.
Arguments Failed {A}.
Arguments Exit {A}.
Arguments Panic {A}.

Section boot.
Context `{Network} {S : Type}.

Definition set_net (n : net) (h : Host S) : Host S :=
  mkHost h.(h_env) n h.(h_state) h.(h_subs) h.(h_tickers) h.(h_listening).
Definition set_state (s : S) (h : Host S) : Host S :=
  mkHost h.(h_env) h.(h_net) s h.(h_subs) h.(h_tickers) h.(h_listening).
Definition add_sub (x : Subscription S) (h : Host S) : Host S :=
  mkHost h.(h_env) h.(h_net) h.(h_state) (h.(h_subs) ++ [x]) h.(h_tickers) h.(h_listening).
Definition drop_sub (h : Host S) : Host S :=
  mkHost h.(h_env) h.(h_net) h.(h_state) (removelast h.(h_subs)) h.(h_tickers) h.(h_listening).
Definition add_ticker (x : Ticker S) (h : Host S) : Host S :=
  mkHost h.(h_env) h.(h_net) h.(h_state) h.(h_subs) (h.(h_tickers) ++ [x]) h.(h_listening).
Definition add_listening (addr : string) (h : Host S) : Host S :=
  mkHost h.(h_env) h.(h_net) h.(h_state) h.(h_subs) h.(h_tickers) (h.(h_listening) ++ [addr]).

Definition Boot (A : Type) : Type := Host S → Outcome A * Host S.

#[export] Instance Boot_ret : MRet Boot := λ A a h, (Done a, h).
#[export] Instance Boot_bind : MBind Boot := λ A B k m h,
  match m h with
  | (Done a, h') => k a h'
  | (Failed e, h') => (Failed e, h')
  | (Exit c, h') => (Exit c, h')
  | (Panic e, h') => (Panic e, h')
  end.
Definition failed {A} (e : error) : Boot A := λ h, (Failed e, h).
(** [os.Exit(1)] and a panic end the process. *)
Definition os_Exit {A} (code : Z) : Boot A := λ h, (Exit code, h).
Definition panic {A} (msg : string) : Boot A := λ h, (Panic msg, h).
(** [v, err := m]: the error is looked at. *)
Definition attempt {A} (m : Boot A) : Boot (Res A) := λ h,
  match m h with
  | (Done a, h') => (Done (Ok a), h')
  | (Failed e, h') => (Done (Err e), h')
  | (Exit c, h') => (Exit c, h')
  | (Panic e, h') => (Panic e, h')
  end.
Definition on_error {A} (m : Boot A) (k : error → Boot A) : Boot A :=
  r ← attempt m; match r with Ok a => mret a | Err e => k e end.
(** [return fmt.Errorf("prefix: %w", err)] *)
Definition wrapped {A} (prefix : string) (m : Boot A) : Boot A :=
  on_error m (λ e, failed (Errorf prefix e)).

(** A setting, the network, the state. *)
Definition setting {A} (f : gmap string string → A) : Boot A := λ h, (Done (f h.(h_env)), h).
(** internal/runtime/docker.go: the client is made of the environment. *)
Definition NewDockerRuntime : Boot unit := λ h,
  (match docker_New h.(h_env) with
   | None => Done tt
   | Some e => Failed (Errorf "connecting to docker daemon" (Opaque e))
   end, h).
Definition asks {A} (f : net → A) : Boot A := λ h, (Done (f h.(h_net)), h).
Definition calls (f : net → option string * net) : Boot unit := λ h,
  let '(r, n) := f h.(h_net) in
  (match r with None => Done tt | Some e => Failed (Opaque e) end, set_net n h).
Definition modify (f : Host S → Host S) : Boot unit := λ h, (Done tt, f h).
Definition updates (f : S → S) : Boot unit := modify (λ h, set_state (f h.(h_state)) h).

(** [time.NewTicker] panics on an interval that is not positive. *)
Definition NewTicker (d : time) (f : S → S) : Boot unit :=
  if decide (d ≤ 0) then panic "non-positive interval for NewTicker"
  else modify (add_ticker (mkTicker d f)).

(** [go func() { ... ListenAndServe() ... }]: an error is only logged. *)
Definition ListenAndServe (addr : string) : Boot unit :=
  r ← attempt (calls (http_Listen addr));
  match r with Ok _ => modify (add_listening addr) | Err _ => mret tt end.

(** internal/db/conn.go *)
Definition Open (connString : string) : Boot unit :=
  wrapped "opening postgres pool" (calls (pgxpool_New connString)) ;;
  wrapped "pinging postgres" (calls (pool_Ping connString)).

(** ** nats.go *)

Definition Connect (url : string) : Boot unit :=
  wrapped ("connecting to nats at " +:+ url) (calls (nats_Connect url)) ;;
  on_error (calls jetstream_New) (λ e,
    calls (λ n, (None, nats_Close n)) ;;
    failed (Errorf "initializing jetstream context" e)).

Definition natsBus_Publish (subject : string) (data : json) : Boot unit :=
  wrapped ("publishing to " +:+ subject) (calls (conn_Publish subject data)).
Definition natsBus_Subscribe (subject : string) (handler : Handler S) : Boot unit :=
  wrapped ("subscribing to " +:+ subject) (calls (conn_Subscribe subject)) ;;
  modify (add_sub (mkSubscription Core subject (λ m s, (None, handler m s)))).
Definition EnsureStream (cfg : StreamConfig) : Boot unit :=
  wrapped ("ensuring stream " +:+ cfg.(StreamConfig_Name)) (calls (js_CreateOrUpdateStream cfg)).
Definition natsBus_PublishDurable (subject : string) (data : json) : Boot unit :=
  wrapped ("publishing durably to " +:+ subject) (calls (js_Publish subject data)).
Definition SubscribeDurable (streamName consumerName subject : string) (handler : DurableHandler S)
    : Boot unit :=
  wrapped ("creating durable consumer " +:+ consumerName +:+ " on stream " +:+ streamName)
    (calls (js_CreateOrUpdateConsumer streamName (mkConsumerConfig consumerName subject))) ;;
  wrapped ("consuming from durable consumer " +:+ consumerName)
    (calls (consumer_Consume streamName consumerName)) ;;
  modify (add_sub (mkSubscription (Durable streamName consumerName) subject handler)).
(** The bus given up. *)
Definition bus_Close : Boot unit := calls (λ n, (None, nats_Close n)).
(** [Unsubscribe], of the last subscription made. *)
Definition Unsubscribe : Boot unit := modify drop_sub.

(** ** The process at work *)

(** What the adapter does with a message its consumer is given: [nil] is an
    acknowledgement, an error asks for the message again.  Whether either call
    fails is not looked at. *)
Definition consume (handler : DurableHandler S) (i : N) (m : Message) (h : Host S) : Host S :=
  let '(err, s) := handler m h.(h_state) in
  set_net (match err with None => msg_Ack i h.(h_net) | Some _ => msg_Nak i h.(h_net) end).2
    (set_state s h).
Definition deliver (x : Subscription S) (i : N) (m : Message) (h : Host S) : Host S :=
  match x.(sub_delivery) with
  | Core => set_state (x.(sub_handler) m h.(h_state)).2 h
  | Durable _ _ => consume x.(sub_handler) i m h
  end.
(** A message for the [k]-th subscription, the [k]-th ticker's tick, or what
    the others do in the meantime to what the process shares with them. *)
Inductive Occurrence := Delivered (k : nat) (i : N) (m : Message) | Fired (k : nat) | Meanwhile (f : S → S).
Definition step (o : Occurrence) (h : Host S) : Host S :=
  match o with
  | Delivered k i m => match h.(h_subs) !! k with Some x => deliver x i m h | None => h end
  | Fired k => match h.(h_tickers) !! k with
               | Some t => set_state (t.(tick_do) h.(h_state)) h | None => h end
  | Meanwhile f => set_state (f h.(h_state)) h
  end.
Definition steps (os : list Occurrence) (h : Host S) : Host S := foldl (λ h o, step o h) h os.
End boot.
Arguments Boot {_} S A.

(** ** Connecting

    The retry loop every service's main has: [None] is out of fuel. *)
Section connect.
Context `{Network} {S : Type}.

Definition selects (d : time) : Boot S bool := λ h,
  let '(fired, n) := after_or_done d h.(h_net) in (Done fired, set_net n h).
Fixpoint connect_loop (fuel : nat) (url : string) (deadline : time) : Boot S (option bool) :=
  match fuel with
  | O => mret None
  | Datatypes.S fuel =>
      r ← attempt (Connect url);
      match r with
      | Ok _ => mret (Some true)
      | Err _ =>
          late ← asks (λ n, bool_decide (deadline < clock n) || canceled n);
          if (late : bool) then mret (Some false)
          else
            fired ← selects (2 * Second);
            if (fired : bool) then connect_loop fuel url deadline else mret (Some false)
      end
  end.
(** Seventeen dials are enough for thirty seconds ([connect_ends_in]).  [true] is
    a bus, [false] a nil one. *)
Definition dials : nat := 17.
Definition connectEventBus (key : string) : Boot S bool :=
  url ← setting (λ env, String_ env key "nats://127.0.0.1:4222");
  start ← asks clock;
  r ← connect_loop dials url (start + 30 * Second);
  mret (default false r).

(** *** It ends *)

(** A call of the start-up changes nothing but the network. *)
Definition same_but_net (h h' : Host S) : Prop := ∃ n, h' = set_net n h.
Lemma Connect_ends `{!NetworkLaws} url (h : Host S) :
  ∃ r h', attempt (Connect url) h = (Done r, h') ∧ same_but_net h h'
    ∧ clock h.(h_net) ≤ clock h'.(h_net).
Proof.
  unfold attempt, Connect, wrapped, on_error, attempt, calls, failed, mbind, Boot_bind, mret, Boot_ret.
  pose proof (connect_clock url h.(h_net)) as Hc.
  destruct (nats_Connect url h.(h_net)) as [[e|] n1] eqn:E1; simpl in *.
  { eexists _, _. split; [done|]. split; [by eexists|done]. }
  pose proof (js_new_clock n1) as Hj.
  destruct (jetstream_New n1) as [[e|] n2] eqn:E2; simpl in *.
  2:{ eexists _, _. split; [done|]. split; [by eexists|]. simpl. lia. }
  pose proof (close_clock n2). eexists _, _. split; [done|]. split; [by eexists|]. simpl. lia.
Qed.

(** With [fuel] dials left and two seconds between them the deadline is
    reached, and a nil bus means that it has passed or that a signal came. *)
Lemma connect_loop_ends `{!NetworkLaws} url deadline fuel : ∀ h : Host S,
  deadline < clock h.(h_net) + 2 * Second * Z.of_nat fuel →
  ∃ b h', connect_loop (Datatypes.S fuel) url deadline h = (Done (Some b), h') ∧ same_but_net h h'
    ∧ clock h.(h_net) ≤ clock h'.(h_net)
    ∧ (b = false → deadline < clock h'.(h_net) ∨ canceled h'.(h_net) = true).
Proof.
  induction fuel as [|fuel IH]; intros h Hd.
  all: destruct (Connect_ends url h) as (r & h1 & E1 & Hs1 & Hc1).
  all: cbn [connect_loop]; unfold mbind at 1, Boot_bind at 1; rewrite E1.
  all: destruct r as [[]|e]; [by exists true, h1|].
  all: unfold mbind at 1, Boot_bind at 1; cbn [asks].
  all: destruct (bool_decide (deadline < clock h1.(h_net)) || canceled h1.(h_net)) eqn:Elate.
  1,3: exists false, h1; split; [done|]; split; [done|]; split; [done|]; intros _;
       apply orb_true_iff in Elate as [?%bool_decide_eq_true|?]; auto.
  all: apply orb_false_iff in Elate as [Hlate%bool_decide_eq_false _].
  { unfold Second in *. lia. }
  unfold mbind, Boot_bind. unfold selects.
  destruct (after_or_done (2 * Second) h1.(h_net)) as [[] n2] eqn:E2.
  - apply after_fired in E2. destruct (IH (set_net n2 h1)) as (b & h' & E & Hs & Hc & Hb).
    { simpl. unfold Second in *. lia. }
    exists b, h'. split; [exact E|]. split; [|split; [simpl in Hc; unfold Second in *; lia|done]].
    destruct Hs1 as [n1 ->], Hs as [n3 ->]. by eexists.
  - apply after_done in E2 as E3. exists false, (set_net n2 h1). split; [done|].
    split; [destruct Hs1 as [n1 ->]; by eexists|].
    pose proof (after_clock (2 * Second) h1.(h_net)) as Hc2. rewrite E2 in Hc2. simpl in *.
    split; [lia|]. auto.
Qed.

(** Connecting always ends, after at most seventeen dials, touches nothing but
    the network, and gives up only once thirty seconds have passed or a signal
    came. *)
Lemma connect_ends_in `{!NetworkLaws} key (h : Host S) :
  ∃ b h', connectEventBus key h = (Done b, h')
    ∧ connect_loop dials (String_ h.(h_env) key "nats://127.0.0.1:4222")
        (clock h.(h_net) + 30 * Second) h = (Done (Some b), h')
    ∧ same_but_net h h'
    ∧ (b = false → clock h.(h_net) + 30 * Second < clock h'.(h_net) ∨ canceled h'.(h_net) = true).
Proof.
  destruct (connect_loop_ends (String_ h.(h_env) key "nats://127.0.0.1:4222")
              (clock h.(h_net) + 30 * Second) 16 h) as (b & h' & E & Hs & _ & Hb).
  { unfold Second. lia. }
  exists b, h'. split; [|by split]. unfold connectEventBus, mbind, Boot_bind. cbn [setting asks].
  unfold dials. by rewrite E.
Qed.

(** *** It succeeds *)

Context (url : string) (T D : time) (calm_net : net → Prop).
(** As long as the network is [calm_net], which dialling and waiting keep: the
    server answers from time [T] on, no signal comes, and a dial that fails
    takes no longer than [D]. *)
Record server_comes_up : Prop := {
  calm_kept : ∀ n, calm_net n → calm_net (nats_Connect url n).2 ∧ calm_net (jetstream_New n).2
    ∧ calm_net (nats_Close n) ∧ ∀ d, calm_net (after_or_done d n).2;
  up : ∀ n, calm_net n → T ≤ clock n →
    (nats_Connect url n).1 = None ∧ (jetstream_New (nats_Connect url n).2).1 = None;
  undisturbed : ∀ n, calm_net n → canceled n = false;
  quick : ∀ n, calm_net n → let n1 := (nats_Connect url n).2 in
    clock n1 ≤ clock n + D ∧ clock (nats_Close (jetstream_New n1).2) ≤ clock n + D }.
Hypothesis Hup : server_comes_up.

(** A dial that fails on a calm network was made too early. *)
Lemma Connect_fails (h : Host S) e h' :
  calm_net h.(h_net) → attempt (Connect url) h = (Done (Err e), h') →
  clock h.(h_net) < T ∧ calm_net h'.(h_net) ∧ clock h'.(h_net) ≤ clock h.(h_net) + D.
Proof.
  intros Hc E. assert (clock h.(h_net) < T ∨
    (nats_Connect url h.(h_net)).1 = None ∧ (jetstream_New (nats_Connect url h.(h_net)).2).1 = None) as Ht.
  { destruct (decide (T ≤ clock h.(h_net))) as [Hle|]; [right; by apply up|left; lia]. }
  destruct (calm_kept Hup _ Hc) as (Hk & _). destruct (calm_kept Hup _ Hk) as (_ & Hk2 & _).
  destruct (calm_kept Hup _ Hk2) as (_ & _ & Hk3 & _). destruct (quick Hup _ Hc) as [Hq1 Hq2].
  revert E.
  unfold attempt, Connect, wrapped, on_error, attempt, calls, failed, mbind, Boot_bind, mret, Boot_ret.
  destruct (nats_Connect url h.(h_net)) as [[e1|] n1]; simpl in *.
  { intros [= _ <-]. simpl. destruct Ht as [?|[? _]]; [auto|done]. }
  destruct (jetstream_New n1) as [[e2|] n2]; simpl in *; intros [= _ <-]; simpl.
  destruct Ht as [?|[_ ?]]; [auto|done].
Qed.
Lemma connect_loop_succeeds `{!NetworkLaws} deadline fuel : T + D ≤ deadline →
  ∀ h : Host S, calm_net h.(h_net) → (connect_loop fuel url deadline h).1 ≠ Done (Some false).
Proof.
  intros Hd. induction fuel as [|fuel IH]; intros h Hc; [done|]. cbn [connect_loop].
  unfold mbind at 1, Boot_bind at 1. destruct (Connect_ends url h) as (r & h1 & E1 & _ & _).
  rewrite E1. destruct r as [[]|e]; [done|].
  destruct (Connect_fails _ _ _ Hc E1) as (? & Hc1 & ?).
  unfold mbind at 1, Boot_bind at 1. cbn [asks].
  rewrite (undisturbed Hup _ Hc1), orb_false_r, bool_decide_false by lia.
  unfold mbind, Boot_bind, selects. destruct (calm_kept Hup _ Hc1) as (_ & _ & _ & Hw).
  specialize (Hw (2 * Second)).
  destruct (after_or_done (2 * Second) h1.(h_net)) as [[] n2] eqn:E2; [by apply IH|].
  apply after_done in E2. simpl in Hw. by rewrite (undisturbed Hup _ Hw) in E2.
Qed.
End connect.

(** C37: connecting to the bus always ends: seventeen dials are all that can be
    made, nothing but the network is touched, and the service gives up only
    once thirty seconds have passed or a signal came; and it does connect when
    no signal comes and the server starts answering early enough before the
    deadline for one failing dial to end. *)
Theorem connectEventBus_correct `{NetworkLaws} {S : Type} key (h : Host S) :
  let url := String_ h.(h_env) key "nats://127.0.0.1:4222" in
  ∃ b h', connectEventBus key h = (Done b, h')
    ∧ connect_loop dials url (clock h.(h_net) + 30 * Second) h = (Done (Some b), h')
    ∧ same_but_net h h'
    ∧ (b = false → clock h.(h_net) + 30 * Second < clock h'.(h_net) ∨ canceled h'.(h_net) = true)
    ∧ ∀ T D calm_net, server_comes_up url T D calm_net → calm_net h.(h_net) →
        T + D ≤ clock h.(h_net) + 30 * Second → b = true.
Proof.
  intros url. destruct (connect_ends_in key h) as (b & h' & E & El & Hs & Hb).
  exists b, h'. do 4 (split; [done|]). intros T D calm_net Hup Hc Hd. destruct b; [done|]. exfalso.
  apply (connect_loop_succeeds url T D calm_net Hup (clock h.(h_net) + 30 * Second) dials Hd h Hc).
  fold url in El. by rewrite El.
Qed.

(** ** How a start-up that succeeds went *)

Section succeeded.
Context `{Network} {S : Type}.
Implicit Types h : Host S.

Lemma bind_Done {A B} (m : Boot S A) (k : A → Boot S B) h b h' :
  (m ≫= k) h = (Done b, h') → ∃ a h1, m h = (Done a, h1) ∧ k a h1 = (Done b, h').
Proof. unfold mbind, Boot_bind. destruct (m h) as [[]]; try done. eauto. Qed.
Lemma bind_runs {A B} (m : Boot S A) (k : A → Boot S B) h a h1 :
  m h = (Done a, h1) → (m ≫= k) h = k a h1.
Proof. intros E. unfold mbind, Boot_bind. by rewrite E. Qed.
Lemma bind_exits {A B} (m : Boot S A) (k : A → Boot S B) h c h1 :
  m h = (Exit c, h1) → (m ≫= k) h = (Exit c, h1).
Proof. intros E. unfold mbind, Boot_bind. by rewrite E. Qed.
Lemma bind_panics {A B} (m : Boot S A) (k : A → Boot S B) h c h1 :
  m h = (Panic c, h1) → (m ≫= k) h = (Panic c, h1).
Proof. intros E. unfold mbind, Boot_bind. by rewrite E. Qed.
Lemma on_error_runs {A} (m : Boot S A) k h a h1 :
  m h = (Done a, h1) → on_error m k h = (Done a, h1).
Proof. intros E. unfold on_error, attempt, mbind, Boot_bind. by rewrite E. Qed.
Lemma on_error_fails {A} (m : Boot S A) k h e h1 :
  m h = (Failed e, h1) → on_error m k h = k e h1.
Proof. intros E. unfold on_error, attempt, mbind, Boot_bind. by rewrite E. Qed.
Lemma on_error_Done {A} (m : Boot S A) k h a h' :
  on_error m k h = (Done a, h') →
  m h = (Done a, h') ∨ ∃ e h1, m h = (Failed e, h1) ∧ k e h1 = (Done a, h').
Proof.
  unfold on_error, attempt, mbind, Boot_bind, mret, Boot_ret. destruct (m h) as [[]]; try done; [|eauto].
  intros [= -> ->]. auto.
Qed.
Lemma wrapped_Done {A} p (m : Boot S A) h a h' : wrapped p m h = (Done a, h') → m h = (Done a, h').
Proof. intros [?|(e & h1 & _ & [=])]%on_error_Done. done. Qed.
Lemma calls_Done f h a h' :
  calls (S:=S) f h = (Done a, h') → ∃ n, f h.(h_net) = (None, n) ∧ h' = set_net n h.
Proof. unfold calls. destruct (f h.(h_net)) as [[e|] n]; intros [=]; subst; eauto. Qed.
Lemma setting_Done {A} (f : _ → A) h a h' :
  setting (S:=S) f h = (Done a, h') → a = f h.(h_env) ∧ h' = h.
Proof. intros [=]. auto. Qed.
Lemma modify_Done f h a h' : modify (S:=S) f h = (Done a, h') → h' = f h.
Proof. by intros [=]. Qed.
Lemma NewTicker_Done d f h a h' :
  NewTicker (S:=S) d f h = (Done a, h') → 0 < d ∧ h' = add_ticker (mkTicker d f) h.
Proof. unfold NewTicker, panic. case_decide; [done|]. intros [=]. split; [lia|done]. Qed.
Lemma EnsureStream_Done `{!NetworkLaws} cfg h a h' :
  EnsureStream (S:=S) cfg h = (Done a, h') →
  ∃ n, h' = set_net n h
    ∧ streams n = <[cfg.(StreamConfig_Name) := cfg.(StreamConfig_Subjects)]> (streams h.(h_net)).
Proof.
  intros Hw%wrapped_Done. apply calls_Done in Hw as (n & E & ->). exists n.
  by apply stream_set in E.
Qed.
Lemma SubscribeDurable_Done `{!NetworkLaws} st c subject f h a h' :
  SubscribeDurable (S:=S) st c subject f h = (Done a, h') →
  ∃ n, h' = add_sub (mkSubscription (Durable st c) subject f) (set_net n h)
    ∧ streams n = streams h.(h_net) ∧ is_Some (streams n !! st).
Proof.
  intros (a1 & h1 & H1%wrapped_Done & (a2 & h2 & H2%wrapped_Done & H3%modify_Done)%bind_Done)%bind_Done.
  apply calls_Done in H1 as (n1 & E1 & ->). apply calls_Done in H2 as (n2 & E2 & ->).
  pose proof (consumer_streams st (mkConsumerConfig c subject) h.(h_net)) as Hs1. rewrite E1 in Hs1.
  pose proof (consume_streams st c n1) as Hs2. simpl in E2. rewrite E2 in Hs2.
  apply consumer_stream in E1. subst h'. exists n2. simpl in *. split; [done|].
  assert (streams n2 = streams h.(h_net)) as -> by congruence. done.
Qed.
Lemma natsBus_Subscribe_Done `{!NetworkLaws} subject f h a h' :
  natsBus_Subscribe (S:=S) subject f h = (Done a, h') →
  ∃ n, h' = add_sub (mkSubscription Core subject (λ m s, (None, f m s))) (set_net n h)
    ∧ streams n = streams h.(h_net).
Proof.
  intros (a1 & h1 & H1%wrapped_Done & H2%modify_Done)%bind_Done.
  apply calls_Done in H1 as (n1 & E1 & ->). pose proof (subscribe_streams subject h.(h_net)) as Hs.
  rewrite E1 in Hs. subst h'. by exists n1.
Qed.
Lemma Open_Done c h a h' : Open (S:=S) c h = (Done a, h') → ∃ n, h' = set_net n h.
Proof.
  intros (a1 & h1 & H1%wrapped_Done & H2%wrapped_Done)%bind_Done.
  apply calls_Done in H1 as (n1 & E1 & ->). apply calls_Done in H2 as (n2 & E2 & ->). by exists n2.
Qed.
Lemma connect_Done `{!NetworkLaws} key h b h' :
  connectEventBus (S:=S) key h = (Done b, h') → ∃ n, h' = set_net n h.
Proof.
  intros E. destruct (connect_ends_in key h) as (b1 & h1 & E1 & _ & Hs & _). rewrite E1 in E.
  by injection E as <- <-.
Qed.
Lemma ListenAndServe_ends addr h :
  ∃ l, ListenAndServe (S:=S) addr h
    = (Done tt, mkHost h.(h_env) (http_Listen addr h.(h_net)).2 h.(h_state) h.(h_subs) h.(h_tickers) l).
Proof.
  unfold ListenAndServe, attempt, calls, mbind, Boot_bind.
  destruct (http_Listen addr h.(h_net)) as [[e|] n]; eexists _; reflexivity.
Qed.
End succeeded.

(** ** What a process at work keeps *)

Section working.
Context `{Network} {S : Type} (I : S → Prop).

(** Every handler and every ticker keeps [I]. *)
Definition keeps_all (h : Host S) : Prop :=
  (∀ x, x ∈ h.(h_subs) → ∀ m s, I s → I (x.(sub_handler) m s).2)
  ∧ (∀ t, t ∈ h.(h_tickers) → ∀ s, I s → I (t.(tick_do) s)).
Definition allowed (o : Occurrence) : Prop :=
  match o with Meanwhile f => ∀ s, I s → I (f s) | _ => True end.
Lemma step_static o (h : Host S) :
  (step o h).(h_subs) = h.(h_subs) ∧ (step o h).(h_tickers) = h.(h_tickers).
Proof.
  destruct o as [k i m|k|f]; simpl; [destruct (h_subs h !! k) as [[[] ? ?]|]|destruct (h_tickers h !! k)|];
    try done. unfold deliver, consume. simpl. by destruct (sub_handler0 m (h_state h)) as [[]].
Qed.
Lemma steps_static os : ∀ h : Host S,
  (steps os h).(h_subs) = h.(h_subs) ∧ (steps os h).(h_tickers) = h.(h_tickers).
Proof.
  induction os as [|o os IH]; intros h; [done|]. simpl. destruct (IH (step o h)) as [-> ->].
  apply step_static.
Qed.
Lemma step_keeps o (h : Host S) :
  keeps_all h → allowed o → I h.(h_state) → I (step o h).(h_state).
Proof.
  intros [Hs Ht] Ho Hi. destruct o as [k i m|k|f]; simpl; [| |by apply Ho].
  - destruct (h_subs h !! k) as [x|] eqn:E; [|done]. apply list_elem_of_lookup_2 in E.
    specialize (Hs x E m _ Hi). unfold deliver, consume. destruct (sub_delivery x); [done|].
    by destruct (sub_handler x m (h_state h)) as [[]].
  - destruct (h_tickers h !! k) as [t|] eqn:E; [|done]. apply list_elem_of_lookup_2 in E.
    by apply (Ht t E).
Qed.
Lemma steps_keep os : ∀ h : Host S,
  keeps_all h → Forall allowed os → I h.(h_state) → I (steps os h).(h_state).
Proof.
  induction os as [|o os IH]; intros h Hk Hos Hi; [done|]. apply Forall_cons in Hos as [Ho Hos].
  apply IH; [|done|by apply step_keeps]. unfold keeps_all in *.
  by destruct (step_static o h) as [-> ->].
Qed.
End working.

(** ** What a start leaves among the subscriptions

    [leaves P m]: however [m] ends, subscriptions that all satisfied [P] before
    it do so after it. *)
Section leaves.
Context `{Network} {S : Type} (P : Subscription S → Prop).

Definition leaves {A} (m : Boot S A) : Prop :=
  ∀ h, Forall P h.(h_subs) → Forall P (m h).2.(h_subs).

Lemma leaves_ret {A} (a : A) : leaves (mret a).
Proof. by intros h. Qed.
Lemma leaves_failed {A} e : leaves (@failed _ S A e).
Proof. by intros h. Qed.
Lemma leaves_os_Exit {A} c : leaves (@os_Exit _ S A c).
Proof. by intros h. Qed.
Lemma leaves_bind {A B} (m : Boot S A) (k : A → Boot S B) :
  leaves m → (∀ a, leaves (k a)) → leaves (m ≫= k).
Proof.
  intros Hm Hk h Hh. unfold mbind, Boot_bind. specialize (Hm h Hh).
  destruct (m h) as [[a|e|c|e] h1]; try done. by apply Hk.
Qed.
Lemma leaves_attempt {A} (m : Boot S A) : leaves m → leaves (attempt m).
Proof. intros Hm h Hh. unfold attempt. specialize (Hm h Hh). by destruct (m h) as [[a|e|c|e] h1]. Qed.
Lemma leaves_on_error {A} (m : Boot S A) k : leaves m → (∀ e, leaves (k e)) → leaves (on_error m k).
Proof.
  intros Hm Hk. apply leaves_bind; [by apply leaves_attempt|]. intros [a|e]; [apply leaves_ret|apply Hk].
Qed.
Lemma leaves_wrapped {A} p (m : Boot S A) : leaves m → leaves (wrapped p m).
Proof. intros Hm. apply leaves_on_error; [done|]. intros. apply leaves_failed. Qed.
Lemma leaves_setting {A} (f : _ → A) : leaves (setting f).
Proof. by intros h. Qed.
Lemma leaves_asks {A} (f : _ → A) : leaves (asks f).
Proof. by intros h. Qed.
Lemma leaves_selects d : leaves (selects d).
Proof. intros h Hh. unfold selects. by destruct (after_or_done d (h_net h)). Qed.
Lemma leaves_NewDockerRuntime : leaves NewDockerRuntime.
Proof. by intros h. Qed.
Lemma leaves_calls f : leaves (calls f).
Proof. intros h Hh. unfold calls. by destruct (f (h_net h)). Qed.
Lemma leaves_updates f : leaves (updates f).
Proof. by intros h. Qed.
Lemma leaves_NewTicker d f : leaves (NewTicker d f).
Proof. intros h. unfold NewTicker. by case_decide. Qed.
Lemma leaves_Unsubscribe : leaves Unsubscribe.
Proof.
  intros h Hh. simpl. destruct h.(h_subs) as [|x l _] using rev_ind; [done|].
  rewrite removelast_last. by apply Forall_app in Hh as [].
Qed.
Lemma leaves_ListenAndServe addr : leaves (ListenAndServe addr).
Proof.
  intros h Hh. destruct (ListenAndServe_ends addr h) as (l & E). by rewrite E.
Qed.
Lemma leaves_EnsureStream cfg : leaves (EnsureStream cfg).
Proof. apply leaves_wrapped, leaves_calls. Qed.
Lemma leaves_Connect url : leaves (Connect url).
Proof.
  apply leaves_bind; [apply leaves_wrapped, leaves_calls|]. intros [].
  apply leaves_on_error; [apply leaves_calls|]. intros e.
  apply leaves_bind; [apply leaves_calls|]. intros []. apply leaves_failed.
Qed.
Lemma leaves_connectEventBus key : leaves (connectEventBus key).
Proof.
  apply leaves_bind; [apply leaves_setting|]. intros url.
  apply leaves_bind; [apply leaves_asks|]. intros t.
  apply leaves_bind; [|intros; apply leaves_ret].
  generalize dials as n. induction n as [|n IH]; [apply leaves_ret|]. cbn [connect_loop].
  apply leaves_bind; [apply leaves_attempt, leaves_Connect|]. intros [[]|e]; [apply leaves_ret|].
  apply leaves_bind; [apply leaves_asks|]. intros []; [apply leaves_ret|].
  apply leaves_bind; [apply leaves_selects|]. intros []; [done|apply leaves_ret].
Qed.
Lemma leaves_Open c : leaves (Open c).
Proof.
  apply leaves_bind; [|intros []]; apply leaves_wrapped, leaves_calls.
Qed.
Lemma leaves_SubscribeDurable st c subject f :
  P (mkSubscription (Durable st c) subject f) → leaves (SubscribeDurable st c subject f).
Proof.
  intros Hp. apply leaves_bind; [apply leaves_wrapped, leaves_calls|]. intros [].
  apply leaves_bind; [apply leaves_wrapped, leaves_calls|]. intros [] h Hh. simpl.
  apply Forall_app. by split; [|constructor].
Qed.
Lemma leaves_natsBus_Subscribe subject f :
  P (mkSubscription Core subject (λ m s, (None, f m s))) → leaves (natsBus_Subscribe subject f).
Proof.
  intros Hp. apply leaves_bind; [apply leaves_wrapped, leaves_calls|]. intros [] h Hh. simpl.
  apply Forall_app. by split; [|constructor].
Qed.
End leaves.

Create HintDb boot.
#[export] Hint Resolve leaves_ret leaves_failed leaves_os_Exit leaves_attempt leaves_wrapped
  leaves_setting leaves_asks leaves_NewDockerRuntime leaves_calls leaves_updates leaves_NewTicker leaves_Unsubscribe
  leaves_ListenAndServe leaves_EnsureStream leaves_connectEventBus leaves_Open
  leaves_SubscribeDurable leaves_natsBus_Subscribe : boot.
(** Decomposes a [leaves] goal along the code, down to the subscriptions made. *)
Ltac leaves_step :=
  match goal with
  | |- leaves _ (let _ := _ in _) => cbv zeta
  | |- leaves _ (_ ≫= _) => apply leaves_bind; [|intros ?]
  | |- leaves _ (on_error _ _) => apply leaves_on_error; [|intros ?]
  | |- leaves _ (attempt _) => apply leaves_attempt
  | |- leaves _ (wrapped _ _) => apply leaves_wrapped
  | |- leaves _ (match ?x with _ => _ end) => destruct x
  | |- leaves _ _ => solve [eauto 3 with boot]
  end.
Ltac solve_leaves := repeat leaves_step.
