(* ===== verification/Scheduler.v ===== *)
(** * Scheduler: node registry and placement

    services/scheduler: the handlers of node.<id>.register, .heartbeat and
    .status and of placement.requested, and the liveness sweep.  Nodes and
    containers are read over the application's pool, deployments and quotas
    over the superuser connection (main.go).  A handler never asks for
    redelivery: whatever goes wrong is logged. *)
From S2P Require Import Prelude Json Schema Effects Rls DbTenancy DbWorkload DbCluster Wire Sample.
From stdpp Require Import base gmap strings list sorting.
From Stdlib Require Import ZArith Lia.
Open Scope Z_scope.

Record Config := { HeartbeatTimeout : time; LivenessSweepInterval : time }.

Section scheduler.
Context `{UUIDText} `{TimeText}.

(** ** registry.go *)

Definition handleRegister (data : wire) : M unit :=
  match Unmarshal data with
  | None => logf "decoding registration message"
  | Some msg =>
      match uuid_Parse msg.(registerMessage_NodeID) with
      | None => logf "registration message has non-uuid node_id"
      | Some id =>
          r ← try (NodeRepository.Register PoolConn id msg.(registerMessage_Hostname)
                     msg.(registerMessage_IP) msg.(registerMessage_CPUCapacityMillicores)
                     msg.(registerMessage_MemoryCapacityMB) msg.(registerMessage_Labels));
          match r with
          | Err _ => logf "registering node"
          | Ok _ => logf "node registered"
          end
      end
  end.

Definition handleHeartbeat (data : wire) : M unit :=
  match Unmarshal data with
  | None => logf "decoding heartbeat message"
  | Some msg =>
      match uuid_Parse msg.(heartbeatMessage_NodeID) with
      | None => logf "heartbeat message has non-uuid node_id"
      | Some id =>
          r ← try (NodeRepository.Heartbeat PoolConn id msg.(heartbeatMessage_Timestamp));
          match r with
          | Ok _ => mret tt
          | Err e => if errors_Is e ErrNotFound then logf "heartbeat for unregistered node"
                     else logf "recording node heartbeat"
          end
      end
  end.

(** The nodes the sweep marks: [LastHeartbeatAt.After(cutoff)] is false. *)
Definition overdue (cutoff : time) (n : Node) : Prop :=
  n.(Node_Status) ≠ NodeStatusUnreachable ∧ n.(Node_LastHeartbeatAt) ≤ cutoff.
#[export] Instance overdue_dec cutoff n : Decision (overdue cutoff n).
Proof. unfold overdue. apply _. Defined.

Definition sweep_one (cutoff : time) (n : Node) : M unit :=
  if decide (overdue cutoff n) then
    r ← try (NodeRepository.SetStatus PoolConn n.(Node_ID) NodeStatusUnreachable);
    match r with
    | Err _ => logf "marking node unreachable"
    | Ok _ => logf "node marked unreachable"
    end
  else mret tt.
Definition sweepUnreachable (cfg : Config) : M unit :=
  r ← try (NodeRepository.List PoolConn);
  match r with
  | Err _ => logf "listing nodes for liveness sweep"
  | Ok nodes => t ← now; forM (sweep_one (t - cfg.(HeartbeatTimeout))) nodes
  end.

(** ** placement.go *)

Definition loadOf (nodeID : uuid) : M Z :=
  containers ← ContainerRepository.ListByNode PoolConn nodeID;
  mret (Z.of_nat (length (filter active containers))).

Definition eligible (n : Node) : Prop :=
  n.(Node_Status) = NodeStatusHealthy ∧ 0 < n.(Node_CPUCapacityMillicores)
  ∧ 0 < n.(Node_MemoryCapacityMB).
#[export] Instance eligible_dec n : Decision (eligible n).
Proof. unfold eligible. apply _. Defined.

(** The loop of [selectNode]; [best] is the pair of [best] and [bestLoad]. *)
Fixpoint select_loop (nodes : list Node) (best : option (Node * Z)) : M (option (Node * Z)) :=
  match nodes with
  | [] => mret best
  | n :: nodes =>
      if decide (eligible n) then
        load ← wrap "scoring node" (loadOf n.(Node_ID));
        select_loop nodes
          (match best with
           | None => Some (n, load)
           | Some (b, bestLoad) => if decide (load < bestLoad) then Some (n, load) else best
           end)
      else select_loop nodes best
  end.
Definition selectNode : M Node :=
  nodes ← wrap "listing nodes" (NodeRepository.List PoolConn);
  best ← select_loop nodes None;
  match best with
  | None => fail (Opaque "no healthy node with capacity available")
  | Some (n, _) => mret n
  end.

Definition checkQuota (deploymentID : uuid) : M unit :=
  orgID ← wrap "resolving deployment org for quota check"
            (DeploymentRepository.OrgID AdminConn deploymentID);
  quota ← wrap "fetching quota" (QuotaRepository.Get AdminConn orgID);
  usage ← wrap "computing usage" (QuotaRepository.CurrentUsage AdminConn orgID);
  if decide (quota.(ResourceQuota_MaxContainers) < usage.(ResourceUsage_Containers) + 1) then
    fail (Opaque "would exceed max containers")
  else if decide (quota.(ResourceQuota_MaxCPUMillicores) < usage.(ResourceUsage_CPUMillicores))
  then fail (Opaque "already exceeds max cpu millicores")
  else if decide (quota.(ResourceQuota_MaxMemoryMB) < usage.(ResourceUsage_MemoryMB)) then
    fail (Opaque "already exceeds max memory mb")
  else mret tt.

Definition assignment (msg : placementRequestedMessage) (c : Container) : assignMessage :=
  {| assignMessage_AssignmentID := uuid_String c.(Container_ID);
     assignMessage_DeploymentID := msg.(placementRequestedMessage_DeploymentID);
     assignMessage_Image := msg.(placementRequestedMessage_Image);
     assignMessage_Env := msg.(placementRequestedMessage_Env);
     assignMessage_Ports := msg.(placementRequestedMessage_Ports);
     assignMessage_Command := msg.(placementRequestedMessage_Command) |}.

(** What follows the decoding of the message. *)
Definition place (msg : placementRequestedMessage) (deploymentID : uuid) : M unit :=
  rn ← try selectNode;
  match rn with
  | Err _ => logf "no node available for placement"
  | Ok node =>
      rq ← try (checkQuota deploymentID);
      match rq with
      | Err _ => logf "placement rejected: organization quota exceeded"
      | Ok _ =>
          rc ← try (ContainerRepository.Create PoolConn deploymentID node.(Node_ID));
          match rc with
          | Err _ => logf "recording placement decision"
          | Ok container =>
              rp ← try (PublishDurable (NodeAssignSubject (uuid_String node.(Node_ID)))
                                       (to_json (assignment msg container)));
              match rp with
              | Err _ => logf "publishing assignment"
              | Ok _ => logf "placed deployment"
              end
          end
      end
  end.
Definition handlePlacement (data : wire) : M unit :=
  match Unmarshal data with
  | None => logf "decoding placement.requested message"
  | Some msg =>
      match uuid_Parse msg.(placementRequestedMessage_DeploymentID) with
      | None => logf "placement.requested message has non-uuid deployment_id"
      | Some deploymentID => place msg deploymentID
      end
  end.

Definition handleStatus (data : wire) : M unit :=
  match Unmarshal data with
  | None => logf "decoding status message"
  | Some msg =>
      match uuid_Parse msg.(statusObservation_AssignmentID) with
      | None => logf "status message has non-uuid assignment_id"
      | Some assignmentID =>
          match of_text msg.(statusObservation_Status) with
          | None => logf "status message has unrecognized status"
          | Some status =>
              let containerRuntimeID :=
                if decide (msg.(statusObservation_ContainerID) = "") then None
                else Some msg.(statusObservation_ContainerID) in
              r ← try (ContainerRepository.UpdateStatus PoolConn assignmentID status
                         containerRuntimeID);
              match r with
              | Ok _ => mret tt
              | Err e => if errors_Is e ErrNotFound
                         then logf "status message for unknown assignment, dropping"
                         else logf "recording container status"
              end
          end
      end
  end.
End scheduler.

(** ** Selection *)

(** The loop of [selectNode] without its effects. *)
Fixpoint pick (load : uuid → Z) (nodes : list Node) (best : option (Node * Z))
    : option (Node * Z) :=
  match nodes with
  | [] => best
  | n :: nodes =>
      if decide (eligible n) then
        pick load nodes
          (match best with
           | None => Some (n, load n.(Node_ID))
           | Some (b, bestLoad) =>
               if decide (load n.(Node_ID) < bestLoad) then Some (n, load n.(Node_ID)) else best
           end)
      else pick load nodes best
  end.

(** What selection promises: an eligible node, strictly less loaded than the
    eligible nodes before it and at most as loaded as those after it. *)
Definition least_loaded (load : uuid → Z) (nodes : list Node) (n : Node) : Prop :=
  ∃ l1 l2, nodes = l1 ++ n :: l2 ∧ eligible n
    ∧ Forall (λ m, eligible m → load n.(Node_ID) < load m.(Node_ID)) l1
    ∧ Forall (λ m, eligible m → load n.(Node_ID) ≤ load m.(Node_ID)) l2.

Lemma pick_spec load nodes seen b bl :
  bl = load b.(Node_ID) → least_loaded load seen b →
  ∃ n l, pick load nodes (Some (b, bl)) = Some (n, l)
         ∧ l = load n.(Node_ID) ∧ least_loaded load (seen ++ nodes) n.
Proof.
  revert seen b bl. induction nodes as [|n nodes IH]; intros seen b bl Hbl Hb; simpl.
  - rewrite app_nil_r. eauto.
  - rewrite cons_middle, app_assoc. case_decide as He.
    + destruct Hb as (l1 & l2 & -> & Heb & Hl1 & Hl2). case_decide as Hlt; apply IH; try done.
      * exists (l1 ++ b :: l2), []. split; [done|]. split; [done|]. split; [|done].
        apply Forall_app. split; [|constructor].
        -- eapply Forall_impl; [exact Hl1|]. simpl. intros m Hm ?. specialize (Hm ltac:(done)). lia.
        -- intros _. lia.
        -- eapply Forall_impl; [exact Hl2|]. simpl. intros m Hm ?. specialize (Hm ltac:(done)). lia.
      * exists l1, (l2 ++ [n]). split; [by rewrite <-app_assoc|]. split; [done|]. split; [done|].
        apply Forall_app. split; [done|]. constructor; [|done]. intros _. lia.
    + apply IH; [done|]. destruct Hb as (l1 & l2 & -> & Heb & Hl1 & Hl2).
      exists l1, (l2 ++ [n]). split; [by rewrite <-app_assoc|]. split; [done|]. split; [done|].
      apply Forall_app. split; [done|]. constructor; [|done]. by intros ?.
Qed.

Lemma least_loaded_single load n : eligible n → least_loaded load [n] n.
Proof. intros. exists [], []. split; [done|]. split; [done|]. split; constructor. Qed.

Lemma pick_None load nodes : pick load nodes None = None ↔ Forall (λ n, ¬ eligible n) nodes.
Proof.
  induction nodes as [|n nodes IH]; simpl; [done|]. rewrite Forall_cons. case_decide as He.
  - split; [|by intros [? _]]. intros Hp.
    destruct (pick_spec load nodes [n] n (load (Node_ID n))) as (m & l & Hm & _); [done|by apply least_loaded_single|congruence].
  - rewrite IH. naive_solver.
Qed.

Lemma pick_Some load nodes n l : pick load nodes None = Some (n, l) → least_loaded load nodes n.
Proof.
  induction nodes as [|m nodes IH]; simpl; [done|]. case_decide as He; intros Hp.
  - destruct (pick_spec load nodes [m] m (load (Node_ID m))) as (n' & l' & Hm & _ & Hl); [done|by apply least_loaded_single|].
    rewrite Hm in Hp. by simplify_eq.
  - destruct (IH Hp) as (l1 & l2 & -> & ? & ? & ?). exists (m :: l1), l2.
    split; [done|]. split; [done|]. split; [|done]. by constructor.
Qed.

(** ** The effectful loop computes it *)

Lemma loadOf_observes n : observes (loadOf n) (λ e z, z = node_load e.(e_db) n).
Proof.
  eapply observes_mono.
  - eapply observes_bind; [apply ListByNode_observes|]. intros l. apply observes_ret.
  - simpl. intros e z (l & -> & ->). unfold node_load, count, select.
    by rewrite list_filter_filter.
Qed.

Lemma select_loop_observes nodes best :
  observes (select_loop nodes best) (λ e r, r = pick (node_load e.(e_db)) nodes best).
Proof.
  revert best. induction nodes as [|n nodes IH]; intros best; simpl; [apply observes_ret|].
  case_decide; [|apply IH].
  eapply observes_mono.
  - eapply observes_bind; [apply observes_wrap, loadOf_observes|]. intros z. apply IH.
  - simpl. by intros e r (z & -> & ->).
Qed.

Lemma selectNode_observes :
  observes selectNode
    (λ e n, least_loaded (node_load e.(e_db)) (NodeRepository.all_nodes e.(e_db)) n).
Proof.
  eapply observes_mono.
  - eapply observes_bind; [apply observes_wrap, List_observes|]. intros nodes.
    eapply observes_bind; [apply select_loop_observes|]. intros best.
    instantiate (1 := λ best e n, ∃ l, best = Some (n, l)). destruct best as [[n l]|]; simpl.
    + eapply observes_mono; [apply observes_ret|]. simpl. intros e m ->. eauto.
    + eapply observes_mono; [apply observes_fail|]. done.
  - simpl. intros e n (nodes & -> & best & -> & l & Hl). by eapply pick_Some.
Qed.

(** ** Placement *)

Lemma checkQuota_observes dep :
  observes (checkQuota dep)
    (λ e _, ∃ x q, e.(e_db).(deployments) !! dep = Some x
                   ∧ e.(e_db).(resource_quotas) !! x.(Deployment_OrgID) = Some q
                   ∧ active_containers e.(e_db) x.(Deployment_OrgID) + 1
                     ≤ q.(ResourceQuota_MaxContainers)).
Proof.
  unfold checkQuota. eapply observes_mono.
  - eapply observes_bind; [apply observes_wrap, OrgID_observes_admin|]. intros o.
    eapply observes_bind; [apply observes_wrap, Get_observes_admin|]. intros q.
    eapply observes_bind; [apply observes_wrap, CurrentUsage_observes_admin|]. intros u.
    instantiate (1 := λ u _ _, u.(ResourceUsage_Containers) + 1 ≤ q.(ResourceQuota_MaxContainers)).
    simpl. repeat case_decide; first [ eapply observes_mono; [apply observes_fail|]; done
      | eapply observes_mono; [apply observes_ret|]; intros; lia ].
  - simpl. intros e _ (o & (x & Hx & ->) & q & Hq & u & Hu & Hle). rewrite Hu in Hle. eauto.
Qed.

Section placement.
Context `{UUIDText} `{TimeText}.

(** The decision a placement request leads to. *)
Definition placed (msg : placementRequestedMessage) (dep : uuid) (w w' : World) : Prop :=
  ∃ n x q id,
    least_loaded (node_load w.(w_db)) (NodeRepository.all_nodes w.(w_db)) n
    ∧ w.(w_db).(deployments) !! dep = Some x
    ∧ w.(w_db).(resource_quotas) !! x.(Deployment_OrgID) = Some q
    ∧ active_containers w.(w_db) x.(Deployment_OrgID) + 1 ≤ q.(ResourceQuota_MaxContainers)
    ∧ w.(w_db).(containers) !! id = None
    ∧ let c := pending_container id dep n.(Node_ID) in
      w'.(w_db) = set_containers (<[id := c]> w.(w_db).(containers)) w.(w_db)
      ∧ (messages w' = messages w
         ∨ messages w' = messages w ++
             [EvPublishDurable (NodeAssignSubject (uuid_String n.(Node_ID)))
                               (to_json (assignment msg c))]).

Lemma place_cases msg dep w :
  keeps w (place msg dep w).2 ∨ placed msg dep w (place msg dep w).2.
Proof.
  unfold place. rewrite bind_try.
  destruct (selectNode w) as [rn w1] eqn:En.
  destruct (observes_run _ _ _ _ _ selectNode_observes En) as [H1 Hn].
  destruct rn as [n|e]; simpl; [|left; by apply keeps_logf, same_keeps].
  specialize (Hn n eq_refl). rewrite bind_try.
  destruct (checkQuota dep w1) as [rq w2] eqn:Eq.
  destruct (observes_run _ _ _ _ _ (checkQuota_observes dep) Eq) as [H2 Hq].
  assert (same w w2) as H12 by (by transitivity w1).
  destruct rq as [[]|e]; simpl; [|left; by apply keeps_logf, same_keeps].
  destruct (Hq tt eq_refl) as (x & q & Hx & Hqq & Hle). rewrite bind_try.
  destruct H1 as [He1 _]. rewrite He1 in Hx, Hqq, Hle. simpl in *.
  destruct (ContainerRepository.Create PoolConn dep (Node_ID n) w2) as [rc w3] eqn:Ec.
  assert (w_db w2 = w_db w) as Hdb by (by destruct H12 as [[= ???] _]).
  apply container_Create_cases in Ec as
    [(e & -> & H3)|(id & Hid & _ & _ & _ & -> & H3)]; simpl.
  { left. apply keeps_logf, same_keeps. by transitivity w2. }
  right. exists n, x, q, id. rewrite Hdb in *. do 5 (split; [done|]). rewrite bind_try.
  destruct H12 as [[= ? ? ?] Ht]. destruct H3 as [[= Hd3 ??] Ht3].
  destruct (PublishDurable _ _ w3) as [rp w4] eqn:Ep.
  apply PublishDurable_cases in Ep as [(e & -> & [[= Hd4 ??] Ht4])|(-> & [= Hd4 ??] & Ht4)];
    simpl; (split; [congruence|]).
  - left. unfold messages. simpl. rewrite filter_app, app_nil_r. congruence.
  - right. unfold messages. simpl. rewrite filter_app, app_nil_r, Ht4, filter_app. simpl.
    by rewrite Ht3, Ht.
Qed.

(** Nothing changed, or one container placed. *)
Lemma handlePlacement_cases data w :
  let w' := (handlePlacement data w).2 in
  keeps w w'
  ∨ ∃ msg dep, Unmarshal data = Some msg
               ∧ uuid_Parse msg.(placementRequestedMessage_DeploymentID) = Some dep
               ∧ placed msg dep w w'.
Proof.
  unfold handlePlacement. destruct (Unmarshal data) as [msg|]; [|left; by apply keeps_logf].
  destruct (uuid_Parse _) as [dep|] eqn:Ep; [|left; by apply keeps_logf].
  destruct (place_cases msg dep w); [by left|right; eauto].
Qed.
End placement.

(** ** Placement goes through *)

Lemma loadOf_yields n w : calm w → yields (loadOf n) w (node_load w.(w_db) n).
Proof.
  intros Hc. eapply yields_bind; [by apply ListByNode_yields|]. intros w' _ Hc'.
  unfold node_load, count, select.
  rewrite <-list_filter_filter. by apply yields_ret.
Qed.

Lemma select_loop_yields nodes best w :
  calm w → yields (select_loop nodes best) w (pick (node_load w.(w_db)) nodes best).
Proof.
  revert best w. induction nodes as [|n nodes IH]; intros best w Hc; simpl; [by apply yields_ret|].
  case_decide; [|by apply IH].
  eapply yields_bind; [by apply yields_wrap, loadOf_yields|].
  intros w' [[= Hd _ _] _] Hc'. rewrite <-Hd. by apply IH.
Qed.

Lemma selectNode_yields n l w :
  calm w → pick (node_load w.(w_db)) (NodeRepository.all_nodes w.(w_db)) None = Some (n, l) →
  yields selectNode w n.
Proof.
  intros Hc Hp. eapply yields_bind; [by apply yields_wrap, List_yields|].
  intros w1 [[= Hd1 _ _] _] Hc1. eapply yields_bind; [by apply select_loop_yields|].
  intros w2 _ Hc2. rewrite Hd1, Hp. by apply yields_ret.
Qed.

Lemma checkQuota_yields dep x q u w :
  calm w → w.(w_db).(deployments) !! dep = Some x →
  w.(w_db).(resource_quotas) !! x.(Deployment_OrgID) = Some q →
  usage_of w.(w_db) x.(Deployment_OrgID) w.(w_now) = Ok u →
  u.(ResourceUsage_Containers) + 1 ≤ q.(ResourceQuota_MaxContainers) →
  u.(ResourceUsage_CPUMillicores) ≤ q.(ResourceQuota_MaxCPUMillicores) →
  u.(ResourceUsage_MemoryMB) ≤ q.(ResourceQuota_MaxMemoryMB) →
  yields (checkQuota dep) w tt.
Proof.
  intros Hc Hx Hq Hu H1 H2 H3. unfold checkQuota.
  eapply yields_bind; [by eapply yields_wrap, OrgID_yields_admin|]. intros w1 [[= Hd1 Hs1 Hn1] _] Hc1.
  eapply yields_bind; [eapply yields_wrap, Get_yields_admin; [done|by rewrite Hd1]|].
  intros w2 [[= Hd2 Hs2 Hn2] _] Hc2.
  eapply yields_bind; [eapply yields_wrap, CurrentUsage_yields_admin; [done|]|].
  { rewrite Hd2, Hn2, Hd1, Hn1. exact Hu. }
  intros w3 _ Hc3. rewrite !decide_False by lia. by apply yields_ret.
Qed.

(** Room for one more container of the deployment's organization. *)
Definition has_room (w : World) (dep : uuid) : Prop :=
  ∃ x q u, w.(w_db).(deployments) !! dep = Some x
    ∧ w.(w_db).(resource_quotas) !! x.(Deployment_OrgID) = Some q
    ∧ usage_of w.(w_db) x.(Deployment_OrgID) w.(w_now) = Ok u
    ∧ u.(ResourceUsage_Containers) + 1 ≤ q.(ResourceQuota_MaxContainers)
    ∧ u.(ResourceUsage_CPUMillicores) ≤ q.(ResourceQuota_MaxCPUMillicores)
    ∧ u.(ResourceUsage_MemoryMB) ≤ q.(ResourceQuota_MaxMemoryMB).

Lemma usage_containers d o t u :
  usage_of d o t = Ok u → u.(ResourceUsage_Containers) = active_containers d o.
Proof.
  unfold usage_of, mbind, Res_bind. destruct (desired d o); [|done].
  unfold mret, Res_ret. by intros [= <-].
Qed.

Section progress.
Context `{UUIDText} `{TimeText}.

Lemma place_yields msg dep n l w :
  calm w →
  pick (node_load w.(w_db)) (NodeRepository.all_nodes w.(w_db)) None = Some (n, l) →
  is_Some (w.(w_db).(nodes) !! n.(Node_ID)) →
  has_room w dep →
  (∀ g, (w.(w_gen) ≤ g)%N → w.(w_db).(containers) !! g = None) →
  ∃ id, w.(w_db).(containers) !! id = None ∧
    let c := pending_container id dep n.(Node_ID) in
    let w' := (place msg dep w).2 in
    w'.(w_db) = set_containers (<[id := c]> w.(w_db).(containers)) w.(w_db)
    ∧ messages w' = messages w ++
        [EvPublishDurable (NodeAssignSubject (uuid_String n.(Node_ID)))
                          (to_json (assignment msg c))].
Proof.
  intros Hc Hp Hn (x & q & u & Hx & Hq & Hu & Hr & Hcpu & Hmem) Hfresh.
  destruct (selectNode_yields n l w Hc Hp) as (w1 & E1 & H1 & Hc1 & Hg1).
  pose proof H1 as [[= Hd1 Hs1 Hn1] Ht1].
  destruct (checkQuota_yields dep x q u w1) as (w2 & E2 & H2 & Hc2 & Hg2);
    [done|by rewrite ?Hd1, ?Hn1..|done|done|done|].
  pose proof H2 as [[= Hd2 Hs2 Hn2] Ht2]. rewrite Hd1 in Hd2.
  exists w2.(w_gen). split; [apply Hfresh; lia|]. simpl. unfold place.
  rewrite bind_try, E1. simpl. rewrite bind_try, E2. simpl. rewrite bind_try.
  rewrite container_Create_calm; rewrite ?Hd2; [|done| | |by eexists|done].
  - simpl. rewrite bind_try. rewrite PublishDurable_calm by done. simpl. split; [done|].
    unfold messages. simpl. rewrite !filter_app, Ht2, Ht1. simpl. by rewrite app_nil_r.
  - unfold container_quota_ok. rewrite Hx, Hq. by rewrite <-(usage_containers _ _ _ _ Hu).
  - apply Hfresh. lia.
Qed.

(** What can be placed is placed. *)
Lemma placement_made data msg dep w :
  calm w →
  Unmarshal data = Some msg →
  uuid_Parse msg.(placementRequestedMessage_DeploymentID) = Some dep →
  Exists eligible (NodeRepository.all_nodes w.(w_db)) →
  (∀ i n, w.(w_db).(nodes) !! i = Some n → n.(Node_ID) = i) →
  has_room w dep →
  (∀ g, (w.(w_gen) ≤ g)%N → w.(w_db).(containers) !! g = None) →
  ∃ n id, least_loaded (node_load w.(w_db)) (NodeRepository.all_nodes w.(w_db)) n
    ∧ w.(w_db).(containers) !! id = None
    ∧ let c := pending_container id dep n.(Node_ID) in
      let w' := (handlePlacement data w).2 in
      w'.(w_db) = set_containers (<[id := c]> w.(w_db).(containers)) w.(w_db)
      ∧ messages w' = messages w ++
          [EvPublishDurable (NodeAssignSubject (uuid_String n.(Node_ID)))
                            (to_json (assignment msg c))].
Proof.
  intros Hc Hmsg Hdep Hex Hkey Hroom Hfresh.
  destruct (pick (node_load w.(w_db)) (NodeRepository.all_nodes w.(w_db)) None) as [[n l]|] eqn:Hp.
  2:{ apply pick_None in Hp. apply list.Exists_exists in Hex as (m & Hm & He).
      by eapply Forall_forall in Hp. }
  pose proof (pick_Some _ _ _ _ Hp) as Hn.
  destruct (proj1 (all_nodes_elem (w_db w) n)) as [i Hi].
  { destruct Hn as (l1 & l2 & -> & _). set_solver. }
  destruct (place_yields msg dep n l w) as (id & Hid & Hw); [done..| |done|done|].
  { rewrite (Hkey _ _ Hi). by eexists. }
  exists n, id. split; [done|]. split; [done|]. unfold handlePlacement. by rewrite Hmsg, Hdep.
Qed.
End progress.

(** ** The liveness sweep *)

(** What the sweep makes of one node, and of all of them. *)
Definition swept (cutoff : time) (n : Node) : Node :=
  if decide (overdue cutoff n) then NodeRepository.with_status NodeStatusUnreachable n else n.
Definition sweep_table (cutoff : time) (l : list Node) (t : table Node) : table Node :=
  foldl (λ t n, <[n.(Node_ID) := swept cutoff n]> t) t l.

Lemma sweep_table_ne cutoff l t i :
  i ∉ Node_ID <$> l → sweep_table cutoff l t !! i = t !! i.
Proof.
  revert t. induction l as [|n l IH]; intros t Hi; [done|]. simpl.
  csimpl in Hi. apply not_elem_of_cons in Hi as [Hn Hl].
  rewrite IH by done. by rewrite lookup_insert_ne.
Qed.
Lemma sweep_table_lookup cutoff l t n :
  NoDup (Node_ID <$> l) → n ∈ l →
  sweep_table cutoff l t !! n.(Node_ID) = Some (swept cutoff n).
Proof.
  revert t. induction l as [|m l IH]; intros t Hnd Hn; [by apply elem_of_nil in Hn|].
  csimpl in Hnd. apply NoDup_cons in Hnd as [Hm Hnd]. simpl.
  apply elem_of_cons in Hn as [->|Hn]; [|by apply IH].
  rewrite sweep_table_ne by done. by rewrite lookup_insert_eq.
Qed.

Lemma sweep_one_calm cutoff n w :
  calm w → w.(w_db).(nodes) !! n.(Node_ID) = Some n →
  ∃ w', sweep_one cutoff n w = (Ok tt, w') ∧ calm w' ∧ messages w' = messages w
        ∧ w'.(w_db) = set_nodes (<[n.(Node_ID) := swept cutoff n]> w.(w_db).(nodes)) w.(w_db).
Proof.
  intros Hc Hn. unfold sweep_one, swept. case_decide.
  - rewrite bind_try. unfold NodeRepository.SetStatus, exec_affected, wrap, catch, mbind, M_bind.
    rewrite run_stmt_calm by done. unfold execute, NodeRepository.SetStatus_sql. rewrite Hn. simpl.
    eexists. split; [done|]. split; [done|]. split; [|done].
    unfold messages. simpl. by rewrite filter_app, app_nil_r.
  - eexists. split; [done|]. split; [done|]. split; [done|].
    rewrite insert_id by done. by destruct w as [[] ? ? ? ? ?].
Qed.

Lemma sweep_loop_calm cutoff l w :
  calm w → NoDup (Node_ID <$> l) → (∀ n, n ∈ l → w.(w_db).(nodes) !! n.(Node_ID) = Some n) →
  ∃ w', forM (sweep_one cutoff) l w = (Ok tt, w') ∧ messages w' = messages w
        ∧ w'.(w_db) = set_nodes (sweep_table cutoff l w.(w_db).(nodes)) w.(w_db).
Proof.
  revert w. induction l as [|n l IH]; intros w Hc Hnd Hl; simpl.
  - exists w. split; [done|]. split; [done|]. by destruct w as [[] ? ? ? ? ?].
  - csimpl in Hnd. apply NoDup_cons in Hnd as [Hn Hnd].
    destruct (sweep_one_calm cutoff n w Hc) as (w1 & E1 & Hc1 & Hm1 & Hd1); [apply Hl; set_solver|].
    destruct (IH w1 Hc1 Hnd) as (w2 & E2 & Hm2 & Hd2).
    { intros m Hm. rewrite Hd1. simpl. rewrite lookup_insert_ne; [apply Hl; set_solver|].
      intros Heq. apply Hn. rewrite Heq. by apply list_elem_of_fmap_2. }
    exists w2. unfold mbind, M_bind. rewrite E1. split; [done|]. split; [congruence|].
    rewrite Hd2, Hd1. done.
Qed.

(** The nodes table is keyed by the id column. *)
Definition nodes_keyed (d : DB) : Prop :=
  ∀ i n, d.(nodes) !! i = Some n → n.(Node_ID) = i.

Lemma all_nodes_NoDup d : nodes_keyed d → NoDup (Node_ID <$> NodeRepository.all_nodes d).
Proof.
  intros Hk. unfold NodeRepository.all_nodes. rewrite order_by_desc_perm. unfold rows.
  rewrite <-list_fmap_compose. erewrite list_fmap_ext.
  - apply NoDup_fst_map_to_list.
  - intros j x Hx. apply list_elem_of_lookup_2 in Hx. destruct x as [i n]. simpl.
    by apply Hk, elem_of_map_to_list.
Qed.

(** when no call fails the liveness sweep marks unreachable exactly the nodes
    not heard of since the cutoff (and not marked yet), and changes nothing else. *)
Theorem sweepUnreachable_exact cfg w :
  calm w → nodes_keyed w.(w_db) →
  let w' := (sweepUnreachable cfg w).2 in
  messages w' = messages w
  ∧ w'.(w_db) = set_nodes (swept (w.(w_now) - cfg.(HeartbeatTimeout)) <$> w.(w_db).(nodes))
                          w.(w_db).
Proof.
  intros Hc Hk. unfold sweepUnreachable. rewrite bind_try.
  destruct (List_yields PoolConn w Hc) as (w1 & E1 & H1 & Hc1 & _). rewrite E1. simpl.
  pose proof H1 as [[= Hd1 _ Hn1] Ht1]. unfold mbind, M_bind, now, gets. rewrite Hn1.
  destruct (sweep_loop_calm (w_now w - HeartbeatTimeout cfg) (NodeRepository.all_nodes (w_db w)) w1)
    as (w2 & E2 & Hm2 & Hd2); [done|by apply all_nodes_NoDup| |].
  { intros n [i Hi]%all_nodes_elem. rewrite Hd1. by rewrite (Hk _ _ Hi). }
  rewrite E2. simpl. split; [unfold messages in *; congruence|].
  rewrite Hd2, Hd1. f_equal. apply map_eq. intros i. rewrite lookup_fmap.
  destruct (nodes (w_db w) !! i) as [n|] eqn:Hi; simpl.
  - pose proof (Hk _ _ Hi) as <-. apply sweep_table_lookup; [by apply all_nodes_NoDup|].
    apply all_nodes_elem. eauto.
  - rewrite sweep_table_ne; [done|]. intros (n & -> & [j Hj]%all_nodes_elem)%list_elem_of_fmap.
    rewrite (Hk _ _ Hj) in Hi. congruence.
Qed.

Lemma sweepUnreachable_exact_witness :
  calm sampleWorld ∧ nodes_keyed sampleDB
  ∧ Node_Status <$> ((sweepUnreachable {| HeartbeatTimeout := 15 * Second;
        LivenessSweepInterval := 5 * Second |} sampleWorld).2.(w_db).(nodes) !! 41%N)
    = Some NodeStatusUnreachable.
Proof.
  assert (nodes_keyed sampleDB) as Hk.
  { intros i n. simpl. intros [[<- <-]|[_ [<- <-]%lookup_singleton_Some]]%lookup_insert_Some; done. }
  split; [done|]. split; [done|].
  destruct (sweepUnreachable_exact {| HeartbeatTimeout := 15 * Second;
        LivenessSweepInterval := 5 * Second |} sampleWorld eq_refl Hk) as [_ ->].
  vm_compute. reflexivity.
Defined.

(** ** The scheduler as a whole

    Its inputs, in any order, with any payloads and any outgoing call failing. *)
Inductive input :=
| InRegister (data : wire) | InHeartbeat (data : wire) | InSweep
| InPlacement (data : wire) | InStatus (data : wire).

Section runs.
Context `{UUIDText} `{TimeText} (cfg : Config).

Definition handle (i : input) : M unit :=
  match i with
  | InRegister data => handleRegister data
  | InHeartbeat data => handleHeartbeat data
  | InSweep => sweepUnreachable cfg
  | InPlacement data => handlePlacement data
  | InStatus data => handleStatus data
  end.
Definition run (ins : list input) : M unit := forM handle ins.
End runs.

(** How a container row may evolve: its identity and placement are fixed, a
    timestamp once stamped stays, a runtime id once known stays known. *)
Definition evolves (c c' : Container) : Prop :=
  c'.(Container_ID) = c.(Container_ID)
  ∧ c'.(Container_DeploymentID) = c.(Container_DeploymentID)
  ∧ c'.(Container_NodeID) = c.(Container_NodeID)
  ∧ (is_Some c.(Container_StartedAt) → c'.(Container_StartedAt) = c.(Container_StartedAt))
  ∧ (is_Some c.(Container_StoppedAt) → c'.(Container_StoppedAt) = c.(Container_StoppedAt))
  ∧ (is_Some c.(Container_ContainerRuntimeID) → is_Some c'.(Container_ContainerRuntimeID)).
#[export] Instance evolves_preorder : PreOrder evolves.
Proof.
  split; [by intros c; repeat split|].
  intros c1 c2 c3 (I1 & D1 & N1 & H1 & H2 & H3) (I2 & D2 & N2 & H4 & H5 & H6).
  split_and!; [congruence..| | |auto]; intros Hs.
  - rewrite <-H1 by done. apply H4. by rewrite H1.
  - rewrite <-H2 by done. apply H5. by rewrite H2.
Qed.

(** A running container has a start time, a terminal one a stop time. *)
Definition stamped (c : Container) : Prop :=
  match c.(Container_Status) with
  | ContainerStatusPending => True
  | ContainerStatusRunning => is_Some c.(Container_StartedAt)
  | ContainerStatusCrashed | ContainerStatusStopped => is_Some c.(Container_StoppedAt)
  end.

Lemma with_status_evolves st rid now c :
  evolves c (ContainerRepository.with_status st rid now c).
Proof.
  repeat split; simpl; try by (destruct st; intros [? Hs]; rewrite Hs).
  destruct rid; [by eexists|done].
Qed.
Lemma with_status_stamped st rid now c : stamped (ContainerRepository.with_status st rid now c).
Proof. destruct st, c as [? ? ? ? ? ? [?|] [?|]]; simpl; by try eexists. Qed.

(** From one database to a later one: no container disappears or is moved,
    those there evolve, and every one written is stamped. *)
Definition containers_evolve (d d' : DB) : Prop :=
  (∀ id c, d.(containers) !! id = Some c →
     ∃ c', d'.(containers) !! id = Some c' ∧ evolves c c')
  ∧ (map_Forall (λ _, stamped) d.(containers) → map_Forall (λ _, stamped) d'.(containers)).
#[export] Instance containers_evolve_preorder : PreOrder containers_evolve.
Proof.
  split.
  - intros d. split; [|done]. intros id c Hc. by exists c.
  - intros d1 d2 d3 [H12 S12] [H23 S23]. split; [|auto]. intros id c Hc.
    destruct (H12 _ _ Hc) as (c2 & Hc2 & ?). destruct (H23 _ _ Hc2) as (c3 & Hc3 & ?).
    exists c3. split; [done|]. by transitivity c2.
Qed.
Lemma containers_evolve_same d d' :
  d'.(containers) = d.(containers) → containers_evolve d d'.
Proof.
  intros Hc. unfold containers_evolve. rewrite Hc. split; [|done].
  intros id c ?. exists c. by split.
Qed.
Lemma containers_evolve_insert d id c :
  stamped c → (∀ c0, d.(containers) !! id = Some c0 → evolves c0 c) →
  containers_evolve d (set_containers (<[id := c]> d.(containers)) d).
Proof.
  intros Hs He. split; simpl.
  - intros j c0 Hj. destruct (decide (id = j)) as [<-|?].
    + exists c. rewrite lookup_insert_eq. auto.
    + exists c0. by rewrite lookup_insert_ne.
  - intros Hall. by apply map_Forall_insert_2.
Qed.

Section evolution.
Context `{UUIDText} `{TimeText}.
#[local] Abbreviation R := containers_evolve.

Lemma Register_evolve c id h i cpu mem l : moves R (NodeRepository.Register c id h i cpu mem l).
Proof.
  apply moves_wrap, moves_scan, moves_run_stmt; try apply _. intros s d a d' Hst.
  unfold NodeRepository.Register_sql in Hst. stmt_inv Hst. by apply containers_evolve_same.
Qed.
Lemma Heartbeat_evolve c id t : moves R (NodeRepository.Heartbeat c id t).
Proof.
  apply moves_exec_affected, moves_run_stmt; try apply _. intros s d a d' Hst.
  unfold NodeRepository.Heartbeat_sql in Hst. case_match; simplify_eq; by apply containers_evolve_same.
Qed.
Lemma SetStatus_evolve c id t : moves R (NodeRepository.SetStatus c id t).
Proof.
  apply moves_exec_affected, moves_run_stmt; try apply _. intros s d a d' Hst.
  unfold NodeRepository.SetStatus_sql in Hst. case_match; simplify_eq; by apply containers_evolve_same.
Qed.
Lemma Create_evolve c dep n : moves R (ContainerRepository.Create c dep n).
Proof.
  apply moves_wrap, moves_scan, moves_run_stmt; try apply _. intros s d a d' Hst.
  unfold ContainerRepository.Create_sql in Hst. stmt_inv Hst.
  apply containers_evolve_insert; [done|]. intros ? ?. destruct_and?. congruence.
Qed.
Lemma UpdateStatus_evolve c id st rid : moves R (ContainerRepository.UpdateStatus c id st rid).
Proof.
  apply moves_exec_affected, moves_run_stmt; try apply _. intros s d a d' Hst.
  unfold ContainerRepository.UpdateStatus_sql in Hst. case_match; simplify_eq; [|reflexivity].
  apply containers_evolve_insert; [apply with_status_stamped|].
  intros ? ?. simplify_eq. apply with_status_evolves.
Qed.

Lemma handle_evolve cfg i : moves R (handle cfg i).
Proof.
  destruct i; simpl; unfold handleRegister, handleHeartbeat, sweepUnreachable, sweep_one,
    handlePlacement, place, handleStatus.
  all: repeat first [moves_step
    | apply Register_evolve | apply Heartbeat_evolve | apply SetStatus_evolve
    | apply Create_evolve | apply UpdateStatus_evolve
    | eapply observes_moves, List_observes | eapply observes_moves, selectNode_observes
    | eapply observes_moves, checkQuota_observes | apply _ ].
Qed.

(** the life of containers.  Whatever inputs the scheduler handles, in any
    order, with any payloads and failures, no container disappears, moves to
    another node or deployment, forgets its runtime id or the first time it
    started or stopped; and if every running container had a start time and
    every terminal one a stop time, then so it is afterwards. *)
Theorem run_evolves cfg ins w : containers_evolve w.(w_db) (run cfg ins w).2.(w_db).
Proof.
  assert (moves R (run cfg ins)) as Hm by (apply moves_forM; [apply _|]; apply handle_evolve).
  apply Hm.
Qed.
End evolution.

(** ** Status observations *)

Section status.
Context `{UUIDText} `{TimeText}.

(** The observation a payload carries, when it is one the handler accepts. *)
Definition accepted (data : wire) : option (uuid * ContainerStatus * option string) :=
  msg ← Unmarshal data;
  id ← uuid_Parse msg.(statusObservation_AssignmentID);
  st ← of_text msg.(statusObservation_Status);
  Some (id, st, if decide (msg.(statusObservation_ContainerID) = "") then None
                else Some msg.(statusObservation_ContainerID)).

Lemma handleStatus_rejected data w : accepted data = None → keeps w (handleStatus data w).2.
Proof.
  unfold accepted, handleStatus. intros Ha. repeat case_match; simplify_option_eq;
    by apply keeps_logf.
Qed.

(** What an accepted observation does. *)
Lemma status_recorded data id st rid w :
  calm w → accepted data = Some (id, st, rid) →
  let w' := (handleStatus data w).2 in
  messages w' = messages w
  ∧ w'.(w_db) = set_containers
      (alter (ContainerRepository.with_status st rid w.(w_now)) id w.(w_db).(containers))
      w.(w_db).
Proof.
  intros Hc Ha. unfold accepted in Ha. unfold handleStatus.
  destruct (Unmarshal data) as [msg|]; [simpl in Ha|done].
  destruct (uuid_Parse _) as [id'|]; [simpl in Ha|done].
  destruct (of_text _) as [st'|]; [simpl in Ha|done].
  injection Ha as -> -> <-. rewrite bind_try. unfold ContainerRepository.UpdateStatus, exec_affected.
  generalize (if decide (statusObservation_ContainerID msg = "") then None
              else Some (statusObservation_ContainerID msg)) as rid. intros rid.
  unfold wrap, catch, mbind, M_bind. rewrite run_stmt_calm by done.
  unfold execute, ContainerRepository.UpdateStatus_sql. simpl.
  destruct (containers (w_db w) !! id) as [c|] eqn:Hid; simpl; (split; [try done|]).
  - f_equal. apply map_eq. intros j. destruct (decide (j = id)) as [->|?].
    + by rewrite lookup_insert_eq, lookup_alter_eq, Hid.
    + by rewrite lookup_insert_ne, lookup_alter_ne.
  - unfold messages. simpl. by rewrite filter_app, app_nil_r.
  - destruct w as [d ? ? ? ? ?]; simpl in *. rewrite alter_id; [by destruct d|]. congruence.
Qed.
(** a status observation it accepts, when no call fails, rewrites exactly
    the container it names, if there is one: the status, the runtime id when
    one is given, and the first start or stop time; and sends nothing; one it
    does not accept changes nothing, whatever fails. *)
Theorem handleStatus_exact data w :
  let w' := (handleStatus data w).2 in
  match accepted data with
  | None => keeps w w'
  | Some (id, st, rid) =>
      calm w →
      messages w' = messages w
      ∧ w'.(w_db) = set_containers
          (alter (ContainerRepository.with_status st rid w.(w_now)) id w.(w_db).(containers))
          w.(w_db)
  end.
Proof.
  intros w'. destruct (accepted data) as [[[id st] rid]|] eqn:Ha; [|by apply handleStatus_rejected].
  intros Hc. by apply status_recorded.
Qed.
End status.

(** ** Heartbeats *)

(** a heartbeat never adds a node: a node whose registration was lost stays
    unknown however often it is heard of. *)
Theorem heartbeat_never_registers `{UUIDText} `{TimeText} data w id :
  w.(w_db).(nodes) !! id = None → (handleHeartbeat data w).2.(w_db).(nodes) !! id = None.
Proof.
  assert (moves (keeping (λ d, d.(nodes) !! id = None)) (handleHeartbeat data)) as Hm;
    [|apply Hm].
  unfold handleHeartbeat. repeat first [moves_step | apply _].
  all: apply moves_exec_affected, moves_run_stmt; try apply _.
  all: intros s d a d' Hst Hid; unfold NodeRepository.Heartbeat_sql in Hst.
  all: destruct (nodes d !! _) as [nd|] eqn:Hnd; simplify_eq/=; [|done].
  all: rewrite lookup_insert_ne; congruence.
Qed.

(** ** The ceiling *)

Lemma active_containers_insert d id c o :
  d.(containers) !! id = None → active c →
  active_containers (set_containers (<[id := c]> d.(containers)) d) o
  = active_containers d o + (if decide (container_org d c = Some o) then 1 else 0).
Proof.
  intros Hid Ha. unfold active_containers. simpl. rewrite count_insert_fresh by done. f_equal.
  by destruct (decide (container_org d c = Some o)); [rewrite decide_True|rewrite decide_False by naive_solver].
Qed.

(** C4: whatever the payload, and whichever outgoing call fails, a placement
    request either changes nothing (database and messages) or writes exactly one
    pending container, on the least loaded eligible node, for a deployment whose
    organization stays within its container ceiling, and sends nothing but the
    assignment of that container to that node;
    so no organization is taken above its quota of active containers, or further
    above it. *)
Theorem handlePlacement_correct `{UUIDText} `{TimeText} data w :
  let w' := (handlePlacement data w).2 in
  (keeps w w'
   ∨ ∃ msg dep, Unmarshal data = Some msg
                ∧ uuid_Parse msg.(placementRequestedMessage_DeploymentID) = Some dep
                ∧ placed msg dep w w')
  ∧ ∀ o q, w.(w_db).(resource_quotas) !! o = Some q →
      active_containers w'.(w_db) o
      ≤ Z.max (active_containers w.(w_db) o) q.(ResourceQuota_MaxContainers).
Proof.
  intros w'. pose proof (handlePlacement_cases data w) as Hcases. fold w' in Hcases. clearbody w'.
  split; [done|]. intros o q Hq.
  destruct Hcases as [[-> _]|(msg & dep & _ & _ & n & x & q' & id & _ & Hx & Hq' & Hle & Hid & -> & _)];
    [lia|].
  rewrite active_containers_insert by (by try left).
  unfold container_org. simpl. rewrite Hx. simpl. case_decide; simplify_eq; lia.
Qed.

(** ** On the sample *)

#[local] Existing Instances hexUUID hexTime.
Definition shop_request : placementRequestedMessage :=
  {| placementRequestedMessage_DeploymentID := canonical_String 30;
     placementRequestedMessage_ApplicationID := canonical_String 20;
     placementRequestedMessage_Image := "nginx:1"; placementRequestedMessage_Env := ∅;
     placementRequestedMessage_Ports := [Build_PortSpec 80 0 "tcp"];
     placementRequestedMessage_Command := [] |}.
Lemma shop_request_read : Unmarshal (Some (to_json shop_request)) = Some shop_request.
Proof. apply wire_roundtrip. by repeat constructor. Qed.
Lemma sample_keyed : nodes_keyed sampleDB.
Proof.
  intros i n. simpl. intros [[<- <-]|[_ [<- <-]%lookup_singleton_Some]]%lookup_insert_Some; done.
Qed.
Lemma sample_room : has_room sampleWorld 30.
Proof.
  eexists shop_v1, acme_quota, _.
  do 2 (split; [reflexivity|]). split; [vm_compute; reflexivity|]. split_and!; vm_compute; congruence.
Qed.
Lemma sample_fresh g : (sampleWorld.(w_gen) ≤ g)%N → sampleDB.(containers) !! g = None.
Proof. intros Hg. simpl in *. apply lookup_singleton_ne. lia. Qed.

(** With one container the ceiling of twenty is far. *)
Lemma handlePlacement_correct_witness :
  active_containers (handlePlacement (Some (to_json shop_request)) sampleWorld).2.(w_db) 1 ≤ 20.
Proof.
  exact (proj2 (handlePlacement_correct (Some (to_json shop_request)) sampleWorld) 1%N acme_quota eq_refl).
Defined.
(** The running container is reported crashed. *)
Definition shop_crashed : wire :=
  Some (JObject [("assignment_id", JString (canonical_String 50)); ("status", JString "crashed")]).
Lemma handleStatus_exact_witness :
  Container_Status <$> ((handleStatus shop_crashed sampleWorld).2.(w_db).(containers) !! 50%N)
  = Some ContainerStatusCrashed.
Proof.
  assert (accepted shop_crashed = Some (50%N, ContainerStatusCrashed, None)) as Ha by (vm_compute; reflexivity).
  pose proof (handleStatus_exact shop_crashed sampleWorld) as Hs. cbv zeta in Hs. rewrite Ha in Hs.
  destruct (Hs eq_refl) as [_ ->]. vm_compute. reflexivity.
Defined.
Lemma heartbeat_never_registers_witness :
  (handleHeartbeat (Some (to_json
     {| heartbeatMessage_NodeID := canonical_String 42; heartbeatMessage_Timestamp := 0 |}))
     sampleWorld).2.(w_db).(nodes) !! 42%N = None.
Proof. apply heartbeat_never_registers. reflexivity. Defined.
