(* ===== verification/DeployController.v ===== *)
(** * DeployController: desired against actual replicas

    services/controller-manager/internal/controller/controller.go: one tick
    lists the live applications, counts each one's active containers and
    publishes what is missing (placement requests) or too many (unassigns).
    Targets are read over the superuser connection, containers over the same
    process's connection; [containers] carries no policy, so which one is
    immaterial. *)
From S2P Require Import Prelude Json Schema Effects Rls DbWorkload Wire Sample.
From stdpp Require Import base gmap strings list sorting.
From Stdlib Require Import ZArith Lia.
Open Scope Z_scope.

Section controller.
Context `{UUIDText}.

Definition placement_request (t : ReconcileTarget) : placementRequest :=
  {| placementRequest_DeploymentID := uuid_String t.(ReconcileTarget_DeploymentID);
     placementRequest_ApplicationID := uuid_String t.(ReconcileTarget_ApplicationID);
     placementRequest_Image := t.(ReconcileTarget_Image);
     placementRequest_Ports := t.(ReconcileTarget_Ports) |}.

(** The publishing loop: the first failure ends it; [true] when it did not
    fail. *)
Fixpoint request_loop (data : json) (n : nat) : M bool :=
  match n with
  | O => mret true
  | S n => r ← try (PublishDurable PlacementRequestedSubject data);
           match r with
           | Err _ => logf "publishing placement.requested" ;; mret false
           | Ok _ => request_loop data n
           end
  end.
Definition scaleUp (t : ReconcileTarget) (shortfall : Z) : M unit :=
  ok ← request_loop (to_json (placement_request t)) (Z.to_nat shortfall);
  if (ok : bool) then logf "requested placement for shortfall" else mret tt.

(** The order of [sort.Slice]'s comparator, not strict: [le x y] unless [y] is
    before [x]. *)
Definition started_less (x y : Container) : bool :=
  match x.(Container_StartedAt), y.(Container_StartedAt) with
  | None, _ => false
  | Some _, None => true
  | Some t, Some u => bool_decide (t < u)
  end.
Definition oldest_first (x y : Container) : Prop := started_less y x = false.
#[export] Instance oldest_first_dec : RelDecision oldest_first.
Proof. intros x y. unfold oldest_first. apply _. Defined.

Definition unassign_message (c : Container) : unassignMessage :=
  {| unassignMessage_AssignmentID := uuid_String c.(Container_ID);
     unassignMessage_ContainerID := default "" c.(Container_ContainerRuntimeID) |}.
Definition unassign_one (c : Container) : M unit :=
  r ← try (PublishDurable (NodeUnassignSubject (uuid_String c.(Container_NodeID)))
                          (to_json (unassign_message c)));
  match r with
  | Err _ => logf "publishing unassign"
  | Ok _ => logf "requested unassign for excess replica"
  end.
Definition scaleDown (c : Conn) (t : ReconcileTarget) (excess : Z) : M unit :=
  r ← try (ContainerRepository.ListByDeployment c t.(ReconcileTarget_DeploymentID));
  match r with
  | Err _ => logf "listing containers for scale-down"
  | Ok all =>
      let act := merge_sort oldest_first (filter active all) in
      let excess := if decide (Z.of_nat (length act) < excess) then Z.of_nat (length act)
                    else excess in
      forM unassign_one (take (Z.to_nat excess) act)
  end.

Definition reconcileOne (c : Conn) (t : ReconcileTarget) : M unit :=
  r ← try (ContainerRepository.CountActiveByDeployment c t.(ReconcileTarget_DeploymentID));
  match r with
  | Err _ => logf "counting active containers"
  | Ok act =>
      if decide (act < t.(ReconcileTarget_ReplicasDesired))
      then scaleUp t (t.(ReconcileTarget_ReplicasDesired) - act)
      else if decide (t.(ReconcileTarget_ReplicasDesired) < act)
      then scaleDown c t (act - t.(ReconcileTarget_ReplicasDesired))
      else mret tt
  end.

Definition tick (c : Conn) : M unit :=
  r ← try (ReconcileRepository.ListActive AdminConn);
  match r with
  | Err _ => logf "listing reconcile targets"
  | Ok targets => forM (reconcileOne c) targets
  end.
End controller.

(** ** The order *)

#[export] Instance oldest_first_total : Total oldest_first.
Proof.
  intros [? ? ? ? ? ? [t|] ?] [? ? ? ? ? ? [u|] ?]; unfold oldest_first, started_less; simpl;
    rewrite ?bool_decide_eq_false; try lia; auto.
Qed.
#[export] Instance oldest_first_trans : Transitive oldest_first.
Proof.
  intros [? ? ? ? ? ? [t|] ?] [? ? ? ? ? ? [u|] ?] [? ? ? ? ? ? [v|] ?];
    unfold oldest_first, started_less; simpl; rewrite ?bool_decide_eq_false; try lia; auto; done.
Qed.

(** The active containers of a deployment. *)
Definition active_of (d : DB) (dep : uuid) : list Container :=
  select (λ x, x.(Container_DeploymentID) = dep ∧ active x) d.(containers).

Lemma count_active d dep :
  count (λ x, x.(Container_DeploymentID) = dep ∧ active x) d.(containers)
  = Z.of_nat (length (active_of d dep)).
Proof. done. Qed.

Lemma CountActive_observes c dep :
  observes (ContainerRepository.CountActiveByDeployment c dep)
    (λ e n, n = Z.of_nat (length (active_of e.(e_db) dep))).
Proof.
  apply observes_wrap. eapply observes_mono; [apply observes_query|]. by intros e a [g ->].
Qed.
Lemma ListByDeployment_observes c dep :
  observes (ContainerRepository.ListByDeployment c dep)
    (λ e l, l ≡ₚ select (λ x, x.(Container_DeploymentID) = dep) e.(e_db).(containers)).
Proof.
  apply observes_wrap. eapply observes_mono; [apply observes_query|]. intros e a [g ->].
  apply merge_sort_Permutation.
Qed.

Section plan.
Context `{UUIDText}.

(** The messages reconciling [t] sends when no call fails, as a function of
    database [d], for the proofs to follow; [corrects] below says what they are. *)
Definition plan (d : DB) (t : ReconcileTarget) : list Event :=
  let act := filter active (merge_sort ContainerRepository.started_before
    (select (λ x, x.(Container_DeploymentID) = t.(ReconcileTarget_DeploymentID)) d.(containers))) in
  let n := Z.of_nat (length act) in
  if decide (n < t.(ReconcileTarget_ReplicasDesired)) then
    replicate (Z.to_nat (t.(ReconcileTarget_ReplicasDesired) - n))
      (EvPublishDurable PlacementRequestedSubject (to_json (placement_request t)))
  else
    (λ c, EvPublishDurable (NodeUnassignSubject (uuid_String c.(Container_NodeID)))
                           (to_json (unassign_message c)))
    <$> take (Z.to_nat (n - t.(ReconcileTarget_ReplicasDesired))) (merge_sort oldest_first act).

Lemma request_loop_reports data n k :
  (∀ b, reports (k b) (λ _, [])) →
  reports (request_loop data n ≫= k)
    (λ _, replicate n (EvPublishDurable PlacementRequestedSubject data)).
Proof.
  intros Hk. induction n as [|n IH]; simpl; [apply (Hk true)|].
  eapply reports_ext; [intros; apply bind_assoc|].
  apply (reports_publish _ _ _ (λ _, replicate n _)); [apply PublishDurable_publishes| |exact IH].
  intros e. eapply reports_ext; [intros; apply bind_assoc|].
  apply (reports_seq _ _ (λ _, []) (λ _, [])); [apply reports_logf|apply (Hk false)].
Qed.

Lemma scaleUp_reports t n :
  reports (scaleUp t n)
    (λ _, replicate (Z.to_nat n)
            (EvPublishDurable PlacementRequestedSubject (to_json (placement_request t)))).
Proof.
  apply request_loop_reports. intros []; [apply reports_logf|by apply reports_ret].
Qed.

Lemma unassign_one_reports c :
  reports (unassign_one c)
    (λ _, [EvPublishDurable (NodeUnassignSubject (uuid_String c.(Container_NodeID)))
                            (to_json (unassign_message c))]).
Proof.
  apply reports_publish_last; [apply PublishDurable_publishes|]. intros []; apply reports_logf.
Qed.

Lemma reports_at m f w : reports m f → ∃ w', m w = (Ok tt, w') ∧ sends w (f (env_of w)) w'.
Proof. intros Hm. apply Hm. Qed.

Lemma list_bind_single {A B} (f : A → B) l : (l ≫= λ x, [f x]) = f <$> l.
Proof. induction l as [|x l IH]; [done|]. csimpl. by rewrite <-IH. Qed.
Lemma take_clip {A} (l : list A) (n : Z) :
  take (Z.to_nat (if decide (Z.of_nat (length l) < n) then Z.of_nat (length l) else n)) l
  = take (Z.to_nat n) l.
Proof. case_decide; [|done]. by rewrite !take_ge by lia. Qed.

Lemma ListByDeployment_reads c dep :
  reads (ContainerRepository.ListByDeployment c dep)
    (λ e l, l = merge_sort ContainerRepository.started_before
       (select (λ x, x.(Container_DeploymentID) = dep) e.(e_db).(containers))).
Proof. apply reads_wrap. eapply reads_mono; [apply reads_query|]. by intros e a [g ->]. Qed.
Lemma CountActive_reads c dep :
  reads (ContainerRepository.CountActiveByDeployment c dep)
    (λ e n, n = Z.of_nat (length (active_of e.(e_db) dep))).
Proof. apply reads_wrap. eapply reads_mono; [apply reads_query|]. by intros e a [g ->]. Qed.

Lemma active_fetched d dep :
  filter active (merge_sort ContainerRepository.started_before
    (select (λ x, x.(Container_DeploymentID) = dep) d.(containers))) ≡ₚ active_of d dep.
Proof.
  rewrite merge_sort_Permutation. unfold active_of, select. rewrite list_filter_filter.
  erewrite list_filter_iff; [reflexivity|]. intros x. simpl. naive_solver.
Qed.

Lemma scaleDown_reports c t n w :
  0 ≤ n →
  ∃ w', scaleDown c t n w = (Ok tt, w') ∧
    sends w ((λ x, EvPublishDurable (NodeUnassignSubject (uuid_String x.(Container_NodeID)))
                                    (to_json (unassign_message x)))
             <$> take (Z.to_nat n) (merge_sort oldest_first
               (filter active (merge_sort ContainerRepository.started_before
                 (select (λ x, x.(Container_DeploymentID) = t.(ReconcileTarget_DeploymentID))
                    w.(w_db).(containers)))))) w'.
Proof.
  intros Hn. unfold scaleDown.
  eapply (reports_at _ (λ e, _ <$> take _ (merge_sort _ (filter _ (merge_sort _ (select _ e.(e_db).(containers))))))).
  eapply reports_read; [apply ListByDeployment_reads|intros; apply reports_logf|].
  intros all w1 ->. apply (reports_at _ (λ _, _)).
  eapply reports_mono; [|apply reports_forM, unassign_one_reports].
  intros e. simpl. rewrite list_bind_single. f_equal. apply take_clip.
Qed.
End plan.

Section reconciliation.
Context `{UUIDText}.

(** Reconciling one application touches no table; it sends, in order, some
    of the messages of its plan, and all of them when no call fails. *)
Lemma reconcileOne_plan c t : reports (reconcileOne c t) (λ e, plan e.(e_db) t).
Proof.
  unfold reconcileOne. eapply reports_read; [apply CountActive_reads|intros; apply reports_logf|].
  intros n w ->. simpl. pose proof (active_fetched w.(w_db) t.(ReconcileTarget_DeploymentID)) as Hp.
  unfold plan. rewrite (Permutation_length Hp). case_decide; [apply scaleUp_reports|].
  case_decide; [apply scaleDown_reports; lia|].
  replace (Z.to_nat _) with 0%nat by lia. rewrite take_0. simpl.
  by apply (reports_ret (λ _, [])).
Qed.

Lemma tick_plan c :
  reports (tick c) (λ e, t ← reconcile_targets e.(e_db); plan e.(e_db) t).
Proof.
  unfold tick. eapply reports_read; [apply ListActive_reads|intros; apply reports_logf|].
  intros l w ->. apply (reports_forM (reconcileOne c) (λ t e, plan e.(e_db) t)).
  intros t. apply reconcileOne_plan.
Qed.

(** *** What a tick is for *)

(** [x] is a deployment of application [a], of its highest revision. *)
Definition latest (d : DB) (a : Application) (x : Deployment) : Prop :=
  (∃ j, d.(deployments) !! j = Some x) ∧ x.(Deployment_ApplicationID) = a.(Application_ID)
  ∧ ∀ j y, d.(deployments) !! j = Some y → y.(Deployment_ApplicationID) = a.(Application_ID) →
      y.(Deployment_Revision) ≤ x.(Deployment_Revision).
Definition ended (x : Deployment) : Prop :=
  x.(Deployment_Status) = DeploymentStatusFailed ∨ x.(Deployment_Status) = DeploymentStatusRolledBack.
(** What is to run for an application whose latest deployment is [x]. *)
Definition wanted (a : Application) (x : Deployment) : ReconcileTarget :=
  Build_ReconcileTarget a.(Application_ID) x.(Deployment_ID) x.(Deployment_Image)
    a.(Application_Ports) a.(Application_ReplicasDesired).
(** The applications that run: one target for each whose latest deployment has
    not ended, and no other. *)
Definition worklist (d : DB) (ts : list ReconcileTarget) : Prop :=
  (∀ t, t ∈ ts → ∃ i a x, d.(applications) !! i = Some a ∧ latest d a x ∧ ¬ ended x ∧ t = wanted a x)
  ∧ (∀ i a, d.(applications) !! i = Some a → (∃ x, latest d a x) →
       ∃ x, latest d a x ∧ (ended x ∨ wanted a x ∈ ts))
  ∧ ((∀ i a, d.(applications) !! i = Some a → a.(Application_ID) = i) →
       NoDup (ReconcileTarget_ApplicationID <$> ts)).

(** [x] has been running at least as long as [y]; what has not started comes
    last. *)
Definition started_no_later (x y : Container) : Prop :=
  match y.(Container_StartedAt) with
  | None => True
  | Some u => ∃ t, x.(Container_StartedAt) = Some t ∧ t ≤ u
  end.
Definition request_for (t : ReconcileTarget) : Event :=
  EvPublishDurable "placement.requested" (to_json (Build_placementRequest
    (uuid_String t.(ReconcileTarget_DeploymentID)) (uuid_String t.(ReconcileTarget_ApplicationID))
    t.(ReconcileTarget_Image) t.(ReconcileTarget_Ports))).
Definition release_of (x : Container) : Event :=
  EvPublishDurable ("node." +:+ uuid_String x.(Container_NodeID) +:+ ".unassign")
    (to_json (Build_unassignMessage (uuid_String x.(Container_ID))
       (default "" x.(Container_ContainerRuntimeID)))).
(** [ms] corrects what runs for [t]: with [act] the active containers of its
    deployment, one placement request per missing replica, or a release for
    exactly as many containers as there are too many, each running at least as
    long as every container that is kept. *)
Definition corrects (d : DB) (t : ReconcileTarget) (ms : list Event) : Prop :=
  let act := active_of d t.(ReconcileTarget_DeploymentID) in
  let n := Z.of_nat (length act) in
  (n ≤ t.(ReconcileTarget_ReplicasDesired) ∧
     ms = replicate (Z.to_nat (t.(ReconcileTarget_ReplicasDesired) - n)) (request_for t))
  ∨ (t.(ReconcileTarget_ReplicasDesired) < n ∧
     ∃ victims kept, ms = release_of <$> victims ∧ victims ++ kept ≡ₚ act
       ∧ Z.of_nat (length kept) = Z.max 0 t.(ReconcileTarget_ReplicasDesired)
       ∧ ∀ x y, x ∈ victims → y ∈ kept → started_no_later x y).

Lemma oldest_first_spec x y : oldest_first x y ↔ started_no_later x y.
Proof.
  unfold oldest_first, started_less, started_no_later.
  destruct (Container_StartedAt x) as [t|], (Container_StartedAt y) as [u|];
    rewrite ?bool_decide_eq_false; naive_solver lia.
Qed.
Lemma plan_corrects d t : corrects d t (plan d t).
Proof.
  unfold corrects, plan. pose proof (active_fetched d t.(ReconcileTarget_DeploymentID)) as Hp.
  rewrite (Permutation_length Hp). set (n := Z.of_nat _).
  case_decide as Hn; [left; split; [lia|done]|].
  destruct (decide (n = t.(ReconcileTarget_ReplicasDesired))) as [->|Hne].
  { left. split; [lia|]. by rewrite Z.sub_diag, take_0. }
  right. split; [lia|]. set (k := Z.to_nat _). set (l := merge_sort oldest_first _).
  assert (l ≡ₚ active_of d (ReconcileTarget_DeploymentID t)) as Hl
    by (unfold l; by rewrite merge_sort_Permutation).
  exists (take k l), (drop k l). rewrite take_drop. split; [done|]. split; [done|]. split.
  - rewrite length_drop, (Permutation_length Hl). lia.
  - assert (StronglySorted oldest_first l) as Hs by (apply StronglySorted_merge_sort; apply _).
    rewrite <-(take_drop k l) in Hs. intros x y Hx Hy. apply oldest_first_spec.
    by eapply StronglySorted_app_1_elem_of.
Qed.
Lemma latest_of_latest d a :
  match latest_of (revisions d a.(Application_ID)) with
  | Some x => latest d a x
  | None => ∀ x, ¬ latest d a x
  end.
Proof.
  unfold latest_of. pose proof (order_by_desc_perm Deployment_Revision (revisions d a.(Application_ID))) as Hp.
  pose proof (order_by_desc_sorted Deployment_Revision (revisions d a.(Application_ID))) as Hs.
  assert (∀ j y, d.(deployments) !! j = Some y → y.(Deployment_ApplicationID) = a.(Application_ID) →
    y ∈ order_by_desc Deployment_Revision (revisions d a.(Application_ID))) as Hin.
  { intros j y Hj Hy. rewrite Hp. apply elem_of_select. eauto. }
  destruct (order_by_desc _ _) as [|x l] eqn:E; simpl.
  - intros x ([j Hj] & Hx & _). by apply Hin in Hj as ?%not_elem_of_nil.
  - assert (x ∈ revisions d a.(Application_ID)) as [Hx Hj]%elem_of_select by (rewrite <-Hp; left).
    split; [done|]. split; [done|]. intros j y Hy Ha.
    specialize (Hin j y Hy Ha). apply elem_of_cons in Hin as [->|Hin]; [lia|].
    apply StronglySorted_cons in Hs as [Hs _]. rewrite Forall_forall in Hs. by apply Hs.
Qed.
Lemma worklist_targets d : worklist d (reconcile_targets d).
Proof.
  assert (∀ a, running_deployment d a = None ∧ (∀ x, latest d a x → ∃ y, latest d a y ∧ ended y)
    ∨ ∃ x, running_deployment d a = Some x ∧ latest d a x ∧ ¬ ended x) as Hrun.
  { intros a. unfold running_deployment. pose proof (latest_of_latest d a) as Hl.
    destruct (latest_of _) as [x|]; simpl; [|left; split; [done|]; intros x Hx; by apply Hl in Hx].
    case_decide as Hd; [left|right]; [|by exists x]. split; [done|]. intros _ _. by exists x. }
  split; [|split].
  - intros t [a [[i Ha]%elem_of_rows Ht]]%list_elem_of_omap.
    destruct (Hrun a) as [[E _]|(x & E & Hx & Hd)]; rewrite E in Ht; [done|]. injection Ht as <-.
    by exists i, a, x.
  - intros i a Ha [x Hx]. destruct (Hrun a) as [[_ Hend]|(y & E & Hy & Hd)].
    { destruct (Hend x Hx) as (y & ? & ?). exists y. auto. }
    exists y. split; [done|]. right. apply list_elem_of_omap. exists a. split; [apply elem_of_rows; eauto|].
    by rewrite E.
  - intros Hkey. unfold reconcile_targets, rows.
    pose proof (NoDup_fst_map_to_list d.(applications)) as Hnd.
    assert (∀ p, p ∈ map_to_list d.(applications) → p.2.(Application_ID) = p.1) as Hid.
    { intros [i a] Ha%elem_of_map_to_list. by apply Hkey. }
    revert Hnd Hid. generalize (map_to_list d.(applications)) as l.
    induction l as [|[i a] l IH]; [constructor|]. intros [Hi Hl]%NoDup_cons Hid. simpl.
    assert (∀ p, p ∈ l → p.2.(Application_ID) = p.1) as Hid' by (intros; apply Hid; by right).
    specialize (IH Hl Hid'). destruct (running_deployment d a) as [x|]; simpl; [|done].
    constructor; [|done]. intros (t & E & (b & Hb & Ht)%list_elem_of_omap)%list_elem_of_fmap.
    destruct (running_deployment d b) as [y|]; [|done]. injection Ht as <-. simpl in E.
    apply list_elem_of_fmap in Hb as ([k b'] & -> & Hb). apply Hi, list_elem_of_fmap. exists (k, b').
    split; [|done]. rewrite <-(Hid' _ Hb). simpl in *. rewrite <-E. symmetry. exact (Hid (i, a) (list_elem_of_here _ _)).
Qed.

Lemma bind_concat {A B} (f : A → list B) l : (x ← l; f x) = concat (f <$> l).
Proof. induction l as [|x l IH]; [done|]. csimpl. by rewrite IH. Qed.
(** C30: a tick of the deployment controller.  It always ends, changes no table,
    and sends, when no call fails, exactly what corrects each running
    application, one after the other: for each application whose latest
    deployment has not failed or been rolled back, one identical placement
    request per missing replica, or, addressed to the node it runs on, a
    release for each container there is too many, taken from those that have
    been running longest.  When calls fail it sends some of these messages, in
    that order, and no others. *)
Theorem tick_correct c w :
  ∃ w' ts mss, tick c w = (Ok tt, w')
    ∧ worklist w.(w_db) ts ∧ Forall2 (corrects w.(w_db)) ts mss
    ∧ sends w (concat mss) w'.
Proof.
  destruct (tick_plan c w) as (w' & E & Hs).
  exists w', (reconcile_targets w.(w_db)), (plan w.(w_db) <$> reconcile_targets w.(w_db)).
  split; [done|]. split; [apply worklist_targets|]. split.
  - apply Forall2_fmap_r, Forall_Forall2_diag, Forall_forall. intros t _. apply plan_corrects.
  - by rewrite <-bind_concat.
Qed.
End reconciliation.

(** ** On the sample *)

(** Two ticks before the scheduler has placed anything both ask for the one
    missing replica. *)
Lemma ticks_ask_again `{UUIDText} :
  let w1 := (tick AdminConn sampleWorld).2 in
  let w2 := (tick AdminConn w1).2 in
  messages w1 = messages sampleWorld ++ [EvPublishDurable PlacementRequestedSubject
    (to_json (placement_request (Build_ReconcileTarget 20 30 "nginx:1" [Build_PortSpec 80 0 "tcp"] 2)))]
  ∧ length (messages w2) = 2%nat.
Proof. vm_compute. done. Qed.
