(* ===== verification/ServiceController.v ===== *)
(** * ServiceController: running containers to service instances

    services/controller-manager/internal/controller/serviceinstance.go.  The
    controller's own state is the cache of the host port last reported for a
    container ([portsByContainer]), passed explicitly. *)
From S2P Require Import Prelude Json Schema Effects Rls DbWorkload DbCluster Wire Slug Sample.
From stdpp Require Import base gmap strings list sorting.
From Stdlib Require Import ZArith Lia.
Open Scope Z_scope.

Abbreviation ports := (gmap string Z) (only parsing).

Section service_controller.
Context `{UUIDText}.


(** [handleStatus]: only a running container's first port is remembered. *)
Definition cache_status (data : wire) (cache : ports) : ports :=
  match Unmarshal data with
  | None => cache
  | Some msg =>
      if decide (msg.(statusPorts_AssignmentID) = "" ∨ msg.(statusPorts_Status) ≠ "running")
      then cache
      else match msg.(statusPorts_Ports) with
           | [] => cache
           | p :: _ => <[msg.(statusPorts_AssignmentID) := p.(PortSpec_HostPort)]> cache
           end
  end.

Definition portFor (containerID : uuid) (cache : ports) : option Z :=
  cache !! uuid_String containerID.

Definition publishUpdated (containerID : uuid) : M unit :=
  r ← try (Publish ServiceUpdatedSubject
             (to_json {| updatedMessage_ContainerID := uuid_String containerID |}));
  match r with
  | Err _ => logf "publishing service.updated"
  | Ok _ => mret tt
  end.

Definition reconcileCandidate (cache : ports) (c : ServiceInstanceCandidate) : M unit :=
  match portFor c.(ServiceInstanceCandidate_ContainerID) cache with
  | None => mret tt
  | Some port =>
      rs ← try (ServiceRepository.GetOrCreate AdminConn
             c.(ServiceInstanceCandidate_ApplicationID)
             (dnsName c.(ServiceInstanceCandidate_ProjectSlug)
                      c.(ServiceInstanceCandidate_ApplicationName)
                      c.(ServiceInstanceCandidate_ApplicationID)));
      match rs with
      | Err _ => logf "getting or creating service"
      | Ok svc =>
          ri ← try (ServiceInstanceRepository.Upsert AdminConn svc.(Service_ID)
                 c.(ServiceInstanceCandidate_ContainerID) c.(ServiceInstanceCandidate_NodeIP)
                 port);
          match ri with
          | Err _ => logf "upserting service instance"
          | Ok _ => publishUpdated c.(ServiceInstanceCandidate_ContainerID)
          end
      end
  end.

(** One orphan: removed, announced and forgotten; kept in the cache when the
    delete failed. *)
Definition remove_orphan (cache : ports) (containerID : uuid) : M ports :=
  r ← try (ServiceInstanceRepository.DeleteByContainer AdminConn containerID);
  match r with
  | Err e => (if errors_Is e ErrNotFound then mret tt
              else logf "deleting orphaned service instance") ;; mret cache
  | Ok _ =>
      logf "removed service instance for no-longer-running container" ;;
      publishUpdated containerID ;;
      mret (delete (uuid_String containerID) cache)
  end.
Fixpoint remove_orphans (cache : ports) (ids : list uuid) : M ports :=
  match ids with
  | [] => mret cache
  | id :: ids => cache ← remove_orphan cache id; remove_orphans cache ids
  end.

Definition upsert_candidates (cache : ports) : M unit :=
  rc ← try (ServiceReconcileRepository.ListRunningCandidates AdminConn);
  match rc with
  | Err _ => logf "listing service instance candidates"
  | Ok candidates => forM (reconcileCandidate cache) candidates
  end.
Definition remove_stale (cache : ports) : M ports :=
  ro ← try (ServiceReconcileRepository.ListOrphanedInstances AdminConn);
  match ro with
  | Err _ => logf "listing orphaned service instances" ;; mret cache
  | Ok orphaned => remove_orphans cache orphaned
  end.
Definition service_tick (cache : ports) : M ports :=
  upsert_candidates cache ;; remove_stale cache.
End service_controller.

(** ** What a tick never does *)

Definition running_in (t : table Container) (cid : uuid) : Prop :=
  ∃ c, t !! cid = Some c ∧ c.(Container_Status) = ContainerStatusRunning.
Definition has_instance (d : DB) (cid : uuid) : Prop :=
  ∃ i si, d.(service_instances) !! i = Some si ∧ si.(ServiceInstance_ContainerID) = cid.

(** Against a fixed containers table: that table stays, and so do the
    instances of running containers. *)
Definition safe_move (t : table Container) (d d' : DB) : Prop :=
  d.(containers) = t →
  d'.(containers) = t
  ∧ ∀ cid, running_in t cid → has_instance d cid → has_instance d' cid.
#[export] Instance safe_move_preorder t : PreOrder (safe_move t).
Proof.
  split; [by intros d|]. intros d1 d2 d3 H12 H23 Ht. destruct (H12 Ht) as [H2 H12'].
  destruct (H23 H2) as [H3 H23']. auto.
Qed.

Section safety.
Context `{UUIDText} (t : table Container).

Lemma GetOrCreate_safe c a dns : moves (safe_move t) (ServiceRepository.GetOrCreate c a dns).
Proof.
  apply moves_wrap, moves_scan, moves_run_stmt; try apply _. intros s d x d' Hst.
  unfold ServiceRepository.GetOrCreate_sql in Hst. destruct (select _ _).
  - stmt_inv Hst. done.
  - by simplify_eq.
Qed.

Lemma Upsert_safe c sv cid ip port :
  moves (safe_move t) (ServiceInstanceRepository.Upsert c sv cid ip port).
Proof.
  apply moves_wrap, moves_scan, moves_run_stmt; try apply _. intros s d x d' Hst Ht.
  unfold ServiceInstanceRepository.Upsert_sql in Hst. stmt_inv Hst.
  destruct (ServiceInstanceRepository.of_container cid d); stmt_inv Hst; (split; [done|]);
    intros cid' _ (i & si & Hi & <-).
  - exists i, si. split; [|done]. simpl. rewrite lookup_insert_ne; [done|]. intros Hg.
    destruct_and?. congruence.
  - eexists i, _. simpl. rewrite lookup_update_where, Hi. split; [done|]. by case_decide.
Qed.

Lemma DeleteByContainer_safe c cid :
  ¬ running_in t cid → moves (safe_move t) (ServiceInstanceRepository.DeleteByContainer c cid).
Proof.
  intros Hn. apply moves_exec_affected, moves_run_stmt; try apply _. intros s d x d' Hst Ht.
  unfold ServiceInstanceRepository.DeleteByContainer_sql in Hst. stmt_inv Hst.
  split; [done|]. intros cid' Hr (i & si & Hi & <-). exists i, si. split; [|done]. simpl.
  apply lookup_delete_where. split; [done|]. intros <-. done.
Qed.

Lemma publishUpdated_moves R `{!PreOrder R} cid : moves R (publishUpdated cid).
Proof. unfold publishUpdated. moves_auto. Qed.

Lemma reconcileCandidate_safe cache c : moves (safe_move t) (reconcileCandidate cache c).
Proof.
  unfold reconcileCandidate.
  repeat first [moves_step | apply GetOrCreate_safe | apply Upsert_safe
               | apply publishUpdated_moves; apply _ | apply _].
Qed.

Lemma remove_orphans_safe ids cache :
  Forall (λ cid, ¬ running_in t cid) ids → moves (safe_move t) (remove_orphans cache ids).
Proof.
  intros Hids. revert cache. induction Hids as [|cid ids Hcid _ IH]; intros cache; simpl.
  - apply moves_ret, _.
  - apply moves_bind; [apply _| |intros; apply IH]. unfold remove_orphan.
    repeat first [moves_step | by apply DeleteByContainer_safe
                 | apply publishUpdated_moves; apply _ | apply _].
Qed.
End safety.

Lemma ListRunningCandidates_observes c :
  observes (ServiceReconcileRepository.ListRunningCandidates c) (λ _ _, True).
Proof. apply observes_wrap. eapply observes_mono; [apply observes_query|]. done. Qed.

Lemma ListOrphaned_observes c :
  observes (ServiceReconcileRepository.ListOrphanedInstances c)
    (λ e l, l = omap (ServiceReconcileRepository.orphaned e.(e_db))
                     (rows e.(e_db).(service_instances))).
Proof. apply observes_wrap. eapply observes_mono; [apply observes_query|]. by intros e a [g ->]. Qed.

Lemma orphaned_not_running d si cid :
  ServiceReconcileRepository.orphaned d si = Some cid →
  si.(ServiceInstance_ContainerID) = cid ∧ ¬ running_in d.(containers) cid.
Proof.
  unfold ServiceReconcileRepository.orphaned.
  destruct (containers d !! _) as [c|] eqn:Hc; [|done]. simpl. case_decide; [done|].
  intros [= <-]. split; [done|]. intros (c' & Hc' & ?). congruence.
Qed.

Section tick_safety.
Context `{UUIDText}.

Lemma upsert_candidates_safe t cache : moves (safe_move t) (upsert_candidates cache).
Proof.
  unfold upsert_candidates.
  repeat first [moves_step | apply reconcileCandidate_safe
    | eapply observes_moves, ListRunningCandidates_observes | apply _].
Qed.
Lemma remove_stale_safe t cache : moves (safe_move t) (remove_stale cache).
Proof.
  intros w. unfold remove_stale. rewrite bind_try.
  destruct (ServiceReconcileRepository.ListOrphanedInstances AdminConn w) as [ro w1] eqn:E.
  destruct (observes_run _ _ _ _ _ (ListOrphaned_observes _) E) as [[[= Hd _ _] _] Hq].
  destruct ro as [l|e]; simpl; [|by rewrite Hd].
  rewrite <-Hd. intros Ht. apply (remove_orphans_safe t l cache); [|done].
  rewrite (Hq l eq_refl). simpl. apply Forall_forall. intros cid.
  rewrite list_elem_of_omap. intros (si & _ & [_ Hn]%orphaned_not_running).
  by rewrite <-Hd, Ht in Hn.
Qed.

(** whichever call fails, a tick of the service instance controller changes
    no container and never removes the instance of a running container. *)
Theorem service_tick_safe cache w :
  let d' := (service_tick cache w).2.(w_db) in
  d'.(containers) = w.(w_db).(containers)
  ∧ ∀ cid, running_in w.(w_db).(containers) cid → has_instance w.(w_db) cid → has_instance d' cid.
Proof.
  assert (moves (safe_move w.(w_db).(containers)) (service_tick cache)) as Hm.
  { apply moves_bind; [apply _|apply upsert_candidates_safe|intros; apply remove_stale_safe]. }
  by apply Hm.
Qed.
End tick_safety.

(** ** What a tick achieves *)

Section convergence.
Context `{UUIDText}.

Lemma reconcileCandidate_calmly cache c : calmly (reconcileCandidate cache c).
Proof.
  unfold reconcileCandidate, publishUpdated, ServiceRepository.GetOrCreate,
    ServiceInstanceRepository.Upsert, scan. calm_auto.
Qed.
Lemma upsert_candidates_calmly cache : calmly (upsert_candidates cache).
Proof.
  unfold upsert_candidates, ServiceReconcileRepository.ListRunningCandidates.
  repeat first [calm_step|apply reconcileCandidate_calmly].
Qed.

(** The announcement of a change touches nothing but the messages. *)
Lemma publishUpdated_calm cid w :
  calm w → ∃ w', publishUpdated cid w = (Ok tt, w') ∧ calm w' ∧ w'.(w_db) = w.(w_db).
Proof.
  intros Hc. unfold publishUpdated. rewrite bind_try, Publish_calm by done.
  by eexists.
Qed.
Lemma remove_orphan_calm cache cid w :
  calm w →
  ∃ cache' w', remove_orphan cache cid w = (Ok cache', w') ∧ calm w'
    ∧ w'.(w_db) = set_service_instances
        (delete_where (λ si, si.(ServiceInstance_ContainerID) = cid) w.(w_db).(service_instances))
        w.(w_db).
Proof.
  intros Hc. unfold remove_orphan. rewrite bind_try.
  unfold ServiceInstanceRepository.DeleteByContainer.
  erewrite exec_affected_calm; [|done|done]. case_decide; simpl; [by do 2 eexists|].
  unfold mbind, M_bind. simpl.
  match goal with |- context [publishUpdated cid ?w1] =>
    destruct (publishUpdated_calm cid w1) as (w' & -> & ? & Hd); [done|] end.
  by do 2 eexists.
Qed.

Lemma remove_orphans_calm cache ids w :
  calm w →
  let w' := (remove_orphans cache ids w).2 in
  w'.(w_db).(containers) = w.(w_db).(containers)
  ∧ ∀ i si, w'.(w_db).(service_instances) !! i = Some si →
      w.(w_db).(service_instances) !! i = Some si ∧ si.(ServiceInstance_ContainerID) ∉ ids.
Proof.
  revert cache w. induction ids as [|cid ids IH]; intros cache w Hc; simpl.
  - split; [done|]. intros i si Hi. split; [done|]. apply not_elem_of_nil.
  - destruct (remove_orphan_calm cache cid w Hc) as (cache' & w1 & E & Hc1 & Hd).
    unfold mbind, M_bind. rewrite E. destruct (IH cache' w1 Hc1) as [IHc IHs]. rewrite Hd in IHc, IHs.
    split; [done|]. intros i si Hi. destruct (IHs i si Hi) as [Hi' Hn]. simpl in Hi'.
    apply lookup_delete_where in Hi' as [? ?]. split; [done|]. by apply not_elem_of_cons.
Qed.

Lemma upsert_candidates_total cache : errorless (upsert_candidates cache).
Proof. unfold upsert_candidates, reconcileCandidate, publishUpdated. errorless_auto. Qed.

Lemma ListOrphaned_reads c :
  reads (ServiceReconcileRepository.ListOrphanedInstances c)
    (λ e l, l = omap (ServiceReconcileRepository.orphaned e.(e_db))
                     (rows e.(e_db).(service_instances))).
Proof. apply reads_wrap. eapply reads_mono; [apply reads_query|]. by intros e a [g ->]. Qed.

Lemma not_orphaned d i si c :
  d.(service_instances) !! i = Some si →
  si.(ServiceInstance_ContainerID)
    ∉ omap (ServiceReconcileRepository.orphaned d) (rows d.(service_instances)) →
  d.(containers) !! si.(ServiceInstance_ContainerID) = Some c →
  c.(Container_Status) = ContainerStatusRunning.
Proof.
  intros Hi Hn Hc. destruct (decide (Container_Status c = ContainerStatusRunning)) as [?|Hs]; [done|].
  exfalso. apply Hn. apply list_elem_of_omap. exists si.
  split; [apply elem_of_rows; eauto|]. unfold ServiceReconcileRepository.orphaned.
  rewrite Hc. simpl. by rewrite decide_False.
Qed.

(** C31: when no call fails, no instance is left after a tick whose container
    is known and not running. *)
Theorem service_tick_removes_orphans cache w i si c :
  calm w →
  let d' := (service_tick cache w).2.(w_db) in
  d'.(service_instances) !! i = Some si →
  d'.(containers) !! si.(ServiceInstance_ContainerID) = Some c →
  c.(Container_Status) = ContainerStatusRunning.
Proof.
  intros Hc. simpl. unfold service_tick.
  pose proof (upsert_candidates_calmly cache w Hc) as Hc1.
  destruct (upsert_candidates_total cache w) as ([] & w1 & E1).
  unfold mbind, M_bind. rewrite E1 in Hc1 |- *. simpl in Hc1.
  unfold remove_stale. rewrite bind_try.
  destruct (ListOrphaned_reads AdminConn) as [Ho Hr].
  destruct (Hr w1 Hc1) as (l & w2 & E2 & Hc2). rewrite E2. simpl.
  destruct (observes_run _ _ _ _ _ Ho E2) as [[[= Hd _ _] _] Hq].
  specialize (Hq l eq_refl). simpl in Hq. rewrite <-Hd in Hq.
  destruct (remove_orphans_calm cache l w2 Hc2) as [Hcs His].
  intros Hi Hcon. destruct (His i si Hi) as [Hi2 Hn]. rewrite Hcs in Hcon.
  rewrite Hq in Hn. by eapply not_orphaned.
Qed.
End convergence.

(** ** On the sample

    An instance left behind by a container that crashed. *)
#[local] Existing Instance hexUUID.
Definition stale_container : Container :=
  Build_Container 51 30 41 (Some "c2") ContainerStatusCrashed 1 (Some 0) (Some (60 * Second)).
Definition stale_instance : ServiceInstance :=
  Build_ServiceInstance 71 60 51 "10.0.0.2" 32769 true 0.
Definition staleDB : DB :=
  set_containers (<[51%N := stale_container]> sampleDB.(containers))
    (set_service_instances {[71%N := stale_instance]} sampleDB).
Definition staleWorld : World := set_db staleDB sampleWorld.
Lemma service_tick_removes_orphans_witness :
  calm staleWorld ∧
  (service_tick ∅ staleWorld).2.(w_db).(service_instances) !! 71%N = None.
Proof.
  split; [reflexivity|].
  destruct ((service_tick ∅ staleWorld).2.(w_db).(service_instances) !! 71%N) as [si|] eqn:Hi; [|reflexivity].
  exfalso.
  assert (si = stale_instance) as -> by (vm_compute in Hi; congruence).
  discriminate (service_tick_removes_orphans ∅ staleWorld 71 stale_instance stale_container eq_refl Hi
                  ltac:(vm_compute; reflexivity)).
Defined.
