(* ===== verification/LbRegistry.v ===== *)
(** * LbRegistry: the load balancer's in-memory service registry

    services/loadbalancer/internal/registry/registry.go,
    internal/strategy/strategy.go and the probe of
    internal/healthcheck/healthcheck.go.  A method is a function of the
    registry and, where it reads the clock, of the time; a Go map is a finite
    map, and the order in which a [range] visits one is the parameter
    [MapOrder]. *)
From S2P Require Import Prelude.
From stdpp Require Import base gmap strings list.
From Stdlib Require Import ZArith Lia.
Open Scope Z_scope.

(** ** State *)

Record Instance := mkInstance {
  Instance_ContainerID : uuid; Instance_IP : string; Instance_Port : Z }.
#[export] Instance Instance_eq_dec : EqDecision Instance.
Proof. solve_decision. Defined.

(** [strategy.RoundRobin]: one counter per service. *)
Abbreviation RoundRobin := (gmap string Z) (only parsing).

Record Registry := mkRegistry {
  byDNS : gmap string (list Instance);
  counters : RoundRobin;
  lastSeen : gmap uuid time;
  unhealthyUntil : gmap uuid time;
  hostRoutes : gmap string string }.

Definition New : Registry := mkRegistry ∅ ∅ ∅ ∅ ∅.

Definition set_instances (m : gmap string (list Instance)) (seen : gmap uuid time) (r : Registry)
    : Registry := mkRegistry m r.(counters) seen r.(unhealthyUntil) r.(hostRoutes).
Definition set_unhealthy (u : gmap uuid time) (r : Registry) : Registry :=
  mkRegistry r.(byDNS) r.(counters) r.(lastSeen) u r.(hostRoutes).

(** [r.byDNS[dnsName]], nil when there is none. *)
Definition instances (r : Registry) (dnsName : string) : list Instance :=
  default [] (r.(byDNS) !! dnsName).

(** ** Operations *)

(** [strategy.RoundRobin.Next]: the index, and the counters after it. *)
Definition RoundRobin_Next (key : string) (n : Z) (cs : RoundRobin) : Z * RoundRobin :=
  let i := Z.rem (default 0 (cs !! key)) n in
  (i, <[key := Z.rem (i + 1) n]> cs).

Section registry.
Context `{MapOrder}.

Definition seen_at (m : gmap string (list Instance)) (now : time) : gmap uuid time :=
  foldl (λ seen kv, foldl (λ seen inst, <[inst.(Instance_ContainerID) := now]> seen) seen kv.2)
        ∅ (visit m).
Definition ReplaceAll (m : gmap string (list Instance)) (now : time) (r : Registry) : Registry :=
  let seen := seen_at m now in
  set_unhealthy (filter (λ kv, is_Some (seen !! kv.1)) r.(unhealthyUntil))
    (set_instances m seen r).

Definition ReplaceHostRoutes (routes : gmap string string) (r : Registry) : Registry :=
  mkRegistry r.(byDNS) r.(counters) r.(lastSeen) r.(unhealthyUntil) routes.
Definition ResolveHost (host : string) (r : Registry) : option string := r.(hostRoutes) !! host.

(** The loop of [Upsert]: the first entry with this id is overwritten in
    place; [None] when the loop ends without one. *)
Fixpoint refresh (inst : Instance) (l : list Instance) : option (list Instance) :=
  match l with
  | [] => None
  | existing :: l =>
      if decide (existing.(Instance_ContainerID) = inst.(Instance_ContainerID))
      then Some (inst :: l) else cons existing <$> refresh inst l
  end.
Definition Upsert (dnsName : string) (inst : Instance) (now : time) (r : Registry) : Registry :=
  let l := instances r dnsName in
  set_instances (<[dnsName := default (l ++ [inst]) (refresh inst l)]> r.(byDNS))
                (<[inst.(Instance_ContainerID) := now]> r.(lastSeen)) r.

(** The first entry with this id, cut out of the list. *)
Fixpoint cut (containerID : uuid) (l : list Instance) : option (list Instance) :=
  match l with
  | [] => None
  | inst :: l =>
      if decide (inst.(Instance_ContainerID) = containerID) then Some l
      else cons inst <$> cut containerID l
  end.
Fixpoint remove_in (containerID : uuid) (entries : list (string * list Instance)) (r : Registry)
    : Registry :=
  match entries with
  | [] => r
  | (dnsName, l) :: entries =>
      match cut containerID l with
      | Some l' =>
          set_unhealthy (delete containerID r.(unhealthyUntil))
            (set_instances (<[dnsName := l']> r.(byDNS)) (delete containerID r.(lastSeen)) r)
      | None => remove_in containerID entries r
      end
  end.
Definition removeLocked (containerID : uuid) (r : Registry) : Registry :=
  remove_in containerID (visit r.(byDNS)) r.
Definition Remove (containerID : uuid) (r : Registry) : Registry := removeLocked containerID r.

Definition MarkUnhealthy (containerID : uuid) (duration : time) (now : time) (r : Registry)
    : Registry := set_unhealthy (<[containerID := now + duration]> r.(unhealthyUntil)) r.
Definition MarkHealthy (containerID : uuid) (r : Registry) : Registry :=
  set_unhealthy (delete containerID r.(unhealthyUntil)) r.

(** [until, ok := r.unhealthyUntil[id]; ok && until.After(now)] *)
Definition ejected (r : Registry) (now : time) (containerID : uuid) : bool :=
  match r.(unhealthyUntil) !! containerID with
  | Some until => bool_decide (now < until) | None => false end.
Definition available (r : Registry) (dnsName : string) (now : time) : list Instance :=
  filter (λ inst, ejected r now inst.(Instance_ContainerID) = false) (instances r dnsName).

(** An index out of range panics in Go: [None] in the second component would
    be that, see [Next_correct]. *)
Definition Next (dnsName : string) (now : time) (r : Registry)
    : option (option Instance) * Registry :=
  match available r dnsName now with
  | [] => (Some None, r)
  | l =>
      let '(i, cs) := RoundRobin_Next dnsName (Z.of_nat (length l)) r.(counters) in
      (Some <$> l !! Z.to_nat i,
       mkRegistry r.(byDNS) cs r.(lastSeen) r.(unhealthyUntil) r.(hostRoutes))
  end.

Definition All (r : Registry) : list Instance := kv ← visit r.(byDNS); kv.2.

Definition stale (ttl now : time) (r : Registry) : list uuid :=
  (filter (λ kv, kv.2 < now - ttl) (visit r.(lastSeen))).*1.
Definition Sweep (ttl now : time) (r : Registry) : Registry :=
  foldl (λ r id, removeLocked id r) r (stale ttl now r).

(** *** healthcheck.Checker *)

(** How a probe ends: the request could not be built, there was no answer, or
    an answer with this status. *)
Inductive Probe := BadURL | NoAnswer | Answered (status : Z).

Definition probeOne (interval : time) (inst : Instance) (p : Probe) (now : time) (r : Registry)
    : Registry :=
  match p with
  | BadURL => r
  | NoAnswer => MarkUnhealthy inst.(Instance_ContainerID) interval now r
  | Answered status =>
      if decide (500 ≤ status) then MarkUnhealthy inst.(Instance_ContainerID) interval now r
      else MarkHealthy inst.(Instance_ContainerID) r
  end.
(** [probeAll] starts one goroutine per instance; they touch the registry in
    the order they end, given by [ends], each with its verdict and time. *)
Definition probeAll (interval : time) (ends : list (Instance * Probe * time)) (r : Registry)
    : Registry :=
  foldl (λ r x, probeOne interval x.1.1 x.1.2 x.2 r) r ends.
End registry.

(** ** The registry's invariant *)

Abbreviation ids l := (Instance_ContainerID <$> (l : list Instance)) (only parsing).

(** An instance is listed once, under one service, exactly the listed ones
    have a last-seen time, and a counter never went negative. *)
Record wf (r : Registry) : Prop := {
  wf_nodup : ∀ dns, NoDup (ids (instances r dns));
  wf_one_service : ∀ d1 d2 id,
    id ∈ ids (instances r d1) → id ∈ ids (instances r d2) → d1 = d2;
  wf_seen : ∀ id, is_Some (r.(lastSeen) !! id) ↔ ∃ dns, id ∈ ids (instances r dns);
  wf_counters : ∀ dns i, r.(counters) !! dns = Some i → 0 ≤ i }.

(** What the instances of a service map must satisfy: as the invariant says. *)
Definition listed (m : gmap string (list Instance)) (dns : string) : list Instance :=
  default [] (m !! dns).
Record well_listed (m : gmap string (list Instance)) : Prop := {
  wl_nodup : ∀ dns, NoDup (ids (listed m dns));
  wl_one_service : ∀ d1 d2 id, id ∈ ids (listed m d1) → id ∈ ids (listed m d2) → d1 = d2 }.

Lemma New_wf : wf New.
Proof.
  split; unfold instances; simpl; [intros; constructor|set_solver| |].
  - intros id. rewrite lookup_empty. split; [by intros []|set_solver].
  - intros dns i. by rewrite lookup_empty.
Qed.

(** *** The loops over a service's list *)

Lemma refresh_None inst l :
  refresh inst l = None ↔ inst.(Instance_ContainerID) ∉ ids l.
Proof.
  induction l as [|x l IH]; csimpl; [set_solver|]. case_decide.
  - split; [done|]. set_solver.
  - rewrite fmap_None, IH. set_solver.
Qed.
Lemma refresh_ids inst l l' : refresh inst l = Some l' → ids l' = ids l.
Proof.
  revert l'. induction l as [|x l IH]; intros l' Hl; csimpl in Hl; [done|]. case_decide; simplify_eq/=.
  - by f_equal.
  - apply fmap_Some in Hl as (l1 & Hl & ->). csimpl. f_equal. auto.
Qed.
Lemma refresh_elem inst l l' x :
  NoDup (ids l) → refresh inst l = Some l' →
  x ∈ l' ↔ x = inst ∨ x ∈ l ∧ x.(Instance_ContainerID) ≠ inst.(Instance_ContainerID).
Proof.
  revert l'. induction l as [|y l IH]; intros l' Hnd Hl; csimpl in *; [done|].
  apply NoDup_cons in Hnd as [Hy Hnd]. case_decide as Hd; simplify_eq/=.
  - rewrite !elem_of_cons. split; [|naive_solver]. intros [->|Hx]; [by left|right].
    split; [by right|]. intros Heq. apply Hy. rewrite Hd, <-Heq. by apply list_elem_of_fmap_2.
  - apply fmap_Some in Hl as (l1 & Hl & ->). rewrite !elem_of_cons, (IH l1) by done. naive_solver.
Qed.
Lemma upserted_elem inst l x :
  NoDup (ids l) →
  x ∈ default (l ++ [inst]) (refresh inst l)
  ↔ x = inst ∨ x ∈ l ∧ x.(Instance_ContainerID) ≠ inst.(Instance_ContainerID).
Proof.
  intros Hnd. destruct (refresh inst l) as [l'|] eqn:E; simpl; [by eapply refresh_elem|].
  apply refresh_None in E. rewrite elem_of_app, list_elem_of_singleton.
  split; [|naive_solver]. intros [Hx|Hx]; [right|by left]. split; [done|].
  intros Heq. apply E. rewrite <-Heq. by apply list_elem_of_fmap_2.
Qed.
Lemma upserted_nodup inst l :
  NoDup (ids l) → NoDup (ids (default (l ++ [inst]) (refresh inst l))).
Proof.
  intros Hnd. destruct (refresh inst l) as [l'|] eqn:E; simpl; [by rewrite (refresh_ids _ _ _ E)|].
  apply refresh_None in E. rewrite fmap_app. apply NoDup_app. csimpl.
  split; [done|]. split; [set_solver|apply NoDup_singleton].
Qed.
Lemma cut_spec id l :
  NoDup (ids l) →
  cut id l = if decide (id ∈ ids l)
             then Some (filter (λ x, x.(Instance_ContainerID) ≠ id) l) else None.
Proof.
  induction l as [|x l IH]; intros Hnd; csimpl in *.
  - done.
  - apply NoDup_cons in Hnd as [Hx Hnd]. rewrite IH by done. rewrite filter_cons.
    destruct (decide (Instance_ContainerID x = id)) as [Heq|Hne].
    + rewrite (decide_True (P:=id ∈ _)) by set_solver. rewrite decide_False by naive_solver.
      f_equal. symmetry. apply filter_all, Forall_forall. intros y Hy Hc. apply Hx.
      rewrite Heq, <-Hc. by apply list_elem_of_fmap_2.
    + rewrite (decide_True (P:=_ ≠ _)) by done.
      destruct (decide (id ∈ ids l)).
      * rewrite decide_True by set_solver. done.
      * rewrite decide_False by set_solver. done.
Qed.

(** *** Removal, whatever order the map is visited in *)

Section invariant.
Context `{MapOrder}.

Lemma remove_in_spec id entries r :
  (∀ dns, NoDup (ids (instances r dns))) →
  (∀ dns l, (dns, l) ∈ entries → r.(byDNS) !! dns = Some l) →
  (remove_in id entries r = r ∧ ∀ dns l, (dns, l) ∈ entries → id ∉ ids l)
  ∨ ∃ dns l, (dns, l) ∈ entries ∧ id ∈ ids l
      ∧ remove_in id entries r =
        set_unhealthy (delete id r.(unhealthyUntil))
          (set_instances (<[dns := filter (λ x, x.(Instance_ContainerID) ≠ id) l]> r.(byDNS))
             (delete id r.(lastSeen)) r).
Proof.
  intros Hnd. induction entries as [|[dns l] entries IH]; intros Hin; simpl.
  - left. split; [done|]. set_solver.
  - assert (r.(byDNS) !! dns = Some l) as Hl by (apply Hin; left).
    rewrite cut_spec by (specialize (Hnd dns); unfold instances in Hnd; by rewrite Hl in Hnd).
    case_decide as Hd.
    + right. exists dns, l. split; [left|done].
    + destruct IH as [[-> IH]|(dns' & l' & ? & ? & ?)].
      * intros dns' l' ?. apply Hin. by right.
      * left. split; [done|]. intros dns' l' [[= -> ->]|]%elem_of_cons; eauto.
      * right. exists dns', l'. split; [by right|done].
Qed.

Lemma elem_of_instances r dns x :
  x ∈ instances r dns → ∃ l, r.(byDNS) !! dns = Some l ∧ x ∈ l.
Proof. unfold instances. destruct (r.(byDNS) !! dns); simpl; [eauto|set_solver]. Qed.
Lemma elem_of_ids r dns id :
  id ∈ ids (instances r dns) → ∃ l, r.(byDNS) !! dns = Some l ∧ id ∈ ids l.
Proof. unfold instances. destruct (r.(byDNS) !! dns); simpl; [eauto|set_solver]. Qed.

Lemma removeLocked_instances id r dns :
  wf r →
  instances (removeLocked id r) dns
  = filter (λ x, x.(Instance_ContainerID) ≠ id) (instances r dns).
Proof.
  intros Hwf. unfold removeLocked.
  assert (∀ d, id ∉ ids (instances r d) →
    filter (λ x, x.(Instance_ContainerID) ≠ id) (instances r d) = instances r d) as Hkeep.
  { intros d Hd. apply filter_all, Forall_forall. intros x Hx Hc. apply Hd.
    rewrite <-Hc. by apply list_elem_of_fmap_2. }
  destruct (remove_in_spec id (visit (byDNS r)) r) as [[-> Hno]|(d & l & Hd & Hid & ->)].
  - apply Hwf.
  - intros d l. by rewrite elem_of_visit.
  - rewrite Hkeep; [done|]. intros (l & Hl & Hid)%elem_of_ids.
    apply (Hno dns l); [by apply elem_of_visit|done].
  - apply elem_of_visit in Hd. unfold instances at 1. simpl.
    assert (instances r d = l) as Hil by (unfold instances; by rewrite Hd).
    destruct (decide (dns = d)) as [->|Hne].
    + rewrite lookup_insert_eq. by rewrite Hil.
    + rewrite lookup_insert_ne by done. rewrite Hkeep; [done|]. intros Hid'. apply Hne.
      apply (wf_one_service r Hwf dns d id); [done|by rewrite Hil].
Qed.
Lemma removeLocked_seen id r : wf r → (removeLocked id r).(lastSeen) = delete id r.(lastSeen).
Proof.
  intros Hwf. unfold removeLocked.
  destruct (remove_in_spec id (visit (byDNS r)) r) as [[-> Hno]|(d & l & Hd & Hid & ->)];
    [apply Hwf|intros d l; by rewrite elem_of_visit| |done].
  symmetry. apply delete_id, eq_None_not_Some. rewrite (wf_seen r Hwf).
  intros (dns & (l & Hl & Hid)%elem_of_ids). apply (Hno dns l); [by apply elem_of_visit|done].
Qed.
Lemma removeLocked_rest id r :
  (removeLocked id r).(counters) = r.(counters)
  ∧ (removeLocked id r).(hostRoutes) = r.(hostRoutes).
Proof.
  unfold removeLocked. generalize (visit (byDNS r)) as l.
  induction l as [|[dns l] es IH]; simpl; [done|]. destruct (cut id l); done.
Qed.
Lemma elem_of_ids_filter id id' (l : list Instance) :
  id' ∈ ids (filter (λ x, x.(Instance_ContainerID) ≠ id) l) ↔ id' ≠ id ∧ id' ∈ ids l.
Proof.
  rewrite !list_elem_of_fmap. setoid_rewrite list_elem_of_filter. naive_solver.
Qed.

Lemma removeLocked_wf id r : wf r → wf (removeLocked id r).
Proof.
  intros Hwf. split.
  - intros dns. rewrite removeLocked_instances by done.
    eapply sublist_NoDup; [apply (wf_nodup r Hwf dns)|]. apply fmap_sublist, sublist_filter.
  - intros d1 d2 id'. rewrite !removeLocked_instances, !elem_of_ids_filter by done.
    intros [_ ?] [_ ?]. by eapply (wf_one_service r).
  - intros id'. rewrite removeLocked_seen by done. setoid_rewrite removeLocked_instances; [|done].
    setoid_rewrite elem_of_ids_filter. rewrite lookup_delete_is_Some, (wf_seen r Hwf). naive_solver.
  - intros dns i. rewrite (proj1 (removeLocked_rest id r)). apply Hwf.
Qed.
Lemma removeLocked_all l r :
  wf r →
  let r' := foldl (λ r id, removeLocked id r) r l in
  wf r' ∧ (∀ dns, instances r' dns = filter (λ x, x.(Instance_ContainerID) ∉ l) (instances r dns))
  ∧ (∀ id, r'.(lastSeen) !! id = if decide (id ∈ l) then None else r.(lastSeen) !! id).
Proof.
  revert r. induction l as [|id l IH]; intros r Hwf; simpl.
  - split; [done|]. split; [|done].
    intros dns. symmetry. apply filter_all, Forall_forall. set_solver.
  - destruct (IH (removeLocked id r)) as (Hwf' & Hi & Hs); [by apply removeLocked_wf|].
    split; [done|]. split.
    + intros dns. rewrite Hi, removeLocked_instances, list_filter_filter by done.
      apply list_filter_iff. set_solver.
    + intros id'. rewrite Hs, removeLocked_seen by done.
      destruct (decide (id' = id)) as [->|].
      * rewrite lookup_delete_eq, (decide_True (P:=_ ∈ _ :: _)) by set_solver. by case_decide.
      * rewrite lookup_delete_ne by done. by destruct (decide (id' ∈ l)), (decide (id' ∈ id :: l));
          try set_solver.
Qed.
End invariant.

(** ** Choosing a backend *)

Lemma available_elem r dns now x :
  x ∈ available r dns now
  ↔ x ∈ instances r dns ∧ ejected r now x.(Instance_ContainerID) = false.
Proof. unfold available. rewrite list_elem_of_filter. naive_solver. Qed.

(** The counters' part of [Next], on what is available. *)
Lemma Next_eq dns now r :
  available r dns now ≠ [] →
  let n := Z.of_nat (length (available r dns now)) in
  let i := Z.rem (default 0 (r.(counters) !! dns)) n in
  Next dns now r =
    (Some <$> available r dns now !! Z.to_nat i,
     mkRegistry r.(byDNS) (<[dns := Z.rem (i + 1) n]> r.(counters)) r.(lastSeen)
       r.(unhealthyUntil) r.(hostRoutes)).
Proof. intros Hne. unfold Next. by destruct (available r dns now). Qed.

Lemma counter_nonneg r dns : wf r → 0 ≤ default 0 (r.(counters) !! dns).
Proof.
  intros Hwf. destruct (r.(counters) !! dns) as [i|] eqn:E; simpl; [by eapply wf_counters|done].
Qed.
Lemma next_index r dns now :
  wf r → available r dns now ≠ [] →
  let n := Z.of_nat (length (available r dns now)) in
  0 ≤ Z.rem (default 0 (r.(counters) !! dns)) n < n.
Proof.
  intros Hwf Hne. apply Z.rem_bound_pos; [by apply counter_nonneg|].
  destruct (available r dns now); [done|simpl; lia].
Qed.

Lemma set_counter_wf r dns i :
  wf r → 0 ≤ i →
  wf (mkRegistry r.(byDNS) (<[dns := i]> r.(counters)) r.(lastSeen) r.(unhealthyUntil)
        r.(hostRoutes)).
Proof.
  intros [? ? ? Hc] Hi. split; [done..|]. intros dns' j. simpl.
  rewrite lookup_insert. case_decide; [naive_solver|apply Hc].
Qed.

Definition is_available (r : Registry) (dns : string) (now : time) (x : Instance) : Prop :=
  x ∈ instances r dns ∧ ejected r now x.(Instance_ContainerID) = false.

(** [Next] never indexes out of range; it gives an instance exactly when
    the service has one listed that is not ejected, and then one of these; and
    it changes nothing but the service's counter. *)
Lemma Next_correct r dns now :
  wf r →
  ∃ o r', Next dns now r = (Some o, r')
    ∧ (∀ x, o = Some x → is_available r dns now x)
    ∧ (o = None ↔ ∀ x, ¬ is_available r dns now x)
    ∧ wf r' ∧ ∃ cs, r' = mkRegistry r.(byDNS) cs r.(lastSeen) r.(unhealthyUntil) r.(hostRoutes).
Proof.
  intros Hwf. destruct (decide (available r dns now = [])) as [Hnil|Hne].
  - exists None, r. unfold Next. rewrite Hnil. split; [done|]. split; [done|].
    split; [|split; [done|by destruct r; eexists]].
    split; [|done]. intros _ x Hx%available_elem. rewrite Hnil in Hx. by apply not_elem_of_nil in Hx.
  - rewrite Next_eq by done. pose proof (next_index r dns now Hwf Hne) as Hi. simpl in Hi.
    destruct (lookup_lt_is_Some_2 (available r dns now)
      (Z.to_nat (Z.rem (default 0 (r.(counters) !! dns)) (Z.of_nat (length (available r dns now))))))
      as [x Hx]; [lia|].
    rewrite Hx. apply list_elem_of_lookup_2, available_elem in Hx.
    eexists (Some x), _. split; [done|]. split; [by intros ? [= <-]|].
    split; [split; [done|intros Hno; by destruct (Hno x)]|].
    split; [|by eexists]. apply set_counter_wf; [done|]. apply Z.rem_nonneg; lia.
Qed.

(** Requests served one after the other, with nothing else happening. *)
Fixpoint serve (now : time) (reqs : list string) (r : Registry)
    : list (string * option (option Instance)) * Registry :=
  match reqs with
  | [] => ([], r)
  | dns :: reqs =>
      let '(o, r') := Next dns now r in
      let '(os, r'') := serve now reqs r' in
      ((dns, o) :: os, r'')
  end.
Definition answers (dns : string) (os : list (string * option (option Instance)))
    : list (option (option Instance)) := (filter (λ x, x.1 = dns) os).*2.

(** The picks of a counter that starts at [c]. *)
Fixpoint picks (l : list Instance) (c : Z) (m : nat) : list (option (option Instance)) :=
  let n := Z.of_nat (length l) in
  match m with
  | O => []
  | S m => (Some <$> l !! Z.to_nat (Z.rem c n)) :: picks l (Z.rem (Z.rem c n + 1) n) m
  end.

Lemma Next_available r dns dns' now :
  available (Next dns' now r).2 dns now = available r dns now.
Proof. unfold Next. destruct (available r dns' now); [done|]. by destruct (RoundRobin_Next _ _ _). Qed.
Lemma Next_other r dns dns' now :
  dns ≠ dns' → (Next dns' now r).2.(counters) !! dns = r.(counters) !! dns.
Proof.
  intros Hne. destruct (decide (available r dns' now = [])) as [E|E]; [unfold Next; by rewrite E|].
  rewrite Next_eq by done. simpl. by rewrite lookup_insert_ne.
Qed.

Lemma serve_picks now dns reqs r :
  available r dns now ≠ [] →
  answers dns (serve now reqs r).1
  = picks (available r dns now) (default 0 (r.(counters) !! dns))
      (length (filter (λ d, d = dns) reqs)).
Proof.
  revert r. induction reqs as [|d reqs IH]; intros r Hne; [done|]. simpl.
  pose proof (Next_available r dns d now) as Ha. pose proof (Next_other r dns d now) as Ho.
  pose proof (Next_eq d now r) as He.
  destruct (Next d now r) as [o r'] eqn:En. specialize (IH r'). simpl in *.
  destruct (serve now reqs r') as [os r'']. simpl in *. rewrite Ha in IH.
  specialize (IH Hne). unfold answers in *. rewrite !filter_cons. simpl.
  destruct (decide (d = dns)) as [->|Hd]; csimpl.
  - specialize (He Hne). injection He as -> ->. simpl in IH. rewrite lookup_insert_eq in IH.
    by rewrite IH.
  - by rewrite IH, Ho.
Qed.

(** A counter in range walks to the end of the list, then starts over. *)
Lemma picks_walk l (i m k : nat) :
  (i + m = length l)%nat → (0 < m)%nat →
  picks l (Z.of_nat i) (m + k) = (Some ∘ Some <$> drop i l) ++ picks l 0 k.
Proof.
  revert i. induction m as [|m IH]; intros i Hl Hm; [lia|]. simpl.
  rewrite (Z.rem_small (Z.of_nat i)) by lia. rewrite Nat2Z.id.
  destruct (lookup_lt_is_Some_2 l i) as [x Hx]; [lia|]. rewrite Hx.
  rewrite (drop_S l x i) by done. csimpl. f_equal.
  destruct m as [|m].
  - replace (Z.of_nat i + 1) with (Z.of_nat (length l)) by lia. rewrite Z.rem_same by lia.
    by rewrite drop_ge by lia.
  - rewrite Z.rem_small by lia. replace (Z.of_nat i + 1) with (Z.of_nat (S i)) by lia.
    apply IH; lia.
Qed.
Lemma picks_start l (m : nat) :
  (m ≤ length l)%nat → picks l 0 m = Some ∘ Some <$> take m l.
Proof.
  intros Hm. enough (∀ i, (i + m ≤ length l)%nat →
    picks l (Z.of_nat i) m = Some ∘ Some <$> take m (drop i l)) as Hi by apply (Hi O Hm).
  clear Hm. induction m as [|m IH]; intros i Hl; [done|]. simpl.
  rewrite (Z.rem_small (Z.of_nat i)) by lia. rewrite Nat2Z.id.
  destruct (lookup_lt_is_Some_2 l i) as [x Hx]; [lia|]. rewrite Hx.
  rewrite (drop_S l x i) by done. csimpl. f_equal. destruct m as [|m]; [done|].
  rewrite Z.rem_small by lia. replace (Z.of_nat i + 1) with (Z.of_nat (S i)) by lia.
  apply IH. lia.
Qed.
Lemma picks_round l c :
  0 ≤ c → picks l c (length l) ≡ₚ Some ∘ Some <$> l.
Proof.
  intros Hc. destruct (decide (l = [])) as [->|Hne]; [done|].
  assert (0 < length l)%nat as Hn by (destruct l; [done|simpl; lia]).
  set (n := Z.of_nat (length l)).
  assert (0 ≤ Z.rem c n < n) as Hi by (apply Z.rem_bound_pos; lia).
  set (i := Z.to_nat (Z.rem c n)).
  assert (∀ m, picks l c m = picks l (Z.of_nat i) m) as ->.
  { intros [|m]; [done|]. simpl. unfold i. rewrite Z2Nat.id by lia. fold n.
    by rewrite (Z.rem_small (Z.rem c n)) by lia. }
  replace (length l) with ((length l - i) + i)%nat by lia.
  rewrite picks_walk, picks_start by lia. rewrite Permutation_app_comm, <-fmap_app.
  by rewrite take_drop.
Qed.

(** C32: round robin is fair: as long as the same instances of a service are
    available, any run of requests containing as many for this service as it
    has instances (whatever the requests for other services in between, and
    wherever the counter starts) sends exactly one to each. *)
Theorem Next_fair r dns now reqs :
  wf r →
  length (filter (λ d, d = dns) reqs) = length (available r dns now) →
  answers dns (serve now reqs r).1 ≡ₚ Some ∘ Some <$> available r dns now.
Proof.
  intros Hwf Hlen. destruct (decide (available r dns now = [])) as [E|Hne].
  - rewrite E in Hlen |- *. apply length_zero_iff_nil in Hlen. revert r Hwf E.
    induction reqs as [|d reqs IH]; intros r Hwf E; [done|]. simpl.
    rewrite filter_cons in Hlen. destruct (decide (d = dns)) as [|Hd]; [done|].
    pose proof (Next_available r dns d now) as Ha.
    destruct (Next_correct r d now Hwf) as (o & r' & En & _ & _ & Hwf' & _).
    rewrite En in Ha |- *. simpl in Ha. specialize (IH Hlen r' Hwf').
    destruct (serve now reqs r'). unfold answers in *; simpl. rewrite filter_cons_False by done.
    apply IH. congruence.
  - rewrite serve_picks, Hlen by done. apply picks_round. by apply counter_nonneg.
Qed.

(** ** The operations keep the invariant *)

Section steps.
Context `{MapOrder}.

Lemma seen_list_lookup (l : list Instance) (now : time) (seen : gmap uuid time) id :
  foldl (λ seen inst, <[inst.(Instance_ContainerID) := now]> seen) seen l !! id
  = if decide (id ∈ ids l) then Some now else seen !! id.
Proof.
  revert seen. induction l as [|x l IH]; intros seen; [done|]. csimpl. rewrite IH. clear IH.
  destruct (decide (id ∈ ids l)) as [Hl|Hl];
    destruct (decide (id ∈ _ :: _)) as [Hx|Hx]; rewrite elem_of_cons in Hx.
  - done.
  - naive_solver.
  - destruct Hx as [->|?]; [|done]. by rewrite lookup_insert_eq.
  - rewrite lookup_insert_ne; naive_solver.
Qed.
Lemma seen_entries_lookup es (now : time) (seen : gmap uuid time) id :
  foldl (λ seen (kv : string * list Instance),
    foldl (λ seen inst, <[inst.(Instance_ContainerID) := now]> seen) seen kv.2) seen es !! id
  = if decide (Exists (λ kv, id ∈ ids kv.2) es) then Some now else seen !! id.
Proof.
  revert seen. induction es as [|[k l] es IH]; intros seen; [done|].
  - csimpl. rewrite IH, seen_list_lookup. simpl.
    destruct (decide (Exists _ (_ :: _))) as [He|He]; rewrite Exists_cons in He; simpl in He;
      repeat case_decide; naive_solver.
Qed.
Lemma elem_of_listed m dns id : id ∈ ids (listed m dns) → ∃ l, m !! dns = Some l ∧ id ∈ ids l.
Proof. unfold listed. destruct (m !! dns); simpl; [eauto|set_solver]. Qed.
Lemma seen_at_lookup m now id :
  (seen_at m now !! id = Some now ∧ ∃ dns, id ∈ ids (listed m dns))
  ∨ (seen_at m now !! id = None ∧ ∀ dns, id ∉ ids (listed m dns)).
Proof.
  unfold seen_at. rewrite seen_entries_lookup, lookup_empty.
  destruct (decide (Exists _ _)) as [He|He]; rewrite list.Exists_exists in He; [left|right];
    (split; [done|]).
  - destruct He as ([dns l] & Hl%elem_of_visit & Hid). exists dns. unfold listed. by rewrite Hl.
  - intros dns (l & Hl & Hid)%elem_of_listed. apply He. exists (dns, l).
    by rewrite elem_of_visit.
Qed.

Lemma ReplaceAll_wf m now r : wf r → well_listed m → wf (ReplaceAll m now r).
Proof.
  intros [_ _ _ Hc] [Hnd Hone]. split; [done..| |done].
  intros id. simpl. destruct (seen_at_lookup m now id) as [[-> ?]|[-> ?]]; [done|].
  split; [by intros []|]. intros [dns ?]. naive_solver.
Qed.
Lemma ReplaceHostRoutes_wf m r : wf r → wf (ReplaceHostRoutes m r).
Proof. by intros []. Qed.
Lemma set_unhealthy_wf u r : wf r → wf (set_unhealthy u r).
Proof. by intros []. Qed.

Lemma Upsert_instances dns' dns inst now r :
  instances (Upsert dns inst now r) dns'
  = if decide (dns' = dns) then default (instances r dns ++ [inst]) (refresh inst (instances r dns))
    else instances r dns'.
Proof.
  unfold instances at 1. simpl. case_decide as Hd; [subst; by rewrite lookup_insert_eq|].
  by rewrite lookup_insert_ne.
Qed.
Lemma Upsert_elem dns' dns inst now r x :
  wf r →
  x ∈ instances (Upsert dns inst now r) dns'
  ↔ dns' = dns ∧ x = inst
    ∨ x ∈ instances r dns' ∧ (dns' = dns → x.(Instance_ContainerID) ≠ inst.(Instance_ContainerID)).
Proof.
  intros Hwf. rewrite Upsert_instances. case_decide; subst.
  - rewrite upserted_elem by apply Hwf. naive_solver.
  - naive_solver.
Qed.
Lemma Upsert_ids dns' dns inst now r id :
  wf r →
  id ∈ ids (instances (Upsert dns inst now r) dns')
  ↔ dns' = dns ∧ id = inst.(Instance_ContainerID) ∨ id ∈ ids (instances r dns').
Proof.
  intros Hwf. rewrite !list_elem_of_fmap. setoid_rewrite Upsert_elem; [|done]. split.
  - intros (x & -> & [[-> ->]|[? _]]); eauto.
  - intros [[-> ->]|(x & -> & Hx)]; [by exists inst; eauto|].
    destruct (decide (dns' = dns ∧ x.(Instance_ContainerID) = inst.(Instance_ContainerID)))
      as [[-> Heq]|Hne]; [exists inst|exists x]; naive_solver.
Qed.

(** An event may only move an instance to the service it is listed under
    already: a service's name and a container's service never change. *)
Definition not_elsewhere (dns : string) (id : uuid) (r : Registry) : Prop :=
  ∀ dns', id ∈ ids (instances r dns') → dns' = dns.
Lemma Upsert_wf dns inst now r :
  wf r → not_elsewhere dns inst.(Instance_ContainerID) r → wf (Upsert dns inst now r).
Proof.
  intros Hwf Hne. split.
  - intros dns'. rewrite Upsert_instances. case_decide; [|apply Hwf]. apply upserted_nodup, Hwf.
  - intros d1 d2 id. rewrite !Upsert_ids by done. pose proof (wf_one_service r Hwf d1 d2 id).
    intros [[-> ->]|?] [[-> Heq]|?]; [done|symmetry; by apply Hne| |auto].
    rewrite Heq in *. by apply Hne.
  - intros id. setoid_rewrite Upsert_ids; [|done]. simpl.
    rewrite lookup_insert_is_Some, (wf_seen r Hwf). split.
    + intros [<-|[? [dns' ?]]]; eauto.
    + intros [dns' [[-> ->]|?]]; [by left|].
      destruct (decide (inst.(Instance_ContainerID) = id)); [by left|right; eauto].
  - apply Hwf.
Qed.

Lemma Sweep_wf ttl now r : wf r → wf (Sweep ttl now r).
Proof. intros. by apply removeLocked_all. Qed.
Lemma probeOne_wf interval inst p now r : wf r → wf (probeOne interval inst p now r).
Proof. intros. destruct p; simpl; [done|by apply set_unhealthy_wf|]. case_decide; by apply set_unhealthy_wf. Qed.

(** What the goroutines of the load balancer do to the registry, one critical
    section at a time, in whatever order. *)
Inductive step : Registry → Registry → Prop :=
| step_Next dns now r : step r (Next dns now r).2
| step_resync m now r : well_listed m → step r (ReplaceAll m now r)
| step_routes m r : step r (ReplaceHostRoutes m r)
| step_Upsert dns inst now r :
    not_elsewhere dns inst.(Instance_ContainerID) r → step r (Upsert dns inst now r)
| step_Remove id r : step r (Remove id r)
| step_Sweep ttl now r : step r (Sweep ttl now r)
| step_eject id d now r : step r (MarkUnhealthy id d now r)
| step_probe interval inst p now r : step r (probeOne interval inst p now r).

(** the invariant holds in every state the registry can reach. *)
Theorem reachable_wf r : rtc step New r → wf r.
Proof.
  intros Hr. remember New as r0. assert (wf r0) as Hwf by (subst; apply New_wf). clear Heqr0.
  induction Hr as [|r1 r2 r3 Hs _ IH]; [done|]. apply IH. clear IH.
  destruct Hs.
  - by destruct (Next_correct r dns now Hwf) as (o & r' & -> & _ & _ & ? & _).
  - by apply ReplaceAll_wf.
  - by apply ReplaceHostRoutes_wf.
  - by apply Upsert_wf.
  - by apply removeLocked_wf.
  - by apply Sweep_wf.
  - by apply set_unhealthy_wf.
  - by apply probeOne_wf.
Qed.

(** a sweep drops exactly the instances not confirmed for [ttl]: of every
    service it keeps, in order, those last seen at [now - ttl] or later. *)
Theorem Sweep_exact ttl now r dns :
  wf r →
  instances (Sweep ttl now r) dns `sublist_of` instances r dns
  ∧ ∀ x, x ∈ instances (Sweep ttl now r) dns ↔
      x ∈ instances r dns
      ∧ ∃ t, r.(lastSeen) !! x.(Instance_ContainerID) = Some t ∧ now - ttl ≤ t.
Proof.
  intros Hwf. unfold Sweep.
  destruct (removeLocked_all (stale ttl now r) r Hwf) as (_ & -> & _).
  split; [apply sublist_filter|]. intros x. rewrite list_elem_of_filter, (and_comm (_ ∉ _)).
  apply and_iff_compat_l_dep. intros Hx.
  destruct (proj2 (wf_seen r Hwf x.(Instance_ContainerID))) as [t Ht];
    [exists dns; by apply list_elem_of_fmap_2|].
  unfold stale. rewrite list_elem_of_fmap. setoid_rewrite list_elem_of_filter. split.
  - intros Hno. exists t. split; [done|]. apply Z.le_ngt. intros Hlt. apply Hno.
    exists (x.(Instance_ContainerID), t). by rewrite elem_of_visit.
  - intros (t' & Ht' & Hle) ([id u] & Hid & Hu & Hv%elem_of_visit). simplify_eq/=. lia.
Qed.
End steps.

(** ** Probes *)

Section probes.
Context `{MapOrder}.

(** What a probe says of its instance at time [t]: [None] says nothing. *)
Definition verdict (interval : time) (p : Probe) (at_ t : time) : option bool :=
  match p with
  | BadURL => None
  | NoAnswer => Some (bool_decide (t < at_ + interval))
  | Answered status =>
      Some (if decide (500 ≤ status) then bool_decide (t < at_ + interval) else false)
  end.
Lemma probeOne_ejected interval inst p now r t id :
  ejected (probeOne interval inst p now r) t id
  = if decide (id = inst.(Instance_ContainerID))
    then default (ejected r t id) (verdict interval p now t) else ejected r t id.
Proof.
  unfold ejected. destruct (decide (id = _)) as [->|Hne]; destruct p as [| |status]; simpl;
    try destruct (decide (500 ≤ status)); simpl;
    rewrite ?lookup_insert_eq, ?lookup_delete_eq, ?lookup_insert_ne, ?lookup_delete_ne by done;
    done.
Qed.

(** a round of probes, one per instance, ending in any order: each
    instance is ejected for one interval from its own probe when it gave no
    answer or a server error, available at once when it answered otherwise,
    and as before when its probe could not be sent; no instance is judged by
    another's probe, and none is listed or delisted. *)
Theorem probeAll_verdicts interval ends r t :
  NoDup (ids (ends.*1.*1)) →
  (∀ dns, instances (probeAll interval ends r) dns = instances r dns)
  ∧ (∀ inst p now, (inst, p, now) ∈ ends →
       ejected (probeAll interval ends r) t inst.(Instance_ContainerID)
       = default (ejected r t inst.(Instance_ContainerID)) (verdict interval p now t))
  ∧ ∀ id, id ∉ ids (ends.*1.*1) → ejected (probeAll interval ends r) t id = ejected r t id.
Proof.
  unfold probeAll. revert r. induction ends as [|[[i q] n] ends IH]; intros r Hnd; csimpl.
  - split; [done|]. split; [set_solver|done].
  - apply NoDup_cons in Hnd as [Hi Hnd]. destruct (IH (probeOne interval i q n r) Hnd) as (H1 & H2 & H3).
    split; [|split].
    + intros dns. rewrite H1. destruct q; simpl; [done..|]. by case_decide.
    + intros inst p now [[= -> -> ->]|Hin]%elem_of_cons.
      * rewrite H3, probeOne_ejected by done. by rewrite decide_True.
      * rewrite (H2 _ _ _ Hin), probeOne_ejected. rewrite decide_False; [done|].
        intros Heq. apply Hi. change (Instance_ContainerID i ∈ ids (ends.*1.*1)). rewrite <-Heq.
        by apply (list_elem_of_fmap_2 Instance_ContainerID _ inst),
          (list_elem_of_fmap_2 fst _ (inst, p)), (list_elem_of_fmap_2 fst _ (inst, p, now)).
    + intros id [Hne Hid]%not_elem_of_cons. rewrite H3, probeOne_ejected by done.
      by rewrite decide_False.
Qed.
End probes.

(** ** A registry of two instances of one service *)

Definition i1 : Instance := mkInstance 50 "10.0.0.1" 32768.
Definition i2 : Instance := mkInstance 51 "10.0.0.2" 32769.
Definition twoReg : Registry :=
  Upsert "shop" i2 20 (Upsert "shop" i1 10 New).
#[local] Existing Instance fixed_order.
Lemma twoReg_reachable : rtc step New twoReg.
Proof.
  apply (rtc_l _ _ (Upsert "shop" i1 10 New)).
  { apply step_Upsert. intros dns Hd. by apply not_elem_of_nil in Hd. }
  apply (rtc_l _ _ twoReg); [|apply rtc_refl]. apply step_Upsert.
  intros dns Hd. destruct (decide (dns = "shop")); [done|].
  rewrite Upsert_instances, decide_False in Hd by done. by apply not_elem_of_nil in Hd.
Qed.
Lemma twoReg_wf : wf twoReg.
Proof.
  apply Upsert_wf; [apply Upsert_wf; [apply New_wf|]|].
  - intros dns Hd. by apply not_elem_of_nil in Hd.
  - intros dns Hd. destruct (decide (dns = "shop")); [done|].
    rewrite Upsert_instances, decide_False in Hd by done. by apply not_elem_of_nil in Hd.
Qed.

Lemma reachable_wf_witness : wf twoReg.
Proof. apply reachable_wf. apply twoReg_reachable. Defined.
Lemma Next_correct_witness :
  ∃ o r', Next "shop" 30 twoReg = (Some o, r') ∧ is_Some o.
Proof.
  destruct (Next_correct twoReg "shop" 30 twoReg_wf) as (o & r' & E & _ & _ & _).
  exists o, r'. split; [exact E|]. vm_compute in E. injection E as <- _. by eexists.
Defined.
Lemma Next_fair_witness :
  answers "shop" (serve 30 ["shop"; "blog"; "shop"] twoReg).1 ≡ₚ Some ∘ Some <$> [i1; i2].
Proof. apply (Next_fair twoReg "shop" 30 ["shop"; "blog"; "shop"] twoReg_wf). reflexivity. Defined.
Lemma Sweep_exact_witness :
  i1 ∉ instances (Sweep 5 20 twoReg) "shop" ∧ i2 ∈ instances (Sweep 5 20 twoReg) "shop".
Proof.
  destruct (Sweep_exact 5 20 twoReg "shop" twoReg_wf) as [_ H]. split.
  - rewrite H. intros (_ & t & Ht & Hle). vm_compute in Ht. injection Ht as <-. by apply Hle.
  - apply H. split; [right; left|]. exists 20. split; [reflexivity|lia].
Defined.
Lemma probeAll_verdicts_witness :
  ejected (probeAll 5 [(i2, Answered 503, 40); (i1, Answered 404, 41)] twoReg) 42 51 = true.
Proof.
  destruct (probeAll_verdicts 5 [(i2, Answered 503, 40); (i1, Answered 404, 41)] twoReg 42)
    as (_ & H & _); [by apply (bool_decide_unpack _); vm_compute|].
  apply (H i2 (Answered 503) 40). left.
Defined.
