(* ===== verification/LoadBalancer.v ===== *)
(** * LoadBalancer: routing, resync, events

    services/loadbalancer: the proxy handler (internal/proxy/proxy.go) and the
    two paths of main.go that keep the registry fresh ([resync],
    [handleServiceUpdated]), over the registry of [LbRegistry] and the
    repositories of [DbCluster]. *)
From S2P Require Import Prelude Json Schema Effects Rls DbCluster Wire LbRegistry Sample.
From stdpp Require Import base gmap strings list.
From Stdlib Require Import ZArith Lia Ascii String.
Open Scope Z_scope.
Open Scope list_scope.

(** ** Routing a request *)

(** [net.SplitHostPort], on bytes; [None] is an error. *)
Section split_host_port.
Abbreviation chars := (list ascii) (only parsing).
Definition index_byte (c : ascii) (s : chars) : option nat := fst <$> list_find (λ x, x = c) s.
Definition last_index_byte (c : ascii) (s : chars) : option nat :=
  (λ i, List.length s - 1 - i)%nat <$> index_byte c (reverse s).
Definition SplitHostPort (hostport : chars) : option (chars * chars) :=
  i ← last_index_byte ":" hostport;
  '(host, j, k) ← match hostport with
    | "["%char :: _ =>
        end_ ← index_byte "]" hostport;
        if decide (end_ + 1 = i)%nat
        then Some (take (end_ - 1) (drop 1 hostport), 1%nat, (end_ + 1)%nat) else None
    | _ =>
        let host := take i hostport in
        match index_byte ":" host with Some _ => None | None => Some (host, 0%nat, 0%nat) end
    end;
  match index_byte "[" (drop j hostport), index_byte "]" (drop k hostport) with
  | None, None => Some (host, drop (i + 1) hostport)
  | _, _ => None
  end.
End split_host_port.

(** [r.Host], and the value of the X-Platform-Service header, empty when
    there is none. *)
Record Request := mkRequest { Request_Host : string; Request_ServiceHeader : string }.

Definition host_name (host : string) : string :=
  match SplitHostPort (list_ascii_of_string host) with
  | Some (stripped, _) => string_of_list_ascii stripped | None => host end.

Definition resolveDNSName (req : Request) (r : Registry) : option string :=
  match ResolveHost (host_name req.(Request_Host)) r with
  | Some dnsName => Some dnsName
  | None => if decide (req.(Request_ServiceHeader) ≠ "") then Some req.(Request_ServiceHeader)
            else None
  end.

(** What the client gets: an answer of the balancer itself, or the one of the
    backend it was forwarded to. *)
Inductive Response :=
| NotFound | ServiceUnavailable | BadGateway (inst : Instance)
| Forwarded (inst : Instance) (status : Z).

(** [backend inst] is how the round trip to [inst] ends: with an answer, or
    with an error noticed at the given time.  [None] is a panic. *)
Definition ServeHTTP (ejectionWindow : time) (backend : Instance → Z + time)
    (req : Request) (now : time) (r : Registry) : option Response * Registry :=
  match resolveDNSName req r with
  | None => (Some NotFound, r)
  | Some dnsName =>
      match Next dnsName now r with
      | (None, r) => (None, r)
      | (Some None, r) => (Some ServiceUnavailable, r)
      | (Some (Some inst), r) =>
          match backend inst with
          | inl status => (Some (Forwarded inst status), r)
          | inr failed =>
              (Some (BadGateway inst),
               MarkUnhealthy inst.(Instance_ContainerID) ejectionWindow failed r)
          end
      end
  end.

(** ** Keeping the registry fresh *)

Definition to_instance (e : ServiceRegistryEntry) : Instance :=
  mkInstance e.(ServiceRegistryEntry_ContainerID) e.(ServiceRegistryEntry_IP)
             e.(ServiceRegistryEntry_Port).

(** [byDNS[e.DNSName] = append(byDNS[e.DNSName], ...)] for every entry. *)
Definition group (entries : list ServiceRegistryEntry) : gmap string (list Instance) :=
  foldl (λ m e, <[e.(ServiceRegistryEntry_DNSName) :=
                    listed m e.(ServiceRegistryEntry_DNSName) ++ [to_instance e]]> m) ∅ entries.
Definition host_table (routes : list DomainRoute) : gmap string string :=
  foldl (λ m rt, <[rt.(DomainRoute_Hostname) := rt.(DomainRoute_DNSName)]> m) ∅ routes.

Section freshness.
Context `{MapOrder} `{UUIDText}.

Definition resync_services (r : Registry) : M Registry :=
  re ← try (LoadBalancerRepository.ListHealthyRegistry PoolConn);
  match re with
  | Err _ => logf "loadbalancer: service resync failed, keeping previous registry contents" ;;
             mret r
  | Ok entries => t ← now; mret (ReplaceAll (group entries) t r)
  end.
Definition resync_routes (r : Registry) : M Registry :=
  rr ← try (DomainRoutingRepository.ListRoutes AdminConn);
  match rr with
  | Err _ => logf "loadbalancer: domain resync failed, keeping previous host routes" ;; mret r
  | Ok routes => mret (ReplaceHostRoutes (host_table routes) r)
  end.
Definition resync (r : Registry) : M Registry :=
  r ← resync_services r; resync_routes r.

Definition handleServiceUpdated (data : wire) (r : Registry) : M Registry :=
  match Unmarshal data with
  | None => logf "loadbalancer: decoding service.updated" ;; mret r
  | Some msg =>
      match uuid_Parse msg.(updatedMessage_ContainerID) with
      | None => logf "loadbalancer: invalid container_id in service.updated" ;; mret r
      | Some containerID =>
          re ← try (LoadBalancerRepository.GetHealthyInstanceByContainer PoolConn containerID);
          match re with
          | Err _ => logf "loadbalancer: looking up instance for service.updated" ;; mret r
          | Ok None => mret (Remove containerID r)
          | Ok (Some entry) =>
              t ← now;
              mret (Upsert entry.(ServiceRegistryEntry_DNSName) (to_instance entry) t r)
          end
      end
  end.
End freshness.

(** ** What a client gets *)

Lemma set_unhealthy_instances u r dns : instances (set_unhealthy u r) dns = instances r dns.
Proof. done. Qed.

(** C34: a request never makes the balancer panic; it is refused as unrouted
    only when neither its host is a registered domain nor a service is named,
    and as unavailable only when the service has no available instance;
    otherwise it goes to an available instance of the service it names, and
    an instance that fails it is passed over, under every service, until
    the ejection window has passed. *)
Theorem ServeHTTP_correct window backend req now r :
  wf r →
  ∃ resp r', ServeHTTP window backend req now r = (Some resp, r') ∧ wf r'
    ∧ (∀ dns, instances r' dns = instances r dns)
    ∧ match resp with
      | NotFound =>
          r.(hostRoutes) !! host_name req.(Request_Host) = None
          ∧ req.(Request_ServiceHeader) = ""
      | ServiceUnavailable =>
          ∃ dns, resolveDNSName req r = Some dns ∧ ∀ x, ¬ is_available r dns now x
      | Forwarded x status =>
          ∃ dns, resolveDNSName req r = Some dns ∧ is_available r dns now x
                 ∧ backend x = inl status
      | BadGateway x =>
          ∃ dns failed, resolveDNSName req r = Some dns ∧ is_available r dns now x
            ∧ backend x = inr failed
            ∧ ∀ dns' t y, t < failed + window →
                y.(Instance_ContainerID) = x.(Instance_ContainerID) → ¬ is_available r' dns' t y
      end.
Proof.
  intros Hwf. unfold ServeHTTP. destruct (resolveDNSName req r) as [dns|] eqn:Hres.
  - destruct (Next_correct r dns now Hwf) as (o & r1 & -> & Hav & Hno & Hwf1 & cs & ->).
    destruct o as [x|]; [|eexists ServiceUnavailable, _; naive_solver].
    destruct (backend x) as [status|failed] eqn:Hb; [by eexists (Forwarded x status), _; eauto 10|].
    eexists (BadGateway x), _. split; [done|]. split; [by apply set_unhealthy_wf|].
    split; [done|]. exists dns, failed. split; [done|]. split; [auto|]. split; [done|].
    intros dns' t y Ht Hy [_ Hej]. unfold ejected in Hej. simpl in Hej.
    rewrite Hy, lookup_insert_eq in Hej. by apply bool_decide_eq_false in Hej.
  - eexists NotFound, r. split; [done|]. split; [done|]. split; [done|].
    unfold resolveDNSName, ResolveHost in Hres. destruct (hostRoutes r !! _); [done|].
    split; [done|]. by case_decide.
Qed.

(** The port is dropped from a host, the brackets from an IPv6 address. *)
Example host_name_port :
  host_name "shop.example.com:8443" = "shop.example.com"
  ∧ host_name "shop.example.com" = "shop.example.com"
  ∧ host_name "[::1]:80" = "::1" ∧ host_name "::1" = "::1".
Proof. done. Qed.

(** ** Resync *)

Lemma group_listed entries dns :
  listed (group entries) dns
  = to_instance <$> filter (λ e, e.(ServiceRegistryEntry_DNSName) = dns) entries.
Proof.
  unfold group. enough (∀ m, listed (foldl (λ m e, <[e.(ServiceRegistryEntry_DNSName) :=
      listed m e.(ServiceRegistryEntry_DNSName) ++ [to_instance e]]> m) m entries) dns
    = listed m dns
      ++ (to_instance <$> filter (λ e, e.(ServiceRegistryEntry_DNSName) = dns) entries)) as Hm.
  { by rewrite Hm. }
  induction entries as [|e es IH]; intros m; csimpl; [by rewrite app_nil_r|].
  rewrite IH, filter_cons. unfold listed at 1.
  destruct (decide (ServiceRegistryEntry_DNSName e = dns)) as [->|Hne].
  - rewrite lookup_insert_eq. csimpl. by rewrite <-app_assoc.
  - by rewrite lookup_insert_ne.
Qed.

(** The last route given for a host name. *)
Definition last_route (routes : list DomainRoute) (host : string) : option string :=
  DomainRoute_DNSName <$> last (filter (λ rt, rt.(DomainRoute_Hostname) = host) routes).
Lemma host_table_lookup routes host : host_table routes !! host = last_route routes host.
Proof.
  unfold host_table, last_route.
  induction routes as [|rt routes IH] using rev_ind; [done|].
  rewrite foldl_app, filter_app. simpl. rewrite lookup_insert, filter_cons, filter_nil.
  case_decide; [by rewrite last_snoc|]. by rewrite app_nil_r.
Qed.

(** The database names a container in at most one service instance. *)
Definition one_instance_per_container (d : DB) : Prop :=
  NoDup (ServiceInstance_ContainerID <$> rows d.(service_instances)).

Section resync_lemmas.
Lemma registry_rows_ids d :
  (ServiceRegistryEntry_ContainerID <$> LoadBalancerRepository.registry_rows d)
  `sublist_of` (ServiceInstance_ContainerID <$> rows d.(service_instances)).
Proof.
  unfold LoadBalancerRepository.registry_rows.
  induction (rows (service_instances d)) as [|si l IH]; csimpl; [done|].
  unfold LoadBalancerRepository.registry_row at 1.
  destruct (services d !! _) as [sv|]; simpl; [|by apply sublist_cons].
  destruct (ServiceInstance_Healthy si); [by apply sublist_skip|by apply sublist_cons].
Qed.
Lemma fmap_to_instance (l : list ServiceRegistryEntry) :
  Instance_ContainerID <$> (to_instance <$> l) = ServiceRegistryEntry_ContainerID <$> l.
Proof. by rewrite <-list_fmap_compose. Qed.

Lemma group_well_listed entries :
  NoDup (ServiceRegistryEntry_ContainerID <$> entries) → well_listed (group entries).
Proof.
  intros Hnd. split.
  - intros dns. rewrite group_listed, fmap_to_instance.
    eapply sublist_NoDup; [done|]. apply fmap_sublist, sublist_filter.
  - intros d1 d2 id. rewrite !group_listed, !fmap_to_instance, !list_elem_of_fmap.
    intros (e1 & -> & [<- H1]%list_elem_of_filter) (e2 & He & [<- H2]%list_elem_of_filter).
    f_equal. apply list_elem_of_lookup in H1 as [i Hi], H2 as [j Hj].
    assert (i = j) as ->; [|congruence].
    eapply (NoDup_lookup _ i j (ServiceRegistryEntry_ContainerID e1) Hnd);
      rewrite list_lookup_fmap; [by rewrite Hi|rewrite Hj; simpl; congruence].
Qed.
Lemma registry_well_listed d :
  one_instance_per_container d → well_listed (group (LoadBalancerRepository.registry_rows d)).
Proof.
  intros Hnd. apply group_well_listed. eapply sublist_NoDup; [done|apply registry_rows_ids].
Qed.

Lemma ListHealthyRegistry_reads c :
  reads (LoadBalancerRepository.ListHealthyRegistry c)
    (λ e l, l = LoadBalancerRepository.registry_rows e.(e_db)).
Proof. apply reads_wrap. eapply reads_mono; [apply reads_query|]. by intros e a [g ->]. Qed.
(** The routes of every registered domain. *)
Definition all_routes (d : DB) : list DomainRoute :=
  x ← rows d.(domains);
  (λ sv, mkDomainRoute x.(Domain_Hostname) sv.(Service_DNSName)) <$>
    select (λ sv, sv.(Service_ApplicationID) = x.(Domain_ApplicationID)) d.(services).
Lemma ListRoutes_reads :
  reads (DomainRoutingRepository.ListRoutes AdminConn) (λ e l, l = all_routes e.(e_db)).
Proof.
  apply reads_wrap. eapply reads_mono; [apply reads_query|]. intros e a [g ->].
  unfold DomainRoutingRepository.route_rows, select.
  by rewrite filter_all by (apply Forall_true; intros; apply org_visible_bypass).
Qed.
End resync_lemmas.

Section resync_correct.
Context `{MapOrder} `{UUIDText}.

(** The registry's services are those of database [d], all seen at [t]. *)
Definition services_of (d : DB) (r : Registry) : Prop :=
  ∀ dns, instances r dns = to_instance <$>
    filter (λ e, e.(ServiceRegistryEntry_DNSName) = dns) (LoadBalancerRepository.registry_rows d).
Definition routes_of (d : DB) (r : Registry) : Prop :=
  ∀ host, ResolveHost host r = last_route (all_routes d) host.

(** Two registries that agree on what requests see of the services. *)
Definition same_services (r r' : Registry) : Prop :=
  r'.(byDNS) = r.(byDNS) ∧ r'.(lastSeen) = r.(lastSeen)
  ∧ r'.(unhealthyUntil) = r.(unhealthyUntil).

Lemma resync_services_cases r w :
  ∃ r' w', resync_services r w = (Ok r', w') ∧ w'.(w_db) = w.(w_db)
    ∧ r'.(hostRoutes) = r.(hostRoutes) ∧ (calm w → calm w')
    ∧ (¬ calm w ∧ r' = r
       ∨ r' = ReplaceAll (group (LoadBalancerRepository.registry_rows w.(w_db))) w.(w_now) r).
Proof.
  unfold resync_services. rewrite bind_try.
  destruct (ListHealthyRegistry_reads PoolConn) as [Ho Hr].
  destruct (LoadBalancerRepository.ListHealthyRegistry PoolConn w) as [[l|e] w1] eqn:E.
  - destruct (observes_run _ _ _ _ _ Ho E) as [[[= Hd _ Hn] _] Hq]. simpl.
    specialize (Hq l eq_refl). simpl in Hq. subst l. eexists _, w1. split; [done|].
    split; [done|]. split; [done|]. split; [|right; by rewrite Hn].
    intros Hc. destruct (Hr w Hc) as (l & w2 & E2 & ?). congruence.
  - destruct (observes_run _ _ _ _ _ Ho E) as [[[= Hd _ Hn] _] _]. simpl.
    eexists r, _. split; [done|]. simpl. split; [done|]. split; [done|].
    assert (¬ calm w) by (intros Hc; destruct (Hr w Hc) as (? & ? & ? & ?); congruence).
    split; [done|by left].
Qed.
Lemma resync_routes_cases r w :
  ∃ r' w', resync_routes r w = (Ok r', w') ∧ w'.(w_db) = w.(w_db)
    ∧ (¬ calm w ∧ r' = r ∨ r' = ReplaceHostRoutes (host_table (all_routes w.(w_db))) r).
Proof.
  unfold resync_routes. rewrite bind_try. destruct ListRoutes_reads as [Ho Hr].
  destruct (DomainRoutingRepository.ListRoutes AdminConn w) as [[l|e] w1] eqn:E.
  - destruct (observes_run _ _ _ _ _ Ho E) as [[[= Hd _ Hn] _] Hq]. simpl.
    specialize (Hq l eq_refl). simpl in Hq. subst l. eexists _, w1. split; [done|].
    split; [done|by right].
  - destruct (observes_run _ _ _ _ _ Ho E) as [[[= Hd _ Hn] _] _]. simpl.
    eexists r, _. split; [done|]. simpl. split; [done|].
    left. split; [|done]. intros Hc. destruct (Hr w Hc) as (? & ? & ? & ?); congruence.
Qed.

(** C36: a resync never fails and never writes the database.  Each half of the
    registry is afterwards either what it was or exactly what the database
    says, whatever happened to the other half; both are fresh when no call
    fails; and the invariant is kept. *)
Theorem resync_correct r w :
  wf r → one_instance_per_container w.(w_db) →
  ∃ r' w', resync r w = (Ok r', w') ∧ w'.(w_db) = w.(w_db) ∧ wf r'
    ∧ (same_services r r' ∨ services_of w.(w_db) r')
    ∧ (r'.(hostRoutes) = r.(hostRoutes) ∨ routes_of w.(w_db) r')
    ∧ (calm w → services_of w.(w_db) r' ∧ routes_of w.(w_db) r').
Proof.
  intros Hwf Hu. unfold resync.
  destruct (resync_services_cases r w) as (r1 & w1 & E1 & Hd1 & Hr1 & Hc1 & Hs).
  destruct (resync_routes_cases r1 w1) as (r2 & w2 & E2 & Hd2 & Ht).
  exists r2, w2. unfold mbind, M_bind. rewrite E1. split; [done|]. split; [congruence|].
  assert (wf r1 ∧ (same_services r r1 ∨ services_of w.(w_db) r1)
          ∧ (calm w → services_of w.(w_db) r1)) as (Hwf1 & Hs1 & Hs1').
  { destruct Hs as [[? ->]| ->]; [by split_and!; [|left|]|].
    split; [by apply ReplaceAll_wf, registry_well_listed|].
    assert (services_of w.(w_db) (ReplaceAll (group (LoadBalancerRepository.registry_rows
      w.(w_db))) w.(w_now) r)); [|auto]. intros dns. apply group_listed. }
  destruct Ht as [[Hc ->]| ->]; [split_and!; [done..|by left|]|].
  - intros ?. by destruct Hc; apply Hc1.
  - assert (routes_of w.(w_db) (ReplaceHostRoutes (host_table (all_routes w1.(w_db))) r1)).
    { intros host. rewrite Hd1. apply host_table_lookup. }
    split; [by apply ReplaceHostRoutes_wf|]. split; [done|]. split; [by right|]. auto.
Qed.
End resync_correct.

(** ** One service.updated event *)

Section event.
Context `{MapOrder} `{UUIDText}.

(** The rows of [registry_rows] about one container. *)
Definition rows_about (d : DB) (id : uuid) : list ServiceRegistryEntry :=
  filter (λ e, e.(ServiceRegistryEntry_ContainerID) = id) (LoadBalancerRepository.registry_rows d).

Lemma GetHealthy_cases c id w :
  ∃ r w', LoadBalancerRepository.GetHealthyInstanceByContainer c id w = (r, w')
    ∧ w'.(w_db) = w.(w_db)
    ∧ match r with
      | Ok o => o = head (rows_about w.(w_db) id)
      | Err _ => ¬ calm w
      end.
Proof.
  unfold LoadBalancerRepository.GetHealthyInstanceByContainer, catch, fmap, M_fmap,
    run_stmt, mbind, M_bind.
  destruct (w.(w_faults)) as [|[msg|] fs] eqn:Ef; unfold external; rewrite Ef; simpl.
  2:{ do 2 eexists. split; [done|]. split; [done|]. simpl. unfold calm. by rewrite Ef. }
  all: unfold execute, query_row; simpl; fold (rows_about w.(w_db) id);
    destruct (rows_about w.(w_db) id) as [|x l]; simpl; do 2 eexists; by split.
Qed.

Lemma rows_about_unique d id e e' :
  one_instance_per_container d → e ∈ rows_about d id → e' ∈ rows_about d id → e = e'.
Proof.
  intros Hu [<- H1]%list_elem_of_filter [Hid H2]%list_elem_of_filter.
  assert (NoDup (ServiceRegistryEntry_ContainerID <$> LoadBalancerRepository.registry_rows d)) as Hnd
    by (eapply sublist_NoDup; [done|apply registry_rows_ids]).
  apply list_elem_of_lookup in H1 as [i Hi], H2 as [j Hj].
  assert (i = j) as ->; [|congruence].
  eapply (NoDup_lookup _ i j (ServiceRegistryEntry_ContainerID e) Hnd);
    rewrite list_lookup_fmap; [by rewrite Hi|rewrite Hj; simpl; congruence].
Qed.

(** The registry says of container [id] what the database says, and of the
    others what it said before. *)
Definition refreshed_about (d : DB) (id : uuid) (r r' : Registry) : Prop :=
  ∀ dns x, x ∈ instances r' dns ↔
    if decide (x.(Instance_ContainerID) = id)
    then ∃ e, e ∈ LoadBalancerRepository.registry_rows d
              ∧ e.(ServiceRegistryEntry_DNSName) = dns ∧ x = to_instance e
    else x ∈ instances r dns.

Lemma Remove_refreshed d id r :
  wf r → rows_about d id = [] → refreshed_about d id r (Remove id r).
Proof.
  intros Hwf Hno dns x. unfold Remove. rewrite removeLocked_instances, list_elem_of_filter by done.
  case_decide; [|naive_solver]. split; [naive_solver|]. intros (e & He & _ & ->).
  exfalso. apply (not_elem_of_nil e). rewrite <-Hno. by apply list_elem_of_filter.
Qed.
Lemma Upsert_refreshed d id r e t :
  wf r → one_instance_per_container d → e ∈ rows_about d id →
  not_elsewhere e.(ServiceRegistryEntry_DNSName) id r →
  refreshed_about d id r (Upsert e.(ServiceRegistryEntry_DNSName) (to_instance e) t r).
Proof.
  intros Hwf Hu He Hne dns x. rewrite Upsert_elem by done.
  pose proof He as [Hid Hr]%list_elem_of_filter. simpl. rewrite Hid.
  case_decide as Hx.
  - split.
    + intros [[-> ->]|[Hin Hno]]; [eauto|]. destruct Hno; [|done]. apply Hne.
      rewrite <-Hx. by apply list_elem_of_fmap_2.
    + intros (e' & He' & <- & ->). left.
      by rewrite (rows_about_unique d id e e') by (try done; by apply list_elem_of_filter).
  - split; [intros [[-> ->]|[? _]]; naive_solver|]. intros ?. right. naive_solver.
Qed.

(** the event a controller publishes for a container is decoded and
    looked up, and leaves the registry saying of that container exactly what
    the database says (listed with its address when a healthy instance,
    absent otherwise) and nothing new of the others; when the lookup fails the
    registry is left as it was. *)
Theorem handleServiceUpdated_correct id r w :
  wf r → one_instance_per_container w.(w_db) →
  (∀ e, e ∈ rows_about w.(w_db) id → not_elsewhere e.(ServiceRegistryEntry_DNSName) id r) →
  ∃ r' w', handleServiceUpdated
      (Some (to_json {| updatedMessage_ContainerID := uuid_String id |})) r w = (Ok r', w')
    ∧ w'.(w_db) = w.(w_db) ∧ wf r'
    ∧ (¬ calm w ∧ r' = r ∨ refreshed_about w.(w_db) id r r').
Proof.
  intros Hwf Hu Hne. unfold handleServiceUpdated. rewrite wire_roundtrip by done. simpl.
  rewrite uuid_Parse_String, bind_try.
  destruct (GetHealthy_cases PoolConn id w) as (o & w1 & -> & Hd & Ho). simpl.
  destruct o as [o|e]; [subst o|by eexists r, _; eauto 10].
  destruct (rows_about w.(w_db) id) as [|e l] eqn:E; simpl.
  - eexists (Remove id r), w1. split; [done|]. split; [done|].
    split; [by apply removeLocked_wf|]. right. by apply Remove_refreshed.
  - assert (e ∈ rows_about w.(w_db) id) as He by (rewrite E; left).
    eexists _, w1. split; [done|]. split; [done|]. specialize (Hne e (list_elem_of_here e l)).
    split; [|right; by apply Upsert_refreshed]. apply Upsert_wf; [done|].
    apply list_elem_of_filter in He as [Hid _]. simpl. by rewrite Hid.
Qed.
End event.

(** ** The theorems at work *)

Definition shop_service : Service := Build_Service 60 20 "shop.web" 0.
Definition shop_instance : ServiceInstance :=
  Build_ServiceInstance 70 60 50 "10.0.0.1" 32768 true (95 * Second).
(** The sample database once its container is a healthy instance. *)
Definition servedDB : DB :=
  set_services {[60%N := shop_service]} (set_service_instances {[70%N := shop_instance]} sampleDB).
Definition servedWorld : World := set_db servedDB sampleWorld.

#[local] Existing Instance fixed_order.
#[local] Existing Instance hexUUID.

Lemma served_unique : one_instance_per_container servedDB.
Proof. apply (bool_decide_unpack _). vm_compute. exact I. Qed.

Lemma ServeHTTP_correct_witness :
  ∃ x r', ServeHTTP 10 (λ _, inr 40) (mkRequest "unknown:80" "shop") 30 twoReg
          = (Some (BadGateway x), r') ∧ ¬ is_available r' "shop" 45 x.
Proof.
  destruct (ServeHTTP_correct 10 (λ _, inr 40) (mkRequest "unknown:80" "shop") 30 twoReg twoReg_wf)
    as (resp & r' & E & _ & _ & H).
  destruct resp as [| |x|x st].
  - vm_compute in E. discriminate E.
  - vm_compute in E. discriminate E.
  - destruct H as (dns & failed & _ & _ & [= <-] & H). exists x, r'.
    split; [exact E|]. by apply H.
  - vm_compute in E. discriminate E.
Defined.
Lemma resync_correct_witness :
  ∃ r' w', resync New servedWorld = (Ok r', w') ∧ services_of servedDB r'.
Proof.
  destruct (resync_correct New servedWorld New_wf served_unique)
    as (r' & w' & E & _ & _ & _ & _ & H).
  exists r', w'. split; [exact E|]. by apply H.
Defined.
Lemma handleServiceUpdated_correct_witness :
  ∃ r' w', handleServiceUpdated
      (Some (to_json {| updatedMessage_ContainerID := uuid_String 50 |})) New servedWorld
    = (Ok r', w') ∧ mkInstance 50 "10.0.0.1" 32768 ∈ instances r' "shop.web".
Proof.
  destruct (handleServiceUpdated_correct 50 New servedWorld New_wf served_unique)
    as (r' & w' & E & _ & _ & [[[] _]|H]); [| |exists r', w'; split; [exact E|]].
  - intros e _ dns Hd. by apply not_elem_of_nil in Hd.
  - reflexivity.
  - apply H. exists (mkServiceRegistryEntry "shop.web" 50 "10.0.0.1" 32768).
    split; [|split; reflexivity].
    assert (LoadBalancerRepository.registry_rows (w_db servedWorld)
      = [mkServiceRegistryEntry "shop.web" 50 "10.0.0.1" 32768]) as -> by (vm_compute; reflexivity).
    left.
Defined.
