(* ===== verification/Certificates.v ===== *)
(** * Certificates: the load balancer's TLS side

    services/loadbalancer/internal/tls/tls.go ([SelfSigned]: [generate] and
    its cache) and the TLS listener's callback of main.go.  The cryptography of
    the standard library is the class [Crypto]; its one law is that a
    certificate carries the template it was made from. *)
From S2P Require Import Prelude Effects.
From stdpp Require Import base gmap strings list countable.
From Stdlib Require Import ZArith Lia HexString.
Open Scope Z_scope.

(** ** crypto/ecdsa, crypto/rand, crypto/x509 *)

Inductive KeyUsage := KeyUsageDigitalSignature | KeyUsageCertSign.
Inductive ExtKeyUsage := ExtKeyUsageServerAuth | ExtKeyUsageClientAuth.
(** What the program sets of an [x509.Certificate]. *)
Record Template := {
  SerialNumber : Z; CommonName : string; DNSNames : list string;
  NotBefore : time; NotAfter : time;
  KeyUsage_ : KeyUsage; ExtKeyUsage_ : list ExtKeyUsage; BasicConstraintsValid : bool }.
(** X.509 keeps whole seconds. *)
Definition seconds (t : time) : time := t - t mod Second.
Definition in_seconds (t : Template) : Template :=
  {| SerialNumber := t.(SerialNumber); CommonName := t.(CommonName); DNSNames := t.(DNSNames);
     NotBefore := seconds t.(NotBefore); NotAfter := seconds t.(NotAfter);
     KeyUsage_ := t.(KeyUsage_); ExtKeyUsage_ := t.(ExtKeyUsage_);
     BasicConstraintsValid := t.(BasicConstraintsValid) |}.

(** [Rand]: what the system's random source will give. *)
Class Crypto := {
  Rand : Type; PrivateKey : Type;
  GenerateKey : Rand → Res PrivateKey * Rand;
  rand_Int : Z → Rand → Res Z * Rand;
  CreateCertificate : Template → PrivateKey → Rand → Res string * Rand;
  ParseCertificate : string → option Template;
  CreateCertificate_parses t k g der g' :
    CreateCertificate t k g = (Ok der, g') → ParseCertificate der = Some (in_seconds t) }.

Section certificates.
Context `{Crypto}.

(** [tls.Certificate]: one certificate, no chain. *)
Record Certificate := { Certificate_Certificate : list string; Certificate_PrivateKey : PrivateKey }.

Definition wrap_err {A} (p : string) (r : Res A) : Res A :=
  match r with Ok a => Ok a | Err e => Err (Errorf p e) end.

(** ** SelfSigned *)

Definition template_of (hostname : string) (validity : time) (serial : Z) (now : time) : Template :=
  {| SerialNumber := serial; CommonName := hostname; DNSNames := [hostname];
     NotBefore := now - 5 * (60 * Second); NotAfter := now + validity;
     KeyUsage_ := KeyUsageDigitalSignature; ExtKeyUsage_ := [ExtKeyUsageServerAuth];
     BasicConstraintsValid := true |}.
Definition generate (hostname : string) (validity now : time) (g : Rand) : Res Certificate * Rand :=
  match GenerateKey g with
  | (Err e, g) => (Err (Errorf "generating key" e), g)
  | (Ok key, g) =>
      match rand_Int (2 ^ 128) g with
      | (Err e, g) => (Err (Errorf "generating serial number" e), g)
      | (Ok serial, g) =>
          match CreateCertificate (template_of hostname validity serial now) key g with
          | (Err e, g) => (Err (Errorf "creating certificate" e), g)
          | (Ok der, g) =>
              (Ok {| Certificate_Certificate := [der]; Certificate_PrivateKey := key |}, g)
          end
      end
  end.

Record SelfSigned := mkSelfSigned { certs : gmap string Certificate; validity : time }.
Definition NewSelfSigned : SelfSigned := mkSelfSigned ∅ (10 * 365 * 24 * Hour).

(** The mutex is held throughout: calls come one after the other.  The error
    names the host. *)
Definition GetCertificate (hostname : string) (now : time) (sg : SelfSigned * Rand)
    : Res Certificate * (SelfSigned * Rand) :=
  let '(s, g) := sg in
  match s.(certs) !! hostname with
  | Some cert => (Ok cert, (s, g))
  | None =>
      match generate hostname s.(validity) now g with
      | (Err e, g) => (Err (Errorf ("generating self-signed certificate for " +:+ hostname) e), (s, g))
      | (Ok cert, g) => (Ok cert, (mkSelfSigned (<[hostname := cert]> s.(certs)) s.(validity), g))
      end
  end.
(** [TLSConfig.GetCertificate] of main.go. *)
Definition handshake (serverName : string) (now : time) (sg : SelfSigned * Rand)
    : Res Certificate * (SelfSigned * Rand) :=
  if decide (serverName = "")
  then (Err (Opaque "loadbalancer: tls handshake with no SNI hostname"), sg)
  else GetCertificate serverName now sg.

(** Handshakes, each with the time it comes at. *)
Definition handshakes (l : list (string * time)) (sg : SelfSigned * Rand) : SelfSigned * Rand :=
  foldl (λ sg x, (handshake x.1 x.2 sg).2) sg l.

(** ** What a client is shown *)

(** A certificate made for [h] at [t]. *)
Definition made_for (h : string) (t : time) (c : Certificate) : Prop :=
  ∃ der parsed, c.(Certificate_Certificate) = [der] ∧ ParseCertificate der = Some parsed
    ∧ parsed.(CommonName) = h ∧ parsed.(DNSNames) = [h]
    ∧ parsed.(ExtKeyUsage_) = [ExtKeyUsageServerAuth]
    ∧ parsed.(NotBefore) < t - 299 * Second
    ∧ t + (10 * 365 * 24 * Hour - Second) < parsed.(NotAfter).

Lemma generate_made h now g c g' :
  generate h (10 * 365 * 24 * Hour) now g = (Ok c, g') → made_for h now c.
Proof.
  unfold generate. destruct (GenerateKey g) as [[key|] g1]; [|done].
  destruct (rand_Int (2 ^ 128) g1) as [[serial|] g2]; [|done].
  destruct (CreateCertificate _ key g2) as [[der|] g3] eqn:E; [|done]. intros [= <- <-].
  apply CreateCertificate_parses in E. eexists _, _. split; [done|]. split; [exact E|].
  do 3 (split; [done|]). simpl. unfold seconds.
  pose proof (Z.mod_pos_bound (now - 5 * (60 * Second)) Second eq_refl).
  pose proof (Z.mod_pos_bound (now + 10 * 365 * 24 * Hour) Second eq_refl).
  unfold Hour, Second in *. lia.
Qed.

(** The cache holds, under each name, a certificate made for it when one of
    the handshakes for it came. *)
Definition cached (past : list (string * time)) (s : SelfSigned) : Prop :=
  s.(validity) = 10 * 365 * 24 * Hour
  ∧ map_Forall (λ h c, h ≠ "" ∧ ∃ t, (h, t) ∈ past ∧ made_for h t c) s.(certs).

Lemma handshake_cached past h now sg :
  cached past sg.1 → cached (past ++ [(h, now)]) (handshake h now sg).2.1
  ∧ ∀ c, (handshake h now sg).1 = Ok c → (handshake h now sg).2.1.(certs) !! h = Some c.
Proof.
  intros [Hv Hc]. assert (map_Forall (λ h' c, h' ≠ "" ∧ ∃ t, (h', t) ∈ past ++ [(h, now)]
                                                   ∧ made_for h' t c) sg.1.(certs)) as Hc'.
  { eapply map_Forall_impl; [exact Hc|]. intros h' c (? & t & ? & ?). split; [done|].
    exists t. split; [|done]. apply elem_of_app. by left. }
  unfold handshake. case_decide; [done|]. destruct sg as [s g]. unfold GetCertificate.
  destruct (s.(certs) !! h) as [c0|] eqn:E.
  { split; [done|]. by intros c [= <-]. }
  simpl in Hv. rewrite Hv. destruct (generate h _ now g) as [[c0|] g'] eqn:Eg; [|done].
  split.
  - split; [done|]. apply map_Forall_insert_2; [|done]. split; [done|]. exists now.
    split; [apply elem_of_app; right; by apply list_elem_of_singleton|]. by eapply generate_made.
  - intros c [= <-]. apply lookup_insert_eq.
Qed.
Lemma handshake_keeps h now sg n c :
  sg.1.(certs) !! n = Some c → (handshake h now sg).2.1.(certs) !! n = Some c.
Proof.
  intros Hn. unfold handshake. case_decide; [done|]. destruct sg as [s g]. unfold GetCertificate.
  destruct (s.(certs) !! h) as [c0|] eqn:E; [done|].
  destruct (generate h _ now g) as [[c0|] g']; [|done]. simpl in *.
  rewrite lookup_insert_ne; [done|congruence].
Qed.
Lemma handshakes_keep l sg n c :
  sg.1.(certs) !! n = Some c → (handshakes l sg).1.(certs) !! n = Some c.
Proof.
  revert sg. induction l as [|[h now] l IH]; intros sg Hn; [done|]. by apply IH, handshake_keeps.
Qed.
Lemma handshakes_cached l past sg : cached past sg.1 → cached (past ++ l) (handshakes l sg).1.
Proof.
  revert past sg. induction l as [|[h now] l IH]; intros past sg Hc; simpl.
  - by rewrite (right_id_L [] (++)).
  - replace (past ++ (h, now) :: l) with ((past ++ [(h, now)]) ++ l) by by rewrite <- app_assoc.
    apply IH. by apply handshake_cached.
Qed.

(** C35: the TLS listener.  From the start of the process, the certificate a
    handshake is given names exactly the host that was asked for, was made when
    some handshake for that host came, was valid then and is for ten years, and
    every later handshake for the host gets the very same one, whatever
    other clients ask for in between and whatever the random source gives; a
    handshake without a server name gets an error. *)
Theorem certificate_stable past h now g c sg :
  handshake h now (handshakes past (NewSelfSigned, g)) = (Ok c, sg) →
  h ≠ ""
  ∧ (∃ t, (h, t) ∈ past ++ [(h, now)] ∧ made_for h t c)
  ∧ ∀ later now', handshake h now' (handshakes later sg) = (Ok c, handshakes later sg).
Proof.
  intros Hh. assert (cached past (handshakes past (NewSelfSigned, g)).1) as Hc.
  { apply (handshakes_cached past []). split; [done|]. apply map_Forall_empty. }
  destruct (handshake_cached past h now _ Hc) as [[_ Hmade] Hgot]. rewrite Hh in Hmade, Hgot.
  specialize (Hgot c eq_refl). destruct (Hmade h c Hgot) as [Hne Ht]. split; [done|].
  split; [done|]. intros later now'. pose proof (handshakes_keep later sg h c Hgot) as Hk.
  unfold handshake. rewrite decide_False by done. unfold GetCertificate.
  destruct (handshakes later sg) as [s g']. simpl in Hk. by rewrite Hk.
Qed.
End certificates.

(** ** A random source that counts, and two clients *)

Definition usage_bit (u : KeyUsage) : bool := match u with KeyUsageDigitalSignature => true | _ => false end.
Definition usage_of (b : bool) : KeyUsage := if b then KeyUsageDigitalSignature else KeyUsageCertSign.
Definition ext_bit (u : ExtKeyUsage) : bool := match u with ExtKeyUsageServerAuth => true | _ => false end.
Definition ext_of (b : bool) : ExtKeyUsage := if b then ExtKeyUsageServerAuth else ExtKeyUsageClientAuth.
#[local] Instance template_eq_dec : EqDecision Template.
Proof. unfold EqDecision, Decision. repeat decide equality. Defined.
#[local] Instance template_countable : Countable Template.
Proof.
  refine (inj_countable'
    (λ t, (t.(SerialNumber), t.(CommonName), t.(DNSNames), t.(NotBefore), t.(NotAfter),
           usage_bit t.(KeyUsage_), ext_bit <$> t.(ExtKeyUsage_), t.(BasicConstraintsValid)))
    (λ '(s, n, ds, b, a, u, es, v), Build_Template s n ds b a (usage_of u) (ext_of <$> es) v) _).
  intros [s n ds b a u es v]. simpl. f_equal; [by destruct u|].
  rewrite <- list_fmap_compose. rewrite <- (list_fmap_id es) at 2. apply list_fmap_ext.
  by intros i [] _.
Defined.
#[refine] Definition counting : Crypto := {|
  Rand := N; PrivateKey := N;
  GenerateKey := λ g, (Ok g, N.succ g);
  rand_Int := λ max g, (Ok (Z.of_N g mod max), N.succ g);
  CreateCertificate := λ t _ g, (Ok (HexString.of_Z (Zpos (encode (in_seconds t)))), N.succ g);
  ParseCertificate := λ s, match HexString.to_Z s with Zpos p => decode p | _ => None end |}.
Proof.
  intros t k g der g' Hc. assert (der = HexString.of_Z (Zpos (encode (in_seconds t)))) as -> by congruence.
  rewrite HexString.to_Z_of_Z. apply decode_encode.
Defined.
Lemma certificate_stable_witness :
  let clients := [("b.example", 100 * Second); ("", 110 * Second); ("a.example", 120 * Second)] in
  let sg := handshakes (H := counting) clients (NewSelfSigned (H := counting), 7%N) in
  ∃ c, (handshake (H := counting) "a.example" (130 * Second) sg).1 = Ok c
    ∧ ∀ later now',
        (handshake (H := counting) "a.example" now'
          (handshakes (H := counting) later
            (handshake (H := counting) "a.example" (130 * Second) sg).2)).1 = Ok c.
Proof.
  intros clients sg.
  destruct (handshake (H := counting) "a.example" (130 * Second) sg) as [[c|e] sg'] eqn:E;
    [|exfalso; clearbody sg; destruct sg as [s g]; unfold handshake, GetCertificate in E;
      simpl in E; by destruct (certs s !! "a.example")].
  exists c. split; [done|]. intros later now'.
  destruct (certificate_stable (H := counting) clients "a.example" (130 * Second) 7%N c sg' E)
    as (_ & _ & Hs).
  cbn [snd]. by rewrite (Hs later now').
Defined.
