(* ===== verification/Auth.v ===== *)
(** * Auth: roles and permissions, credentials, the authentication middleware

    internal/auth: rbac.go (the permission matrix), token.go (API keys and
    refresh tokens) and middleware.go.  Parameters: SHA-256 in hexadecimal
    ([sha256_hex]), the JWT library ([Tokens]: issue and verify), bcrypt
    ([Passwords], whose only law is that a hash verifies its password). *)
From S2P Require Import Prelude Json Schema Effects Rls Outcomes DbTenancy Encoding Sample.
From stdpp Require Import base gmap strings list.
From Stdlib Require Import ZArith Lia Ascii.
Open Scope Z_scope.
Open Scope list_scope.

(** ** Roles and permissions *)

Inductive Permission :=
| PermOrganizationManage | PermOrganizationDelete
| PermMembersInvite | PermMembersRemove | PermMembersChangeRole
| PermProjectCreate | PermProjectDelete
| PermApplicationCreate | PermApplicationDelete | PermApplicationDeploy | PermApplicationScale
| PermDeploymentRollback | PermEnvVarsWrite | PermDomainsManage
| PermLogsView | PermMetricsView | PermAuditLogsView
| PermAPIKeysCreate | PermAPIKeysRevoke | PermBillingView.
#[export] Instance Permission_eq_dec : EqDecision Permission.
Proof. solve_decision. Defined.

Definition RoleOwner : string := "owner".
Definition RoleAdmin : string := "admin".
Definition RoleDeveloper : string := "developer".
Definition RoleViewer : string := "viewer".

Definition matrix_row (owner admin developer viewer : bool) : gmap string bool :=
  <[RoleOwner := owner]> (<[RoleAdmin := admin]>
    (<[RoleDeveloper := developer]> {[RoleViewer := viewer]})).
Definition permissionMatrix (p : Permission) : gmap string bool :=
  match p with
  | PermOrganizationManage => matrix_row true true false false
  | PermOrganizationDelete => matrix_row true false false false
  | PermMembersInvite => matrix_row true true false false
  | PermMembersRemove => matrix_row true true false false
  | PermMembersChangeRole => matrix_row true true false false
  | PermProjectCreate => matrix_row true true true false
  | PermProjectDelete => matrix_row true true true false
  | PermApplicationCreate => matrix_row true true true false
  | PermApplicationDelete => matrix_row true true true false
  | PermApplicationDeploy => matrix_row true true true false
  | PermApplicationScale => matrix_row true true true false
  | PermDeploymentRollback => matrix_row true true true false
  | PermEnvVarsWrite => matrix_row true true true false
  | PermDomainsManage => matrix_row true true true false
  | PermLogsView => matrix_row true true true true
  | PermMetricsView => matrix_row true true true true
  | PermAuditLogsView => matrix_row true true false false
  | PermAPIKeysCreate => matrix_row true true false false
  | PermAPIKeysRevoke => matrix_row true true false false
  | PermBillingView => matrix_row true true false false
  end.

(** A missing map entry reads as [false]. *)
Definition HasPermission (role : string) (perm : Permission) : bool :=
  default false (permissionMatrix perm !! role).

(** The table of docs/rbac-multitenancy.md is a staircase: each permission has
    a least role, and the roles above it have it too. *)
Definition rank (r : MembershipRole) : nat :=
  match r with
  | MembershipRoleViewer => 0 | MembershipRoleDeveloper => 1
  | MembershipRoleAdmin => 2 | MembershipRoleOwner => 3
  end.
Definition least_role (p : Permission) : MembershipRole :=
  match p with
  | PermLogsView | PermMetricsView => MembershipRoleViewer
  | PermProjectCreate | PermProjectDelete | PermApplicationCreate | PermApplicationDelete
  | PermApplicationDeploy | PermApplicationScale | PermDeploymentRollback | PermEnvVarsWrite
  | PermDomainsManage => MembershipRoleDeveloper
  | PermOrganizationDelete => MembershipRoleOwner
  | _ => MembershipRoleAdmin
  end.

(** the matrix is the documented one: a role has a permission exactly when
    it is one of the four roles and at least the permission's least role; so
    a higher role never lacks what a lower one has, and any other text is
    denied everything. *)
Theorem HasPermission_correct role p :
  HasPermission role p = true ↔ ∃ r, of_text role = Some r ∧ (rank (least_role p) ≤ rank r)%nat.
Proof.
  split.
  - unfold HasPermission. intros Hp.
    assert (role = RoleOwner ∨ role = RoleAdmin ∨ role = RoleDeveloper ∨ role = RoleViewer)
      as Hrole.
    { assert (is_Some (permissionMatrix p !! role)) as Hs by (destruct (permissionMatrix p !! role); [done|by simpl in Hp]).
      unfold permissionMatrix, matrix_row in Hs. destruct p;
        rewrite !lookup_insert_is_Some', lookup_singleton_is_Some in Hs; naive_solver. }
    destruct Hrole as [->|[->|[->| ->]]];
      [exists MembershipRoleOwner|exists MembershipRoleAdmin|exists MembershipRoleDeveloper
      |exists MembershipRoleViewer]; (split; [reflexivity|]);
      destruct p; first [by vm_compute in Hp | simpl; lia].
  - intros (r & <-%to_of_text & Hr). destruct r, p; first [reflexivity | simpl in Hr; lia].
Qed.

(** ** Random base-62 strings *)

Definition apiKeyPrefix : string := "pk_live_".
Definition base62Alphabet : list ascii := String.list_ascii_of_string
  "0123456789ABCDEFGHIJKLMNOPQRSTUVWXYZabcdefghijklmnopqrstuvwxyz".
Definition maxUnbiased : Z := 62 * 4.

(** One pass over the buffer: [break] at [n] characters. *)
Fixpoint consume (n : nat) (out : list ascii) (buf : list Z) : list ascii :=
  match buf with
  | [] => out
  | b :: buf =>
      if decide (maxUnbiased ≤ b) then consume n out buf
      else
        let out := out ++ option_list (base62Alphabet !! Z.to_nat (b mod 62)) in
        if decide (length out = n) then out else consume n out buf
  end.
(** [reads] are the buffers the random source fills, one [Read] each; [None]
    when it has no more to give (an error of the source, or the loop still
    running). *)
Fixpoint random_loop (n : nat) (out : list ascii) (reads : list (list Z)) : option (list ascii) :=
  if decide (length out < n)%nat then
    match reads with
    | [] => None
    | buf :: reads => random_loop n (consume n out buf) reads
    end
  else Some out.
Definition randomBase62 (n : nat) (reads : list (list Z)) : option string :=
  String.string_of_list_ascii <$> random_loop n [] reads.

Definition accepted (reads : list (list Z)) : list Z := filter (λ b, b < maxUnbiased) (concat reads).
Definition base62_digit (b : Z) : list ascii := option_list (base62Alphabet !! Z.to_nat (b mod 62)).

Lemma base62_digit_one b : 0 ≤ b → ∃ c, base62_digit b = [c] ∧ c ∈ base62Alphabet.
Proof.
  intros Hb. unfold base62_digit.
  destruct (lookup_lt_is_Some_2 base62Alphabet (Z.to_nat (b mod 62))) as [c Hc].
  { change (length base62Alphabet) with 62%nat. pose proof (Z.mod_pos_bound b 62). lia. }
  rewrite Hc. exists c. split; [done|]. by eapply list_elem_of_lookup_2.
Qed.
Definition digits (l : list Z) : list ascii := l ≫= base62_digit.
Lemma digits_length l : Forall (λ b, 0 ≤ b) l → length (digits l) = length l.
Proof.
  unfold digits. induction 1 as [|b l Hb _ IH]; [done|]. csimpl.
  destruct (base62_digit_one b Hb) as (c & -> & _). simpl. by rewrite IH.
Qed.
Lemma digits_take l k : Forall (λ b, 0 ≤ b) l → digits (take k l) = take k (digits l).
Proof.
  intros Hl. revert k. unfold digits. induction Hl as [|b l Hb _ IH]; intros [|k]; try done. csimpl.
  destruct (base62_digit_one b Hb) as (c & -> & _). simpl. by rewrite IH.
Qed.
Lemma digits_app l1 l2 : digits (l1 ++ l2) = digits l1 ++ digits l2.
Proof. unfold digits. apply bind_app. Qed.

Lemma consume_eq n out buf :
  Forall (λ b, 0 ≤ b) buf → (length out < n)%nat →
  consume n out buf = take n (out ++ digits (filter (λ b, b < maxUnbiased) buf)).
Proof.
  intros Hbuf. revert out. induction Hbuf as [|b buf Hb Hbuf IH]; intros out Hout; simpl.
  - by rewrite app_nil_r, take_ge by lia.
  - rewrite filter_cons. destruct (decide (maxUnbiased ≤ b)).
    + rewrite (decide_False (P:=b < maxUnbiased)) by lia. by apply IH.
    + rewrite (decide_True (P:=b < maxUnbiased)) by lia. fold (base62_digit b).
      destruct (base62_digit_one b Hb) as (c & Hc & _). rewrite Hc.
      unfold digits. csimpl. rewrite Hc. fold (digits (filter (λ b, b < maxUnbiased) buf)).
      rewrite (app_assoc out [c]). rewrite length_app. simpl. case_decide as Hn.
      * rewrite take_app_le, take_ge by (rewrite length_app; simpl; lia). done.
      * apply IH. rewrite length_app. simpl. lia.
Qed.
Lemma random_loop_eq n out reads :
  Forall (Forall (λ b, 0 ≤ b)) reads → (length out ≤ n)%nat →
  random_loop n out reads
  = if decide (n ≤ length (out ++ digits (accepted reads)))%nat
    then Some (take n (out ++ digits (accepted reads))) else None.
Proof.
  intros Hr. revert out. induction Hr as [|buf reads Hbuf Hr IH]; intros out Hout; simpl.
  - unfold accepted. simpl. rewrite app_nil_r.
    destruct (decide (length out < n)%nat), (decide (n ≤ length out)%nat); try lia; [done|].
    by rewrite take_ge by lia.
  - unfold accepted. simpl. rewrite filter_app, digits_app, app_assoc. fold (accepted reads).
    destruct (decide (length out < n)%nat) as [Hlt|Hge].
    + rewrite consume_eq by done. set (out' := out ++ digits _).
      rewrite IH by (rewrite length_take; lia).
      destruct (decide (n ≤ length out')%nat) as [Hle|Hgt].
      * rewrite !length_app, length_take. rewrite !decide_True by lia.
        rewrite take_app_le by (rewrite length_take; lia). rewrite take_take, Nat.min_id.
        by rewrite take_app_le.
      * by rewrite (take_ge out') by lia.
    + rewrite decide_True by (rewrite !length_app; lia).
      rewrite <-app_assoc, take_app_le, take_ge by lia. done.
Qed.

(** How many accepted bytes give each character. *)
Definition preimages (c : ascii) : list Z :=
  filter (λ b, base62_digit b = [c]) (seqZ 0 maxUnbiased).

(** an API key's random part.  Whatever the source gives, the loop ends as
    soon as [n] of its bytes are below 248, with exactly [n] characters of the
    alphabet: those of these [n] bytes, in order; and rejecting the rest makes
    it fair: every character stands for exactly four of the accepted bytes. *)
Theorem randomBase62_correct n reads :
  Forall (Forall (λ b, 0 ≤ b < 256)) reads →
  match randomBase62 n reads with
  | None => (length (accepted reads) < n)%nat
  | Some s =>
      (n ≤ length (accepted reads))%nat
      ∧ String.list_ascii_of_string s = digits (take n (accepted reads))
      ∧ String.length s = n
      ∧ Forall (λ c, c ∈ base62Alphabet ∧ length (preimages c) = 4%nat) (String.list_ascii_of_string s)
  end.
Proof.
  intros Hr. assert (Forall (λ b, 0 ≤ b) (accepted reads)) as Hacc.
  { apply Forall_forall. intros b [_ Hb]%list_elem_of_filter.
    apply list_elem_of_In, in_concat in Hb as (buf & Hbuf%list_elem_of_In & Hb%list_elem_of_In).
    rewrite Forall_forall in Hr. specialize (Hr buf Hbuf). rewrite Forall_forall in Hr.
    specialize (Hr b Hb). simpl in Hr. lia. }
  unfold randomBase62. rewrite random_loop_eq; [|by eapply Forall_impl; [exact Hr|];
    intros buf Hb; eapply Forall_impl; [exact Hb|]; simpl; lia|simpl; lia].
  change ([] ++ digits (accepted reads)) with (digits (accepted reads)).
  rewrite digits_length by done. case_decide as Hn; simpl; [|lia].
  rewrite String.list_ascii_of_string_of_list_ascii, <-digits_take by done. split; [done|]. split; [done|].
  assert (length (digits (take n (accepted reads))) = n) as Hlen.
  { rewrite digits_length by (by apply Forall_take). rewrite length_take. lia. }
  split.
  { rewrite <-(String.list_ascii_of_string_of_list_ascii (digits _)) in Hlen.
    rewrite <-Hlen at 2. clear. generalize (String.string_of_list_ascii (digits (take n (accepted reads)))).
    intros s. induction s as [|c s IH]; [done|]. simpl. by rewrite IH. }
  assert (Forall (λ c, length (preimages c) = 4%nat) base62Alphabet) as Hfair
    by (apply (bool_decide_unpack _); vm_compute; exact I).
  rewrite Forall_forall in Hfair. apply Forall_forall. intros c Hc.
  assert (c ∈ base62Alphabet) as Hin; [|auto].
  unfold digits in Hc. apply list_elem_of_bind in Hc as (b & Hc & Hb).
  assert (0 ≤ b) as Hb0 by (rewrite Forall_forall in Hacc; apply Hacc; by eapply subseteq_take).
  destruct (base62_digit_one b Hb0) as (c' & Hd & ?). rewrite Hd in Hc. apply list_elem_of_singleton in Hc; congruence.
Qed.

(** ** Credentials *)

Definition AccessTokenTTL : time := 15 * 60 * Second.
Definition RefreshTokenTTL : time := 30 * 24 * Hour.

(** The cryptographic libraries.  [jwt_issue u exp] is the signed token for a
    user with its expiry; [jwt_verify] checks signature and expiry at a time. *)
Class Credentials := {
  sha256_hex : string → string;
  jwt_issue : uuid → time → string;
  jwt_verify : string → time → option uuid;
  bcrypt_hash : string → option string;
  bcrypt_verify : string → string → option bool }.

Section credentials.
Context `{Credentials}.

Definition HashRefreshToken (token : string) : string := sha256_hex token.
Definition HashAPIKey (key : string) : string := sha256_hex key.

(** [raw] is what the random source gave; [None] when it failed. *)
Definition GenerateRefreshToken (raw : option (list Z)) : option (string * string) :=
  raw ← raw;
  let token := String.string_of_list_ascii (EncodeToString raw) in
  Some (token, HashRefreshToken token).
Definition GenerateAPIKey (reads : list (list Z)) : option (string * string) :=
  suffix ← randomBase62 32 reads;
  let key := apiKeyPrefix +:+ suffix in
  Some (key, HashAPIKey key).

(** The token and when it expires, 15 minutes on. *)
Definition IssueAccessToken (userID : uuid) (now : time) : string * time :=
  let expiresAt := now + AccessTokenTTL in (jwt_issue userID expiresAt, expiresAt).
Definition VerifyAccessToken (token : string) (now : time) : option uuid := jwt_verify token now.

Definition HashPassword (password : string) : option string := bcrypt_hash password.
Definition VerifyPassword (hash password : string) : option bool := bcrypt_verify hash password.

(** ** The middleware *)

(** Who is calling: the user, and for an API key the one organization it is
    scoped to. *)
Record Identity := mkIdentity { UserID : uuid; APIKeyOrgID : option uuid }.

(** [strings.HasPrefix], [strings.TrimPrefix] *)
Fixpoint strip_prefix (prefix s : string) : option string :=
  match prefix, s with
  | "", _ => Some s
  | String c prefix, String c' s => if decide (c = c') then strip_prefix prefix s else None
  | String _ _, "" => None
  end.

(** services/apiserver/internal/server/server.go: [apiKeyLookupAdapter] *)
Definition LookupActiveByHash (hash : string) : M (uuid * uuid) :=
  key ← APIKeyRepository.LookupActiveByHash PoolConn hash;
  mret (key.(APIKey_CreatedBy), key.(APIKey_OrgID)).

(** The identity the next handler runs with; [None] is the 401 answer. *)
Definition Authenticate (header : string) : M (option Identity) :=
  match strip_prefix "Bearer " header with
  | None => mret None
  | Some token =>
      match strip_prefix apiKeyPrefix token with
      | Some _ =>
          r ← try (LookupActiveByHash (HashAPIKey token));
          match r with
          | Err _ => mret None
          | Ok (userID, orgID) => mret (Some (mkIdentity userID (Some orgID)))
          end
      | None =>
          t ← now;
          match VerifyAccessToken token t with
          | None => mret None
          | Some userID => mret (Some (mkIdentity userID None))
          end
      end
  end.

Lemma strip_prefix_app p s : strip_prefix p (p +:+ s) = Some s.
Proof. induction p as [|c p IH]; [done|]. simpl. by rewrite decide_True. Qed.

Definition live_keys (hash : string) (d : DB) : list APIKeyRow :=
  select (λ r, r.(APIKeyRow_KeyHash) = hash
               ∧ r.(APIKeyRow_key).(APIKey_RevokedAt) = None) d.(api_keys).
Lemma LookupActive_cases hash w :
  ∃ r w', LookupActiveByHash hash w = (r, w') ∧ same w w'
    ∧ match r with
      | Ok (u, o) => ∃ k ks, live_keys hash w.(w_db) = k :: ks
          ∧ u = k.(APIKeyRow_key).(APIKey_CreatedBy) ∧ o = k.(APIKeyRow_key).(APIKey_OrgID)
      | Err _ => calm w → live_keys hash w.(w_db) = []
      end.
Proof.
  unfold LookupActiveByHash, APIKeyRepository.LookupActiveByHash, or_not_found.
  unfold mbind, M_bind, catch.
  destruct (run_stmt _ _ w) as [r w'] eqn:E.
  destruct (observes_run _ _ _ _ _ (observes_query_row _ _) E) as [Hs Hq].
  destruct r as [k|e]; simpl.
  - do 2 eexists. split; [done|]. split; [done|].
    destruct (Hq k eq_refl) as (g & l & Hl). simpl in Hl.
    change (APIKeyRow_key <$> live_keys hash w.(w_db) = k :: l) in Hl.
    destruct (live_keys hash (w_db w)) as [|k' ks]; [done|]. injection Hl as <- <-. by exists k', ks.
  - assert (calm w → live_keys hash (w_db w) = []) as Hk.
    { intros Hc. rewrite run_stmt_calm in E by done. unfold execute, query_row in E.
      change (select _ (api_keys (w_db w))) with (live_keys hash (w_db w)) in E.
      destruct (live_keys hash (w_db w)); [done|]. simpl in E. by simplify_eq. }
    destruct (errors_Is e ErrNoRows); do 2 eexists; by split_and!.
Qed.

Lemma Authenticate_same header w : same w (Authenticate header w).2.
Proof.
  unfold Authenticate. destruct (strip_prefix "Bearer " header) as [token|]; [|done].
  destruct (strip_prefix apiKeyPrefix token).
  - setoid_rewrite bind_try. destruct (LookupActive_cases (HashAPIKey token) w) as (r & w' & -> & Hs & _).
    simpl. by destruct r as [[u o]|e].
  - unfold mbind, M_bind. simpl. by destruct (VerifyAccessToken _ _).
Qed.

(** authenticating changes nothing and cannot fail otherwise than by the
    401 answer.  A key is accepted only when an unrevoked row carries its
    hash, and the caller is then that row's creator, scoped to that row's
    organization; a revoked or unknown key is always refused, and when no
    call fails a live one is always accepted; a caller with an access token
    is the user the token verifies as, without such a scope. *)
Theorem Authenticate_correct header w :
  ∃ id w', Authenticate header w = (Ok id, w') ∧ same w w'
    ∧ match strip_prefix "Bearer " header with
      | None => id = None
      | Some token =>
          match strip_prefix apiKeyPrefix token with
          | Some _ =>
              let live k := k.(APIKeyRow_KeyHash) = sha256_hex token
                            ∧ k.(APIKeyRow_key).(APIKey_RevokedAt) = None in
              (∀ i, id = Some i → ∃ n k, w.(w_db).(api_keys) !! n = Some k ∧ live k
                  ∧ i = mkIdentity k.(APIKeyRow_key).(APIKey_CreatedBy)
                                   (Some k.(APIKeyRow_key).(APIKey_OrgID)))
              ∧ (calm w → id = None → ∀ n k, w.(w_db).(api_keys) !! n = Some k → ¬ live k)
          | None => id = (λ u, mkIdentity u None) <$> jwt_verify token w.(w_now)
          end
      end.
Proof.
  unfold Authenticate. destruct (strip_prefix "Bearer " header) as [token|];
    [|by do 2 eexists].
  destruct (strip_prefix apiKeyPrefix token).
  - setoid_rewrite bind_try. destruct (LookupActive_cases (HashAPIKey token) w) as (r & w' & -> & Hs & Hr).
    simpl. destruct r as [[u o]|e]; do 2 eexists; (split; [done|]); (split; [done|]).
    + destruct Hr as (k & ks & Hk & -> & ->). split; [|done]. intros i [= <-].
      assert (k ∈ k :: ks) as Hin by left. rewrite <-Hk in Hin.
      apply elem_of_select in Hin as [Hlive [n Hn]]. by exists n, k.
    + split; [done|]. intros Hc _ n k Hn Hlive.
      assert (k ∈ ([] : list APIKeyRow)) as []%not_elem_of_nil.
      rewrite <-(Hr Hc). apply elem_of_select. eauto.
  - unfold mbind, M_bind. simpl. unfold VerifyAccessToken.
    destruct (jwt_verify token (w_now w)); by do 2 eexists.
Qed.
End credentials.

(** ** The random part on a source that gives two bytes, one of them rejected. *)
Lemma randomBase62_correct_witness :
  match randomBase62 1 [[250; 3]; [61; 7]] with
  | None => False
  | Some s => String.length s = 1%nat
  end.
Proof.
  assert (Forall (Forall (λ b, 0 ≤ b < 256)) [[250; 3]; [61; 7]]) as Hr by (repeat constructor; lia).
  pose proof (randomBase62_correct 1 [[250; 3]; [61; 7]] Hr) as Hs.
  destruct (randomBase62 1 [[250; 3]; [61; 7]]) as [s|] eqn:E; [apply Hs|].
  vm_compute in E. discriminate E.
Defined.
