(* ===== verification/Concrete.v ===== *)
(** * Concrete: the parameters of the model, instantiated

    The page cursors and a credential scheme to evaluate the handlers with:
    tokens are the user's id, hashing is the identity. *)
From S2P Require Import Prelude Json Schema Effects Rls DbWorkload Cursor Auth.
From stdpp Require Import base gmap strings list countable.
From Stdlib Require Import ZArith HexString.
Open Scope Z_scope.

Definition hexCursor : CursorText := cursorText (H := hexUUID) (H0 := hexTime).

Definition plainCredentials : Credentials :=
  {| sha256_hex := id;
     jwt_issue := λ u _, uuid_String (UUIDText := hexUUID) u;
     jwt_verify := λ s _, uuid_Parse (UUIDText := hexUUID) s;
     bcrypt_hash := Some;
     bcrypt_verify := λ h p, Some (bool_decide (h = p)) |}.
