(* ===== verification/ApiCore.v ===== *)
(** * ApiCore: what the handlers of the API server share

    services/apiserver/internal/server: the error envelope (server.go), the
    permission checks (permission.go), the quota checks (quota.go) and the
    audit log (audit.go).  A handler is a computation that gives a reply; the
    identity of the caller, the path and the decoded body are its arguments.
    An authenticated request's transaction runs over [TxConn]. *)
From S2P Require Import Prelude Json Schema Effects Rls Outcomes DbTenancy DbWorkload.
From S2P Require Import DbCluster Encoding Auth Sample.
From stdpp Require Import base gmap strings list.
From Stdlib Require Import ZArith Lia.
Open Scope Z_scope.

(** ** Replies and errors (server.go) *)

Record Reply := mkReply { reply_status : Z; reply_body : option json }.
Definition writeJSON (status : Z) (body : json) : Reply := mkReply status (Some body).
Definition noContent : Reply := mkReply 204 None.

Definition errNotFound (message : string) : error := APIError 404 "not_found" message.
Definition errForbidden (message : string) : error := APIError 403 "forbidden" message.
Definition errConflict (message : string) : error := APIError 409 "conflict" message.
Definition errBadRequest (message : string) : error := APIError 400 "invalid_body" message.
Definition errUnprocessable (message : string) : error := APIError 422 "missing_field" message.
Definition errUnauthorized (message : string) : error := APIError 401 "unauthorized" message.
Definition errLastOwner (message : string) : error := APIError 422 "last_owner" message.
Definition errQuotaExceeded (message : string) : error := APIError 422 "quota_exceeded" message.

Definition mapDBError (err : error) (notFoundMessage conflictMessage : string) : error :=
  if errors_Is err ErrNotFound then errNotFound notFoundMessage
  else if errors_Is err ErrConflict then errConflict conflictMessage
  else err.
(** [return mapDBError(err, nf, cf)] when [m] fails. *)
Definition mapped {A} (nf cf : string) (m : M A) : M A :=
  catch m (λ e, fail (mapDBError e nf cf)).

Definition errorBody (code message : string) : json :=
  JObject [("error", JObject [("code", JString code); ("message", JString message)])].
(** [err.( *apiError)]: only an API error that nothing wraps is shown. *)
Definition writeError (err : error) : M Reply :=
  match err with
  | APIError status code message => mret (writeJSON status (errorBody code message))
  | _ => logf "unhandled error" ;;
         mret (writeJSON 500 (errorBody "internal_error" "an unexpected error occurred"))
  end.
(** A handler's body, its error written out. *)
Definition respond (m : M Reply) : M Reply := catch m writeError.

(** The decoded path and body: [None] is the error of [uuid.Parse] or of
    [Decode]. *)
Definition path_id `{UUIDText} (name s : string) : M uuid :=
  match uuid_Parse s with
  | Some u => mret u
  | None => fail (errBadRequest (name +:+ " must be a valid UUID"))
  end.
Definition decode_body {A} `{!Into A, !Inhabited A} (what : string) (body : wire) : M A :=
  match Unmarshal body with
  | Some a => mret a
  | None => fail (errBadRequest ("request body must be valid JSON with " +:+ what))
  end.

(** ** Permissions (permission.go) *)

Definition noOrganization : string := "no organization with this id that you belong to".

Definition requireAPIKeyOrgMatch (id : Identity) (orgID : uuid) : M unit :=
  match id.(APIKeyOrgID) with
  | Some keyOrgID => if decide (keyOrgID = orgID) then mret tt else fail (errNotFound noOrganization)
  | None => mret tt
  end.
Definition requirePermission (c : Conn) (id : Identity) (orgID : uuid) (perm : Permission)
    : M unit :=
  requireAPIKeyOrgMatch id orgID ;;
  role ← MembershipRepository.RoleForUser c id.(UserID) orgID;
  if HasPermission (to_text role) perm then mret tt
  else fail (errForbidden "your role does not permit this action").
Definition requireMembership (c : Conn) (id : Identity) (orgID : uuid) : M string :=
  requireAPIKeyOrgMatch id orgID ;;
  role ← MembershipRepository.RoleForUser c id.(UserID) orgID;
  mret (to_text role).
Definition requirePlatformAdmin (c : Conn) (userID : uuid) : M unit :=
  memberships ← MembershipRepository.ListForUser c userID;
  if decide (Exists (λ m, to_text m.(Membership_Role) = RoleOwner
                          ∨ to_text m.(Membership_Role) = RoleAdmin) memberships)
  then mret tt
  else fail (errForbidden "viewing nodes requires an owner or admin role in at least one organization").

(** ** Quotas (quota.go) *)

Definition of_limit (used max : Z) : string := Itoa used +:+ "/" +:+ Itoa max.

Definition checkProjectQuota (c : Conn) (orgID : uuid) : M unit :=
  quota ← QuotaRepository.Get c orgID;
  usage ← QuotaRepository.CurrentUsage c orgID;
  if decide (quota.(ResourceQuota_MaxProjects) ≤ usage.(ResourceUsage_Projects))
  then fail (errQuotaExceeded ("organization is at its project limit ("
    +:+ of_limit usage.(ResourceUsage_Projects) quota.(ResourceQuota_MaxProjects) +:+ ")"))
  else mret tt.
Definition checkDeploymentQuota (c : Conn) (orgID : uuid) : M unit :=
  quota ← QuotaRepository.Get c orgID;
  usage ← QuotaRepository.CurrentUsage c orgID;
  if decide (quota.(ResourceQuota_MaxDeploymentsPerDay) ≤ usage.(ResourceUsage_DeploymentsToday))
  then fail (errQuotaExceeded ("organization has reached its daily deployment limit ("
    +:+ of_limit usage.(ResourceUsage_DeploymentsToday) quota.(ResourceQuota_MaxDeploymentsPerDay)
    +:+ " in the last 24h)"))
  else mret tt.

(** The arithmetic on [int], which wraps around. *)
Definition resultingContainers (usage current newReplicas : Z) : Z :=
  wrap64 (usage - current + newReplicas).
Definition resultingResource (usage per old newReplicas : Z) : Z :=
  wrap64 (usage - wrap64 (per * old) + wrap64 (per * newReplicas)).

(** The active containers of the application's latest deployment. *)
Definition currentAppContainers (c : Conn) (appID : uuid) : M Z :=
  r ← try (DeploymentRepository.Latest c appID);
  match r with
  | Err e => if errors_Is e ErrNotFound then mret 0 else fail e
  | Ok latest => ContainerRepository.CountActiveByDeployment c latest.(Deployment_ID)
  end.
Definition checkResourceQuota (c : Conn) (orgID : uuid) (app : Application) (newReplicas : Z)
    : M unit :=
  quota ← QuotaRepository.Get c orgID;
  usage ← QuotaRepository.CurrentUsage c orgID;
  current ← currentAppContainers c app.(Application_ID);
  let containers := resultingContainers usage.(ResourceUsage_Containers) current newReplicas in
  let cpu := resultingResource usage.(ResourceUsage_CPUMillicores)
    app.(Application_CPUMillicores) app.(Application_ReplicasDesired) newReplicas in
  let memory := resultingResource usage.(ResourceUsage_MemoryMB)
    app.(Application_MemoryMB) app.(Application_ReplicasDesired) newReplicas in
  if decide (quota.(ResourceQuota_MaxContainers) < containers)
  then fail (errQuotaExceeded ("this would use "
    +:+ of_limit containers quota.(ResourceQuota_MaxContainers) +:+ " containers for the organization"))
  else if decide (quota.(ResourceQuota_MaxCPUMillicores) < cpu)
  then fail (errQuotaExceeded ("this would use " +:+ Itoa cpu +:+ "m/"
    +:+ Itoa quota.(ResourceQuota_MaxCPUMillicores) +:+ "m cpu for the organization"))
  else if decide (quota.(ResourceQuota_MaxMemoryMB) < memory)
  then fail (errQuotaExceeded ("this would use " +:+ Itoa memory +:+ "MB/"
    +:+ Itoa quota.(ResourceQuota_MaxMemoryMB) +:+ "MB memory for the organization"))
  else mret tt.

(** ** Audit log (audit.go) *)

(** An empty metadata map stays nil; a map is written with its keys sorted. *)
Definition recordAudit (c : Conn) (orgID actorUserID : uuid) (action targetType : string)
    (targetID : uuid) (metadata : list (string * json)) : M unit :=
  AuditLogRepository.Record_ c orgID (Some actorUserID) action targetType targetID
    (match metadata with [] => None | _ => Some (JObject metadata) end).

(** ** What these checks establish *)

(** The organizations a transaction sees: the current one, and those its user
    is a member of. *)
Definition can_see (e : Env) (o : uuid) : Prop :=
  e.(e_sess).(app_current_org_id) = Some o
  ∨ ∃ u, e.(e_sess).(app_current_user_id) = Some u ∧ is_member e.(e_db) u o.
Lemma can_see_spec e g o : org_visible (stmt_in TxConn e g) e.(e_db) o ↔ can_see e o.
Proof. rewrite org_visible_spec. unfold can_see. simpl. naive_solver. Qed.

Definition member_role (d : DB) (u o : uuid) (r : MembershipRole) : Prop :=
  ∃ i m, d.(memberships) !! i = Some m ∧ m.(Membership_OrgID) = o
         ∧ m.(Membership_UserID) = u ∧ m.(Membership_Role) = r.
(** An API key is good for its own organization only. *)
Definition key_ok (id : Identity) (o : uuid) : Prop :=
  id.(APIKeyOrgID) = None ∨ id.(APIKeyOrgID) = Some o.
(** The caller may do [p] in [o]. *)
Definition permitted (d : DB) (id : Identity) (o : uuid) (p : Permission) : Prop :=
  key_ok id o ∧ ∃ r, member_role d id.(UserID) o r ∧ HasPermission (to_text r) p = true.

Lemma member_role_member d u o r : member_role d u o r → is_member d u o.
Proof. intros (i & m & ? & ? & ? & _). apply is_member_spec. eauto. Qed.

Lemma refails_mapped {A} nf cf : refails (λ e, @fail A (mapDBError e nf cf)).
Proof. intros e w. by eexists. Qed.
Lemma refails_not_found {A} er : refails (λ e, if errors_Is e ErrNotFound then @fail A er else fail e).
Proof. apply (refails_if (λ e, errors_Is e ErrNotFound) (λ _, er) id). Qed.
#[export] Hint Resolve refails_mapped refails_not_found : effects.
Lemma gives_mapped {A} nf cf (m : M A) Q : gives m Q → gives (mapped nf cf m) Q.
Proof. intros. apply gives_catch; [done|apply refails_mapped]. Qed.

Lemma gives_org_of {A} p c (t : DB → table A) org id :
  gives (or_not_found p (run_stmt c (org_of t org id)))
    (λ e o e', e' = e ∧ ∃ x g, t e.(e_db) !! id = Some x ∧ o = org x
                               ∧ org_visible (stmt_in c e g) e.(e_db) o).
Proof.
  apply gives_catch; [|apply refails_or_not_found].
  eapply gives_mono; [apply gives_query_row|]. intros e o e' (-> & g & l & Hl). split; [done|].
  destruct (t (e_db e) !! id) as [x|]; simpl in Hl; [|done].
  rewrite filter_cons in Hl. case_decide; [|done]. simplify_eq. eauto.
Qed.

Lemma gives_RoleForUser c u o :
  gives (MembershipRepository.RoleForUser c u o)
    (λ e r e', e' = e ∧ member_role e.(e_db) u o r).
Proof.
  apply gives_catch; [|apply refails_or_not_found].
  eapply gives_mono; [apply gives_query_row|]. intros e r e' (-> & g & l & Hl). split; [done|].
  assert (r ∈ Membership_Role <$> select (λ m, (m.(Membership_UserID) = u ∧ m.(Membership_OrgID) = o)
    ∧ membership_visible (stmt_in c e g) e.(e_db) m) e.(e_db).(memberships)) as Hr
    by (rewrite Hl; left).
  apply list_elem_of_fmap in Hr as (m & -> & [[[<- <-] _] [i Hi]]%elem_of_select).
  by exists i, m.
Qed.
Lemma gives_KeyMatch id o :
  gives (requireAPIKeyOrgMatch id o) (λ e _ e', e' = e ∧ key_ok id o).
Proof.
  unfold requireAPIKeyOrgMatch, key_ok. destruct (APIKeyOrgID id) as [k|]; [case_decide; subst|];
    intros w [] w' [=]; subst; auto.
Qed.
Lemma gives_requirePermission c id o p :
  gives (requirePermission c id o p) (λ e _ e', e' = e ∧ permitted e.(e_db) id o p).
Proof.
  eapply gives_mono.
  - apply gives_bind; [apply gives_KeyMatch|]. intros a.
    apply gives_bind; [apply gives_RoleForUser|]. intros role. apply gives_check.
  - simpl. unfold permitted. naive_solver.
Qed.
Lemma gives_requireMembership c id o :
  gives (requireMembership c id o)
    (λ e _ e', e' = e ∧ key_ok id o ∧ is_member e.(e_db) id.(UserID) o).
Proof.
  eapply gives_mono.
  - apply gives_bind; [apply gives_KeyMatch|]. intros a.
    apply gives_bind; [apply gives_RoleForUser|]. intros role. apply gives_ret.
  - simpl. intros e r e' (_ & ? & [-> ?] & role & ? & [-> Hm] & _ & ->).
    split; [done|]. split; [done|]. by eapply member_role_member.
Qed.

(** The audit entry a successful mutation leaves. *)
Definition audit_entry (g o u : uuid) (action ttype : string) (tid : uuid)
    (metadata : list (string * json)) (t : time) : AuditLogEntry :=
  {| AuditLogEntry_ID := g; AuditLogEntry_OrgID := o; AuditLogEntry_ActorUserID := Some u;
     AuditLogEntry_Action := action; AuditLogEntry_TargetType := ttype;
     AuditLogEntry_TargetID := tid; AuditLogEntry_Metadata := Some (JObject metadata);
     AuditLogEntry_CreatedAt := t |}.
Definition audited (o u : uuid) (action ttype : string) (tid : uuid)
    (metadata : list (string * json)) (t : time) (d d' : DB) : Prop :=
  ∃ g, d.(audit_logs) !! g = None
       ∧ d' = set_audit_logs (<[g := audit_entry g o u action ttype tid metadata t]> d.(audit_logs)) d.
Lemma gives_recordAudit c o u action ttype tid metadata :
  gives (recordAudit c o u action ttype tid metadata)
    (λ e _ e', ∃ d, audited o u action ttype tid metadata e.(e_now) e.(e_db) d ∧ e' = with_db e d).
Proof.
  apply gives_wrap. eapply gives_mono; [apply gives_run_stmt|].
  intros e [] e' (g & d & Hst & ->). exists d. split; [|done].
  unfold AuditLogRepository.Record_sql in Hst. stmt_inv Hst. exists g.
  split; [done|]. unfold audit_entry. by destruct metadata.
Qed.
#[export] Hint Resolve gives_org_of gives_RoleForUser gives_requirePermission
  gives_requireMembership gives_recordAudit : gives.
