(* ===== verification/ApiOrgs.v ===== *)
(** * ApiOrgs: organizations, members, projects, API keys, quotas, audit log

    services/apiserver/internal/server: handlers_organizations.go,
    handlers_members.go, handlers_projects.go, handlers_api_keys.go,
    handlers_quota.go, handlers_nodes.go and handlers_audit_logs.go. *)
From S2P Require Import Prelude Json Schema Effects Rls Outcomes DbTenancy DbWorkload.
From S2P Require Import DbCluster Slug Encoding Auth ApiCore Sample.
From stdpp Require Import base gmap strings list.
From Stdlib Require Import ZArith Lia.
Open Scope Z_scope.

Section responses.
Context `{UUIDText} `{TimeText}.
Definition jid (u : uuid) : json := JString (uuid_String u).
Definition jtime (t : time) : json := JString (time_String t).
Definition jdata (l : list json) : json := JObject [("data", JArray l)].

Definition toOrganizationResponse (o : Organization) : json := JObject
  [("id", jid o.(Organization_ID)); ("name", JString o.(Organization_Name));
   ("slug", JString o.(Organization_Slug)); ("created_at", jtime o.(Organization_CreatedAt))].
Definition toMembershipResponse (m : Membership) (email : string) : json := JObject
  ([("id", jid m.(Membership_ID)); ("org_id", jid m.(Membership_OrgID));
    ("user_id", jid m.(Membership_UserID))]
   ++ omitempty (bool_decide (email = "")) "email" (JString email)
   ++ [("role", JString (to_text m.(Membership_Role)));
       ("created_at", jtime m.(Membership_CreatedAt))]).
Definition toProjectResponse (p : Project) : json := JObject
  [("id", jid p.(Project_ID)); ("org_id", jid p.(Project_OrgID));
   ("name", JString p.(Project_Name)); ("slug", JString p.(Project_Slug));
   ("created_at", jtime p.(Project_CreatedAt))].
Definition apiKey_members (k : APIKey) : list (string * json) :=
  [("id", jid k.(APIKey_ID)); ("org_id", jid k.(APIKey_OrgID));
   ("name", JString k.(APIKey_Name)); ("scopes", JArray (JString <$> k.(APIKey_Scopes)));
   ("created_by", jid k.(APIKey_CreatedBy)); ("created_at", jtime k.(APIKey_CreatedAt))]
  ++ match k.(APIKey_RevokedAt) with Some t => [("revoked_at", jtime t)] | None => [] end.
Definition toAPIKeyResponse (k : APIKey) : json := JObject (apiKey_members k).
(** The one response that carries the plaintext key. *)
Definition createAPIKeyResponse (k : APIKey) (key : string) : json :=
  JObject (apiKey_members k ++ [("key", JString key)]).
Definition toQuotaResponse (q : ResourceQuota) (u : ResourceUsage) : json := JObject
  [("org_id", jid q.(ResourceQuota_OrgID));
   ("max_cpu_millicores", JInt q.(ResourceQuota_MaxCPUMillicores));
   ("max_memory_mb", JInt q.(ResourceQuota_MaxMemoryMB));
   ("max_containers", JInt q.(ResourceQuota_MaxContainers));
   ("max_projects", JInt q.(ResourceQuota_MaxProjects));
   ("max_deployments_per_day", JInt q.(ResourceQuota_MaxDeploymentsPerDay));
   ("used_cpu_millicores", JInt u.(ResourceUsage_CPUMillicores));
   ("used_memory_mb", JInt u.(ResourceUsage_MemoryMB));
   ("used_containers", JInt u.(ResourceUsage_Containers));
   ("used_projects", JInt u.(ResourceUsage_Projects));
   ("used_deployments_today", JInt u.(ResourceUsage_DeploymentsToday))].
Definition nodeResponse (n : Node) : json := JObject
  [("id", jid n.(Node_ID)); ("hostname", JString n.(Node_Hostname));
   ("status", JString (to_text n.(Node_Status)));
   ("last_heartbeat_at", jtime n.(Node_LastHeartbeatAt))].
Definition toAuditLogResponse (e : AuditLogEntry) : json := JObject
  ([("id", jid e.(AuditLogEntry_ID)); ("org_id", jid e.(AuditLogEntry_OrgID))]
   ++ match e.(AuditLogEntry_ActorUserID) with
      | Some u => [("actor_user_id", jid u)] | None => [] end
   ++ [("action", JString e.(AuditLogEntry_Action));
       ("target_type", JString e.(AuditLogEntry_TargetType));
       ("target_id", jid e.(AuditLogEntry_TargetID));
       ("metadata", default JNull e.(AuditLogEntry_Metadata));
       ("created_at", jtime e.(AuditLogEntry_CreatedAt))]).
(** [NextCursor] is nil for the empty cursor. *)
Definition jpage (data : list json) (nextCursor : string) : json := JObject
  [("data", JArray data);
   ("next_cursor", if decide (nextCursor = "") then JNull else JString nextCursor)].
End responses.

(** ** Request bodies *)

Record nameRequest := { nameRequest_Name : string }.
#[export] Instance nameRequest_zero : Inhabited nameRequest := populate (Build_nameRequest "").
#[export] Instance into_nameRequest : Into nameRequest := decode_struct
  [("name", λ m j, v ← into m.(nameRequest_Name) j; Some (Build_nameRequest v))].

Record inviteMemberRequest := { inviteMemberRequest_Email : string; inviteMemberRequest_Role : string }.
#[export] Instance inviteMemberRequest_zero : Inhabited inviteMemberRequest :=
  populate (Build_inviteMemberRequest "" "").
#[export] Instance into_inviteMemberRequest : Into inviteMemberRequest := decode_struct
  [("email", λ m j, v ← into m.(inviteMemberRequest_Email) j;
      Some (Build_inviteMemberRequest v m.(inviteMemberRequest_Role)));
   ("role", λ m j, v ← into m.(inviteMemberRequest_Role) j;
      Some (Build_inviteMemberRequest m.(inviteMemberRequest_Email) v))].

Record changeMemberRoleRequest := { changeMemberRoleRequest_Role : string }.
#[export] Instance changeMemberRoleRequest_zero : Inhabited changeMemberRoleRequest :=
  populate (Build_changeMemberRoleRequest "").
#[export] Instance into_changeMemberRoleRequest : Into changeMemberRoleRequest := decode_struct
  [("role", λ m j, v ← into m.(changeMemberRoleRequest_Role) j;
      Some (Build_changeMemberRoleRequest v))].

Record createProjectRequest := { createProjectRequest_Name : string; createProjectRequest_Slug : string }.
#[export] Instance createProjectRequest_zero : Inhabited createProjectRequest :=
  populate (Build_createProjectRequest "" "").
#[export] Instance into_createProjectRequest : Into createProjectRequest := decode_struct
  [("name", λ m j, v ← into m.(createProjectRequest_Name) j;
      Some (Build_createProjectRequest v m.(createProjectRequest_Slug)));
   ("slug", λ m j, v ← into m.(createProjectRequest_Slug) j;
      Some (Build_createProjectRequest m.(createProjectRequest_Name) v))].

(** [Scopes] is nil when absent. *)
Record createAPIKeyRequest := {
  createAPIKeyRequest_Name : string; createAPIKeyRequest_Scopes : list string }.
#[export] Instance createAPIKeyRequest_zero : Inhabited createAPIKeyRequest :=
  populate (Build_createAPIKeyRequest "" []).
#[export] Instance into_createAPIKeyRequest : Into createAPIKeyRequest := decode_struct
  [("name", λ m j, v ← into m.(createAPIKeyRequest_Name) j;
      Some (Build_createAPIKeyRequest v m.(createAPIKeyRequest_Scopes)));
   ("scopes", λ m j, v ← into m.(createAPIKeyRequest_Scopes) j;
      Some (Build_createAPIKeyRequest m.(createAPIKeyRequest_Name) v))].

(** ** Handlers *)

Section handlers.
Context `{UUIDText} `{TimeText} `{CursorText} `{Credentials}.

(** *** handlers_organizations.go *)

Definition handleGetOrganization (id : Identity) (orgId : string) : M Reply := respond (
  orgID ← path_id "orgId" orgId;
  org ← WithTx id.(UserID) orgID (
    mapped noOrganization "" (requireMembership TxConn id orgID) ;;
    mapped noOrganization "" (OrganizationRepository.Get TxConn orgID));
  mret (writeJSON 200 (toOrganizationResponse org))).

Definition updateOrganization (id : Identity) (orgID : uuid) (name : string) : M Organization :=
  mapped noOrganization "" (requirePermission TxConn id orgID PermOrganizationManage) ;;
  org ← mapped noOrganization "" (OrganizationRepository.Update TxConn orgID name);
  recordAudit TxConn orgID id.(UserID) "organization.update" "organization" orgID
    [("name", JString org.(Organization_Name))] ;;
  mret org.
Definition handleUpdateOrganization (id : Identity) (orgId : string) (body : wire) : M Reply :=
  respond (
    orgID ← path_id "orgId" orgId;
    req ← decode_body "name" body;
    if decide (req.(nameRequest_Name) = "") then fail (errUnprocessable "name is required")
    else
      org ← WithTx id.(UserID) orgID (updateOrganization id orgID req.(nameRequest_Name));
      mret (writeJSON 200 (toOrganizationResponse org))).

Definition deleteOrganization (id : Identity) (orgID : uuid) : M unit :=
  mapped noOrganization "" (requirePermission TxConn id orgID PermOrganizationDelete) ;;
  mapped noOrganization "" (OrganizationRepository.Delete TxConn orgID).
Definition handleDeleteOrganization (id : Identity) (orgId : string) : M Reply := respond (
  orgID ← path_id "orgId" orgId;
  WithTx id.(UserID) orgID (deleteOrganization id orgID) ;;
  mret noContent).

(** *** handlers_members.go *)

Definition noMember : string := "no member with this id in this organization".

(** [parseMembershipRole]: one of the four constants. *)
Definition parseMembershipRole (s : string) : option MembershipRole := of_text s.
Definition decode_role (s : string) : M MembershipRole :=
  match parseMembershipRole s with
  | Some role => mret role
  | None => fail (errUnprocessable "role must be one of owner, admin, developer, viewer")
  end.

Definition handleListMembers (id : Identity) (orgId : string) : M Reply := respond (
  orgID ← path_id "orgId" orgId;
  members ← WithTx id.(UserID) orgID (
    mapped noOrganization "" (requireMembership TxConn id orgID) ;;
    MembershipRepository.ListByOrg TxConn orgID);
  mret (writeJSON 200 (jdata ((λ m, toMembershipResponse m.1 m.2) <$> members)))).

Definition inviteMember (id : Identity) (orgID : uuid) (email : string) (role : MembershipRole)
    : M (Membership * string) :=
  mapped noOrganization "" (requirePermission TxConn id orgID PermMembersInvite) ;;
  target ← catch (UserRepository.GetByEmail TxConn email) (λ e,
    if errors_Is e ErrNotFound
    then fail (errNotFound "no account exists with this email — they must sign up first")
    else fail e);
  membership ← mapped "" "this user is already a member of this organization"
    (MembershipRepository.Create TxConn orgID target.(User_ID) role);
  recordAudit TxConn orgID id.(UserID) "member.invite" "membership" target.(User_ID)
    [("email", JString target.(User_Email)); ("role", JString (to_text role))] ;;
  mret (membership, target.(User_Email)).
Definition handleInviteMember (id : Identity) (orgId : string) (body : wire) : M Reply := respond (
  orgID ← path_id "orgId" orgId;
  req ← decode_body "email and role" body;
  if decide (req.(inviteMemberRequest_Email) = "") then fail (errUnprocessable "email is required")
  else
    role ← decode_role req.(inviteMemberRequest_Role);
    r ← WithTx id.(UserID) orgID (inviteMember id orgID req.(inviteMemberRequest_Email) role);
    mret (writeJSON 201 (toMembershipResponse r.1 r.2))).

(** The guard of the last owner. *)
Definition guard_last_owner (orgID : uuid) (applies : Prop) `{Decision applies} (msg : string)
    : M unit :=
  if decide applies then
    owners ← MembershipRepository.CountOwners TxConn orgID;
    if decide (owners ≤ 1) then fail (errLastOwner msg) else mret tt
  else mret tt.

Definition changeMemberRole (id : Identity) (orgID targetUserID : uuid) (newRole : MembershipRole)
    : M Membership :=
  mapped noOrganization "" (requirePermission TxConn id orgID PermMembersChangeRole) ;;
  targetRole ← mapped noMember "" (MembershipRepository.RoleForUser TxConn targetUserID orgID);
  guard_last_owner orgID (targetRole = MembershipRoleOwner ∧ newRole ≠ MembershipRoleOwner)
    "cannot demote the organization's only remaining owner" ;;
  membership ← mapped noMember ""
    (MembershipRepository.UpdateRole TxConn orgID targetUserID newRole);
  recordAudit TxConn orgID id.(UserID) "member.change_role" "membership" targetUserID
    [("role_from", JString (to_text targetRole)); ("role_to", JString (to_text newRole))] ;;
  mret membership.
Definition handleChangeMemberRole (id : Identity) (orgId userId : string) (body : wire)
    : M Reply := respond (
  orgID ← path_id "orgId" orgId;
  targetUserID ← path_id "userId" userId;
  req ← decode_body "role" body;
  newRole ← decode_role req.(changeMemberRoleRequest_Role);
  membership ← WithTx id.(UserID) orgID (changeMemberRole id orgID targetUserID newRole);
  mret (writeJSON 200 (toMembershipResponse membership ""))).

Definition removeMember (id : Identity) (orgID targetUserID : uuid) : M unit :=
  mapped noOrganization "" (requirePermission TxConn id orgID PermMembersRemove) ;;
  targetRole ← mapped noMember "" (MembershipRepository.RoleForUser TxConn targetUserID orgID);
  guard_last_owner orgID (targetRole = MembershipRoleOwner)
    "cannot remove the organization's only remaining owner" ;;
  mapped noMember "" (MembershipRepository.Delete TxConn orgID targetUserID) ;;
  recordAudit TxConn orgID id.(UserID) "member.remove" "membership" targetUserID
    [("role", JString (to_text targetRole))].
Definition handleRemoveMember (id : Identity) (orgId userId : string) : M Reply := respond (
  orgID ← path_id "orgId" orgId;
  targetUserID ← path_id "userId" userId;
  WithTx id.(UserID) orgID (removeMember id orgID targetUserID) ;;
  mret noContent).

(** *** handlers_projects.go *)

Definition createProject (id : Identity) (orgID : uuid) (name slug : string) : M Project :=
  mapped noOrganization "" (requirePermission TxConn id orgID PermProjectCreate) ;;
  checkProjectQuota TxConn orgID ;;
  project ← mapped "" "a project with this slug already exists in this organization"
    (ProjectRepository.Create TxConn orgID name slug);
  recordAudit TxConn orgID id.(UserID) "project.create" "project" project.(Project_ID)
    [("name", JString project.(Project_Name)); ("slug", JString project.(Project_Slug))] ;;
  mret project.
Definition handleCreateProject (id : Identity) (orgId : string) (body : wire) : M Reply := respond (
  orgID ← path_id "orgId" orgId;
  req ← decode_body "name" body;
  if decide (req.(createProjectRequest_Name) = "") then fail (errUnprocessable "name is required")
  else
    let slug := if decide (req.(createProjectRequest_Slug) = "")
                then slugify_name req.(createProjectRequest_Name)
                else req.(createProjectRequest_Slug) in
    project ← WithTx id.(UserID) orgID
      (createProject id orgID req.(createProjectRequest_Name) slug);
    mret (writeJSON 201 (toProjectResponse project))).

(** *** handlers_api_keys.go *)

Definition noAPIKey : string := "no api key with this id in an organization you belong to".

Definition createAPIKey (id : Identity) (orgID : uuid) (name : string) (scopes : list string)
    (hash : string) : M APIKey :=
  mapped noOrganization "" (requirePermission TxConn id orgID PermAPIKeysCreate) ;;
  key ← APIKeyRepository.Create TxConn orgID name (Some scopes) id.(UserID) hash;
  recordAudit TxConn orgID id.(UserID) "api_key.create" "api_key" key.(APIKey_ID)
    [("name", JString key.(APIKey_Name))] ;;
  mret key.
(** [reads] is what the random source gives. *)
Definition handleCreateAPIKey (id : Identity) (orgId : string) (body : wire)
    (reads : list (list Z)) : M Reply := respond (
  orgID ← path_id "orgId" orgId;
  req ← decode_body "name" body;
  if decide (req.(createAPIKeyRequest_Name) = "") then fail (errUnprocessable "name is required")
  else
    match GenerateAPIKey reads with
    | None => fail (Opaque "generating api key")
    | Some (plaintext, hash) =>
        key ← WithTx id.(UserID) orgID (createAPIKey id orgID req.(createAPIKeyRequest_Name)
                req.(createAPIKeyRequest_Scopes) hash);
        mret (writeJSON 201 (createAPIKeyResponse key plaintext))
    end).
Definition handleListAPIKeys (id : Identity) (orgId : string) : M Reply := respond (
  orgID ← path_id "orgId" orgId;
  keys ← WithTx id.(UserID) orgID (
    mapped noOrganization "" (requirePermission TxConn id orgID PermAPIKeysCreate) ;;
    APIKeyRepository.ListByOrg TxConn orgID);
  mret (writeJSON 200 (jdata (toAPIKeyResponse <$> keys)))).
Definition revokeAPIKey (id : Identity) (keyID : uuid) : M unit :=
  orgID ← mapped noAPIKey "" (APIKeyRepository.OrgID TxConn keyID);
  SetCurrentOrg orgID ;;
  requirePermission TxConn id orgID PermAPIKeysRevoke ;;
  mapped noAPIKey "" (APIKeyRepository.Revoke TxConn keyID) ;;
  recordAudit TxConn orgID id.(UserID) "api_key.revoke" "api_key" keyID [].
Definition handleRevokeAPIKey (id : Identity) (keyId : string) : M Reply := respond (
  keyID ← path_id "keyId" keyId;
  WithTx id.(UserID) Nil (revokeAPIKey id keyID) ;;
  mret noContent).

(** *** handlers_quota.go, handlers_nodes.go, handlers_audit_logs.go *)

Definition handleGetQuota (id : Identity) (orgId : string) : M Reply := respond (
  orgID ← path_id "orgId" orgId;
  r ← WithTx id.(UserID) orgID (
    mapped noOrganization "" (requireMembership TxConn id orgID) ;;
    quota ← mapped noOrganization "" (QuotaRepository.Get TxConn orgID);
    usage ← QuotaRepository.CurrentUsage TxConn orgID;
    mret (quota, usage));
  mret (writeJSON 200 (toQuotaResponse r.1 r.2))).

Definition handleGetNodes (id : Identity) : M Reply := respond (
  nodes ← WithTx id.(UserID) Nil (
    requirePlatformAdmin TxConn id.(UserID) ;;
    NodeRepository.List TxConn);
  mret (writeJSON 200 (jdata (nodeResponse <$> nodes)))).

(** [limit := 50] unless the query names one in 1..200. *)
Definition page_limit (raw : string) : Z :=
  if decide (raw = "") then 50
  else match Atoi raw with
       | Some n => if decide (0 < n ∧ n ≤ 200) then n else 50
       | None => 50
       end.
Definition handleGetAuditLogs (id : Identity) (orgId limit cursor : string) : M Reply := respond (
  orgID ← path_id "orgId" orgId;
  r ← WithTx id.(UserID) orgID (
    mapped noOrganization "" (requirePermission TxConn id orgID PermAuditLogsView) ;;
    AuditLogRepository.ListByOrg TxConn orgID cursor (page_limit limit));
  mret (writeJSON 200 (jpage (toAuditLogResponse <$> r.1) r.2))).
End handlers.
