(* ===== verification/ApiApps.v ===== *)
(** * ApiApps: applications, deployments, builds, domains, logs

    services/apiserver/internal/server: handlers_applications.go,
    handlers_deployments.go, handlers_builds.go, builds.go,
    handlers_domains.go and handlers_logs.go.  These routes name a resource,
    not its organization, which they read off the row first. *)
From S2P Require Import Prelude Json Schema Effects Rls Outcomes DbTenancy DbWorkload.
From S2P Require Import DbCluster Wire Encoding Auth ApiCore ApiOrgs Sample.
From stdpp Require Import base gmap strings list.
From Stdlib Require Import ZArith Lia.
Open Scope Z_scope.

(** ** Responses *)

Section responses.
Context `{UUIDText} `{TimeText}.
Definition toApplicationResponse (a : Application) : json := JObject
  [("id", jid a.(Application_ID)); ("org_id", jid a.(Application_OrgID));
   ("project_id", jid a.(Application_ProjectID)); ("name", JString a.(Application_Name));
   ("image", JString a.(Application_Image));
   ("replicas_desired", JInt a.(Application_ReplicasDesired));
   ("ports", to_json a.(Application_Ports)); ("created_at", jtime a.(Application_CreatedAt))].
Definition toDomainResponse (d : Domain) : json := JObject
  [("id", jid d.(Domain_ID)); ("org_id", jid d.(Domain_OrgID));
   ("project_id", jid d.(Domain_ProjectID)); ("application_id", jid d.(Domain_ApplicationID));
   ("hostname", JString d.(Domain_Hostname)); ("tls_status", JString (to_text d.(Domain_TLSStatus)));
   ("created_at", jtime d.(Domain_CreatedAt))].

(** The replica summary of one deployment. *)
Record ReplicaState := mkReplicaState {
  ReplicasDesired : Z; ReplicasRunning : Z; Containers : list (uuid * ContainerStatus) }.
Definition optional {A} (k : string) (f : A → json) (o : option A) : list (string * json) :=
  match o with Some a => [(k, f a)] | None => [] end.
Definition deploymentResponse (d : Deployment) (s : ReplicaState) (dnsName : option string) : json :=
  JObject
  ([("id", jid d.(Deployment_ID)); ("application_id", jid d.(Deployment_ApplicationID));
    ("image", JString d.(Deployment_Image)); ("revision", JInt d.(Deployment_Revision));
    ("status", JString (to_text d.(Deployment_Status)));
    ("strategy", JString d.(Deployment_Strategy))]
   ++ optional "worker_container_id" JString d.(Deployment_WorkerContainerID)
   ++ [("replicas_desired", JInt s.(ReplicasDesired)); ("replicas_running", JInt s.(ReplicasRunning))]
   ++ omitempty (bool_decide (s.(Containers) = [])) "containers"
        (JArray ((λ c, JObject [("node_id", jid c.1); ("status", JString (to_text c.2))])
                 <$> s.(Containers)))
   ++ optional "service" (λ n, JObject [("dns_name", JString n)]) dnsName
   ++ [("created_at", jtime d.(Deployment_CreatedAt))]
   ++ optional "completed_at" jtime d.(Deployment_CompletedAt)).
Definition toBuildResponse (b : Build) : json := JObject
  ([("id", jid b.(Build_ID)); ("application_id", jid b.(Build_ApplicationID));
    ("git_url", JString b.(Build_GitURL)); ("git_ref", JString b.(Build_GitRef))]
   ++ optional "commit_sha" JString b.(Build_CommitSHA)
   ++ [("status", JString (to_text b.(Build_Status)))]
   ++ optional "image" JString b.(Build_Image)
   ++ optional "error_message" JString b.(Build_ErrorMessage)
   ++ [("created_at", jtime b.(Build_CreatedAt))]
   ++ optional "completed_at" jtime b.(Build_CompletedAt)).
End responses.

(** ** Request bodies *)

Record createApplicationRequest := {
  createApplicationRequest_Name : string; createApplicationRequest_Image : string;
  createApplicationRequest_Ports : list PortSpec }.
#[export] Instance createApplicationRequest_zero : Inhabited createApplicationRequest :=
  populate (Build_createApplicationRequest "" "" []).
#[export] Instance into_createApplicationRequest : Into createApplicationRequest := decode_struct
  [("name", λ m j, v ← into m.(createApplicationRequest_Name) j;
      Some (Build_createApplicationRequest v m.(createApplicationRequest_Image) m.(createApplicationRequest_Ports)));
   ("image", λ m j, v ← into m.(createApplicationRequest_Image) j;
      Some (Build_createApplicationRequest m.(createApplicationRequest_Name) v m.(createApplicationRequest_Ports)));
   ("ports", λ m j, v ← into m.(createApplicationRequest_Ports) j;
      Some (Build_createApplicationRequest m.(createApplicationRequest_Name) m.(createApplicationRequest_Image) v))].

Record scaleApplicationRequest := { scaleApplicationRequest_ReplicasDesired : option Z }.
#[export] Instance scaleApplicationRequest_zero : Inhabited scaleApplicationRequest :=
  populate (Build_scaleApplicationRequest None).
#[export] Instance into_scaleApplicationRequest : Into scaleApplicationRequest := decode_struct
  [("replicas_desired", λ m j, v ← into m.(scaleApplicationRequest_ReplicasDesired) j;
      Some (Build_scaleApplicationRequest v))].

Record deployRequest := {
  deployRequest_Image : string; deployRequest_GitURL : string; deployRequest_GitRef : string }.
#[export] Instance deployRequest_zero : Inhabited deployRequest := populate (Build_deployRequest "" "" "").
#[export] Instance into_deployRequest : Into deployRequest := decode_struct
  [("image", λ m j, v ← into m.(deployRequest_Image) j;
      Some (Build_deployRequest v m.(deployRequest_GitURL) m.(deployRequest_GitRef)));
   ("git_url", λ m j, v ← into m.(deployRequest_GitURL) j;
      Some (Build_deployRequest m.(deployRequest_Image) v m.(deployRequest_GitRef)));
   ("git_ref", λ m j, v ← into m.(deployRequest_GitRef) j;
      Some (Build_deployRequest m.(deployRequest_Image) m.(deployRequest_GitURL) v))].

Record createDomainRequest := {
  createDomainRequest_Hostname : string; createDomainRequest_ApplicationID : string }.
#[export] Instance createDomainRequest_zero : Inhabited createDomainRequest :=
  populate (Build_createDomainRequest "" "").
#[export] Instance into_createDomainRequest : Into createDomainRequest := decode_struct
  [("hostname", λ m j, v ← into m.(createDomainRequest_Hostname) j;
      Some (Build_createDomainRequest v m.(createDomainRequest_ApplicationID)));
   ("application_id", λ m j, v ← into m.(createDomainRequest_ApplicationID) j;
      Some (Build_createDomainRequest m.(createDomainRequest_Hostname) v))].

(** ** Handlers *)

Definition noProject : string := "no project with this id in an organization you belong to".
Definition noApplication : string := "no application with this id in an organization you belong to".
Definition noDomain : string := "no domain with this id in an organization you belong to".
Definition notInProject : string := "no application with this id in this project".

(** The text of an error ([%v]), for those a publish can fail with. *)
Fixpoint error_text (e : error) : string :=
  match e with
  | ErrNotFound => "db: not found" | ErrConflict => "db: conflict"
  | ErrNoRows => "no rows in result set" | PgError code => code
  | APIError _ _ message => message | Opaque msg => msg
  | Errorf prefix cause => prefix +:+ ": " +:+ error_text cause
  end.

Section handlers.
Context `{UUIDText} `{TimeText} `{CursorText}.
(** The server's fields: is the event bus there, and the image registry. *)
Context (bus : bool) (registryAddr : string).

Definition bus_PublishDurable (subject : string) (payload : json) : M unit :=
  if bus then PublishDurable subject payload else fail (Opaque "event bus not connected").

(** [OrgID], [SetCurrentOrg], [requirePermission]: how a route that names an
    application, project or domain starts. *)
Definition resolve_org (missing : string) (OrgID : M uuid) : M uuid :=
  orgID ← mapped missing "" OrgID; SetCurrentOrg orgID ;; mret orgID.

(** *** handlers_applications.go *)

Definition createApplication (id : Identity) (projectID : uuid) (name image : string)
    (ports : list PortSpec) : M Application :=
  orgID ← resolve_org noProject (ProjectRepository.OrgID TxConn projectID);
  requirePermission TxConn id orgID PermApplicationCreate ;;
  app ← mapped "" "an application with this name already exists"
    (ApplicationRepository.Create TxConn orgID projectID name image ports);
  recordAudit TxConn orgID id.(UserID) "application.create" "application" app.(Application_ID)
    [("image", JString app.(Application_Image)); ("name", JString app.(Application_Name))] ;;
  mret app.
Definition handleCreateApplication (id : Identity) (projectId : string) (body : wire) : M Reply :=
  respond (
    projectID ← path_id "projectId" projectId;
    req ← decode_body "name and image" body;
    if decide (req.(createApplicationRequest_Name) = "" ∨ req.(createApplicationRequest_Image) = "")
    then fail (errUnprocessable "name and image are required")
    else
      app ← WithTx id.(UserID) Nil (createApplication id projectID
        req.(createApplicationRequest_Name) req.(createApplicationRequest_Image)
        req.(createApplicationRequest_Ports));
      mret (writeJSON 201 (toApplicationResponse app))).

Definition scaleApplication (id : Identity) (appID : uuid) (replicas : Z) : M Application :=
  orgID ← resolve_org noApplication (ApplicationRepository.OrgID TxConn appID);
  requirePermission TxConn id orgID PermApplicationScale ;;
  current ← mapped noApplication "" (ApplicationRepository.Get TxConn appID);
  checkResourceQuota TxConn orgID current replicas ;;
  mapped noApplication "" (ApplicationRepository.UpdateReplicas TxConn appID replicas) ;;
  app ← mapped noApplication "" (ApplicationRepository.Get TxConn appID);
  recordAudit TxConn orgID id.(UserID) "application.scale" "application" appID
    [("replicas_desired_from", JInt current.(Application_ReplicasDesired));
     ("replicas_desired_to", JInt replicas)] ;;
  mret app.
Definition handleScaleApplication (id : Identity) (appId : string) (body : wire) : M Reply :=
  respond (
    appID ← path_id "appId" appId;
    req ← decode_body "replicas_desired" body;
    match req.(scaleApplicationRequest_ReplicasDesired) with
    | Some replicas =>
        if decide (replicas < 0) then
          fail (errUnprocessable "replicas_desired is required and must be zero or greater")
        else
          app ← WithTx id.(UserID) Nil (scaleApplication id appID replicas);
          mret (writeJSON 200 (toApplicationResponse app))
    | None => fail (errUnprocessable "replicas_desired is required and must be zero or greater")
    end).

(** What is running for an application: the containers of its latest
    deployment. *)
Definition latestContainers (appID : uuid) : M (list Container) :=
  r ← try (DeploymentRepository.Latest TxConn appID);
  match r with
  | Ok latest => ContainerRepository.ListByDeployment TxConn latest.(Deployment_ID)
  | Err e => if errors_Is e ErrNotFound then mret [] else fail e
  end.
Definition planDelete (id : Identity) (appID : uuid) : M (uuid * list Container) :=
  orgID ← resolve_org noApplication (ApplicationRepository.OrgID TxConn appID);
  requirePermission TxConn id orgID PermApplicationDelete ;;
  containers ← latestContainers appID;
  mret (orgID, containers).
(** One unassign per container that has a runtime id; the first failure ends
    the request. *)
Fixpoint publishUnassigns (containers : list Container) : M unit :=
  match containers with
  | [] => mret tt
  | cn :: containers =>
      match cn.(Container_ContainerRuntimeID) with
      | None => publishUnassigns containers
      | Some runtimeID =>
          catch (bus_PublishDurable (NodeUnassignSubject (uuid_String cn.(Container_NodeID)))
                   (to_json {| unassignMessage_AssignmentID := uuid_String cn.(Container_ID);
                               unassignMessage_ContainerID := runtimeID |}))
            (λ _, logf "publishing unassign" ;;
                  fail (APIError 502 "runtime_error"
                    "could not stop the running deployment; application was not deleted")) ;;
          publishUnassigns containers
      end
  end.
Definition deleteApplication (id : Identity) (orgID appID : uuid) : M unit :=
  requirePermission TxConn id orgID PermApplicationDelete ;;
  mapped noApplication "" (ApplicationRepository.Delete TxConn appID) ;;
  recordAudit TxConn orgID id.(UserID) "application.delete" "application" appID [].
Definition handleDeleteApplication (id : Identity) (appId : string) : M Reply := respond (
  appID ← path_id "appId" appId;
  r ← WithTx id.(UserID) Nil (planDelete id appID);
  publishUnassigns r.2 ;;
  WithTx id.(UserID) r.1 (deleteApplication id r.1 appID) ;;
  mret noContent).

(** *** handlers_deployments.go *)

(** The deployment and the application as it is now deployed. *)
Definition createDeploymentTx (orgID appID actorID : uuid) (app : Application) (image : string)
    : M (Deployment * Application) :=
  app ← (if decide (image ≠ "" ∧ image ≠ app.(Application_Image)) then
           ApplicationRepository.UpdateImage TxConn appID image ;;
           mret {| Application_ID := app.(Application_ID); Application_OrgID := app.(Application_OrgID);
                   Application_ProjectID := app.(Application_ProjectID);
                   Application_Name := app.(Application_Name); Application_Image := image;
                   Application_ReplicasDesired := app.(Application_ReplicasDesired);
                   Application_CPUMillicores := app.(Application_CPUMillicores);
                   Application_MemoryMB := app.(Application_MemoryMB);
                   Application_Ports := app.(Application_Ports);
                   Application_HealthCheckPath := app.(Application_HealthCheckPath);
                   Application_CreatedAt := app.(Application_CreatedAt);
                   Application_UpdatedAt := app.(Application_UpdatedAt) |}
         else mret app);
  deployment ← mapped "" "a deployment for this revision already exists"
    (DeploymentRepository.Create TxConn orgID appID app.(Application_Image) actorID);
  recordAudit TxConn orgID actorID "deployment.create" "deployment" deployment.(Deployment_ID)
    [("application_id", jid appID); ("image", JString deployment.(Deployment_Image));
     ("revision", JInt deployment.(Deployment_Revision))] ;;
  mret (deployment, app).

Definition placementMessage (app : Application) (deployment : Deployment)
    : placementRequestedMessage :=
  {| placementRequestedMessage_DeploymentID := uuid_String deployment.(Deployment_ID);
     placementRequestedMessage_ApplicationID := uuid_String app.(Application_ID);
     placementRequestedMessage_Image := deployment.(Deployment_Image);
     placementRequestedMessage_Env := ∅;
     placementRequestedMessage_Ports := app.(Application_Ports);
     placementRequestedMessage_Command := [] |}.
(** A failed publish is recorded on the deployment and passed on. *)
Definition publishPlacement (orgID actorID : uuid) (app : Application) (deployment : Deployment)
    : M unit :=
  catch (bus_PublishDurable PlacementRequestedSubject (to_json (placementMessage app deployment)))
    (λ publishErr,
       logf "publishing placement.requested" ;;
       r ← try (WithTx actorID orgID (DeploymentRepository.UpdateResult TxConn
                  deployment.(Deployment_ID) DeploymentStatusFailed None));
       match r with Err _ => logf "recording deployment result" | Ok _ => mret tt end ;;
       fail publishErr).

(** What both deploy modes check before they write. *)
Definition authorizeDeploy (id : Identity) (appID : uuid) : M (uuid * Application) :=
  orgID ← resolve_org noApplication (ApplicationRepository.OrgID TxConn appID);
  requirePermission TxConn id orgID PermApplicationDeploy ;;
  app ← mapped noApplication "" (ApplicationRepository.Get TxConn appID);
  checkDeploymentQuota TxConn orgID ;;
  checkResourceQuota TxConn orgID app app.(Application_ReplicasDesired) ;;
  mret (orgID, app).
Definition deployImage (id : Identity) (appID : uuid) (image : string)
    : M (uuid * Deployment * Application) :=
  oa ← authorizeDeploy id appID;
  da ← createDeploymentTx oa.1 appID id.(UserID) oa.2 image;
  mret (oa.1, da.1, da.2).

(** *** handlers_builds.go: the git mode *)

Definition imageRepositoryFor (orgID appID : uuid) : string :=
  registryAddr +:+ "/" +:+ uuid_String orgID +:+ "/" +:+ uuid_String appID.
Definition buildRequest (build : Build) (appID orgID : uuid) : buildRequestedMessage :=
  {| buildRequestedMessage_BuildID := uuid_String build.(Build_ID);
     buildRequestedMessage_OrgID := uuid_String orgID;
     buildRequestedMessage_ApplicationID := uuid_String appID;
     buildRequestedMessage_GitURL := build.(Build_GitURL);
     buildRequestedMessage_GitRef := build.(Build_GitRef);
     buildRequestedMessage_ImageRepository := imageRepositoryFor orgID appID |}.
Definition publishBuildRequested (build : Build) (appID orgID : uuid) : M unit :=
  bus_PublishDurable BuildRequestedSubject (to_json (buildRequest build appID orgID)).
Definition requestBuild (id : Identity) (appID : uuid) (gitURL gitRef : string)
    : M (uuid * Build) :=
  oa ← authorizeDeploy id appID;
  build ← BuildRepository.Create TxConn oa.1 appID gitURL gitRef id.(UserID);
  recordAudit TxConn oa.1 id.(UserID) "build.create" "build" build.(Build_ID)
    [("application_id", jid appID); ("git_ref", JString build.(Build_GitRef));
     ("git_url", JString build.(Build_GitURL))] ;;
  mret (oa.1, build).
Definition handleGitDeploy (id : Identity) (appID : uuid) (req : deployRequest) : M Reply :=
  ob ← WithTx id.(UserID) Nil
    (requestBuild id appID req.(deployRequest_GitURL) req.(deployRequest_GitRef));
  catch (publishBuildRequested ob.2 appID ob.1) (λ err,
    logf "publishing build.requested" ;;
    r ← try (WithTx id.(UserID) ob.1 (BuildRepository.UpdateResult TxConn ob.2.(Build_ID)
               BuildStatusFailed None None (Some ("failed to queue build: " +:+ error_text err))));
    match r with Err _ => logf "recording build result" | Ok _ => mret tt end ;;
    fail (APIError 502 "deploy_failed" ("failed to publish build request: " +:+ error_text err))) ;;
  mret (writeJSON 202 (toBuildResponse ob.2)).

(** The two modes. *)
Definition deployAs (id : Identity) (appID : uuid) (req : deployRequest) : M Reply :=
  if decide (req.(deployRequest_Image) ≠ "" ∧ req.(deployRequest_GitURL) ≠ "")
  then fail (errBadRequest "image and git_url are mutually exclusive — pass one or neither")
  else if decide (req.(deployRequest_GitURL) ≠ "") then handleGitDeploy id appID req
  else
    oda ← WithTx id.(UserID) Nil (deployImage id appID req.(deployRequest_Image));
    let '(orgID, deployment, app) := oda in
    catch (publishPlacement orgID id.(UserID) app deployment) (λ err,
      fail (APIError 502 "deploy_failed"
              ("failed to publish placement request: " +:+ error_text err))) ;;
    mret (writeJSON 201 (deploymentResponse deployment
            (mkReplicaState app.(Application_ReplicasDesired) 0 []) None)).
(** [body] is [None] when the request has no content. *)
Definition handleDeploy (id : Identity) (appId : string) (body : option wire) : M Reply := respond (
  appID ← path_id "appId" appId;
  req ← match body with
        | None => mret inhabitant
        | Some body => decode_body "an optional image or git_url" body
        end;
  deployAs id appID req).

Definition appendReplicas (deploymentID : uuid) (desiredReplicas : Z) (rows : list Container)
    : ReplicaState :=
  mkReplicaState desiredReplicas
    (Z.of_nat (length (filter (λ c, c.(Container_Status) = ContainerStatusRunning) rows)))
    ((λ c, (c.(Container_NodeID), c.(Container_Status))) <$> rows).
Definition attachReplicaState (deploymentID : uuid) (desiredReplicas : Z) : M ReplicaState :=
  rows ← ContainerRepository.ListByDeployment TxConn deploymentID;
  mret (appendReplicas deploymentID desiredReplicas rows).
Fixpoint deploymentResponses (desired : Z) (service : option string) (l : list Deployment)
    : M (list json) :=
  match l with
  | [] => mret []
  | d :: l =>
      s ← attachReplicaState d.(Deployment_ID) desired;
      rest ← deploymentResponses desired service l;
      mret (deploymentResponse d s service :: rest)
  end.
Definition getDeployments (id : Identity) (appID : uuid) (limit : Z) (afterRevision : option Z)
    : M (list Deployment * list json) :=
  orgID ← resolve_org noApplication (ApplicationRepository.OrgID TxConn appID);
  requireMembership TxConn id orgID ;;
  app ← mapped noApplication "" (ApplicationRepository.Get TxConn appID);
  deployments ← DeploymentRepository.ListByApplication TxConn appID limit afterRevision;
  rs ← try (ServiceRepository.GetByApplication TxConn appID);
  service ← match rs with
            | Ok svc => mret (Some svc.(Service_DNSName))
            | Err e => if errors_Is e ErrNotFound then mret None else fail e
            end;
  data ← deploymentResponses app.(Application_ReplicasDesired) service deployments;
  mret (deployments, data).
(** A full page has a next one, starting after its last revision. *)
Definition nextRevisionCursor (deployments : list Deployment) (limit : Z) : string :=
  if decide (Z.of_nat (length deployments) = limit) then
    match last deployments with
    | Some d => encodeRevisionCursor d.(Deployment_Revision)
    | None => ""
    end
  else "".
Definition handleGetDeployments (id : Identity) (appId limit cursor : string) : M Reply := respond (
  appID ← path_id "appId" appId;
  match decodeRevisionCursor cursor with
  | None => fail (errBadRequest "cursor is invalid")
  | Some afterRevision =>
      r ← WithTx id.(UserID) Nil (getDeployments id appID (page_limit limit) afterRevision);
      mret (writeJSON 200 (jpage r.2 (nextRevisionCursor r.1 (page_limit limit))))
  end).

Definition handleGetBuilds (id : Identity) (appId limit cursor : string) : M Reply := respond (
  appID ← path_id "appId" appId;
  r ← WithTx id.(UserID) Nil (
    orgID ← resolve_org noApplication (ApplicationRepository.OrgID TxConn appID);
    requireMembership TxConn id orgID ;;
    BuildRepository.ListByApplication TxConn appID (page_limit limit) cursor);
  mret (writeJSON 200 (jpage (toBuildResponse <$> r.1) r.2))).

(** *** builds.go: the build.completed consumer *)

Definition nullableString (s : string) : option string := if decide (s = "") then None else Some s.

(** The transaction: the build, and the deployment it became, if any. *)
Definition completeBuild (buildID : uuid) (msg : buildCompletedMessage)
    : M (Build * option (Deployment * Application)) :=
  build ← BuildRepository.Get TxConn buildID;
  SetCurrentUser build.(Build_CreatedBy) ;;
  if decide (msg.(buildCompletedMessage_Status) ≠ "succeeded") then
    let errMsg := if decide (msg.(buildCompletedMessage_Error) = "")
                  then "build failed without a reported reason"
                  else msg.(buildCompletedMessage_Error) in
    BuildRepository.UpdateResult TxConn buildID BuildStatusFailed None None (Some errMsg) ;;
    mret (build, None)
  else if decide (msg.(buildCompletedMessage_Image) = "") then
    logf "build reported success without an image reference" ;;
    BuildRepository.UpdateResult TxConn buildID BuildStatusFailed None None
      (Some "build reported success without an image reference") ;;
    mret (build, None)
  else
    BuildRepository.UpdateResult TxConn buildID BuildStatusSucceeded
      (nullableString msg.(buildCompletedMessage_CommitSHA))
      (Some msg.(buildCompletedMessage_Image)) None ;;
    app ← ApplicationRepository.Get TxConn build.(Build_ApplicationID);
    da ← createDeploymentTx build.(Build_OrgID) build.(Build_ApplicationID)
           build.(Build_CreatedBy) app msg.(buildCompletedMessage_Image);
    mret (build, Some da).
Definition handleBuildCompleted (data : wire) : M unit :=
  match Unmarshal data with
  | None => logf "decoding build.completed message"
  | Some msg =>
      match uuid_Parse msg.(buildCompletedMessage_BuildID), uuid_Parse msg.(buildCompletedMessage_OrgID) with
      | None, _ => logf "build.completed carries an unparseable build_id"
      | _, None => logf "build.completed carries an unparseable org_id"
      | Some buildID, Some orgHint =>
          r ← try (WithTx Nil orgHint (completeBuild buildID msg));
          match r with
          | Err e => if errors_Is e ErrNotFound
                     then logf "build.completed names a build that doesn't exist in the org it claims"
                     else logf "recording build.completed"
          | Ok (_, None) => mret tt
          | Ok (build, Some (deployment, app)) =>
              logf "build succeeded, deploying" ;;
              r ← try (publishPlacement build.(Build_OrgID) build.(Build_CreatedBy) app deployment);
              match r with Err _ => logf "deploying a successful build" | Ok _ => mret tt end
          end
      end
  end.

(** *** handlers_domains.go *)

Definition createDomain (id : Identity) (projectID applicationID : uuid) (hostname : string)
    : M Domain :=
  orgID ← resolve_org noProject (ProjectRepository.OrgID TxConn projectID);
  requirePermission TxConn id orgID PermDomainsManage ;;
  app ← mapped notInProject "" (ApplicationRepository.Get TxConn applicationID);
  if decide (app.(Application_ProjectID) ≠ projectID) then fail (errNotFound notInProject)
  else
    domain ← mapped "" "a domain with this hostname already exists"
      (DomainRepository.Create TxConn orgID projectID applicationID hostname);
    DomainRepository.UpdateTLSStatus TxConn domain.(Domain_ID) DomainTLSStatusActive ;;
    recordAudit TxConn orgID id.(UserID) "domain.create" "domain" domain.(Domain_ID)
      [("application_id", jid applicationID); ("hostname", JString domain.(Domain_Hostname))] ;;
    mret (DomainRepository.with_tls DomainTLSStatusActive (mkStmtEnv noSession false 0 0) domain).
Definition handleCreateDomain (id : Identity) (projectId : string) (body : wire) : M Reply := respond (
  projectID ← path_id "projectId" projectId;
  req ← decode_body "hostname and application_id" body;
  if decide (req.(createDomainRequest_Hostname) = "") then fail (errUnprocessable "hostname is required")
  else
    match uuid_Parse req.(createDomainRequest_ApplicationID) with
    | None => fail (errUnprocessable "application_id must be a valid UUID")
    | Some applicationID =>
        domain ← WithTx id.(UserID) Nil
          (createDomain id projectID applicationID req.(createDomainRequest_Hostname));
        mret (writeJSON 201 (toDomainResponse domain))
    end).
Definition handleListDomains (id : Identity) (projectId : string) : M Reply := respond (
  projectID ← path_id "projectId" projectId;
  domains ← WithTx id.(UserID) Nil (
    orgID ← resolve_org noProject (ProjectRepository.OrgID TxConn projectID);
    requireMembership TxConn id orgID ;;
    DomainRepository.ListByProject TxConn projectID);
  mret (writeJSON 200 (jdata (toDomainResponse <$> domains)))).
Definition deleteDomain (id : Identity) (domainID : uuid) : M unit :=
  orgID ← resolve_org noDomain (DomainRepository.OrgID TxConn domainID);
  requirePermission TxConn id orgID PermDomainsManage ;;
  mapped noDomain "" (DomainRepository.Delete TxConn domainID) ;;
  recordAudit TxConn orgID id.(UserID) "domain.delete" "domain" domainID [].
Definition handleDeleteDomain (id : Identity) (domainId : string) : M Reply := respond (
  domainID ← path_id "domainId" domainId;
  WithTx id.(UserID) Nil (deleteDomain id domainID) ;;
  mret noContent).

(** *** handlers_logs.go: which container's log is streamed *)

Definition logContainer (id : Identity) (appID : uuid) : M string :=
  orgID ← resolve_org noApplication (ApplicationRepository.OrgID TxConn appID);
  requireMembership TxConn id orgID ;;
  deployment ← mapped "this application has never been deployed" ""
    (DeploymentRepository.Latest TxConn appID);
  containers ← ContainerRepository.ListByDeployment TxConn deployment.(Deployment_ID);
  match containers with
  | c :: _ =>
      match c.(Container_ContainerRuntimeID) with
      | Some runtimeID => mret runtimeID
      | None => fail (errNotFound "this application's latest deployment has no running container to read logs from")
      end
  | [] => fail (errNotFound "this application's latest deployment has no running container to read logs from")
  end.

(** What asking the worker agent for a container's log gives; the text itself
    is copied through. *)
Inductive LogStream := LogOpened | LogNotFound | LogFailed (msg : string).
Definition handleGetLogs (id : Identity) (appId : string) (StreamLogs : string → LogStream)
    : M Reply := respond (
  appID ← path_id "appId" appId;
  containerID ← WithTx id.(UserID) Nil (logContainer id appID);
  match StreamLogs containerID with
  | LogOpened => mret (mkReply 200 None)
  | LogNotFound => fail (errNotFound "the deployed container no longer exists")
  | LogFailed msg => fail (APIError 502 "runtime_error" ("streaming logs: " +:+ msg))
  end).
End handlers.
