(* ===== verification/ApiAuth.v ===== *)
(** * ApiAuth: signup, login, refresh

    services/apiserver/internal/server/handlers_auth.go.  What the random
    source gives ([uuid.New], the bytes of a refresh token) is an argument. *)
From S2P Require Import Prelude Json Schema Effects Rls Outcomes DbTenancy DbWorkload.
From S2P Require Import DbCluster Slug Encoding Auth ApiCore ApiOrgs Sample.
From stdpp Require Import base gmap strings list.
From Stdlib Require Import ZArith Lia Ascii.
Open Scope Z_scope.

Record credentialsRequest := { credentialsRequest_Email : string; credentialsRequest_Password : string }.
#[export] Instance credentialsRequest_zero : Inhabited credentialsRequest :=
  populate (Build_credentialsRequest "" "").
#[export] Instance into_credentialsRequest : Into credentialsRequest := decode_struct
  [("email", λ m j, v ← into m.(credentialsRequest_Email) j;
      Some (Build_credentialsRequest v m.(credentialsRequest_Password)));
   ("password", λ m j, v ← into m.(credentialsRequest_Password) j;
      Some (Build_credentialsRequest m.(credentialsRequest_Email) v))].

Record refreshRequest := { refreshRequest_RefreshToken : string }.
#[export] Instance refreshRequest_zero : Inhabited refreshRequest := populate (Build_refreshRequest "").
#[export] Instance into_refreshRequest : Into refreshRequest := decode_struct
  [("refresh_token", λ m j, v ← into m.(refreshRequest_RefreshToken) j; Some (Build_refreshRequest v))].

(** [strings.Cut(email, "@")]: what is before the first at sign; [None] when
    there is none. *)
Fixpoint before_at (s : string) : option string :=
  match s with
  | "" => None
  | String c s => if decide (c = "@"%char) then Some "" else String c <$> before_at s
  end.

Section auth_handlers.
Context `{UUIDText} `{TimeText} `{Credentials}.

(** [fresh] is the new UUID whose first eight digits end the slug. *)
Definition defaultOrgFor (email : string) (fresh : uuid) : string * string :=
  let local := match before_at email with
               | Some local => if decide (local = "") then "personal" else local
               | None => "personal"
               end in
  (local +:+ "'s Organization",
   slugify_name local +:+ "-" +:+ String.substring 0 8 (uuid_String fresh)).

Record authResponse := mkAuthResponse {
  auth_User : User; auth_OrgID : uuid; auth_OrgSlug : string; auth_Role : string;
  auth_AccessToken : string; auth_ExpiresAt : time; auth_RefreshToken : string }.
Definition auth_json (r : authResponse) : json := JObject
  [("user", JObject [("id", jid r.(auth_User).(User_ID)); ("email", JString r.(auth_User).(User_Email))]);
   ("org", JObject [("id", jid r.(auth_OrgID)); ("slug", JString r.(auth_OrgSlug));
                    ("role", JString r.(auth_Role))]);
   ("access_token", JString r.(auth_AccessToken));
   ("access_token_expires_at", jtime r.(auth_ExpiresAt));
   ("refresh_token", JString r.(auth_RefreshToken))].

Definition issueAuthResponse (user : User) (orgID : uuid) (orgSlug role : string)
    (raw : option (list Z)) : M authResponse :=
  issued ← now;
  let '(accessToken, expiresAt) := IssueAccessToken user.(User_ID) issued in
  match GenerateRefreshToken raw with
  | None => fail (Opaque "generating refresh token")
  | Some (plainRefresh, refreshHash) =>
      t ← now;
      RefreshTokenRepository.Create PoolConn user.(User_ID) refreshHash (t + RefreshTokenTTL) ;;
      mret (mkAuthResponse user orgID orgSlug role accessToken expiresAt plainRefresh)
  end.

(** The user, the organization, its quota, the owner and the audit entry. *)
Definition signup (email passwordHash orgName slug : string) : M (User * Organization) :=
  user ← mapped "" "an account with this email already exists"
    (UserRepository.Create TxConn email passwordHash);
  org ← OrganizationRepository.Create TxConn orgName slug;
  SetCurrentOrg org.(Organization_ID) ;;
  QuotaRepository.Create TxConn org.(Organization_ID) DefaultResourceQuota ;;
  SetCurrentUser user.(User_ID) ;;
  MembershipRepository.Create TxConn org.(Organization_ID) user.(User_ID) MembershipRoleOwner ;;
  recordAudit TxConn org.(Organization_ID) user.(User_ID) "organization.create" "organization"
    org.(Organization_ID) [] ;;
  mret (user, org).
(** What follows the decoding of the body. *)
Definition signupAs (req : credentialsRequest) (fresh : uuid) (raw : option (list Z)) : M Reply :=
  if decide (req.(credentialsRequest_Email) = "" ∨ req.(credentialsRequest_Password) = "")
  then fail (errUnprocessable "email and password are required")
  else
    match HashPassword req.(credentialsRequest_Password) with
    | None => fail (Opaque "hashing password")
    | Some passwordHash =>
        let org := defaultOrgFor req.(credentialsRequest_Email) fresh in
        uo ← WithTx Nil Nil (signup req.(credentialsRequest_Email) passwordHash org.1 org.2);
        resp ← issueAuthResponse uo.1 uo.2.(Organization_ID) uo.2.(Organization_Slug)
                 (to_text MembershipRoleOwner) raw;
        mret (writeJSON 201 (auth_json resp))
    end.
Definition handleSignup (body : wire) (fresh : uuid) (raw : option (list Z)) : M Reply := respond (
  req ← decode_body "email and password" body;
  signupAs req fresh raw).

(** [SELECT slug FROM organizations WHERE id = $1] *)
Definition orgSlug (orgID : uuid) : M string :=
  run_stmt PoolConn (query_row (λ _ d, Organization_Slug <$> option_list (d.(organizations) !! orgID))).

Definition badCredentials : error := errUnauthorized "invalid email or password".
Definition loginAs (req : credentialsRequest) (raw : option (list Z)) : M Reply :=
  user ← catch (UserRepository.GetByEmail PoolConn req.(credentialsRequest_Email)) (λ e,
    if errors_Is e ErrNotFound then fail badCredentials else fail e);
  match VerifyPassword user.(User_PasswordHash) req.(credentialsRequest_Password) with
  | None => fail (Opaque "comparing password")
  | Some false => fail badCredentials
  | Some true =>
      memberships ← WithTx user.(User_ID) Nil
        (MembershipRepository.ListForUser TxConn user.(User_ID));
      match memberships with
      | [] => fail (Opaque "user has no organization membership")
      | primary :: _ =>
          slug ← orgSlug primary.(Membership_OrgID);
          resp ← issueAuthResponse user primary.(Membership_OrgID) slug
                   (to_text primary.(Membership_Role)) raw;
          mret (writeJSON 200 (auth_json resp))
      end
  end.
Definition handleLogin (body : wire) (raw : option (list Z)) : M Reply := respond (
  req ← decode_body "email and password" body;
  loginAs req raw).

Definition invalidRefresh : error := errUnauthorized "refresh token is invalid".
Definition refresh_json (accessToken : string) (expiresAt : time) (refreshToken : string) : json :=
  JObject [("access_token", JString accessToken); ("access_token_expires_at", jtime expiresAt);
           ("refresh_token", JString refreshToken)].
(** Looks the token up: the row, when it is neither revoked nor expired. *)
Definition checkRefresh (token : string) : M RefreshToken :=
  stored ← catch (RefreshTokenRepository.GetByHash PoolConn (HashRefreshToken token))
    (λ e, if errors_Is e ErrNotFound then fail invalidRefresh else fail e);
  t ← now;
  if decide (stored.(RefreshToken_RevokedAt) ≠ None ∨ stored.(RefreshToken_ExpiresAt) < t)
  then fail invalidRefresh
  else mret stored.
(** Issues the new tokens and rotates. *)
Definition issueRefresh (stored : RefreshToken) (raw : option (list Z)) : M Reply :=
  user ← UserRepository.GetByID PoolConn stored.(RefreshToken_UserID);
  issued ← now;
  let access := IssueAccessToken user.(User_ID) issued in
  match GenerateRefreshToken raw with
  | None => fail (Opaque "generating refresh token")
  | Some (newPlain, newHash) =>
      created ← now;
      newRecord ← RefreshTokenRepository.Create PoolConn user.(User_ID) newHash
        (created + RefreshTokenTTL);
      RefreshTokenRepository.Rotate PoolConn stored.(RefreshToken_ID) newRecord.(RefreshToken_ID) ;;
      mret (writeJSON 200 (refresh_json access.1 access.2 newPlain))
  end.
Definition refreshWith (token : string) (raw : option (list Z)) : M Reply :=
  stored ← checkRefresh token;
  issueRefresh stored raw.
Definition handleRefresh (body : wire) (raw : option (list Z)) : M Reply := respond (
  match Unmarshal body with
  | None => fail (errBadRequest "request body must be valid JSON with refresh_token")
  | Some req =>
      if decide (req.(refreshRequest_RefreshToken) = "")
      then fail (errBadRequest "request body must be valid JSON with refresh_token")
      else refreshWith req.(refreshRequest_RefreshToken) raw
  end).
End auth_handlers.
