(* ===== verification/Handlers.v ===== *)
(** * Handlers: the ways a handler ends

    A handler is a chain of steps and [respond]; it ends with the reply of its
    last step or, at the first step that fails, with the error envelope
    ([respond_cases]).  [atomic m]: a failing [m] changes nothing and sends
    nothing; [atomic_cases] splits a chain after such a step. *)
From S2P Require Import Prelude Json Schema Effects Rls Outcomes DbTenancy ApiCore.
From stdpp Require Import base gmap strings list.
From Stdlib Require Import ZArith Lia.
Open Scope Z_scope.

(** ** Replies *)

(** The error envelope of api-conventions.md. *)
Definition is_error (reply : Reply) : Prop :=
  ∃ status code message, reply = writeJSON status (errorBody code message).
Lemma respond_cases m w r w' :
  respond m w = (r, w') →
  (∃ reply, r = Ok reply ∧ m w = (Ok reply, w'))
  ∨ ∃ er w1 reply, m w = (Err er, w1) ∧ r = Ok reply ∧ is_error reply
                   ∧ w'.(w_db) = w1.(w_db) ∧ messages w' = messages w1.
Proof.
  unfold respond, catch. destruct (m w) as [[reply|er] w1] eqn:E.
  - intros [= <- <-]. left. eauto.
  - intros Hr. right. exists er, w1.
    destruct er; unfold writeError, mret, M_ret in Hr;
      try (injection Hr as <- <-; eexists; split; [done|]; split; [done|]; split; [by do 3 eexists|done]);
      unfold mbind, M_bind in Hr; simpl in Hr; injection Hr as <- <-; eexists; (split; [done|]);
      (split; [done|]); (split; [by do 3 eexists|]); (split; [done|]); apply (messages_logf _ w1).
Qed.

(** A transaction of a body that sends nothing. *)
Lemma WithTx_quiet_cases {A} u o (fn : M A) Q w r w' :
  gives fn Q → quiet fn → WithTx u o fn w = (r, w') →
  messages w' = messages w
  ∧ ((∃ er, r = Err er ∧ w'.(w_db) = w.(w_db))
     ∨ ∃ a e1, r = Ok a ∧ Q (tx_env (env_of w) u o) a e1 ∧ w'.(w_db) = e1.(e_db)).
Proof.
  intros HQ Hq E. split.
  - pose proof (quiet_WithTx u o fn Hq w) as Hm. by rewrite E in Hm.
  - destruct (WithTx_cases _ _ _ _ _ _ _ HQ E) as [(er & -> & ? & _)|(a & e1 & -> & ? & ? & _)]; eauto 6.
Qed.
(** ** Steps that do nothing when they fail *)

Definition atomic {A} (m : M A) : Prop := ∀ w er w', m w = (Err er, w') → keeps w w'.

Lemma atomic_ret {A} (a : A) : atomic (mret a).
Proof. by intros w er w' [=]. Qed.
Lemma atomic_fail {A} er : atomic (@fail A er).
Proof. intros w e w' [= <- <-]. apply keeps_refl. Qed.
Lemma atomic_gets {A} (f : World → A) : atomic (gets f).
Proof. by intros w er w' [=]. Qed.
Lemma atomic_run_stmt {A} c (st : Stmt A) : atomic (run_stmt c st).
Proof.
  intros w er w' [(e & _ & Hs)|(a & d & g & [=] & _)]%run_stmt_cases. by apply same_keeps.
Qed.
Lemma atomic_catch {A} (m : M A) h : atomic m → refails h → atomic (catch m h).
Proof.
  intros Hm Hh w er w' [(b & [=] & _)|(e & e0 & [= ->] & E)]%catch_cases; [|done]. by eapply Hm.
Qed.
Lemma atomic_wrap {A} p (m : M A) : atomic m → atomic (wrap p m).
Proof. intros. by apply atomic_catch, refails_fail. Qed.
Lemma atomic_observes {A} (m : M A) q : observes m q → atomic m.
Proof. intros Hm w er w' E. by apply same_keeps, (observes_run _ _ _ _ _ Hm E). Qed.
(** [exec_affected]: no row affected, nothing changed. *)
Lemma atomic_exec_affected p c (st : Stmt Z) :
  (∀ s d d', st s d = Ok (0, d') → d' = d) → atomic (exec_affected p c st).
Proof.
  intros Hst w er w' [(e & _ & Hs)|(n & d & g & Hn & [Henv Ht] & Hr)]%exec_affected_cases;
    [by apply same_keeps|].
  case_decide as H0; [|done]. subst n. apply Hst in Hn. split; [|unfold messages; by rewrite Ht].
  apply (f_equal e_db) in Henv. simpl in Henv. congruence.
Qed.
Lemma atomic_WithTx {A} u o (fn : M A) Q : gives fn Q → quiet fn → atomic (WithTx u o fn).
Proof.
  intros HQ Hq w er w' E.
  destruct (WithTx_quiet_cases _ _ _ _ _ _ _ HQ Hq E) as [Hm [(e & _ & Hd)|(a & e1 & [=] & _)]].
  by split.
Qed.
Lemma gives_WithTx {A} u o (fn : M A) Q :
  gives fn Q →
  gives (WithTx u o fn) (λ e a e', ∃ e1, Q (tx_env e u o) a e1
    ∧ e' = mkEnv e1.(e_db) e.(e_sess) e1.(e_now)).
Proof.
  intros HQ w a w' E.
  destruct (WithTx_cases _ _ _ _ _ _ _ HQ E) as [(er & [=] & _)|(b & e1 & [= ->] & HQ1 & Hd & Hs & Hn & Hm)].
  split; [|done]. exists e1. split; [done|]. unfold env_of. simpl. congruence.
Qed.
(** Steps that only look. *)
Definition readonly {A} (m : M A) : Prop := observes m (λ _ _, True).
Lemma readonly_of {A} (m : M A) q : observes m q → readonly m.
Proof. intros. by eapply observes_mono. Qed.
Lemma readonly_bind {A B} (m : M A) (k : A → M B) :
  readonly m → (∀ a, readonly (k a)) → readonly (m ≫= k).
Proof.
  intros Hm Hk. eapply readonly_of. apply (observes_bind m k (λ _ _, True) (λ _ _ _, True)); done.
Qed.
Lemma readonly_refails {A} (m : M A) h : readonly m → refails h → readonly (catch m h).
Proof.
  intros Hm Hh. apply observes_catch; [done|]. intros e w. destruct (Hh e w) as [e' ->].
  split; [reflexivity|]. by intros a [=].
Qed.
Lemma readonly_ret {A} (a : A) : readonly (mret a).
Proof. eapply readonly_of, observes_ret. Qed.
Lemma readonly_fail {A} er : readonly (@fail A er).
Proof. by eapply readonly_of, observes_fail. Qed.
Lemma readonly_now : readonly now.
Proof. eapply readonly_of, observes_now. Qed.
Lemma readonly_query {A} c (f : StmtEnv → DB → A) : readonly (run_stmt c (query f)).
Proof. eapply readonly_of, observes_query. Qed.
Lemma readonly_query_row {A} c (f : StmtEnv → DB → list A) : readonly (run_stmt c (query_row f)).
Proof. eapply readonly_of, observes_query_row. Qed.
Create HintDb readonly.
#[export] Hint Resolve readonly_ret readonly_fail readonly_now readonly_query readonly_query_row : readonly.
Ltac readonly_step :=
  match goal with
  | |- readonly (mbind _ _) => apply readonly_bind; [|intros ?]
  | |- readonly (match ?x with _ => _ end) => destruct x
  | |- readonly (catch _ _) => apply readonly_refails; [|solve [eauto with effects]]
  | |- readonly (or_not_found _ _) => apply readonly_refails; [|solve [eauto with effects]]
  | |- readonly (scan _) => apply readonly_refails; [|solve [eauto with effects]]
  | |- readonly (wrap _ _) => apply readonly_refails; [|solve [eauto with effects]]
  | |- readonly _ => solve [eauto 3 with readonly]
  end.
Ltac readonly_auto := repeat readonly_step.
(** A step that changes nothing, then an atomic one; an atomic one, then a
    value. *)
Lemma atomic_after {A B} (m : M A) (k : A → M B) q :
  observes m q → (∀ a, atomic (k a)) → atomic (m ≫= k).
Proof.
  intros Hm Hk w er w' E. unfold mbind, M_bind in E. destruct (m w) as [r w1] eqn:Em.
  destruct (observes_run _ _ _ _ _ Hm Em) as [Hs _].
  destruct r as [a|e]; [|simplify_eq; by apply same_keeps].
  eapply keeps_same_l; [exact Hs|by eapply Hk].
Qed.
Lemma atomic_then {A B} (m : M A) (f : A → B) : atomic m → atomic (a ← m; mret (f a)).
Proof.
  intros Hm w er w' E. unfold mbind, M_bind in E. destruct (m w) as [[a|e] w1] eqn:Em; [by simplify_eq|].
  simplify_eq. by eapply Hm.
Qed.
Create HintDb atomic.
#[export] Hint Resolve atomic_ret atomic_fail atomic_gets atomic_run_stmt atomic_wrap : atomic.

Lemma atomic_cases {A B} (m : M A) (k : A → M B) Q w r w' :
  gives m Q → atomic m → (m ≫= k) w = (r, w') →
  (∃ er, m w = (Err er, w') ∧ r = Err er ∧ keeps w w')
  ∨ ∃ a w1, m w = (Ok a, w1) ∧ Q (env_of w) a (env_of w1) ∧ messages w1 = messages w ∧ k a w1 = (r, w').
Proof.
  intros HQ Ha E. unfold mbind, M_bind in E. destruct (m w) as [[a|er] w1] eqn:Em.
  - right. exists a, w1. destruct (HQ _ _ _ Em). by split_and!.
  - left. simplify_eq. exists er. split_and!; [done..|]. by eapply Ha.
Qed.

(** A step that only looks at its input. *)
Lemma path_id_cases `{UUIDText} name s w :
  path_id name s w = match uuid_Parse s with
                     | Some u => (Ok u, w)
                     | None => (Err (errBadRequest (name +:+ " must be a valid UUID")), w)
                     end.
Proof. unfold path_id. by destruct (uuid_Parse s). Qed.

