(* ===== verification/Isolation.v ===== *)
(** * Isolation: no request writes another tenant's data

    What a request may change: the rows of the organization it acts on.
    [untouched f d d'] says every row that belongs to organization [f] is the
    same in [d'] as in [d]; each statement of an authenticated route is shown
    to leave the other organizations untouched, then each route, then the
    dispatcher ([Routes] of services/apiserver/internal/server/server.go). *)
From S2P Require Import Prelude Json Schema Effects Rls Outcomes DbTenancy DbWorkload.
From S2P Require Import DbCluster Wire Encoding Auth ApiCore ApiOrgs ApiApps Sample.
From stdpp Require Import base gmap strings list.
From Stdlib Require Import ZArith Lia.
Open Scope Z_scope.

(** ** Rows kept *)

Definition rows_kept {A} (P : A → Prop) (t t' : table A) : Prop :=
  ∀ i x, P x → t !! i = Some x ↔ t' !! i = Some x.
#[export] Instance rows_kept_preorder {A} (P : A → Prop) : PreOrder (rows_kept P).
Proof.
  split; [by intros t i x|]. intros t1 t2 t3 H12 H23 i x Hx. by rewrite (H12 i x Hx), (H23 i x Hx).
Qed.
Lemma rows_kept_insert {A} (P : A → Prop) (t : table A) i y :
  t !! i = None → ¬ P y → rows_kept P t (<[i:=y]> t).
Proof.
  intros Hi Hy j x Hx. destruct (decide (j = i)) as [->|].
  - rewrite lookup_insert_eq, Hi. split; [done|]. by intros [= ->].
  - by rewrite lookup_insert_ne.
Qed.
Lemma rows_kept_replace {A} (P : A → Prop) (t : table A) i x0 y :
  t !! i = Some x0 → ¬ P x0 → ¬ P y → rows_kept P t (<[i:=y]> t).
Proof.
  intros Hi Hx0 Hy j x Hx. destruct (decide (j = i)) as [->|].
  - rewrite lookup_insert_eq, Hi. split; intros [= Heq]; rewrite <-Heq in Hx; done.
  - by rewrite lookup_insert_ne.
Qed.
Lemma rows_kept_update_where {A} (P Q : A → Prop) `{!∀ x, Decision (Q x)} g (t : table A) :
  (∀ x, Q x → ¬ P x ∧ ¬ P (g x)) → rows_kept P t (update_where Q g t).
Proof.
  intros HQ j x Hx. rewrite lookup_update_where. destruct (t !! j) as [y|]; simpl; [|done].
  case_decide as Hy; [|done]. destruct (HQ y Hy). split; intros [= Heq]; rewrite <-Heq in Hx; done.
Qed.
Lemma rows_kept_delete_where {A} (P Q : A → Prop) `{!∀ x, Decision (Q x)} (t : table A) :
  (∀ i x, t !! i = Some x → Q x → ¬ P x) → rows_kept P t (delete_where Q t).
Proof. intros HQ j x Hx. rewrite lookup_delete_where. naive_solver. Qed.
Lemma rows_kept_delete {A} (P : A → Prop) (t : table A) i :
  (∀ x, t !! i = Some x → ¬ P x) → rows_kept P t (delete i t).
Proof.
  intros Hi j x Hx. destruct (decide (j = i)) as [->|].
  - rewrite lookup_delete_eq. split; [|done]. intros Hj. by destruct (Hi x Hj).
  - by rewrite lookup_delete_ne.
Qed.

(** ** What belongs to an organization *)

Record untouched (f : uuid) (d d' : DB) : Prop := {
  u_organization : d'.(organizations) !! f = d.(organizations) !! f;
  u_memberships : rows_kept (λ x, x.(Membership_OrgID) = f) d.(memberships) d'.(memberships);
  u_projects : rows_kept (λ x, x.(Project_OrgID) = f) d.(projects) d'.(projects);
  u_applications : rows_kept (λ x, x.(Application_OrgID) = f) d.(applications) d'.(applications);
  u_deployments : rows_kept (λ x, x.(Deployment_OrgID) = f) d.(deployments) d'.(deployments);
  u_builds : rows_kept (λ x, x.(Build_OrgID) = f) d.(builds) d'.(builds);
  u_domains : rows_kept (λ x, x.(Domain_OrgID) = f) d.(domains) d'.(domains);
  u_api_keys : rows_kept (λ x, x.(APIKeyRow_key).(APIKey_OrgID) = f) d.(api_keys) d'.(api_keys);
  u_quotas : rows_kept (λ x, x.(ResourceQuota_OrgID) = f) d.(resource_quotas) d'.(resource_quotas);
  u_audit_logs : rows_kept (λ x, x.(AuditLogEntry_OrgID) = f) d.(audit_logs) d'.(audit_logs);
  u_containers : ∀ i x, container_org d x = Some f →
    d.(containers) !! i = Some x ↔ d'.(containers) !! i = Some x }.

#[export] Instance untouched_preorder f : PreOrder (untouched f).
Proof.
  split.
  - intros d. split; reflexivity || done.
  - intros d1 d2 d3 H12 H23. destruct H12 as [? ? ? ? Hdep12 ? ? ? ? ? Hc12], H23 as [? ? ? ? Hdep23 ? ? ? ? ? Hc23].
    split; first [by etransitivity | congruence | idtac].
    intros i x Hx. rewrite Hc12 by done. apply Hc23.
    unfold container_org in *. destruct (deployments d1 !! _) as [y|] eqn:E; [|done].
    simpl in Hx. simplify_eq. by rewrite (proj1 (Hdep12 _ y eq_refl) E).
Qed.

(** Only one table changes, and its rows of [f] are kept. *)
Ltac one_table := intros; split; simpl; first [reflexivity | done].
Lemma untouched_organizations f d t :
  t !! f = d.(organizations) !! f → untouched f d (set_organizations t d).
Proof. one_table. Qed.
Lemma untouched_memberships f d t :
  rows_kept (λ x, x.(Membership_OrgID) = f) d.(memberships) t → untouched f d (set_memberships t d).
Proof. one_table. Qed.
Lemma untouched_projects f d t :
  rows_kept (λ x, x.(Project_OrgID) = f) d.(projects) t → untouched f d (set_projects t d).
Proof. one_table. Qed.
Lemma untouched_applications f d t :
  rows_kept (λ x, x.(Application_OrgID) = f) d.(applications) t → untouched f d (set_applications t d).
Proof. one_table. Qed.
Lemma untouched_deployments f d t :
  rows_kept (λ x, x.(Deployment_OrgID) = f) d.(deployments) t → untouched f d (set_deployments t d).
Proof. one_table. Qed.
Lemma untouched_builds f d t :
  rows_kept (λ x, x.(Build_OrgID) = f) d.(builds) t → untouched f d (set_builds t d).
Proof. one_table. Qed.
Lemma untouched_domains f d t :
  rows_kept (λ x, x.(Domain_OrgID) = f) d.(domains) t → untouched f d (set_domains t d).
Proof. one_table. Qed.
Lemma untouched_api_keys f d t :
  rows_kept (λ x, x.(APIKeyRow_key).(APIKey_OrgID) = f) d.(api_keys) t →
  untouched f d (set_api_keys t d).
Proof. one_table. Qed.
Lemma untouched_quotas f d t :
  rows_kept (λ x, x.(ResourceQuota_OrgID) = f) d.(resource_quotas) t →
  untouched f d (set_resource_quotas t d).
Proof. one_table. Qed.
Lemma untouched_audit_logs f d t :
  rows_kept (λ x, x.(AuditLogEntry_OrgID) = f) d.(audit_logs) t → untouched f d (set_audit_logs t d).
Proof. one_table. Qed.
Lemma untouched_instances f d t : untouched f d (set_service_instances t d).
Proof. one_table. Qed.
Lemma untouched_services f d t : untouched f d (set_services t d).
Proof. one_table. Qed.
Lemma untouched_containers f d t :
  (∀ i x, container_org d x = Some f → d.(containers) !! i = Some x ↔ t !! i = Some x) →
  untouched f d (set_containers t d).
Proof. one_table. Qed.
Lemma untouched_audited f o u action ttype tid md t d d' :
  f ≠ o → audited o u action ttype tid md t d d' → untouched f d d'.
Proof.
  intros Hf (g & Hg & ->). apply untouched_audit_logs, rows_kept_insert; [done|]. simpl. congruence.
Qed.

(** ** Consistency of the rows with their parents *)

(** A row's key is its id, and a child has a parent, of the same
    organization. *)
Record consistent (d : DB) : Prop := {
  c_application_key : ∀ i x, d.(applications) !! i = Some x → x.(Application_ID) = i;
  c_domain_key : ∀ i x, d.(domains) !! i = Some x → x.(Domain_ID) = i;
  c_application : ∀ i x, d.(applications) !! i = Some x →
    ∃ p, d.(projects) !! x.(Application_ProjectID) = Some p ∧ p.(Project_OrgID) = x.(Application_OrgID);
  c_deployment : ∀ i x, d.(deployments) !! i = Some x →
    ∃ a, d.(applications) !! x.(Deployment_ApplicationID) = Some a
         ∧ a.(Application_OrgID) = x.(Deployment_OrgID);
  c_build : ∀ i x, d.(builds) !! i = Some x →
    ∃ a, d.(applications) !! x.(Build_ApplicationID) = Some a
         ∧ a.(Application_OrgID) = x.(Build_OrgID);
  c_domain : ∀ i x, d.(domains) !! i = Some x →
    (∃ a, d.(applications) !! x.(Domain_ApplicationID) = Some a
          ∧ a.(Application_OrgID) = x.(Domain_OrgID))
    ∧ ∃ p, d.(projects) !! x.(Domain_ProjectID) = Some p ∧ p.(Project_OrgID) = x.(Domain_OrgID) }.

(** What holds of it half way through a cascade, when a parent is gone and its
    children are still there. *)
Record coherent (d : DB) : Prop := {
  h_application : ∀ i x p, d.(applications) !! i = Some x →
    d.(projects) !! x.(Application_ProjectID) = Some p → p.(Project_OrgID) = x.(Application_OrgID);
  h_deployment : ∀ i x a, d.(deployments) !! i = Some x →
    d.(applications) !! x.(Deployment_ApplicationID) = Some a →
    a.(Application_OrgID) = x.(Deployment_OrgID);
  h_build : ∀ i x a, d.(builds) !! i = Some x →
    d.(applications) !! x.(Build_ApplicationID) = Some a → a.(Application_OrgID) = x.(Build_OrgID);
  h_domain_application : ∀ i x a, d.(domains) !! i = Some x →
    d.(applications) !! x.(Domain_ApplicationID) = Some a → a.(Application_OrgID) = x.(Domain_OrgID);
  h_domain_project : ∀ i x p, d.(domains) !! i = Some x →
    d.(projects) !! x.(Domain_ProjectID) = Some p → p.(Project_OrgID) = x.(Domain_OrgID) }.
Lemma consistent_coherent d : consistent d → coherent d.
Proof.
  intros [_ _ Ha Hd Hb Hm]. split; intros i x y Hx Hy.
  - destruct (Ha i x Hx) as (? & ? & ?). congruence.
  - destruct (Hd i x Hx) as (? & ? & ?). congruence.
  - destruct (Hb i x Hx) as (? & ? & ?). congruence.
  - destruct (Hm i x Hx) as ((? & ? & ?) & _). congruence.
  - destruct (Hm i x Hx) as (_ & ? & ? & ?). congruence.
Qed.

(** ** Cascading deletes *)

Lemma elem_of_keys_where {A} (P : A → Prop) `{!∀ x, Decision (P x)} (t : table A) i :
  i ∈ keys_where P t ↔ ∃ x, t !! i = Some x ∧ P x.
Proof.
  unfold keys_where. rewrite elem_of_dom. unfold is_Some.
  setoid_rewrite map_lookup_filter_Some. done.
Qed.

(** Deleting keeps the invariant and what belongs to [f]. *)
Definition drops (f : uuid) (d d' : DB) : Prop := coherent d' ∧ untouched f d d'.
Lemma drops_trans f d1 d2 d3 : drops f d1 d2 → drops f d2 d3 → drops f d1 d3.
Proof. intros [_ H12] [? H23]. split; [done|]. by transitivity d2. Qed.

(** Deleting rows of one table cannot break the invariant. *)
Ltac still_coherent Hc :=
  destruct Hc; split; simpl; intros *; rewrite ?lookup_delete_where; naive_solver.

Section drops.
Context (f : uuid) (d0 : DB).

Lemma drops_containers (P : Container → Prop) `{!∀ x, Decision (P x)} d :
  drops f d0 d → (∀ i x, d.(containers) !! i = Some x → P x → container_org d x ≠ Some f) →
  drops f d0 (drop_containers P d).
Proof.
  intros Hd HP. apply (drops_trans _ _ _ _ Hd). destruct Hd as [Hc _]. unfold drop_containers.
  split; [by destruct Hc|]. etransitivity; [|apply untouched_instances].
  apply untouched_containers. intros i x Hx. rewrite lookup_delete_where. naive_solver.
Qed.
Lemma drops_deployments (P : Deployment → Prop) `{!∀ x, Decision (P x)} d :
  drops f d0 d → (∀ i x, d.(deployments) !! i = Some x → P x → x.(Deployment_OrgID) ≠ f) →
  drops f d0 (drop_deployments P d).
Proof.
  intros Hd HP. unfold drop_deployments. apply drops_containers.
  - apply (drops_trans _ _ _ _ Hd). destruct Hd as [Hc _]. split; [still_coherent Hc|].
    by apply untouched_deployments, rows_kept_delete_where.
  - intros i x _ (y & Hy & HPy)%elem_of_keys_where. unfold container_org. simpl.
    destruct (delete_where P _ !! _) as [z|] eqn:Hz; [|done].
    apply lookup_delete_where in Hz as [??]. naive_solver.
Qed.
Lemma drops_services (P : Service → Prop) `{!∀ x, Decision (P x)} d :
  drops f d0 d → drops f d0 (drop_services P d).
Proof.
  intros Hd. apply (drops_trans _ _ _ _ Hd). destruct Hd as [Hc _]. unfold drop_services.
  split; [by destruct Hc|]. etransitivity; [apply untouched_services|apply untouched_instances].
Qed.
Lemma drops_domains (P : Domain → Prop) `{!∀ x, Decision (P x)} d :
  drops f d0 d → (∀ i x, d.(domains) !! i = Some x → P x → x.(Domain_OrgID) ≠ f) →
  drops f d0 (drop_domains P d).
Proof.
  intros Hd HP. apply (drops_trans _ _ _ _ Hd). destruct Hd as [Hc _].
  split; [still_coherent Hc|]. by apply untouched_domains, rows_kept_delete_where.
Qed.
Lemma drops_builds (P : Build → Prop) `{!∀ x, Decision (P x)} d :
  drops f d0 d → (∀ i x, d.(builds) !! i = Some x → P x → x.(Build_OrgID) ≠ f) →
  drops f d0 (drop_builds P d).
Proof.
  intros Hd HP. apply (drops_trans _ _ _ _ Hd). destruct Hd as [Hc _].
  split; [still_coherent Hc|]. by apply untouched_builds, rows_kept_delete_where.
Qed.

(** The rows under a deleted parent are not [f]'s. *)
Lemma gone_not {A} (P : A → Prop) `{!∀ x, Decision (P x)} (t : table A) (org : A → uuid) a o :
  (∀ i x, t !! i = Some x → P x → org x ≠ f) →
  (∀ x, t !! a = Some x → org x = o) → a ∈ keys_where P t → o ≠ f.
Proof. intros HP Ho (x & Hx & HPx)%elem_of_keys_where. rewrite <-(Ho x Hx). eauto. Qed.

Lemma drops_applications (P : Application → Prop) `{!∀ x, Decision (P x)} d :
  drops f d0 d → (∀ i x, d.(applications) !! i = Some x → P x → x.(Application_OrgID) ≠ f) →
  drops f d0 (drop_applications P d).
Proof.
  intros Hd HP. pose proof (proj1 Hd) as Hc. unfold drop_applications.
  apply drops_deployments; [apply drops_services, drops_domains; [apply drops_builds|]|].
  - apply (drops_trans _ _ _ _ Hd). split; [still_coherent Hc|].
    by apply untouched_applications, rows_kept_delete_where.
  - intros i x Hi. apply (gone_not P _ Application_OrgID); [done|]. intros a. by eapply h_build.
  - intros i x Hi. apply (gone_not P _ Application_OrgID); [done|]. intros a.
    by eapply h_domain_application.
  - intros i x Hi. apply (gone_not P _ Application_OrgID); [done|]. intros a. by eapply h_deployment.
Qed.
Lemma drops_projects (P : Project → Prop) `{!∀ x, Decision (P x)} d :
  drops f d0 d → (∀ i x, d.(projects) !! i = Some x → P x → x.(Project_OrgID) ≠ f) →
  drops f d0 (drop_projects P d).
Proof.
  intros Hd HP. pose proof (proj1 Hd) as Hc. unfold drop_projects.
  apply drops_applications; [apply drops_domains|].
  - apply (drops_trans _ _ _ _ Hd). split; [still_coherent Hc|].
    by apply untouched_projects, rows_kept_delete_where.
  - intros i x Hi. apply (gone_not P _ Project_OrgID); [done|]. intros a. by eapply h_domain_project.
  - intros i x Hi. apply (gone_not P _ Project_OrgID); [done|]. intros a.
    by eapply h_application.
Qed.
Lemma drops_organization o : coherent d0 → o ≠ f → drops f d0 (drop_organization o d0).
Proof.
  intros Hc Hof. unfold drop_organization.
  assert (∀ (A : Type) (org : A → uuid) (t : table A),
    rows_kept (λ x, org x = f) t (delete_where (λ x, org x = o) t)) as Hdel.
  { intros A org t. apply rows_kept_delete_where. congruence. }
  apply drops_projects; [|intros i x _; congruence].
  apply drops_applications; [|intros i x _; congruence].
  apply drops_deployments; [|intros i x _; congruence].
  apply drops_domains; [|intros i x _; congruence].
  apply drops_builds; [|intros i x _; congruence].
  split; [by destruct Hc|]. split; simpl; try reflexivity; try apply Hdel. by rewrite lookup_delete_ne.
Qed.
End drops.

(** ** Cascades keep the whole invariant *)

Lemma not_in_keys_where {A} (P : A → Prop) `{!∀ x, Decision (P x)} (t : table A) i x :
  t !! i = Some x → i ∉ keys_where P t ↔ ¬ P x.
Proof. intros Hx. rewrite elem_of_keys_where. naive_solver. Qed.

(** A surviving child's parent survives. *)
Lemma parent_survives {A} (P : A → Prop) `{!∀ x, Decision (P x)} (t : table A) i (Q : A → Prop) :
  (∃ a, t !! i = Some a ∧ Q a) → i ∉ keys_where P t → ∃ a, delete_where P t !! i = Some a ∧ Q a.
Proof.
  intros (a & Ha & HQ) Hi. exists a. rewrite lookup_delete_where.
  by rewrite (not_in_keys_where P _ _ _ Ha) in Hi.
Qed.

Lemma consistent_drop_domains (P : Domain → Prop) `{!∀ x, Decision (P x)} d :
  consistent d → consistent (drop_domains P d).
Proof. intros []; split; simpl; intros *; rewrite ?lookup_delete_where; naive_solver. Qed.

Lemma consistent_drop_applications (P : Application → Prop) `{!∀ x, Decision (P x)} d :
  consistent d → consistent (drop_applications P d).
Proof.
  intros [Hak Hdk Ha Hd Hb Hm]. split; simpl; intros i x; rewrite ?lookup_delete_where.
  - naive_solver.
  - naive_solver.
  - naive_solver.
  - intros [Hx Hg]. eauto using parent_survives.
  - intros [Hx Hg]. eauto using parent_survives.
  - intros [Hx Hg]. destruct (Hm i x Hx). eauto using parent_survives.
Qed.

Lemma consistent_drop_organization o d : consistent d → consistent (drop_organization o d).
Proof.
  intros [Hak Hdk Ha Hd Hb Hm]. split; simpl; intros i x; rewrite ?lookup_delete_where.
  - naive_solver.
  - naive_solver.
  - intros [[Hx Ho] Hg]. by apply parent_survives; [apply (Ha i x)|].
  - intros [[[Hx Ho] Hg1] Hg2]. eauto 6 using parent_survives.
  - intros [[[Hx Ho] Hg1] Hg2]. eauto 6 using parent_survives.
  - intros [[[[Hx Ho] Hg1] Hg2] Hg3]. destruct (Hm i x Hx). eauto 6 using parent_survives.
Qed.

(** ** Acting on one organization *)

Definition acts (o : uuid) (d d' : DB) : Prop :=
  consistent d → consistent d' ∧ ∀ f, f ≠ o → untouched f d d'.
#[export] Instance acts_preorder o : PreOrder (acts o).
Proof.
  split; [by intros d Hd|]. intros d1 d2 d3 H12 H23 H1.
  destruct (H12 H1) as [H2 U12]. destruct (H23 H2) as [H3 U23]. split; [done|].
  intros f Hf. transitivity d2; auto.
Qed.

Lemma acts_under o d d' : (consistent d → acts o d d') → acts o d d'.
Proof. intros H Hc. by apply H. Qed.

Lemma parent_insert {A} (t : table A) g y i (Q : A → Prop) :
  t !! g = None → (∃ a, t !! i = Some a ∧ Q a) → ∃ a, <[g:=y]> t !! i = Some a ∧ Q a.
Proof. intros Hg (a & Ha & HQ). exists a. rewrite lookup_insert_ne; [done|congruence]. Qed.
Lemma parent_replace {A} (t : table A) g x y i (Q : A → Prop) :
  t !! g = Some x → (Q x → Q y) → (∃ a, t !! i = Some a ∧ Q a) → ∃ a, <[g:=y]> t !! i = Some a ∧ Q a.
Proof.
  intros Hg HQ (a & Ha & HQa). destruct (decide (i = g)) as [->|].
  - exists y. rewrite lookup_insert_eq. naive_solver.
  - exists a. by rewrite lookup_insert_ne.
Qed.
Lemma lookup_insert_inv {A} (t : table A) g y i x :
  <[g:=y]> t !! i = Some x → (i = g ∧ x = y) ∨ t !! i = Some x.
Proof. rewrite lookup_insert_Some. naive_solver. Qed.

(** Tables no other row depends on. *)
Lemma acts_organizations o d t :
  (∀ f, f ≠ o → t !! f = d.(organizations) !! f) → acts o d (set_organizations t d).
Proof. intros Ht Hc. split; [by destruct Hc|]. auto using untouched_organizations. Qed.
Lemma acts_memberships o d t :
  (∀ f, f ≠ o → rows_kept (λ x, x.(Membership_OrgID) = f) d.(memberships) t) →
  acts o d (set_memberships t d).
Proof. intros Ht Hc. split; [by destruct Hc|]. auto using untouched_memberships. Qed.
Lemma acts_api_keys o d t :
  (∀ f, f ≠ o → rows_kept (λ x, x.(APIKeyRow_key).(APIKey_OrgID) = f) d.(api_keys) t) →
  acts o d (set_api_keys t d).
Proof. intros Ht Hc. split; [by destruct Hc|]. auto using untouched_api_keys. Qed.
Lemma acts_quotas o d t :
  (∀ f, f ≠ o → rows_kept (λ x, x.(ResourceQuota_OrgID) = f) d.(resource_quotas) t) →
  acts o d (set_resource_quotas t d).
Proof. intros Ht Hc. split; [by destruct Hc|]. auto using untouched_quotas. Qed.
Lemma acts_audited o u action ttype tid md t d d' :
  audited o u action ttype tid md t d d' → acts o d d'.
Proof.
  intros Ha Hc. split; [|intros f Hf; by eapply untouched_audited].
  destruct Ha as (g & _ & ->). by destruct Hc.
Qed.

(** A fresh row of [o]. *)
Lemma acts_insert_project o d g y :
  d.(projects) !! g = None → y.(Project_OrgID) = o →
  acts o d (set_projects (<[g:=y]> d.(projects)) d).
Proof.
  intros Hg Hy [Hak Hdk Ha Hd Hb Hm]. split.
  - split; simpl; eauto using parent_insert. intros i x Hx. destruct (Hm i x Hx). eauto using parent_insert.
  - intros f Hf. apply untouched_projects, rows_kept_insert; [done|congruence].
Qed.
Lemma acts_insert_application o d g y p :
  d.(applications) !! g = None → y.(Application_ID) = g → y.(Application_OrgID) = o →
  d.(projects) !! y.(Application_ProjectID) = Some p → p.(Project_OrgID) = o →
  acts o d (set_applications (<[g:=y]> d.(applications)) d).
Proof.
  intros Hg Hk Hy Hp Ho [Hak Hdk Ha Hd Hb Hm]. split.
  - split; simpl; eauto using parent_insert.
    + intros i x [[-> ->]|Hx]%lookup_insert_inv; eauto.
    + intros i x [[-> ->]|Hx]%lookup_insert_inv; [|eauto]. exists p. split; [done|congruence].
    + intros i x Hx. destruct (Hm i x Hx). eauto using parent_insert.
  - intros f Hf. apply untouched_applications, rows_kept_insert; [done|congruence].
Qed.
Lemma acts_insert_deployment o d g y a :
  d.(deployments) !! g = None → y.(Deployment_OrgID) = o →
  d.(applications) !! y.(Deployment_ApplicationID) = Some a → a.(Application_OrgID) = o →
  acts o d (set_deployments (<[g:=y]> d.(deployments)) d).
Proof.
  intros Hg Hy Ha Ho [Hak Hdk Hap Hd Hb Hm]. split.
  - split; simpl; eauto.
    intros i x [[-> ->]|Hx]%lookup_insert_inv; [|eauto]. exists a. split; [done|congruence].
  - intros f Hf. apply untouched_deployments, rows_kept_insert; [done|congruence].
Qed.
Lemma acts_insert_build o d g y a :
  d.(builds) !! g = None → y.(Build_OrgID) = o →
  d.(applications) !! y.(Build_ApplicationID) = Some a → a.(Application_OrgID) = o →
  acts o d (set_builds (<[g:=y]> d.(builds)) d).
Proof.
  intros Hg Hy Ha Ho [Hak Hdk Hap Hd Hb Hm]. split.
  - split; simpl; eauto.
    intros i x [[-> ->]|Hx]%lookup_insert_inv; [|eauto]. exists a. split; [done|congruence].
  - intros f Hf. apply untouched_builds, rows_kept_insert; [done|congruence].
Qed.
Lemma acts_insert_domain o d g y a p :
  d.(domains) !! g = None → y.(Domain_ID) = g → y.(Domain_OrgID) = o →
  d.(applications) !! y.(Domain_ApplicationID) = Some a → a.(Application_OrgID) = o →
  d.(projects) !! y.(Domain_ProjectID) = Some p → p.(Project_OrgID) = o →
  acts o d (set_domains (<[g:=y]> d.(domains)) d).
Proof.
  intros Hg Hk Hy Ha Hao Hp Hpo [Hak Hdk Hap Hd Hb Hm]. split.
  - split; simpl; eauto.
    + intros i x [[-> ->]|Hx]%lookup_insert_inv; eauto.
    + intros i x [[-> ->]|Hx]%lookup_insert_inv; [|eauto].
      split; [exists a|exists p]; (split; [done|congruence]).
  - intros f Hf. apply untouched_domains, rows_kept_insert; [done|congruence].
Qed.

(** A row of [o] rewritten, its parents kept. *)
Lemma acts_replace_application o d i x y :
  d.(applications) !! i = Some x → x.(Application_OrgID) = o → y.(Application_ID) = x.(Application_ID) →
  y.(Application_OrgID) = x.(Application_OrgID) → y.(Application_ProjectID) = x.(Application_ProjectID) →
  acts o d (set_applications (<[i:=y]> d.(applications)) d).
Proof.
  intros Hx Ho Hk Hy Hp [Hak Hdk Ha Hd Hb Hm]. split.
  - assert (∀ j o', (∃ a, d.(applications) !! j = Some a ∧ a.(Application_OrgID) = o') →
      ∃ a, <[i:=y]> d.(applications) !! j = Some a ∧ a.(Application_OrgID) = o') as Hpar.
    { intros j o'. apply (parent_replace _ _ x); [done|congruence]. }
    split; simpl; eauto.
    + intros j z [[-> ->]|Hz]%lookup_insert_inv; [rewrite Hk|]; eauto.
    + intros j z [[-> ->]|Hz]%lookup_insert_inv; [rewrite Hy, Hp|]; eauto.
    + intros j z Hz. destruct (Hm j z Hz). eauto.
  - intros f Hf. apply untouched_applications, (rows_kept_replace _ _ _ x); [done|congruence..].
Qed.
Lemma acts_replace_deployment o d i x y :
  d.(deployments) !! i = Some x → x.(Deployment_OrgID) = o →
  y.(Deployment_OrgID) = x.(Deployment_OrgID) →
  y.(Deployment_ApplicationID) = x.(Deployment_ApplicationID) →
  acts o d (set_deployments (<[i:=y]> d.(deployments)) d).
Proof.
  intros Hx Ho Hy Hp [Hak Hdk Ha Hd Hb Hm]. split.
  - split; simpl; eauto. intros j z [[-> ->]|Hz]%lookup_insert_inv; [rewrite Hy, Hp|]; eauto.
  - intros f Hf. apply untouched_deployments, (rows_kept_replace _ _ _ x); [done|congruence..].
Qed.
Lemma acts_replace_build o d i x y :
  d.(builds) !! i = Some x → x.(Build_OrgID) = o →
  y.(Build_OrgID) = x.(Build_OrgID) → y.(Build_ApplicationID) = x.(Build_ApplicationID) →
  acts o d (set_builds (<[i:=y]> d.(builds)) d).
Proof.
  intros Hx Ho Hy Hp [Hak Hdk Ha Hd Hb Hm]. split.
  - split; simpl; eauto. intros j z [[-> ->]|Hz]%lookup_insert_inv; [rewrite Hy, Hp|]; eauto.
  - intros f Hf. apply untouched_builds, (rows_kept_replace _ _ _ x); [done|congruence..].
Qed.
Lemma acts_replace_domain o d i x y :
  d.(domains) !! i = Some x → x.(Domain_OrgID) = o → y.(Domain_ID) = x.(Domain_ID) →
  y.(Domain_OrgID) = x.(Domain_OrgID) → y.(Domain_ApplicationID) = x.(Domain_ApplicationID) →
  y.(Domain_ProjectID) = x.(Domain_ProjectID) →
  acts o d (set_domains (<[i:=y]> d.(domains)) d).
Proof.
  intros Hx Ho Hk Hy Hp Hq [Hak Hdk Ha Hd Hb Hm]. split.
  - split; simpl; eauto.
    + intros j z [[-> ->]|Hz]%lookup_insert_inv; [rewrite Hk|]; eauto.
    + intros j z [[-> ->]|Hz]%lookup_insert_inv; [rewrite Hy, Hp, Hq|]; eauto.
  - intros f Hf. apply untouched_domains, (rows_kept_replace _ _ _ x); [done|congruence..].
Qed.

(** Deletes. *)
Lemma acts_drop_application d i x :
  d.(applications) !! i = Some x →
  acts x.(Application_OrgID) d (drop_applications (λ a, a.(Application_ID) = i) d).
Proof.
  intros Hx Hc. split; [by apply consistent_drop_applications|]. intros f Hf.
  apply drops_applications; [by split; [apply consistent_coherent|]|].
  intros j y Hy Hj. rewrite (c_application_key _ Hc j y Hy) in Hj. congruence.
Qed.
Lemma acts_drop_domain d i x :
  d.(domains) !! i = Some x →
  acts x.(Domain_OrgID) d (drop_domains (λ a, a.(Domain_ID) = i) d).
Proof.
  intros Hx Hc. split; [by apply consistent_drop_domains|]. intros f Hf.
  apply drops_domains; [by split; [apply consistent_coherent|]|].
  intros j y Hy Hj. rewrite (c_domain_key _ Hc j y Hy) in Hj. congruence.
Qed.
Lemma acts_drop_organization o d : acts o d (drop_organization o d).
Proof.
  intros Hc. split; [by apply consistent_drop_organization|]. intros f Hf.
  by apply drops_organization; [apply consistent_coherent|].
Qed.

(** ** The sample database *)

Lemma sample_consistent : consistent sampleDB.
Proof.
  split; unfold sampleDB; simpl; intros i x; rewrite ?lookup_singleton_Some, ?lookup_empty; try done;
    try (intros [<- <-]; done); intros [<- <-]; eexists; rewrite lookup_singleton_eq; done.
Qed.
