(* ===== verification/Quotas.v ===== *)
(** * Quotas: what the API's quota checks establish

    services/apiserver/internal/server/quota.go over the request's own
    transaction: a check that passes has read the organization's quota, its
    live usage, and compared them. *)
From S2P Require Import Prelude Json Schema Effects Rls Outcomes DbTenancy DbWorkload.
From S2P Require Import DbCluster Encoding Auth ApiCore.
From stdpp Require Import base gmap strings list.
From Stdlib Require Import ZArith Lia.
Open Scope Z_scope.

(** ** Reads *)

Lemma gives_quota_Get o :
  gives (QuotaRepository.Get TxConn o)
    (λ e q e', e' = e ∧ e.(e_db).(resource_quotas) !! o = Some q).
Proof.
  apply gives_catch; [|apply refails_or_not_found].
  eapply gives_mono; [apply gives_query_row|]. intros e q e' (-> & g & l & Hl). split; [done|].
  destruct (resource_quotas (e_db e) !! o) as [x|]; simpl in Hl; [|done].
  rewrite filter_cons in Hl. case_decide; [|done]. by simplify_eq.
Qed.

(** Rows of an organization the session sees. *)
Lemma visible_of_seen {A} (t : DB → table A) org o s d :
  org_visible s d o → QuotaRepository.visible_of t org o s d = select (λ x, org x = o) (t d).
Proof.
  intros Ho. unfold QuotaRepository.visible_of, select. apply list_filter_iff.
  intros x. split; [by intros [? _]|]. intros <-. done.
Qed.
Lemma gives_CurrentUsage o :
  gives (QuotaRepository.CurrentUsage TxConn o)
    (λ e u e', e' = e ∧ (can_see e o → usage_of e.(e_db) o e.(e_now) = Ok u)).
Proof.
  unfold QuotaRepository.CurrentUsage. eapply gives_mono.
  - eapply gives_bind; [apply gives_wrap, gives_query|]. intros prj.
    eapply gives_bind; [apply gives_wrap, gives_query|]. intros ctr.
    eapply gives_bind; [apply gives_wrap, gives_run_stmt|]. intros des.
    eapply gives_bind; [apply gives_wrap, gives_query|]. intros dep. apply gives_ret.
  - simpl. intros e u e' (prj & e1 & (-> & g1 & ->) & ctr & e2 & (-> & g2 & ->) & des & e3 &
      (g3 & d & Hdes & ->) & dep & e4 & (-> & g4 & ->) & -> & ->).
    pose proof (desired_sql_pure _ _ _ _ _ Hdes) as ->. split; [by destruct e|]. intros Hsee.
    assert (∀ g, org_visible (stmt_in TxConn e g) (e_db e) o) as Hv by (intros; by apply can_see_spec).
    unfold QuotaRepository.desired_sql in Hdes. rewrite !visible_of_seen in Hdes by done.
    unfold usage_of, desired, mbind, Res_bind in Hdes |- *. simpl in *.
    repeat (case_match; simpl in Hdes; try done). unfold mret, Res_ret in Hdes |- *. simplify_eq/=.
    assert ((a, a0) = a1) as <- by (by unfold mret, Res_ret in *; simplify_eq). f_equal.
    rewrite (visible_of_seen projects) by apply (Hv g1).
    rewrite (visible_of_seen deployments) by apply (Hv g4). f_equal.
    apply count_ext. intros x. specialize (Hv g2). naive_solver.
Qed.

Lemma gives_Latest a :
  gives (DeploymentRepository.Latest TxConn a)
    (λ e x e', e' = e ∧ ∃ g, latest_of (filter (λ x, org_visible (stmt_in TxConn e g) e.(e_db)
                 x.(Deployment_OrgID)) (revisions e.(e_db) a)) = Some x).
Proof.
  apply gives_catch; [|apply refails_scan].
  eapply gives_mono; [apply gives_query_row|]. intros e x e' (-> & g & l & Hl). split; [done|].
  exists g. destruct (latest_of _); simpl in Hl; by simplify_eq.
Qed.
Lemma gives_ListByDeployment c x :
  gives (ContainerRepository.ListByDeployment c x)
    (λ e l e', e' = e ∧ l = sorting.merge_sort ContainerRepository.started_before
       (select (λ y, y.(Container_DeploymentID) = x) e.(e_db).(containers))).
Proof.
  apply gives_wrap. eapply gives_mono; [apply gives_query|]. naive_solver.
Qed.
Lemma gives_CountActive c x :
  gives (ContainerRepository.CountActiveByDeployment c x)
    (λ e n e', e' = e ∧ n = count (λ y, y.(Container_DeploymentID) = x ∧ active y) e.(e_db).(containers)).
Proof. apply gives_wrap. eapply gives_mono; [apply gives_query|]. naive_solver. Qed.

(** [m]'s value when it succeeds, and what its error makes of it when not. *)
Lemma gives_try {A B} (m : M A) (k : A → M B) (h : error → M B) q Q2 Q3 :
  observes m q → (∀ a, gives (k a) (Q2 a)) → (∀ er, gives (h er) Q3) →
  gives (r ← try m; match r with Ok a => k a | Err er => h er end)
    (λ e b e', (∃ a, q e a ∧ Q2 a e b e') ∨ Q3 e b e').
Proof.
  intros Hm Hk Hh w b w' E. rewrite bind_try in E.
  destruct (m w) as [r w1] eqn:Em. destruct (observes_run _ _ _ _ _ Hm Em) as [[He Ht] Hq].
  assert (messages w1 = messages w) as Hmsg by (unfold messages; by rewrite Ht).
  rewrite <-He, <-Hmsg. destruct r as [a|er]; simpl in E.
  - destruct (Hk a w1 b w' E) as [? ?]. split; [left; rewrite He in *; eauto|done].
  - destruct (Hh er w1 b w' E) as [? ?]. by split; [right|].
Qed.

(** ** The checks *)

Definition latest_seen (e : Env) (a : uuid) (x : Deployment) : Prop :=
  ∃ g, latest_of (filter (λ x, org_visible (stmt_in TxConn e g) e.(e_db) x.(Deployment_OrgID))
                         (revisions e.(e_db) a)) = Some x.
Lemma observes_Latest a :
  observes (DeploymentRepository.Latest TxConn a) (λ e x, latest_seen e a x).
Proof.
  apply observes_scan. eapply observes_mono; [apply observes_query_row|].
  intros e x (g & l & Hl). exists g. destruct (latest_of _); simpl in Hl; by simplify_eq.
Qed.
Definition active_of (d : DB) (x : uuid) : Z :=
  count (λ y, y.(Container_DeploymentID) = x ∧ active y) d.(containers).
(** The latest deployment, or a default when there is none. *)
Lemma gives_latest_or {B} a (k : Deployment → M B) (b0 : B) Q :
  (∀ x, gives (k x) (Q x)) →
  gives (r ← try (DeploymentRepository.Latest TxConn a);
         match r with
         | Ok latest => k latest
         | Err e => if errors_Is e ErrNotFound then mret b0 else fail e
         end)
    (λ e b e', (b = b0 ∧ e' = e) ∨ ∃ x, latest_seen e a x ∧ Q x e b e').
Proof.
  intros Hk. eapply gives_mono.
  - eapply gives_try; [apply observes_Latest|exact Hk|]. intros er.
    instantiate (1 := λ e b e', b = b0 ∧ e' = e).
    destruct (errors_Is er ErrNotFound); [apply gives_ret|].
    eapply gives_mono; [apply gives_fail|done].
  - simpl. naive_solver.
Qed.
Lemma gives_currentAppContainers a :
  gives (currentAppContainers TxConn a)
    (λ e n e', e' = e ∧ (n = 0 ∨ ∃ x, latest_seen e a x ∧ n = active_of e.(e_db) x.(Deployment_ID))).
Proof.
  eapply gives_mono; [apply gives_latest_or; intros x; apply gives_CountActive|].
  intros e n e' [[-> ->]|(x & ? & -> & ->)]; eauto 6.
Qed.
Definition resources_fit (e : Env) (o : uuid) (app : Application) (n : Z) : Prop :=
  ∃ q u cur, e.(e_db).(resource_quotas) !! o = Some q
    ∧ (can_see e o → usage_of e.(e_db) o e.(e_now) = Ok u)
    ∧ (cur = 0 ∨ ∃ x, latest_seen e app.(Application_ID) x ∧ cur = active_of e.(e_db) x.(Deployment_ID))
    ∧ resultingContainers u.(ResourceUsage_Containers) cur n ≤ q.(ResourceQuota_MaxContainers)
    ∧ resultingResource u.(ResourceUsage_CPUMillicores) app.(Application_CPUMillicores)
        app.(Application_ReplicasDesired) n ≤ q.(ResourceQuota_MaxCPUMillicores)
    ∧ resultingResource u.(ResourceUsage_MemoryMB) app.(Application_MemoryMB)
        app.(Application_ReplicasDesired) n ≤ q.(ResourceQuota_MaxMemoryMB).
#[export] Hint Resolve gives_quota_Get gives_CurrentUsage gives_Latest gives_ListByDeployment
  gives_CountActive gives_currentAppContainers : gives.
Lemma gives_checkResourceQuota o app n :
  gives (checkResourceQuota TxConn o app n) (λ e _ e', e' = e ∧ resources_fit e o app n).
Proof.
  unfold checkResourceQuota. eapply gives_mono; [gives_auto|]. cbv beta. intros.
  gives_inv. split; [done|]. unfold resources_fit. eauto 12 with lia.
Qed.

Lemma usage_fields d o t u :
  usage_of d o t = Ok u →
  u.(ResourceUsage_Projects) = projects_of d o ∧ u.(ResourceUsage_Containers) = active_containers d o
  ∧ u.(ResourceUsage_DeploymentsToday) = deployments_today d o t
  ∧ desired d o = Ok (u.(ResourceUsage_CPUMillicores), u.(ResourceUsage_MemoryMB)).
Proof.
  unfold usage_of, mbind, Res_bind. destruct (desired d o) as [[c m]|]; [|done].
  unfold mret, Res_ret. intros [= <-]. done.
Qed.
Lemma gives_checkProjectQuota o :
  gives (checkProjectQuota TxConn o)
    (λ e _ e', e' = e ∧ ∃ q, e.(e_db).(resource_quotas) !! o = Some q
       ∧ (can_see e o → projects_of e.(e_db) o < q.(ResourceQuota_MaxProjects))).
Proof.
  unfold checkProjectQuota. eapply gives_mono; [gives_auto|]. cbv beta. intros.
  gives_inv. split; [done|]. eexists. split; [done|]. intros Hsee.
  match goal with H : can_see _ _ → _ |- _ => destruct (usage_fields _ _ _ _ (H Hsee)) as (<- & _) end.
  lia.
Qed.
Lemma gives_checkDeploymentQuota o :
  gives (checkDeploymentQuota TxConn o)
    (λ e _ e', e' = e ∧ ∃ q, e.(e_db).(resource_quotas) !! o = Some q
       ∧ (can_see e o → deployments_today e.(e_db) o e.(e_now) < q.(ResourceQuota_MaxDeploymentsPerDay))).
Proof.
  unfold checkDeploymentQuota. eapply gives_mono; [gives_auto|]. cbv beta. intros.
  gives_inv. split; [done|]. eexists. split; [done|]. intros Hsee.
  match goal with H : can_see _ _ → _ |- _ =>
    destruct (usage_fields _ _ _ _ (H Hsee)) as (_ & _ & <- & _) end.
  lia.
Qed.
#[export] Hint Resolve gives_checkResourceQuota gives_checkProjectQuota gives_checkDeploymentQuota : gives.
