(* ===== verification/Writes.v ===== *)
(** * Writes: what each write of the API server's repositories does

    One lemma per statement that an API route runs: the row it writes and the
    checks it passed, for the success logic of [Outcomes]. *)
From S2P Require Import Prelude Json Schema Effects Rls Outcomes DbTenancy DbWorkload.
From S2P Require Import DbCluster Encoding Auth ApiCore Isolation.
From stdpp Require Import base gmap strings list.
From Stdlib Require Import ZArith Lia.
Open Scope Z_scope.

(** ** Shapes *)

Lemma gives_or_conflict {A} p (m : M A) Q : gives m Q → gives (or_conflict p m) Q.
Proof. intros. apply gives_catch; [done|apply refails_or_conflict]. Qed.
Lemma gives_or_not_found {A} p (m : M A) Q : gives m Q → gives (or_not_found p m) Q.
Proof. intros. apply gives_catch; [done|apply refails_or_not_found]. Qed.
Lemma gives_scan {A} (m : M A) Q : gives m Q → gives (scan m) Q.
Proof. intros. apply gives_catch; [done|apply refails_scan]. Qed.

Lemma gives_update_by_id {A} p c (t : DB → table A) put org f id :
  gives (exec_affected p c (update_by_id t put org f id))
    (λ e _ e', ∃ x g, t e.(e_db) !! id = Some x
       ∧ org_visible (stmt_in c e g) e.(e_db) (org x)
       ∧ e' = with_db e (put (<[id := f (stmt_in c e g) x]> (t e.(e_db))) e.(e_db))).
Proof.
  eapply gives_mono; [apply gives_exec_affected|]. intros e _ e' (n & g & d & Hn & Hst & ->).
  unfold update_by_id in Hst. destruct (t (e_db e) !! id) as [x|] eqn:Hx; [|naive_solver].
  case_decide; simplify_eq. eauto.
Qed.
Lemma gives_delete_by_id {A} p c (t : DB → table A) org drop id :
  gives (exec_affected p c (delete_by_id t org drop id))
    (λ e _ e', ∃ x g, t e.(e_db) !! id = Some x
       ∧ org_visible (stmt_in c e g) e.(e_db) (org x) ∧ e' = with_db e (drop e.(e_db))).
Proof.
  eapply gives_mono; [apply gives_exec_affected|]. intros e _ e' (n & g & d & Hn & Hst & ->).
  unfold delete_by_id in Hst. destruct (t (e_db e) !! id) as [x|] eqn:Hx; [|naive_solver].
  case_decide; simplify_eq. eauto.
Qed.

(** ** Organizations, members, projects, applications *)

Definition renamed (name : string) (o : Organization) : Organization :=
  {| Organization_ID := o.(Organization_ID); Organization_Name := name;
     Organization_Slug := o.(Organization_Slug); Organization_CreatedAt := o.(Organization_CreatedAt) |}.
Lemma gives_organization_Update c o name :
  gives (OrganizationRepository.Update c o name)
    (λ e r e', ∃ x, e.(e_db).(organizations) !! o = Some x ∧ r = renamed name x
       ∧ e' = with_db e (set_organizations (<[o := r]> e.(e_db).(organizations)) e.(e_db))).
Proof.
  apply gives_or_not_found. eapply gives_mono; [apply gives_run_stmt|].
  intros e r e' (g & d & Hst & ->). unfold OrganizationRepository.Update_sql in Hst.
  destruct (organizations (e_db e) !! o) as [x|] eqn:E; simplify_eq. by exists x.
Qed.
Lemma gives_organization_Delete c o :
  gives (OrganizationRepository.Delete c o)
    (λ e _ e', is_Some (e.(e_db).(organizations) !! o)
               ∧ e' = with_db e (drop_organization o e.(e_db))).
Proof.
  eapply gives_mono; [apply gives_exec_affected|]. intros e _ e' (n & g & d & Hn & Hst & ->).
  unfold OrganizationRepository.Delete_sql in Hst.
  destruct (organizations (e_db e) !! o) as [x|] eqn:E; simplify_eq. by split; [exists x|].
Qed.
Lemma gives_GetByEmail c email :
  gives (UserRepository.GetByEmail c email)
    (λ e u e', e' = e ∧ u.(User_Email) = email ∧ ∃ i, e.(e_db).(users) !! i = Some u).
Proof.
  apply gives_or_not_found. eapply gives_mono; [apply gives_query_row|].
  intros e u e' (-> & g & l & Hl). split; [done|]. apply (elem_of_select (λ u, u.(User_Email) = email)).
  simpl in Hl. rewrite Hl. left.
Qed.
Lemma gives_membership_Create c o u role :
  gives (MembershipRepository.Create c o u role)
    (λ e m e', ∃ g, m = Build_Membership g o u role e.(e_now)
       ∧ e.(e_db).(memberships) !! g = None ∧ ¬ is_member e.(e_db) u o
       ∧ e' = with_db e (set_memberships (<[g := m]> e.(e_db).(memberships)) e.(e_db))).
Proof.
  apply gives_or_conflict. eapply gives_mono; [apply gives_run_stmt|].
  intros e r e' (g & d & Hst & ->). unfold MembershipRepository.Create_sql in Hst.
  stmt_inv Hst. destruct_and?. by exists g.
Qed.
Lemma gives_membership_UpdateRole c o u role :
  gives (MembershipRepository.UpdateRole c o u role)
    (λ e m e', ∃ m0 g, m = MembershipRepository.with_role role m0
       ∧ (∃ i, e.(e_db).(memberships) !! i = Some m0)
       ∧ m0.(Membership_OrgID) = o ∧ m0.(Membership_UserID) = u
       ∧ e' = with_db e (set_memberships
           (update_where (λ m, (m.(Membership_OrgID) = o ∧ m.(Membership_UserID) = u)
                               ∧ membership_visible (stmt_in c e g) e.(e_db) m)
              (MembershipRepository.with_role role) e.(e_db).(memberships)) e.(e_db))).
Proof.
  apply gives_or_not_found. eapply gives_mono; [apply gives_run_stmt|].
  intros e r e' (g & d & Hst & ->). unfold MembershipRepository.UpdateRole_sql in Hst.
  destruct (select _ _) as [|m0 l] eqn:E; [done|]. stmt_inv Hst. exists m0, g.
  assert (m0 ∈ m0 :: l) as Hm by left. rewrite <-E in Hm.
  apply elem_of_select in Hm as [[[??] _] [i ?]]. split; [done|]. split; [eauto|]. done.
Qed.
Lemma gives_membership_Delete c o u :
  gives (MembershipRepository.Delete c o u)
    (λ e _ e', ∃ g, e' = with_db e (set_memberships
       (delete_where (λ m, (m.(Membership_OrgID) = o ∧ m.(Membership_UserID) = u)
                           ∧ membership_visible (stmt_in c e g) e.(e_db) m)
          e.(e_db).(memberships)) e.(e_db))).
Proof.
  eapply gives_mono; [apply gives_exec_affected|]. intros e _ e' (n & g & d & Hn & Hst & ->).
  unfold MembershipRepository.Delete_sql in Hst. stmt_inv Hst. by exists g.
Qed.
Lemma gives_project_Create c o name slug :
  gives (ProjectRepository.Create c o name slug)
    (λ e p e', ∃ g, p = Build_Project g o name slug e.(e_now)
       ∧ e.(e_db).(projects) !! g = None ∧ project_quota_ok e.(e_db) o
       ∧ Forall (λ q, ¬ (q.(Project_OrgID) = o ∧ q.(Project_Slug) = slug)) (rows e.(e_db).(projects))
       ∧ e' = with_db e (set_projects (<[g := p]> e.(e_db).(projects)) e.(e_db))).
Proof.
  apply gives_or_conflict. eapply gives_mono; [apply gives_run_stmt|].
  intros e r e' (g & d & Hst & ->). unfold ProjectRepository.Create_sql in Hst.
  stmt_inv Hst. destruct_and?. by exists g.
Qed.
Definition new_application (g o pid : uuid) (name image : string) (ports : list PortSpec) (t : time)
    : Application :=
  Build_Application g o pid name image 1 0 0 ports None t t.
Lemma gives_application_Create c o pid name image ports :
  gives (ApplicationRepository.Create c o pid name image ports)
    (λ e a e', ∃ g, a = new_application g o pid name image ports e.(e_now)
       ∧ e.(e_db).(applications) !! g = None
       ∧ e' = with_db e (set_applications (<[g := a]> e.(e_db).(applications)) e.(e_db))).
Proof.
  apply gives_or_conflict. eapply gives_mono; [apply gives_run_stmt|].
  intros e r e' (g & d & Hst & ->). unfold ApplicationRepository.Create_sql in Hst.
  stmt_inv Hst. by exists g.
Qed.
Lemma gives_application_Get c id :
  gives (ApplicationRepository.Get c id)
    (λ e a e', e' = e ∧ e.(e_db).(applications) !! id = Some a
               ∧ ∃ g, org_visible (stmt_in c e g) e.(e_db) a.(Application_OrgID)).
Proof.
  apply gives_or_not_found. eapply gives_mono; [apply gives_query_row|].
  intros e a e' (-> & g & l & Hl). split; [done|].
  destruct (applications (e_db e) !! id) as [x|]; simpl in Hl; [|done].
  rewrite filter_cons in Hl. case_decide; [|done]. simplify_eq. eauto.
Qed.
Lemma gives_application_UpdateReplicas c id n :
  gives (ApplicationRepository.UpdateReplicas c id n)
    (λ e _ e', ∃ x g, e.(e_db).(applications) !! id = Some x ∧ int4_ok n = true
       ∧ e' = with_db e (set_applications
           (<[id := ApplicationRepository.with_replicas n (stmt_in c e g) x]> e.(e_db).(applications))
           e.(e_db))).
Proof.
  eapply gives_mono; [apply gives_exec_affected|]. intros e _ e' (m & g & d & Hn & Hst & ->).
  unfold ApplicationRepository.UpdateReplicas_sql in Hst. stmt_inv Hst.
  unfold update_by_id in Hst. destruct (applications (e_db e) !! id) as [x|] eqn:Hx; [|naive_solver].
  case_decide; simplify_eq. by exists x, g.
Qed.
Lemma gives_api_key_Create c o name scopes u hash :
  gives (APIKeyRepository.Create c o name scopes u hash)
    (λ e k e', ∃ g, k = Build_APIKey g o name (default [] scopes) u e.(e_now) None
       ∧ e.(e_db).(api_keys) !! g = None
       ∧ e' = with_db e (set_api_keys (<[g := Build_APIKeyRow k hash]> e.(e_db).(api_keys)) e.(e_db))).
Proof.
  apply gives_wrap. eapply gives_mono; [apply gives_run_stmt|].
  intros e r e' (g & d & Hst & ->). unfold APIKeyRepository.Create_sql in Hst.
  stmt_inv Hst. by exists g.
Qed.
Lemma gives_api_key_Revoke c id :
  gives (APIKeyRepository.Revoke c id)
    (λ e _ e', ∃ r, e.(e_db).(api_keys) !! id = Some r
       ∧ r.(APIKeyRow_key).(APIKey_RevokedAt) = None
       ∧ e' = with_db e (set_api_keys
           (<[id := APIKeyRepository.revoke e.(e_now) r]> e.(e_db).(api_keys)) e.(e_db))).
Proof.
  eapply gives_mono; [apply gives_exec_affected|]. intros e _ e' (m & g & d & Hn & Hst & ->).
  unfold APIKeyRepository.Revoke_sql in Hst.
  destruct (api_keys (e_db e) !! id) as [x|] eqn:Hx; [|naive_solver].
  case_decide as Hd; simplify_eq. destruct Hd. by exists x.
Qed.

(** ** Deployments, builds, domains, quotas *)

Definition new_deployment (g o a : uuid) (image : string) (revision : Z) (u : uuid) (t : time)
    : Deployment :=
  Build_Deployment g o a image revision DeploymentStatusPending "recreate" None u t None.
Lemma gives_deployment_Create c o a image u :
  gives (DeploymentRepository.Create c o a image u)
    (λ e x e', ∃ g, x = new_deployment g o a image
         (max_revision (filter (λ y, org_visible (stmt_in c e g) e.(e_db) y.(Deployment_OrgID))
                               (revisions e.(e_db) a)) + 1) u e.(e_now)
       ∧ int4_ok x.(Deployment_Revision) = true
       ∧ e.(e_db).(deployments) !! g = None ∧ is_Some (e.(e_db).(applications) !! a)
       ∧ Forall (λ y, y.(Deployment_Revision) ≠ x.(Deployment_Revision)) (revisions e.(e_db) a)
       ∧ e' = with_db e (set_deployments (<[g := x]> e.(e_db).(deployments)) e.(e_db))).
Proof.
  apply gives_or_conflict, gives_scan. eapply gives_mono; [apply gives_run_stmt|].
  intros e r e' (g & d & Hst & ->). unfold DeploymentRepository.Create_sql in Hst.
  stmt_inv Hst. destruct_and?. by exists g.
Qed.
Definition new_build (g o a : uuid) (url ref : string) (u : uuid) (t : time) : Build :=
  Build_Build g o a url ref None BuildStatusPending None None u t None.
Lemma gives_build_Create c o a url ref u :
  gives (BuildRepository.Create c o a url ref u)
    (λ e b e', ∃ g, b = new_build g o a url (if decide (ref = "") then "main" else ref) u e.(e_now)
       ∧ e.(e_db).(builds) !! g = None ∧ is_Some (e.(e_db).(applications) !! a)
       ∧ e' = with_db e (set_builds (<[g := b]> e.(e_db).(builds)) e.(e_db))).
Proof.
  apply gives_wrap, gives_scan. eapply gives_mono; [apply gives_run_stmt|].
  intros e r e' (g & d & Hst & ->). unfold BuildRepository.Create_sql in Hst.
  stmt_inv Hst. destruct_and?. by exists g.
Qed.
Lemma gives_build_Get c id :
  gives (BuildRepository.Get c id)
    (λ e b e', e' = e ∧ e.(e_db).(builds) !! id = Some b
               ∧ ∃ g, org_visible (stmt_in c e g) e.(e_db) b.(Build_OrgID)).
Proof.
  apply gives_catch; [apply gives_scan|].
  - eapply gives_mono; [apply gives_query_row|]. intros e a e' (-> & g & l & Hl). split; [done|].
    destruct (builds (e_db e) !! id) as [x|]; simpl in Hl; [|done].
    rewrite filter_cons in Hl. case_decide; [|done]. simplify_eq. eauto.
  - apply (refails_if (λ e, errors_Is e ErrNotFound) (λ _, ErrNotFound)).
Qed.
Lemma gives_domain_Create c o p a hostname :
  gives (DomainRepository.Create c o p a hostname)
    (λ e x e', ∃ g, x = Build_Domain g o p a hostname DomainTLSStatusPending e.(e_now)
       ∧ e.(e_db).(domains) !! g = None
       ∧ Forall (λ y, y.(Domain_Hostname) ≠ hostname) (rows e.(e_db).(domains))
       ∧ e' = with_db e (set_domains (<[g := x]> e.(e_db).(domains)) e.(e_db))).
Proof.
  apply gives_or_conflict. eapply gives_mono; [apply gives_run_stmt|].
  intros e r e' (g & d & Hst & ->). unfold DomainRepository.Create_sql in Hst.
  stmt_inv Hst. destruct_and?. by exists g.
Qed.
(** The statements with one shape. *)
Definition rewrites {A} (t : DB → table A) (put : table A → DB → DB) (f : StmtEnv → A → A)
    (i : uuid) (e e' : Env) : Prop :=
  ∃ x s, t e.(e_db) !! i = Some x
         ∧ e' = with_db e (put (<[i := f s x]> (t e.(e_db))) e.(e_db)).
Definition removes {A} (t : DB → table A) (drop : DB → DB) (i : uuid) (e e' : Env) : Prop :=
  ∃ x, t e.(e_db) !! i = Some x ∧ e' = with_db e (drop e.(e_db)).
Lemma gives_rewrites {A} p c (t : DB → table A) put org f id :
  gives (exec_affected p c (update_by_id t put org f id)) (λ e _ e', rewrites t put f id e e').
Proof. eapply gives_mono; [apply gives_update_by_id|]. intros e _ e' (x & g & ? & _ & ->). by exists x, (stmt_in c e g). Qed.
Lemma gives_removes {A} p c (t : DB → table A) org drop id :
  gives (exec_affected p c (delete_by_id t org drop id)) (λ e _ e', removes t drop id e e').
Proof. eapply gives_mono; [apply gives_delete_by_id|]. intros e _ e' (x & g & ? & _ & ->). by exists x. Qed.
Lemma gives_application_UpdateImage c i image :
  gives (ApplicationRepository.UpdateImage c i image)
    (λ e _ e', rewrites applications set_applications (ApplicationRepository.with_image image) i e e').
Proof. apply gives_rewrites. Qed.
Lemma gives_application_Delete c i :
  gives (ApplicationRepository.Delete c i)
    (λ e _ e', removes applications (drop_applications (λ a, a.(Application_ID) = i)) i e e').
Proof. apply gives_removes. Qed.
Lemma gives_deployment_UpdateResult c i st w :
  gives (DeploymentRepository.UpdateResult c i st w)
    (λ e _ e', rewrites deployments set_deployments (DeploymentRepository.with_result st w) i e e').
Proof. apply gives_rewrites. Qed.
Lemma gives_build_UpdateResult c i st sha image err :
  gives (BuildRepository.UpdateResult c i st sha image err)
    (λ e _ e', rewrites builds set_builds (BuildRepository.with_result st sha image err) i e e').
Proof. apply gives_rewrites. Qed.
Lemma gives_domain_UpdateTLSStatus c i st :
  gives (DomainRepository.UpdateTLSStatus c i st)
    (λ e _ e', rewrites domains set_domains (DomainRepository.with_tls st) i e e').
Proof. apply gives_rewrites. Qed.
Lemma gives_domain_Delete c i :
  gives (DomainRepository.Delete c i)
    (λ e _ e', removes domains (drop_domains (λ x, x.(Domain_ID) = i)) i e e').
Proof. apply gives_removes. Qed.
#[export] Hint Resolve gives_application_UpdateImage gives_application_Delete
  gives_deployment_UpdateResult gives_build_UpdateResult gives_domain_UpdateTLSStatus
  gives_domain_Delete : gives.
#[export] Hint Resolve gives_organization_Update gives_organization_Delete gives_GetByEmail gives_membership_Create
  gives_membership_UpdateRole gives_membership_Delete gives_project_Create gives_application_Create
  gives_application_Get gives_application_UpdateReplicas gives_api_key_Create gives_api_key_Revoke
  gives_deployment_Create gives_build_Create gives_build_Get gives_domain_Create : gives.

(** ** Each write acts on one organization *)

Lemma acts_organization_Update o d r : acts o d (set_organizations (<[o := r]> d.(organizations)) d).
Proof. apply acts_organizations. intros f Hf. by rewrite lookup_insert_ne. Qed.
Lemma acts_membership_Create o d g m :
  d.(memberships) !! g = None → m.(Membership_OrgID) = o →
  acts o d (set_memberships (<[g := m]> d.(memberships)) d).
Proof. intros Hg Hm. apply acts_memberships. intros f Hf. apply rows_kept_insert; [done|congruence]. Qed.
Lemma acts_membership_update o d (P : Membership → Prop) `{!∀ m, Decision (P m)} role :
  (∀ m, P m → m.(Membership_OrgID) = o) →
  acts o d (set_memberships (update_where P (MembershipRepository.with_role role) d.(memberships)) d).
Proof.
  intros HP. apply acts_memberships. intros f Hf. apply rows_kept_update_where.
  intros m Hm. simpl. rewrite (HP m Hm). split; congruence.
Qed.
Lemma acts_membership_delete o d (P : Membership → Prop) `{!∀ m, Decision (P m)} :
  (∀ m, P m → m.(Membership_OrgID) = o) →
  acts o d (set_memberships (delete_where P d.(memberships)) d).
Proof.
  intros HP. apply acts_memberships. intros f Hf. apply rows_kept_delete_where.
  intros i m _ Hm. rewrite (HP m Hm). congruence.
Qed.
Lemma acts_api_key_Create o d g k :
  d.(api_keys) !! g = None → k.(APIKeyRow_key).(APIKey_OrgID) = o →
  acts o d (set_api_keys (<[g := k]> d.(api_keys)) d).
Proof. intros Hg Hk. apply acts_api_keys. intros f Hf. apply rows_kept_insert; [done|congruence]. Qed.
Lemma acts_api_key_Revoke d id r t :
  d.(api_keys) !! id = Some r →
  acts (APIKeyRepository.row_org r) d
    (set_api_keys (<[id := APIKeyRepository.revoke t r]> d.(api_keys)) d).
Proof.
  intros Hr. apply acts_api_keys. intros f Hf.
  by apply (rows_kept_replace _ _ _ r); [|unfold APIKeyRepository.row_org in Hf; simpl; congruence..].
Qed.
