(* ===== verification/Routes.v ===== *)
(** * Routes: the API server's routes, and the tenant they act on

    [Routes] of services/apiserver/internal/server/server.go: the requests,
    the dispatcher, and that a request changes the rows of an organization
    only if its caller may do what the route needs there. *)
From S2P Require Import Prelude Json Schema Effects Rls Outcomes DbTenancy DbWorkload.
From S2P Require Import DbCluster Wire Encoding Auth Concrete ApiCore ApiOrgs ApiApps.
From S2P Require Import Isolation Quotas Writes Sample.
From stdpp Require Import base gmap strings list.
From Stdlib Require Import ZArith Lia.
Open Scope Z_scope.

(** ** Bodies: what a successful transaction did *)

(** It acted on one organization, where its caller has [p]. *)
Definition granted (id : Identity) (p : Permission) {A} (m : M A) : Prop :=
  gives m (λ e _ e', ∃ o, permitted e.(e_db) id o p ∧ acts o e.(e_db) e'.(e_db)).

(** [SetCurrentOrg]. *)
Definition enter (o : uuid) (e : Env) : Env :=
  mkEnv e.(e_db) (mkSession e.(e_sess).(app_current_user_id) (Some o)) e.(e_now).
Lemma can_see_enter o e : can_see (enter o e) o.
Proof. by left. Qed.

Section bodies.
Context `{UUIDText} `{TimeText} `{CursorText}.
Context (bus : bool) (registryAddr : string).

Lemma gives_resolve_org nf (m : M uuid) Q :
  gives m (λ e o e', e' = e ∧ Q e o) →
  gives (resolve_org nf m) (λ e o e', e' = enter o e ∧ Q e o).
Proof.
  intros Hm. eapply gives_mono.
  - eapply gives_bind; [apply gives_mapped, Hm|]. intros o.
    eapply gives_bind; [apply gives_SetCurrentOrg|]. intros u. apply gives_ret.
  - simpl. intros e o e' (o' & e1 & [-> HQ] & [] & e2 & -> & -> & ->). done.
Qed.
(** The resource a route names, and its organization. *)
Definition owner_of {A} (t : DB → table A) (org : A → uuid) (i : uuid) (e : Env) (o : uuid) : Prop :=
  ∃ x, t e.(e_db) !! i = Some x ∧ o = org x.
Lemma gives_owner_of {A} p c (t : DB → table A) org i :
  gives (or_not_found p (run_stmt c (org_of t org i))) (λ e o e', e' = e ∧ owner_of t org i e o).
Proof. eapply gives_mono; [apply gives_org_of|]. intros e o e' (-> & x & g & ? & ? & _). split; [done|]. by exists x. Qed.
Lemma gives_resolve {A} nf p c (t : DB → table A) org i :
  gives (resolve_org nf (or_not_found p (run_stmt c (org_of t org i))))
    (λ e o e', e' = enter o e ∧ owner_of t org i e o).
Proof. apply gives_resolve_org, gives_owner_of. Qed.
End bodies.
Lemma gives_api_key_OrgID c k :
  gives (APIKeyRepository.OrgID c k)
    (λ e o e', e' = e ∧ owner_of api_keys APIKeyRepository.row_org k e o).
Proof. apply gives_owner_of. Qed.
#[export] Hint Resolve gives_api_key_OrgID : gives.

(** Decomposes a body along its code; [Hint Extern]s see through [mapped]. *)
Ltac body_step :=
  match goal with
  | |- gives (mapped _ _ _) _ => eapply gives_mapped
  | |- gives (resolve_org _ _) _ => apply gives_resolve
  | |- _ => gives_step
  end.
Ltac body := repeat body_step.

(** A body's description, taken apart. *)
Ltac body_inv := eapply gives_mono; [body|]; cbv beta; intros; gives_inv; simpl in *.
(** It acted where it was permitted: its writes did, one after another. *)
Ltac acted := eexists; split; [eassumption|]; try (etransitivity; [|by eapply acts_audited]).

(** The row a route names is found again. *)
Ltac owner_inv :=
  repeat match goal with
  | H : owner_of _ _ _ _ _ |- _ => destruct H as (? & ? & ->)
  | H : rewrites _ _ _ _ _ _ |- _ => destruct H as (? & ? & ? & ->)
  | H : removes _ _ _ _ _ |- _ => destruct H as (? & ? & ->)
  end;
  simplify_eq/=.

Section granted.
Context `{UUIDText} `{TimeText} `{CursorText}.

Lemma updateOrganization_granted id o name :
  granted id PermOrganizationManage (updateOrganization id o name).
Proof. unfold granted, updateOrganization. body_inv. acted. apply acts_organization_Update. Qed.
Lemma deleteOrganization_granted id o :
  granted id PermOrganizationDelete (deleteOrganization id o).
Proof. unfold granted, deleteOrganization. body_inv. acted. apply acts_drop_organization. Qed.
Lemma inviteMember_granted id o email role :
  granted id PermMembersInvite (inviteMember id o email role).
Proof.
  unfold granted, inviteMember. body_inv. acted. by apply acts_membership_Create.
Qed.

Lemma gives_guard_last_owner o (P : Prop) `{Decision P} msg :
  gives (guard_last_owner o P msg) (λ e _ e', e' = e).
Proof.
  unfold guard_last_owner, MembershipRepository.CountOwners.
  eapply gives_mono; [body|]. cbv beta. intros e [] e' [(? & n & ? & [-> _] & ? & _ & ->)|(_ & _ & ->)]; done.
Qed.
#[local] Hint Resolve gives_guard_last_owner : gives.
Lemma changeMemberRole_granted id o u role :
  granted id PermMembersChangeRole (changeMemberRole id o u role).
Proof.
  unfold granted, changeMemberRole. body_inv. acted.
  apply acts_membership_update. by intros m [[? _] _].
Qed.
Lemma removeMember_granted id o u :
  granted id PermMembersRemove (removeMember id o u).
Proof.
  unfold granted, removeMember. body_inv. acted.
  apply acts_membership_delete. by intros m [[? _] _].
Qed.
Lemma createProject_granted id o name slug :
  granted id PermProjectCreate (createProject id o name slug).
Proof.
  unfold granted, createProject. body_inv. acted. by apply acts_insert_project.
Qed.
Lemma createAPIKey_granted id o name scopes hash :
  granted id PermAPIKeysCreate (createAPIKey id o name scopes hash).
Proof.
  unfold granted, createAPIKey. body_inv. acted. by apply acts_api_key_Create.
Qed.
Lemma revokeAPIKey_granted id k :
  granted id PermAPIKeysRevoke (revokeAPIKey id k).
Proof.
  unfold granted, revokeAPIKey. body_inv. owner_inv. acted. by apply acts_api_key_Revoke.
Qed.

Lemma createApplication_granted id p name image ports :
  granted id PermApplicationCreate (createApplication id p name image ports).
Proof.
  unfold granted, createApplication. body_inv. owner_inv. acted.
  by eapply acts_insert_application.
Qed.
Lemma scaleApplication_granted id a n :
  granted id PermApplicationScale (scaleApplication id a n).
Proof.
  unfold granted, scaleApplication. body_inv. owner_inv. acted.
  by eapply acts_replace_application.
Qed.
Lemma deleteDomain_granted id x :
  granted id PermDomainsManage (deleteDomain id x).
Proof.
  unfold granted, deleteDomain. body_inv. owner_inv. acted. by apply acts_drop_domain.
Qed.
Lemma createDomain_granted id p a hostname :
  granted id PermDomainsManage (createDomain id p a hostname).
Proof.
  unfold granted, createDomain. body_inv. owner_inv. acted. apply acts_under. intros Hc.
  match goal with
  | Ha : applications _ !! a = Some ?x, Hp : ¬ _ ≠ p |- _ =>
      apply dec_stable in Hp as <-; destruct (c_application _ Hc _ _ Ha) as (q & Hq & Ho)
  end.
  match goal with H : <[_ := _]> _ !! _ = Some _ |- _ => rewrite lookup_insert_eq in H end.
  simplify_eq. rewrite insert_insert_eq.
  change (set_domains ?t (set_domains _ ?d)) with (set_domains t d).
  by eapply acts_insert_domain.
Qed.

(** What a deployment's transaction did: the application's image, the new
    revision, the audit entry. *)
Definition next_revision (e : Env) (g i : uuid) : Z :=
  max_revision (filter (λ y, org_visible (stmt_in TxConn e g) e.(e_db) y.(Deployment_OrgID))
                       (revisions e.(e_db) i)) + 1.
Definition image_set (image : string) (i : uuid) (app app' : Application) (e : Env) (d : DB) : Prop :=
  (image ≠ "" ∧ image ≠ app.(Application_Image) ∧ app'.(Application_Image) = image
   ∧ ∃ a s, e.(e_db).(applications) !! i = Some a
       ∧ d = set_applications (<[i := ApplicationRepository.with_image image s a]>
                                 e.(e_db).(applications)) e.(e_db))
  ∨ (¬ (image ≠ "" ∧ image ≠ app.(Application_Image)) ∧ app' = app ∧ d = e.(e_db)).
Definition deployment_made (o i u : uuid) (app : Application) (image : string)
    (e : Env) (da : Deployment * Application) (d' : DB) : Prop :=
  ∃ g d, image_set image i app da.2 e d
    ∧ da.2.(Application_ID) = app.(Application_ID)
    ∧ da.2.(Application_Ports) = app.(Application_Ports)
    ∧ da.1 = new_deployment g o i da.2.(Application_Image) (next_revision e g i) u e.(e_now)
    ∧ e.(e_db).(deployments) !! g = None ∧ is_Some (e.(e_db).(applications) !! i)
    ∧ Forall (λ y, y.(Deployment_Revision) ≠ next_revision e g i) (revisions e.(e_db) i)
    ∧ audited o u "deployment.create" "deployment" g
        [("application_id", jid i); ("image", JString da.2.(Application_Image));
         ("revision", JInt (next_revision e g i))] e.(e_now)
        (set_deployments (<[g := da.1]> e.(e_db).(deployments)) d) d'.
Lemma gives_createDeploymentTx o i u app image :
  gives (createDeploymentTx o i u app image)
    (λ e da e', ∃ d', deployment_made o i u app image e da d' ∧ e' = with_db e d').
Proof.
  unfold createDeploymentTx. body_inv.
  match goal with H : _ ∨ _ |- _ => destruct H as [([??] & [] & ? & Hr & -> & ->)|(? & -> & ->)] end.
  - destruct Hr as (a & s & Ha & ->). simpl in *.
    eexists. split; [|done]. do 2 eexists.
    split; [left; repeat (split; [done|]); eauto|]. do 5 (split; [try done; by eexists|]). done.
  - eexists. split; [|by destruct e]. do 2 eexists. split; [by right|]. by repeat (split; [done|]).
Qed.

(** The new deployment's row is there, in the same organization. *)
Definition deployed (o : uuid) (x : Deployment) (d : DB) : Prop :=
  ∃ y, d.(deployments) !! x.(Deployment_ID) = Some y ∧ y.(Deployment_OrgID) = o.
Lemma image_set_acts image i app app' e d o :
  image_set image i app app' e d → owner_of applications Application_OrgID i e o →
  acts o e.(e_db) d ∧ d.(deployments) = e.(e_db).(deployments)
  ∧ ∃ a, d.(applications) !! i = Some a ∧ a.(Application_OrgID) = o.
Proof.
  intros [(_ & _ & _ & a & s & Ha & ->)|(_ & _ & ->)] (x & Hx & ->);
    [|split; [reflexivity|eauto]]. simplify_eq.
  split; [by eapply acts_replace_application|]. split; [done|].
  exists (ApplicationRepository.with_image image s a). split; [apply lookup_insert_eq|done].
Qed.
Lemma deployment_made_acts o i u app image e da d' :
  deployment_made o i u app image e da d' → owner_of applications Application_OrgID i e o →
  acts o e.(e_db) d' ∧ deployed o da.1 d'.
Proof.
  intros (g & d & Himg & _ & _ & Hda & Hg & _ & _ & Haud) Ho.
  destruct (image_set_acts _ _ _ _ _ _ _ Himg Ho) as (Hacts & Hdep & a & Ha & Hao). split.
  - etransitivity; [exact Hacts|]. etransitivity; [|by eapply acts_audited].
    rewrite <-Hdep. rewrite <-Hdep in Hg. rewrite Hda. by eapply acts_insert_deployment.
  - destruct Haud as (g' & _ & ->). rewrite Hda. exists (new_deployment g o i (Application_Image da.2) (next_revision e g i) u (e_now e)).
    simpl. by rewrite lookup_insert_eq.
Qed.

(** What both deploy modes have checked. *)
Definition deploy_allowed (id : Identity) (i : uuid) (e : Env) (o : uuid) (app : Application) : Prop :=
  permitted e.(e_db) id o PermApplicationDeploy
  ∧ e.(e_db).(applications) !! i = Some app ∧ app.(Application_OrgID) = o
  ∧ resources_fit (enter o e) o app app.(Application_ReplicasDesired)
  ∧ ∃ q, e.(e_db).(resource_quotas) !! o = Some q
         ∧ deployments_today e.(e_db) o e.(e_now) < q.(ResourceQuota_MaxDeploymentsPerDay).
Lemma gives_authorizeDeploy id i :
  gives (authorizeDeploy id i)
    (λ e oa e', e' = enter oa.1 e ∧ deploy_allowed id i e oa.1 oa.2).
Proof.
  unfold authorizeDeploy. body_inv. owner_inv. do 5 (split; [done|]). eexists. split; [done|].
  match goal with H : can_see _ _ → _ |- _ => apply H, can_see_enter end.
Qed.
#[local] Hint Resolve gives_authorizeDeploy gives_createDeploymentTx : gives.
Lemma gives_deployImage id i image :
  gives (deployImage id i image)
    (λ e oda e', ∃ app, deploy_allowed id i e oda.1.1 app
       ∧ deployment_made oda.1.1 i id.(UserID) app image (enter oda.1.1 e) (oda.1.2, oda.2) e'.(e_db)).
Proof.
  unfold deployImage. body_inv. eexists. split; [done|].
  match goal with H : deployment_made _ _ _ _ _ _ ?da _ |- _ => by destruct da end.
Qed.
(** The build's row, and the audit entry. *)
Definition build_made (o i u : uuid) (url ref : string) (e : Env) (b : Build) (d' : DB) : Prop :=
  ∃ g, b = new_build g o i url (if decide (ref = "") then "main" else ref) u e.(e_now)
    ∧ e.(e_db).(builds) !! g = None
    ∧ audited o u "build.create" "build" g
        [("application_id", jid i); ("git_ref", JString b.(Build_GitRef));
         ("git_url", JString url)] e.(e_now)
        (set_builds (<[g := b]> e.(e_db).(builds)) e.(e_db)) d'.
Lemma gives_requestBuild id i url ref :
  gives (requestBuild id i url ref)
    (λ e ob e', ∃ app, deploy_allowed id i e ob.1 app
       ∧ build_made ob.1 i id.(UserID) url ref e ob.2 e'.(e_db)).
Proof.
  unfold requestBuild. body_inv. eexists. split; [done|]. by eexists.
Qed.
Lemma build_made_acts o i u url ref e b d' :
  build_made o i u url ref e b d' → owner_of applications Application_OrgID i e o →
  acts o e.(e_db) d' ∧ ∃ y, d'.(builds) !! b.(Build_ID) = Some y ∧ y.(Build_OrgID) = o.
Proof.
  intros (g & -> & Hg & Haud) (a & Ha & ->). split.
  - etransitivity; [|by eapply acts_audited]. by eapply acts_insert_build.
  - destruct Haud as (g' & _ & ->). simpl. rewrite lookup_insert_eq. by eexists.
Qed.

(** What is running for the application: the containers of its latest
    deployment, most recently started first. *)
Lemma gives_latestContainers i :
  gives (latestContainers i)
    (λ e l e', e' = e ∧ (l = [] ∨ ∃ x, latest_seen e i x
       ∧ l = sorting.merge_sort ContainerRepository.started_before
               (select (λ y, y.(Container_DeploymentID) = x.(Deployment_ID)) e.(e_db).(containers)))).
Proof.
  eapply gives_mono; [apply gives_latest_or; intros x; apply gives_ListByDeployment|].
  intros e l e' [[-> ->]|(x & ? & -> & ->)]; eauto 6.
Qed.
#[local] Hint Resolve gives_latestContainers : gives.
Lemma gives_planDelete id i :
  gives (planDelete id i)
    (λ e oc e', e'.(e_db) = e.(e_db) ∧ permitted e.(e_db) id oc.1 PermApplicationDelete
       ∧ owner_of applications Application_OrgID i e oc.1).
Proof. unfold planDelete. by body_inv. Qed.
Lemma gives_deleteApplication id o i :
  gives (deleteApplication id o i)
    (λ e _ e', permitted e.(e_db) id o PermApplicationDelete
       ∧ ∃ x, e.(e_db).(applications) !! i = Some x
       ∧ audited o id.(UserID) "application.delete" "application" i [] e.(e_now)
           (drop_applications (λ a, a.(Application_ID) = i) e.(e_db)) e'.(e_db)).
Proof. unfold deleteApplication. body_inv. owner_inv. eauto. Qed.

(** *** The build.completed consumer *)

Definition build_result (i : uuid) (st : BuildStatus) (sha image err : option string) (b : Build)
    (e : Env) (d : DB) : Prop :=
  ∃ s, d = set_builds (<[i := BuildRepository.with_result st sha image err s b]> e.(e_db).(builds)) e.(e_db).
(** What the message says has been recorded: a failure, or a success and the
    deployment of the image it names. *)
Definition build_recorded (i : uuid) (msg : buildCompletedMessage) (b : Build)
    (deployed : option (Deployment * Application)) (e : Env) (d' : DB) : Prop :=
  match deployed with
  | None => (msg.(buildCompletedMessage_Status) ≠ "succeeded" ∨ msg.(buildCompletedMessage_Image) = "")
            ∧ ∃ err, build_result i BuildStatusFailed None None (Some err) b e d'
  | Some da =>
      msg.(buildCompletedMessage_Status) = "succeeded" ∧ msg.(buildCompletedMessage_Image) ≠ ""
      ∧ ∃ d app, build_result i BuildStatusSucceeded
            (nullableString msg.(buildCompletedMessage_CommitSHA))
            (Some msg.(buildCompletedMessage_Image)) None b e d
          ∧ d.(applications) !! b.(Build_ApplicationID) = Some app
          ∧ deployment_made b.(Build_OrgID) b.(Build_ApplicationID) b.(Build_CreatedBy) app
              msg.(buildCompletedMessage_Image)
              (mkEnv d (mkSession (Some b.(Build_CreatedBy)) e.(e_sess).(app_current_org_id)) e.(e_now))
              da d'
  end.
Lemma gives_completeBuild i msg :
  gives (completeBuild i msg)
    (λ e r e', e.(e_db).(builds) !! i = Some r.1
       ∧ (∃ g, org_visible (stmt_in TxConn e g) e.(e_db) r.1.(Build_OrgID))
       ∧ build_recorded i msg r.1 r.2 e e'.(e_db)).
Proof.
  unfold completeBuild. body_inv.
  match goal with H : _ ∨ _ |- _ => destruct H as [Hc|(Hst%dec_stable & [Hc|Hc])] end;
    gives_inv; owner_inv; (split; [done|]); (split; [by eauto|]); unfold build_recorded, build_result.
  - eauto 6.
  - eauto 6.
  - split; [done|]. split; [done|]. eexists _, _. split; [by eexists|]. by split.
Qed.
Lemma build_result_acts i st sha image err b e d :
  e.(e_db).(builds) !! i = Some b → build_result i st sha image err b e d →
  acts b.(Build_OrgID) e.(e_db) d.
Proof. intros Hb [s ->]. by eapply acts_replace_build. Qed.
Lemma build_recorded_acts i msg b da e d' :
  consistent e.(e_db) → e.(e_db).(builds) !! i = Some b → build_recorded i msg b da e d' →
  acts b.(Build_OrgID) e.(e_db) d'
  ∧ ∀ x, da = Some x → deployed b.(Build_OrgID) x.1 d'.
Proof.
  intros Hc Hb. destruct da as [da|]; simpl.
  - intros (_ & _ & d & app & Hr & Happ & Hd).
    destruct (c_build _ Hc _ _ Hb) as (a & Ha & Hao).
    assert (d.(applications) = e.(e_db).(applications)) as Happs by (by destruct Hr as [s ->]).
    destruct (deployment_made_acts _ _ _ _ _ _ _ _ Hd) as [Hacts Hdep].
    { exists a. simpl. rewrite Happs. done. }
    split; [|by intros x [= <-]]. etransitivity; [by eapply build_result_acts|exact Hacts].
  - intros (_ & err & Hr). split; [by eapply build_result_acts|done].
Qed.
End granted.

(** ** The routes *)

(** The authenticated routes: the path's parameters, the body, and what the
    outside gives the handler. *)
Inductive Route :=
| GetOrganization (orgId : string)
| UpdateOrganization (orgId : string) (body : wire)
| DeleteOrganization (orgId : string)
| ListMembers (orgId : string)
| InviteMember (orgId : string) (body : wire)
| ChangeMemberRole (orgId userId : string) (body : wire)
| RemoveMember (orgId userId : string)
| CreateAPIKey (orgId : string) (body : wire) (reads : list (list Z))
| ListAPIKeys (orgId : string)
| RevokeAPIKey (keyId : string)
| GetQuota (orgId : string)
| GetAuditLogs (orgId limit cursor : string)
| CreateProject (orgId : string) (body : wire)
| CreateApplication (projectId : string) (body : wire)
| Deploy (appId : string) (body : option wire)
| GetDeployments (appId limit cursor : string)
| GetBuilds (appId limit cursor : string)
| GetLogs (appId : string) (StreamLogs : string → LogStream)
| ScaleApplication (appId : string) (body : wire)
| DeleteApplication (appId : string)
| GetNodes
| CreateDomain (projectId : string) (body : wire)
| ListDomains (projectId : string)
| DeleteDomain (domainId : string).

(** What a route that writes asks of its caller; [None]: it only reads. *)
Definition write_permission (r : Route) : option Permission :=
  match r with
  | UpdateOrganization _ _ => Some PermOrganizationManage
  | DeleteOrganization _ => Some PermOrganizationDelete
  | InviteMember _ _ => Some PermMembersInvite
  | ChangeMemberRole _ _ _ => Some PermMembersChangeRole
  | RemoveMember _ _ => Some PermMembersRemove
  | CreateAPIKey _ _ _ => Some PermAPIKeysCreate
  | RevokeAPIKey _ => Some PermAPIKeysRevoke
  | CreateProject _ _ => Some PermProjectCreate
  | CreateApplication _ _ => Some PermApplicationCreate
  | Deploy _ _ => Some PermApplicationDeploy
  | ScaleApplication _ _ => Some PermApplicationScale
  | DeleteApplication _ => Some PermApplicationDelete
  | CreateDomain _ _ | DeleteDomain _ => Some PermDomainsManage
  | _ => None
  end.

Section routes.
Context `{UUIDText} `{TimeText} `{CursorText} `{Credentials}.
Context (bus : bool) (registryAddr : string).

Definition dispatch (r : Route) (id : Identity) : M Reply :=
  match r with
  | GetOrganization orgId => handleGetOrganization id orgId
  | UpdateOrganization orgId body => handleUpdateOrganization id orgId body
  | DeleteOrganization orgId => handleDeleteOrganization id orgId
  | ListMembers orgId => handleListMembers id orgId
  | InviteMember orgId body => handleInviteMember id orgId body
  | ChangeMemberRole orgId userId body => handleChangeMemberRole id orgId userId body
  | RemoveMember orgId userId => handleRemoveMember id orgId userId
  | CreateAPIKey orgId body reads => handleCreateAPIKey id orgId body reads
  | ListAPIKeys orgId => handleListAPIKeys id orgId
  | RevokeAPIKey keyId => handleRevokeAPIKey id keyId
  | GetQuota orgId => handleGetQuota id orgId
  | GetAuditLogs orgId limit cursor => handleGetAuditLogs id orgId limit cursor
  | CreateProject orgId body => handleCreateProject id orgId body
  | CreateApplication projectId body => handleCreateApplication id projectId body
  | Deploy appId body => handleDeploy bus registryAddr id appId body
  | GetDeployments appId limit cursor => handleGetDeployments id appId limit cursor
  | GetBuilds appId limit cursor => handleGetBuilds id appId limit cursor
  | GetLogs appId StreamLogs => handleGetLogs id appId StreamLogs
  | ScaleApplication appId body => handleScaleApplication id appId body
  | DeleteApplication appId => handleDeleteApplication bus id appId
  | GetNodes => handleGetNodes id
  | CreateDomain projectId body => handleCreateDomain id projectId body
  | ListDomains projectId => handleListDomains id projectId
  | DeleteDomain domainId => handleDeleteDomain id domainId
  end.

(** internal/auth/middleware.go: [writeAuthError] *)
Definition writeAuthError : Reply :=
  writeJSON 401 (errorBody "unauthorized" "a valid bearer access token is required").
(** [s.authenticated(h)] *)
Definition authenticated (h : Identity → M Reply) (header : string) : M Reply :=
  id ← Authenticate header;
  match id with Some id => h id | None => mret writeAuthError end.
(** [Routes]: the request's Authorization header and its route. *)
Definition serve (header : string) (r : Route) : M Reply := authenticated (dispatch r) header.

(** ** What a request may change *)

(** Only the organizations where the caller has [p]; nothing at all when there
    is none. *)
Definition guarded (id : Identity) (p : Permission) (d d' : DB) : Prop :=
  ((∀ o, ¬ permitted d id o p) → d' = d)
  ∧ (consistent d → consistent d' ∧ ∀ f, ¬ permitted d id f p → untouched f d d').
Lemma guarded_refl id p d : guarded id p d d.
Proof. done. Qed.
Lemma guarded_acts id p d d' o : permitted d id o p → acts o d d' → guarded id p d d'.
Proof.
  intros Ho Ha. split; [intros Hno; by destruct (Hno o)|]. intros Hc. destruct (Ha Hc) as [? Hu].
  split; [done|]. intros f Hf. apply Hu. by intros ->.
Qed.

(** [m] is of no consequence to the database until [k], or after it. *)
Lemma moves_then (R : DB → DB → Prop) {A B} (m : M A) (k : A → M B) :
  (∀ d, R d d) → moves eq m → (∀ a, moves R (k a)) → moves R (m ≫= k).
Proof.
  intros Hr Hm Hk w. unfold mbind, M_bind. specialize (Hm w).
  destruct (m w) as [[a|e] w']; simpl in *; rewrite Hm; [apply Hk|apply Hr].
Qed.
Lemma moves_first (R : DB → DB → Prop) {A B} (m : M A) (k : A → M B) :
  moves R m → (∀ a, moves eq (k a)) → moves R (m ≫= k).
Proof.
  intros Hm Hk w. unfold mbind, M_bind. specialize (Hm w).
  destruct (m w) as [[a|e] w']; simpl in *; [by rewrite <-(Hk a w')|done].
Qed.
Lemma moves_respond (R : DB → DB → Prop) m : moves R m → moves R (respond m).
Proof.
  intros Hm w. unfold respond, catch. specialize (Hm w).
  destruct (m w) as [[a|e] w']; simpl in *; [done|]. by destruct e.
Qed.
Lemma path_id_pure name s : moves eq (path_id name s).
Proof. unfold path_id. destruct (uuid_Parse s); by intros w. Qed.
Lemma decode_body_pure {A} `{!Into A, !Inhabited A} what body : moves eq (decode_body (A:=A) what body).
Proof. unfold decode_body. destruct (Unmarshal body); by intros w. Qed.
Lemma decode_role_pure s : moves eq (decode_role s).
Proof. unfold decode_role. destruct (parseMembershipRole s); by intros w. Qed.

(** A transaction whose body was granted. *)
Lemma guarded_WithTx id p {A} u o (m : M A) :
  granted id p m → moves (guarded id p) (WithTx u o m).
Proof.
  intros Hm w. destruct (WithTx u o m w) as [r w'] eqn:E.
  destruct (WithTx_cases _ _ _ _ _ _ _ Hm E) as [(er & _ & Hd & _)|(a & e1 & _ & (o' & Hp & Ha) & Hd & _)];
    simpl; rewrite Hd; [apply guarded_refl|]. by eapply guarded_acts.
Qed.
Lemma moves_still (R : DB → DB → Prop) {A} (m : M A) : (∀ d, R d d) → moves eq m → moves R m.
Proof. intros Hr Hm w. by rewrite <-(Hm w). Qed.

(** The shape of a route that writes: decode, one transaction, reply. *)
Ltac pure := solve [apply path_id_pure | apply decode_body_pure | apply decode_role_pure
                   | moves_auto; apply _].
Ltac route_step :=
  match goal with
  | |- ∀ _, guarded _ _ _ _ => apply guarded_refl
  | |- moves _ (respond _) => apply moves_respond
  | |- moves _ (mbind _ (WithTx _ _ _)) => eapply moves_first; [apply guarded_WithTx|intros ?; pure]
  | |- moves _ (mbind _ _) => eapply moves_then; [apply guarded_refl|pure|intros ?]
  | |- moves _ (if decide _ then _ else _) => case_decide
  | |- moves _ (match ?x with _ => _ end) => destruct x
  | |- moves _ (fail _) => apply moves_still; [apply guarded_refl|pure]
  | |- moves _ (mret _) => apply moves_still; [apply guarded_refl|pure]
  end.
Tactic Notation "route" reference(h) := unfold h; repeat route_step.

Lemma handleUpdateOrganization_guarded id o body :
  moves (guarded id PermOrganizationManage) (handleUpdateOrganization id o body).
Proof. route handleUpdateOrganization. apply updateOrganization_granted. Qed.
Lemma handleDeleteOrganization_guarded id o :
  moves (guarded id PermOrganizationDelete) (handleDeleteOrganization id o).
Proof. route handleDeleteOrganization. apply deleteOrganization_granted. Qed.
Lemma handleInviteMember_guarded id o body :
  moves (guarded id PermMembersInvite) (handleInviteMember id o body).
Proof. route handleInviteMember. apply inviteMember_granted. Qed.
Lemma handleChangeMemberRole_guarded id o u body :
  moves (guarded id PermMembersChangeRole) (handleChangeMemberRole id o u body).
Proof. route handleChangeMemberRole. apply changeMemberRole_granted. Qed.
Lemma handleRemoveMember_guarded id o u :
  moves (guarded id PermMembersRemove) (handleRemoveMember id o u).
Proof. route handleRemoveMember. apply removeMember_granted. Qed.
Lemma handleCreateAPIKey_guarded id o body reads :
  moves (guarded id PermAPIKeysCreate) (handleCreateAPIKey id o body reads).
Proof. route handleCreateAPIKey. apply createAPIKey_granted. Qed.
Lemma handleRevokeAPIKey_guarded id k :
  moves (guarded id PermAPIKeysRevoke) (handleRevokeAPIKey id k).
Proof. route handleRevokeAPIKey. apply revokeAPIKey_granted. Qed.
Lemma handleCreateProject_guarded id o body :
  moves (guarded id PermProjectCreate) (handleCreateProject id o body).
Proof. route handleCreateProject. apply createProject_granted. Qed.
Lemma handleCreateApplication_guarded id p body :
  moves (guarded id PermApplicationCreate) (handleCreateApplication id p body).
Proof. route handleCreateApplication. apply createApplication_granted. Qed.
Lemma handleScaleApplication_guarded id a body :
  moves (guarded id PermApplicationScale) (handleScaleApplication id a body).
Proof. route handleScaleApplication. apply scaleApplication_granted. Qed.
Lemma handleCreateDomain_guarded id p body :
  moves (guarded id PermDomainsManage) (handleCreateDomain id p body).
Proof. route handleCreateDomain. apply createDomain_granted. Qed.
Lemma handleDeleteDomain_guarded id x :
  moves (guarded id PermDomainsManage) (handleDeleteDomain id x).
Proof. route handleDeleteDomain. apply deleteDomain_granted. Qed.

(** *** The routes with a second transaction *)

(** A granted transaction, then what its result leads to. *)
Lemma guarded_then id p {A B} u o (m : M A) (k : A → M B) (I : uuid → A → DB → Prop) :
  gives m (λ e a e', ∃ o, permitted e.(e_db) id o p ∧ acts o e.(e_db) e'.(e_db) ∧ I o a e'.(e_db)) →
  (∀ a o, moves (λ d d', I o a d → acts o d d') (k a)) →
  moves (guarded id p) (WithTx u o m ≫= k).
Proof.
  intros Hm Hk w. unfold mbind, M_bind. destruct (WithTx u o m w) as [r w'] eqn:E.
  destruct (WithTx_cases _ _ _ _ _ _ _ Hm E)
    as [(er & -> & Hd & _)|(a & e1 & -> & (o' & Hp & Ha & HI) & Hd & _)].
  - simpl. rewrite Hd. apply guarded_refl.
  - eapply guarded_acts; [exact Hp|]. etransitivity; [exact Ha|]. rewrite <-Hd in *. by apply Hk.
Qed.

(** A row of [o] named [i] stays one. *)
Definition rows_of {A} (t : DB → table A) (org : A → uuid) (i o : uuid) (d : DB) : Prop :=
  ∃ y, t d !! i = Some y ∧ org y = o.
Definition acts_on {A} (t : DB → table A) (org : A → uuid) (i o : uuid) (d d' : DB) : Prop :=
  rows_of t org i o d → acts o d d' ∧ rows_of t org i o d'.
#[local] Instance acts_on_preorder {A} (t : DB → table A) org i o : PreOrder (acts_on t org i o).
Proof.
  split; [by intros d Hd|]. intros d1 d2 d3 H12 H23 Hd1.
  destruct (H12 Hd1) as [? Hd2]. destruct (H23 Hd2). split; [by transitivity d2|done].
Qed.
Lemma deployment_UpdateResult_acts i o st w :
  moves (acts_on deployments Deployment_OrgID i o) (DeploymentRepository.UpdateResult TxConn i st w).
Proof.
  apply moves_exec_affected; [apply _|]. apply moves_run_stmt; [apply _|].
  intros s d n d' [->|(x & Hx & _ & ->)]%update_by_id_Ok; [reflexivity|].
  intros (y & Hy & Ho). simplify_eq. split; [by eapply acts_replace_deployment|].
  exists (DeploymentRepository.with_result st w s x). split; [apply lookup_insert_eq|done].
Qed.
Lemma build_UpdateResult_acts i o st sha image err :
  moves (acts_on builds Build_OrgID i o) (BuildRepository.UpdateResult TxConn i st sha image err).
Proof.
  apply moves_exec_affected; [apply _|]. apply moves_run_stmt; [apply _|].
  intros s d n d' [->|(x & Hx & _ & ->)]%update_by_id_Ok; [reflexivity|].
  intros (y & Hy & Ho). simplify_eq. split; [by eapply acts_replace_build|].
  exists (BuildRepository.with_result st sha image err s x). split; [apply lookup_insert_eq|done].
Qed.
Lemma bus_pure subject payload : moves eq (bus_PublishDurable bus subject payload).
Proof. unfold bus_PublishDurable. destruct bus; moves_auto; apply _. Qed.
Lemma moves_eq (R : DB → DB → Prop) `{!PreOrder R} {A} (m : M A) : moves eq m → moves R m.
Proof. intros Hm w. rewrite <-(Hm w). reflexivity. Qed.
Lemma publishPlacement_acts o u app x :
  moves (acts_on deployments Deployment_OrgID x.(Deployment_ID) o) (publishPlacement bus o u app x).
Proof.
  unfold publishPlacement. apply moves_catch; [apply _| |intros er].
  - apply moves_eq; [apply _|apply bus_pure].
  - repeat first [moves_step | apply deployment_UpdateResult_acts | apply _].
Qed.

Lemma handleDeleteApplication_guarded id a :
  moves (guarded id PermApplicationDelete) (handleDeleteApplication bus id a).
Proof.
  unfold handleDeleteApplication. apply moves_respond. apply moves_then; [apply guarded_refl|pure|].
  intros i. eapply (guarded_then _ _ _ _ _ _
    (λ o oc d, oc.1 = o ∧ rows_of applications Application_OrgID i o d)).
  - eapply gives_mono; [apply gives_planDelete|].
    intros e oc e' (Hd & Hp & x & Hx & Ho). exists oc.1. rewrite Hd.
    split; [done|]. split; [reflexivity|]. split; [done|]. by exists x.
  - intros [o' cs] o. simpl. apply moves_then; [by intros d _| |intros _].
    { induction cs as [|c cs IH]; simpl; [by intros w|]. destruct (Container_ContainerRuntimeID c); [|done].
      apply moves_bind; [apply _| |done]. apply moves_catch; [apply _|apply bus_pure|].
      intros er. moves_auto; apply _. }
    apply moves_first; [|intros _; by intros w].
    intros w. destruct (WithTx _ _ _ w) as [r w'] eqn:E.
    intros [-> (y & Hy & Ho)].
    destruct (WithTx_cases _ _ _ _ _ _ _ (gives_deleteApplication _ _ _) E)
      as [(er & _ & Hd & _)|(u & e1 & _ & (_ & x & Hx & Haud) & Hd & _)]; simpl; rewrite Hd; [done|].
    simpl in Hx. simplify_eq. etransitivity; [|by eapply acts_audited]. by apply acts_drop_application.
Qed.

Lemma handleGitDeploy_guarded id i req :
  moves (guarded id PermApplicationDeploy) (handleGitDeploy bus registryAddr id i req).
Proof.
  unfold handleGitDeploy. eapply (guarded_then _ _ _ _ _ _
    (λ o ob d, ob.1 = o ∧ rows_of builds Build_OrgID ob.2.(Build_ID) o d)).
  - eapply gives_mono; [apply gives_requestBuild|].
    intros e [o b] e' (app & (Hp & Ha & Ho & _) & Hb). exists o. simpl in *.
    destruct (build_made_acts _ _ _ _ _ _ _ _ Hb) as [? ?]; [by exists app|]. by split_and!.
  - intros [o' b] o. simpl. apply moves_first; [|intros _; by intros w].
    intros w [-> Hr]. revert w Hr.
    enough (moves (acts_on builds Build_OrgID b.(Build_ID) o)
      (catch (publishBuildRequested bus registryAddr b i o) (λ err,
        logf "publishing build.requested" ;;
        r ← try (WithTx id.(UserID) o (BuildRepository.UpdateResult TxConn b.(Build_ID)
               BuildStatusFailed None None (Some ("failed to queue build: " +:+ error_text err))));
        match r with Err _ => logf "recording build result" | Ok _ => mret tt end ;;
        fail (APIError 502 "deploy_failed" ("failed to publish build request: " +:+ error_text err)))))
      as Hm by (intros w Hr; by apply (Hm w)).
    apply moves_catch; [apply _|apply moves_eq; [apply _|apply bus_pure]|intros er].
    repeat first [moves_step | apply build_UpdateResult_acts | apply _].
Qed.
Lemma handleDeploy_guarded id a body :
  moves (guarded id PermApplicationDeploy) (handleDeploy bus registryAddr id a body).
Proof.
  unfold handleDeploy. apply moves_respond. apply moves_then; [apply guarded_refl|pure|].
  intros i. apply moves_then; [apply guarded_refl|destruct body; [apply decode_body_pure|by intros w]|]. intros req. unfold deployAs.
  case_decide; [apply moves_still; [apply guarded_refl|pure]|].
  case_decide; [apply handleGitDeploy_guarded|].
  eapply (guarded_then _ _ _ _ _ _
    (λ o oda d, oda.1.1 = o ∧ rows_of deployments Deployment_OrgID oda.1.2.(Deployment_ID) o d)).
  - eapply gives_mono; [apply gives_deployImage|].
    intros e [[o x] app'] e' (app & (Hp & Ha & Ho & _) & Hd). exists o. simpl in *.
    destruct (deployment_made_acts _ _ _ _ _ _ _ _ Hd) as [? ?]; [by exists app|]. by split_and!.
  - intros [[o' x] app] o. simpl. apply moves_first; [|intros _; by intros w].
    intros w [-> Hr]. apply (moves_catch (acts_on deployments Deployment_OrgID x.(Deployment_ID) o));
      [apply publishPlacement_acts|intros er; pure|done].
Qed.

(** *** The routes that only read *)

Lemma run_stmt_pure {A} c (st : Stmt A) :
  (∀ s d a d', st s d = Ok (a, d') → d = d') → moves eq (run_stmt c st).
Proof. intros Hst. apply moves_run_stmt; [apply _|done]. Qed.
Lemma requirePermission_pure c id o p : moves eq (requirePermission c id o p).
Proof.
  unfold requirePermission, requireAPIKeyOrgMatch, MembershipRepository.RoleForUser.
  destruct (APIKeyOrgID id); moves_auto; apply _.
Qed.
Lemma requireMembership_pure c id o : moves eq (requireMembership c id o).
Proof.
  unfold requireMembership, requireAPIKeyOrgMatch, MembershipRepository.RoleForUser.
  destruct (APIKeyOrgID id); moves_auto; apply _.
Qed.
Lemma requirePlatformAdmin_pure c u : moves eq (requirePlatformAdmin c u).
Proof. unfold requirePlatformAdmin, MembershipRepository.ListForUser. moves_auto; apply _. Qed.
Lemma mapped_pure {A} nf cf (m : M A) : moves eq m → moves eq (mapped nf cf m).
Proof. intros. apply moves_catch; [apply _|done|]. intros e. by intros w. Qed.
Lemma resolve_org_pure nf (m : M uuid) : moves eq m → moves eq (resolve_org nf m).
Proof. intros. unfold resolve_org. apply moves_bind; [apply _|by apply mapped_pure|]. intros o. moves_auto; apply _. Qed.
Lemma CurrentUsage_pure c o : moves eq (QuotaRepository.CurrentUsage c o).
Proof.
  unfold QuotaRepository.CurrentUsage, QuotaRepository.containers_sql, QuotaRepository.today_sql.
  repeat first [moves_step | apply run_stmt_pure; intros s d a' d' Hst; symmetry; by eapply desired_sql_pure | apply _].
Qed.
Ltac read_step := first
  [ apply path_id_pure | apply requirePermission_pure | apply requireMembership_pure
  | apply requirePlatformAdmin_pure | apply CurrentUsage_pure | apply mapped_pure | apply resolve_org_pure
  | moves_step | apply _ ].
Lemma handleGetOrganization_pure id o : moves eq (handleGetOrganization id o).
Proof.
  unfold handleGetOrganization, OrganizationRepository.Get. apply moves_respond. repeat read_step.
Qed.
Lemma handleListMembers_pure id o : moves eq (handleListMembers id o).
Proof.
  unfold handleListMembers, MembershipRepository.ListByOrg. apply moves_respond. repeat read_step.
Qed.
Lemma handleListAPIKeys_pure id o : moves eq (handleListAPIKeys id o).
Proof.
  unfold handleListAPIKeys, APIKeyRepository.ListByOrg. apply moves_respond. repeat read_step.
Qed.
Lemma handleGetQuota_pure id o : moves eq (handleGetQuota id o).
Proof.
  unfold handleGetQuota, QuotaRepository.Get. apply moves_respond. repeat read_step.
Qed.
Lemma handleGetNodes_pure id : moves eq (handleGetNodes id).
Proof.
  unfold handleGetNodes, NodeRepository.List. apply moves_respond. repeat read_step.
Qed.
Lemma handleListDomains_pure id p : moves eq (handleListDomains id p).
Proof.
  unfold handleListDomains, ProjectRepository.OrgID, org_of, DomainRepository.ListByProject.
  apply moves_respond. repeat read_step.
Qed.
Lemma handleGetLogs_pure id a stream : moves eq (handleGetLogs id a stream).
Proof.
  unfold handleGetLogs, logContainer, ApplicationRepository.OrgID, org_of,
    DeploymentRepository.Latest, ContainerRepository.ListByDeployment.
  apply moves_respond. repeat read_step.
Qed.
Ltac page_step :=
  first [ read_step | apply run_stmt_pure; intros s d x d' Hst; repeat case_match; by stmt_inv Hst ].
Lemma handleGetAuditLogs_pure id o limit cursor : moves eq (handleGetAuditLogs id o limit cursor).
Proof.
  unfold handleGetAuditLogs, AuditLogRepository.ListByOrg. apply moves_respond. repeat page_step.
Qed.
Lemma handleGetBuilds_pure id a limit cursor : moves eq (handleGetBuilds id a limit cursor).
Proof.
  unfold handleGetBuilds, ApplicationRepository.OrgID, org_of, BuildRepository.ListByApplication.
  apply moves_respond. repeat page_step.
Qed.
Lemma handleGetDeployments_pure id a limit cursor : moves eq (handleGetDeployments id a limit cursor).
Proof.
  assert (∀ n s l, moves eq (deploymentResponses n s l)) as Hresp.
  { intros n s l. induction l as [|x l IH]; simpl;
      unfold attachReplicaState, ContainerRepository.ListByDeployment; repeat first [apply IH|read_step]. }
  unfold handleGetDeployments, getDeployments, ApplicationRepository.OrgID, ApplicationRepository.Get, org_of,
    DeploymentRepository.ListByApplication, ServiceRepository.GetByApplication.
  apply moves_respond. repeat first [apply Hresp|page_step].
Qed.

Lemma dispatch_guarded r id :
  match write_permission r with
  | Some p => moves (guarded id p) (dispatch r id)
  | None => moves eq (dispatch r id)
  end.
Proof.
  destruct r; simpl;
    eauto using handleGetOrganization_pure, handleListMembers_pure, handleListAPIKeys_pure,
      handleGetQuota_pure, handleGetNodes_pure, handleListDomains_pure, handleGetLogs_pure,
      handleGetAuditLogs_pure, handleGetBuilds_pure, handleGetDeployments_pure,
      handleUpdateOrganization_guarded, handleDeleteOrganization_guarded, handleInviteMember_guarded,
      handleChangeMemberRole_guarded, handleRemoveMember_guarded, handleCreateAPIKey_guarded,
      handleRevokeAPIKey_guarded, handleCreateProject_guarded, handleCreateApplication_guarded,
      handleScaleApplication_guarded, handleCreateDomain_guarded, handleDeleteDomain_guarded,
      handleDeleteApplication_guarded, handleDeploy_guarded.
Qed.

(** C1: tenant isolation.  Whatever the route, its arguments and whichever
    call fails, a request keeps the database consistent and leaves every row
    of an organization as it was unless its caller, by the role they hold
    there and the scope of their API key, has the permission the route asks
    for in that organization; a caller who has it nowhere, or who is not
    authenticated, or a route that only reads, changes nothing at all. *)
Theorem serve_isolated header r w :
  consistent w.(w_db) →
  let d' := (serve header r w).2.(w_db) in
  let may o := ∃ id p, (Authenticate header w).1 = Ok (Some id) ∧ write_permission r = Some p
                       ∧ permitted w.(w_db) id o p in
  consistent d' ∧ (∀ f, ¬ may f → untouched f w.(w_db) d') ∧ ((∀ f, ¬ may f) → d' = w.(w_db)).
Proof.
  intros Hc d' may. unfold d', serve, authenticated, mbind, M_bind.
  pose proof (Authenticate_same header w) as [[= Hd _ _] _]. unfold may. clear d' may.
  destruct (Authenticate header w) as [[[id|]|e] w1]; simpl in *; rewrite ?Hd; [|done..].
  pose proof (dispatch_guarded r id) as Hr.
  destruct (write_permission r) as [p|]; specialize (Hr w1); rewrite Hd in Hr; [|by rewrite <-Hr].
  destruct Hr as [Hnone Hg]. destruct (Hg Hc) as [? Hu]. split; [done|]. split.
  - intros f Hf. apply Hu. intros Hp. apply Hf. eauto.
  - intros Hno. apply Hnone. intros o Hp. apply (Hno o). eauto.
Qed.

(** Requests one after another, by callers already authenticated. *)
Fixpoint serve_all (rs : list (Route * Identity)) (w : World) : World :=
  match rs with [] => w | (r, id) :: rs => serve_all rs (dispatch r id w).2 end.

Lemma untouched_member f d d' u : untouched f d d' → is_member d' u f ↔ is_member d u f.
Proof.
  intros Hu. rewrite !is_member_spec. do 2 (apply exist_proper; intros ?).
  split; intros (Hm & Ho & ?); (split; [by apply (u_memberships _ _ _ Hu)|done]).
Qed.
Lemma permitted_member d id o p : permitted d id o p → is_member d id.(UserID) o.
Proof. intros (_ & r & Hr & _). by eapply member_role_member. Qed.
Lemma dispatch_outsider f r id w :
  consistent w.(w_db) → ¬ is_member w.(w_db) id.(UserID) f →
  consistent (dispatch r id w).2.(w_db) ∧ untouched f w.(w_db) (dispatch r id w).2.(w_db).
Proof.
  intros Hc Hm. pose proof (dispatch_guarded r id) as Hr.
  destruct (write_permission r) as [p|]; specialize (Hr w); [|by rewrite <-Hr].
  destruct Hr as [_ Hg]. destruct (Hg Hc) as [? Hu]. split; [done|]. apply Hu.
  by intros ?%permitted_member.
Qed.

(** C15: no sequence of requests from people who are not members of an
    organization, in any order and with any failures, changes a row of it:
    in particular none of them can make themselves a member. *)
Theorem outsiders_never_touch f rs w :
  consistent w.(w_db) → Forall (λ ri, ¬ is_member w.(w_db) ri.2.(UserID) f) rs →
  untouched f w.(w_db) (serve_all rs w).(w_db)
  ∧ ∀ u, is_member (serve_all rs w).(w_db) u f ↔ is_member w.(w_db) u f.
Proof.
  intros Hc Hrs.
  assert (untouched f w.(w_db) (serve_all rs w).(w_db)) as Hu; [|by split; [|intros u; apply untouched_member]].
  revert w Hc Hrs. induction rs as [|[r id] rs IH]; intros w Hc Hrs; [done|]. simpl.
  apply Forall_cons in Hrs as [Hid Hrs]. destruct (dispatch_outsider f r id w Hc Hid) as [Hc' Hu].
  etransitivity; [exact Hu|]. apply IH; [done|]. eapply Forall_impl; [exact Hrs|].
  intros ri Hri Hm. by apply Hri, (untouched_member _ _ _ _ Hu).
Qed.
End routes.

(** ** On the sample: a viewer asks to delete the organization *)

#[local] Existing Instances hexUUID hexTime hexCursor plainCredentials.
Definition vic_token : string := "Bearer " +:+ canonical_String 3.
Definition delete_acme : Route := DeleteOrganization (canonical_String 1).

Lemma sample_viewer k o p r :
  permitted sampleDB (mkIdentity 3 k) o p → HasPermission (to_text MembershipRoleViewer) p = r → r = true.
Proof.
  intros (_ & role & (i & m & Hm & _ & Hu & Hr) & Hp) <-. simpl in *.
  apply lookup_insert_Some in Hm as [[_ <-]|[_ [_ <-]%lookup_singleton_Some]]; [done|].
  by rewrite <-Hp, <-Hr.
Qed.
Lemma serve_isolated_witness :
  consistent sampleDB ∧
  (serve true "" vic_token delete_acme sampleWorld).2.(w_db) = sampleDB.
Proof.
  split; [exact sample_consistent|].
  destruct (serve_isolated true "" vic_token delete_acme sampleWorld sample_consistent) as (_ & _ & Hno).
  apply Hno. intros f (id & p & Hid & Hp & Hperm).
  assert (id = mkIdentity 3 None) as -> by (vm_compute in Hid; congruence).
  injection Hp as <-. discriminate (sample_viewer _ _ _ _ Hperm eq_refl).
Defined.

(** Someone of no organization works on Acme for a while. *)
Definition outsider : Identity := mkIdentity 99 None.
Lemma outsiders_never_touch_witness :
  untouched 1 sampleDB (serve_all true "" [(delete_acme, outsider); (GetNodes, outsider)] sampleWorld).(w_db).
Proof.
  apply (outsiders_never_touch true "" 1 [(delete_acme, outsider); (GetNodes, outsider)] sampleWorld);
    [exact sample_consistent|].
  assert (¬ is_member sampleDB 99 1) by (apply (bool_decide_unpack _); vm_compute; exact I).
  by repeat constructor.
Defined.
