(* ===== verification/Bodies.v ===== *)
(** * Bodies: the routes, from their transactions

    A route writes the database only through the bodies it runs in [WithTx].
    [bodies_along R]: each of them, when it succeeds, takes the database along
    the relation [R]; then so does every route ([dispatch_along]), whatever
    fails, since a body that fails is rolled back. *)
From S2P Require Import Prelude Json Schema Effects Rls Outcomes DbTenancy DbWorkload.
From S2P Require Import DbCluster Wire Encoding Auth Concrete ApiCore ApiOrgs ApiApps.
From S2P Require Import Isolation Quotas Writes Routes Sample.
From stdpp Require Import base gmap strings list.
From Stdlib Require Import ZArith Lia.
Open Scope Z_scope.

Definition along (R : DB → DB → Prop) {A} (m : M A) : Prop := gives m (λ e _ e', R e.(e_db) e'.(e_db)).

Record bodies_along `{UUIDText} `{TimeText} `{CursorText} `{Credentials}
    (R : DB → DB → Prop) : Prop := {
  along_updateOrganization id o name : along R (updateOrganization id o name);
  along_deleteOrganization id o : along R (deleteOrganization id o);
  along_inviteMember id o email role : along R (inviteMember id o email role);
  along_changeMemberRole id o u role : along R (changeMemberRole id o u role);
  along_removeMember id o u : along R (removeMember id o u);
  along_createAPIKey id o name scopes hash : along R (createAPIKey id o name scopes hash);
  along_revokeAPIKey id k : along R (revokeAPIKey id k);
  along_createProject id o name slug : along R (createProject id o name slug);
  along_createApplication id p name image ports : along R (createApplication id p name image ports);
  along_scaleApplication id a n : along R (scaleApplication id a n);
  along_planDelete id a : along R (planDelete id a);
  along_deleteApplication id o a : along R (deleteApplication id o a);
  along_createDomain id p a hostname : along R (createDomain id p a hostname);
  along_deleteDomain id x : along R (deleteDomain id x);
  along_deployImage id a image : along R (deployImage id a image);
  along_requestBuild id a url ref : along R (requestBuild id a url ref);
  along_deployment_result i st c : along R (DeploymentRepository.UpdateResult TxConn i st c);
  along_build_result i st sha image err :
    along R (BuildRepository.UpdateResult TxConn i st sha image err) }.

Lemma along_WithTx (R : DB → DB → Prop) `{!PreOrder R} {A} u o (m : M A) :
  along R m → moves R (WithTx u o m).
Proof.
  intros Hm w. destruct (WithTx u o m w) as [r w'] eqn:E.
  destruct (WithTx_cases _ _ _ _ _ _ _ Hm E) as [(er & _ & Hd & _)|(a & e1 & _ & Ho & Hd & _)];
    simpl; rewrite Hd; [reflexivity|done].
Qed.

Section routes.
Context `{UUIDText} `{TimeText} `{CursorText} `{Credentials}.
Context (bus : bool) (registryAddr : string).

Lemma publishUnassigns_pure cs : moves eq (publishUnassigns bus cs).
Proof.
  induction cs as [|c cs IH]; simpl; [by intros w|]. destruct (Container_ContainerRuntimeID c); [|done].
  apply moves_bind; [apply _| |done]. apply moves_catch; [apply _|apply bus_pure|].
  intros er. moves_auto; apply _.
Qed.

Context (R : DB → DB → Prop) `{!PreOrder R} (Hbodies : bodies_along R).
Ltac along_step := first
  [ apply moves_respond
  | apply moves_eq; [apply _|solve [apply path_id_pure | apply decode_body_pure | apply decode_role_pure
                                   | apply bus_pure | apply publishUnassigns_pure]]
  | apply along_WithTx; [apply _|solve [apply Hbodies]]
  | moves_step | apply _ ].

Lemma handleDeploy_along id a body : moves R (handleDeploy bus registryAddr id a body).
Proof.
  unfold handleDeploy, deployAs, handleGitDeploy, publishPlacement, publishBuildRequested.
  repeat along_step.
Qed.
Lemma handleDeleteApplication_along id a : moves R (handleDeleteApplication bus id a).
Proof. unfold handleDeleteApplication. repeat along_step. Qed.

Theorem dispatch_along r id : moves R (dispatch bus registryAddr r id).
Proof.
  pose proof (dispatch_guarded bus registryAddr r id) as Hr.
  destruct (write_permission r) as [p|] eqn:Hp; [|by apply moves_eq; [apply _|]]. clear Hr.
  destruct r; simpl in *; try discriminate Hp;
    [ unfold handleUpdateOrganization | unfold handleDeleteOrganization | unfold handleInviteMember
    | unfold handleChangeMemberRole | unfold handleRemoveMember | unfold handleCreateAPIKey
    | unfold handleRevokeAPIKey | unfold handleCreateProject | unfold handleCreateApplication
    | apply handleDeploy_along | unfold handleScaleApplication | apply handleDeleteApplication_along
    | unfold handleCreateDomain | unfold handleDeleteDomain ];
    repeat along_step.
Qed.
End routes.
