(* ===== verification/Members.v ===== *)
(** * Members: every organization keeps an owner

    The invariant the last-owner guard of handlers_members.go maintains,
    over every route of the API. *)
From S2P Require Import Prelude Json Schema Effects Rls Outcomes DbTenancy DbWorkload.
From S2P Require Import DbCluster Wire Encoding Auth Concrete ApiCore ApiOrgs ApiApps.
From S2P Require Import Isolation Quotas Writes Routes Bodies Sample.
From stdpp Require Import base gmap strings list.
From Stdlib Require Import ZArith Lia.
Open Scope Z_scope.

(** ** The invariant *)

Definition members_unique (d : DB) : Prop :=
  ∀ i j x y, d.(memberships) !! i = Some x → d.(memberships) !! j = Some y →
  x.(Membership_OrgID) = y.(Membership_OrgID) → x.(Membership_UserID) = y.(Membership_UserID) → i = j.
Definition has_owner (d : DB) (o : uuid) : Prop := ∃ u, member_role d u o MembershipRoleOwner.
Definition owned (d : DB) : Prop :=
  members_unique d ∧ ∀ o, is_Some (d.(organizations) !! o) → has_owner d o.

Lemma count_pos {A} (P : A → Prop) `{!∀ x, Decision (P x)} (t : table A) :
  0 < count P t → ∃ i x, t !! i = Some x ∧ P x.
Proof.
  unfold count. destruct (select P t) as [|x l] eqn:E; simpl; [lia|]. intros _.
  assert (x ∈ select P t) as [? [i ?]]%elem_of_select by (rewrite E; left). eauto.
Qed.
(** Two rows counted: one besides any of them. *)
Lemma count_other {A} (P : A → Prop) `{!∀ x, Decision (P x)} (t : table A) i x :
  t !! i = Some x → P x → 1 < count P t → ∃ j y, j ≠ i ∧ t !! j = Some y ∧ P y.
Proof.
  intros Hi HP Hn. rewrite (count_delete P t i x Hi) in Hn. rewrite decide_True in Hn by done.
  destruct (count_pos P (delete i t)) as (j & y & Hj & ?); [lia|].
  apply lookup_delete_Some in Hj as [??]. eauto.
Qed.

(** ** What each write does to it *)

Lemma owned_same d d' :
  d'.(memberships) = d.(memberships) →
  (∀ o, is_Some (d'.(organizations) !! o) → is_Some (d.(organizations) !! o)) → owned d → owned d'.
Proof.
  intros Hm Ho [Hu Hown]. unfold owned, members_unique, has_owner, member_role in *. rewrite Hm. eauto.
Qed.
Lemma owned_drop_organization o d : owned d → owned (drop_organization o d).
Proof.
  intros [Hu Hown]. split.
  - intros i j x y; simpl. rewrite !lookup_delete_where. intros [? _] [? _]. by apply Hu.
  - intros f. simpl. rewrite lookup_delete_is_Some. intros [Hof Hf].
    destruct (Hown f Hf) as (u & i & m & Hi & Hmo & Hmu & Hr). exists u, i, m.
    simpl. rewrite lookup_delete_where. split_and!; [done|congruence|done..].
Qed.
Lemma owned_insert_member d g m :
  d.(memberships) !! g = None → ¬ is_member d m.(Membership_UserID) m.(Membership_OrgID) →
  owned d → owned (set_memberships (<[g := m]> d.(memberships)) d).
Proof.
  intros Hg Hno [Hu Hown].
  assert (∀ i x, d.(memberships) !! i = Some x → x.(Membership_OrgID) = m.(Membership_OrgID) →
    x.(Membership_UserID) = m.(Membership_UserID) → False) as Hnew.
  { intros i x ???. apply Hno, is_member_spec. eauto. }
  split.
  - intros i j x y; simpl. intros [[-> ->]|Hx]%lookup_insert_inv [[-> ->]|Hy]%lookup_insert_inv ??;
      [done|by edestruct Hnew|by edestruct Hnew|by eapply Hu].
  - intros o Ho. destruct (Hown o Ho) as (u & i & x & Hi & ?). exists u, i, x. simpl.
    rewrite lookup_insert_ne by congruence. done.
Qed.
(** Some owner of [o] other than the row [i]. *)
Definition other_owner (d : DB) (o i : uuid) : Prop :=
  ∃ j y, j ≠ i ∧ d.(memberships) !! j = Some y ∧ y.(Membership_OrgID) = o
         ∧ y.(Membership_Role) = MembershipRoleOwner.
Section one_member.
Context (d : DB) (o u : uuid) (P : Membership → Prop) `{!∀ m, Decision (P m)}.
Hypothesis HP : ∀ m, P m → m.(Membership_OrgID) = o ∧ m.(Membership_UserID) = u.
Hypothesis Hd : owned d.

(** Another owner is not among the rows of one member. *)
Lemma other_owner_kept i m :
  d.(memberships) !! i = Some m → P m → other_owner d o i →
  ∃ j y, d.(memberships) !! j = Some y ∧ ¬ P y ∧ y.(Membership_OrgID) = o
         ∧ y.(Membership_Role) = MembershipRoleOwner.
Proof.
  intros Hi Hm (j & y & Hji & Hj & Ho & Hr). exists j, y. split_and!; try done.
  intros Hy. apply Hji. destruct (HP m Hm), (HP y Hy). eapply (proj1 Hd); [exact Hj|exact Hi|congruence..].
Qed.
Lemma owned_update_member role :
  role = MembershipRoleOwner
  ∨ (∀ i m, d.(memberships) !! i = Some m → P m → m.(Membership_Role) = MembershipRoleOwner →
       other_owner d o i) →
  owned (set_memberships (update_where P (MembershipRepository.with_role role) d.(memberships)) d).
Proof.
  intros Hrole. split.
  - intros i j x y; simpl. rewrite !lookup_update_where.
    intros (x0 & Hx & ->)%fmap_Some (y0 & Hy & ->)%fmap_Some Hxo Hxu.
    apply (proj1 Hd i j x0 y0 Hx Hy); revert Hxo Hxu; by repeat case_decide.
  - intros f Hf. destruct (proj2 Hd f Hf) as (v & i & m & Hi & Hmo & Hmu & Hr). simpl in *.
    assert (∀ v j y, d.(memberships) !! j = Some y → y.(Membership_OrgID) = f →
      y.(Membership_UserID) = v → y.(Membership_Role) = MembershipRoleOwner →
      ¬ P y ∨ role = MembershipRoleOwner →
      has_owner (set_memberships (update_where P (MembershipRepository.with_role role) d.(memberships)) d) f)
      as Hstay.
    { intros v' j y Hj ??? Hor. exists v', j. simpl. rewrite lookup_update_where, Hj. simpl.
      eexists. split; [done|]. case_decide; [|done]. by destruct Hor. }
    destruct (decide (P m)) as [HPm|]; [|by eapply Hstay; eauto].
    destruct Hrole as [->|Hother]; [by eapply Hstay; eauto|].
    destruct (other_owner_kept i m Hi HPm (Hother i m Hi HPm Hr)) as (j & y & ? & ? & ? & ?).
    eapply Hstay; eauto. destruct (HP m HPm). congruence.
Qed.
Lemma owned_delete_member :
  (∀ i m, d.(memberships) !! i = Some m → P m → m.(Membership_Role) = MembershipRoleOwner →
     other_owner d o i) →
  owned (set_memberships (delete_where P d.(memberships)) d).
Proof.
  intros Hother. split.
  - intros i j x y; simpl. rewrite !lookup_delete_where. intros [? _] [? _]. by apply (proj1 Hd).
  - intros f Hf. destruct (proj2 Hd f Hf) as (v & i & m & Hi & Hmo & Hmu & Hr). simpl in *.
    destruct (decide (P m)) as [HPm|].
    + destruct (other_owner_kept i m Hi HPm (Hother i m Hi HPm Hr)) as (j & y & ? & ? & ? & ?).
      exists (Membership_UserID y), j, y. simpl. rewrite lookup_delete_where.
      destruct (HP m HPm). split_and!; (done || congruence).
    + exists v, i, m. simpl. by rewrite lookup_delete_where.
Qed.
End one_member.

(** ** Each body *)

Definition keeps_owned {A} (m : M A) : Prop := along (keeping owned) m.

(** The guard saw a second owner. *)
Lemma gives_guard_counts o (applies : Prop) `{Decision applies} msg :
  gives (guard_last_owner o applies msg)
    (λ e _ e', e' = e ∧ (applies → ∃ g, 1 < count (λ m,
       (m.(Membership_OrgID) = o ∧ m.(Membership_Role) = MembershipRoleOwner)
       ∧ membership_visible (stmt_in TxConn e g) e.(e_db) m) e.(e_db).(memberships))).
Proof.
  unfold guard_last_owner, MembershipRepository.CountOwners. eapply gives_mono; [body|]. cbv beta.
  intros e [] e' [(Ha & n & ? & (-> & g & ->) & Hn & _ & ->)|(Hna & _ & ->)]; (split; [done|]).
  - intros _. exists g. lia.
  - by intros Ha.
Qed.
#[export] Hint Resolve gives_guard_counts : gives.

Lemma guarded_other_owner d e g o u m0 i m :
  d = e.(e_db) → owned d →
  1 < count (λ m, (m.(Membership_OrgID) = o ∧ m.(Membership_Role) = MembershipRoleOwner)
                  ∧ membership_visible (stmt_in TxConn e g) d m) d.(memberships) →
  d.(memberships) !! i = Some m → m.(Membership_OrgID) = o ∧ m.(Membership_UserID) = u →
  membership_visible (stmt_in TxConn e m0) d m → m.(Membership_Role) = MembershipRoleOwner →
  other_owner d o i.
Proof.
  intros Hde Hd Hn Hi [Hmo Hmu] Hv Hr.
  destruct (count_other _ _ i m Hi (conj (conj Hmo Hr) Hv) Hn) as (j & y & ? & ? & [[? ?] _]).
  by exists j, y.
Qed.
(** The member's row is the one whose role was read. *)
Lemma the_role d o u role i m :
  owned d → member_role d u o role → d.(memberships) !! i = Some m →
  m.(Membership_OrgID) = o ∧ m.(Membership_UserID) = u → m.(Membership_Role) = role.
Proof.
  intros [Hu _] (j & y & Hj & Hyo & Hyu & <-) Hi [Hmo Hmu].
  assert (i = j) as -> by (eapply Hu; [exact Hi|exact Hj|congruence..]). by simplify_eq.
Qed.

Lemma owned_audited o u action ttype tid md t d d' :
  audited o u action ttype tid md t d d' → owned d → owned d'.
Proof. intros (g & _ & ->). by apply owned_same. Qed.
(** The bodies end with their audit entry. *)
Ltac owned_tac := eapply owned_audited; [eassumption|].

Lemma changeMemberRole_owned id o u role : keeps_owned (changeMemberRole id o u role).
Proof.
  unfold keeps_owned, along, keeping, changeMemberRole. body_inv. owned_tac.
  eapply owned_update_member; [by intros m [? _]|done|].
  destruct (decide (role = MembershipRoleOwner)) as [|Hrole]; [by left|right].
  intros i m Hi [Hou Hv] Hr.
  match goal with Hm : member_role _ _ _ ?r, Hg : ?r = _ ∧ _ → _ |- _ =>
    pose proof (the_role _ _ _ _ i m ltac:(eassumption) Hm Hi Hou) as Hrm;
    destruct Hg as [g Hn]; [by rewrite <-Hrm|] end.
  by eapply guarded_other_owner.
Qed.
Lemma removeMember_owned id o u : keeps_owned (removeMember id o u).
Proof.
  unfold keeps_owned, along, keeping, removeMember. body_inv. owned_tac.
  eapply owned_delete_member; [by intros m [? _]|done|].
  intros i m Hi [Hou Hv] Hr.
  match goal with Hm : member_role _ _ _ ?r, Hg : ?r = _ → _ |- _ =>
    pose proof (the_role _ _ _ _ i m ltac:(eassumption) Hm Hi Hou) as Hrm;
    destruct Hg as [g Hn]; [by rewrite <-Hrm|] end.
  by eapply guarded_other_owner.
Qed.

Section bodies.
Context `{UUIDText} `{TimeText} `{CursorText}.
#[local] Hint Resolve gives_authorizeDeploy gives_createDeploymentTx gives_latestContainers : gives.
(** A body that writes other tables. *)
Ltac elsewhere :=
  body_inv; owner_inv; owned_tac;
  match goal with H : owned ?d |- _ => by apply (owned_same d) end.

Lemma updateOrganization_owned id o name : keeps_owned (updateOrganization id o name).
Proof.
  unfold keeps_owned, along, keeping, updateOrganization. body_inv. owned_tac. apply (owned_same (e_db e)); [done| |done].
  intros f. simpl. rewrite lookup_insert_is_Some. intros [<-|[_ ?]]; [by eexists|done].
Qed.
Lemma deleteOrganization_owned id o : keeps_owned (deleteOrganization id o).
Proof. unfold keeps_owned, along, keeping, deleteOrganization. body_inv. by apply owned_drop_organization. Qed.
Lemma inviteMember_owned id o email role : keeps_owned (inviteMember id o email role).
Proof. unfold keeps_owned, along, keeping, inviteMember. body_inv. owned_tac. by apply owned_insert_member. Qed.
Lemma createProject_owned id o name slug : keeps_owned (createProject id o name slug).
Proof. unfold keeps_owned, along, keeping, createProject. elsewhere. Qed.
Lemma createAPIKey_owned id o name scopes hash : keeps_owned (createAPIKey id o name scopes hash).
Proof. unfold keeps_owned, along, keeping, createAPIKey. elsewhere. Qed.
Lemma revokeAPIKey_owned id k : keeps_owned (revokeAPIKey id k).
Proof. unfold keeps_owned, along, keeping, revokeAPIKey. elsewhere. Qed.
Lemma createApplication_owned id p name image ports : keeps_owned (createApplication id p name image ports).
Proof. unfold keeps_owned, along, keeping, createApplication. elsewhere. Qed.
Lemma scaleApplication_owned id a n : keeps_owned (scaleApplication id a n).
Proof. unfold keeps_owned, along, keeping, scaleApplication. elsewhere. Qed.
Lemma createDomain_owned id p a hostname : keeps_owned (createDomain id p a hostname).
Proof. unfold keeps_owned, along, keeping, createDomain. elsewhere. Qed.
Lemma deleteDomain_owned id x : keeps_owned (deleteDomain id x).
Proof. unfold keeps_owned, along, keeping, deleteDomain. elsewhere. Qed.
Lemma deleteApplication_owned id o a : keeps_owned (deleteApplication id o a).
Proof. unfold keeps_owned, along, keeping, deleteApplication. elsewhere. Qed.
Lemma planDelete_owned id a : keeps_owned (planDelete id a).
Proof. unfold keeps_owned, along, keeping, planDelete. by body_inv. Qed.
Lemma requestBuild_owned id a url ref : keeps_owned (requestBuild id a url ref).
Proof.
  eapply gives_mono; [apply gives_requestBuild|]. intros e ob e' (app & _ & g & _ & _ & Haud) Hd.
  owned_tac. by apply (owned_same (e_db e)).
Qed.
Lemma deployment_made_owned o i u app image e da d' :
  deployment_made o i u app image e da d' → owned e.(e_db) → owned d'.
Proof.
  intros (g & d & Himg & _ & _ & _ & _ & _ & _ & Haud) Hd. owned_tac.
  destruct Himg as [(_ & _ & _ & a & s & _ & ->)|(_ & _ & ->)]; by apply (owned_same (e_db e)).
Qed.
Lemma deployImage_owned id a image : keeps_owned (deployImage id a image).
Proof.
  eapply gives_mono; [apply gives_deployImage|]. intros e oda e' (app & _ & Hm) Hd.
  by eapply deployment_made_owned.
Qed.
End bodies.

(** ** Each route *)

Section routes.
Context `{UUIDText} `{TimeText} `{CursorText} `{Credentials}.
Context (bus : bool) (registryAddr : string).

Lemma bodies_owned : bodies_along (keeping owned).
Proof.
  split; intros; first
    [ apply updateOrganization_owned | apply deleteOrganization_owned | apply inviteMember_owned
    | apply changeMemberRole_owned | apply removeMember_owned | apply createAPIKey_owned
    | apply revokeAPIKey_owned | apply createProject_owned | apply createApplication_owned
    | apply scaleApplication_owned | apply planDelete_owned | apply deleteApplication_owned
    | apply createDomain_owned | apply deleteDomain_owned | apply deployImage_owned | apply requestBuild_owned | idtac ].
  - eapply gives_mono; [apply gives_deployment_UpdateResult|]. intros e _ e' (x & s & _ & ->).
    intros Hd. by apply (owned_same (e_db e)).
  - eapply gives_mono; [apply gives_build_UpdateResult|].
    intros e _ e' (x & s & _ & ->) Hd. by apply (owned_same (e_db e)).
Qed.
Lemma dispatch_owned r id : moves (keeping owned) (dispatch bus registryAddr r id).
Proof. apply dispatch_along; [apply _|exact bodies_owned]. Qed.
End routes.

(** ** On the sample *)

Lemma sample_owned : owned sampleDB.
Proof.
  split.
  - intros i j x y; simpl; rewrite !lookup_insert_Some, !lookup_singleton_Some; naive_solver.
  - intros o [x Hx]. simpl in Hx. apply lookup_singleton_Some in Hx as [<- <-].
    exists 2%N, 4%N, ann_owner. simpl. by rewrite lookup_insert_eq.
Qed.
