(* ===== verification/Runtime.v ===== *)
(** * Runtime: the port through which the worker manages containers

    internal/runtime/runtime.go.  [ContainerRuntime] is the Go interface: each
    call may change the engine's state and gives a result or an error; what
    the engine does is a parameter.  Port bindings have the three fields of
    [PortSpec]. *)
From S2P Require Import Prelude Json Schema Effects.
From stdpp Require Import base gmap strings list.
From Stdlib Require Import ZArith Lia.
Open Scope Z_scope.

(** [Status]: the type is an open string; what an engine reports other than
    the four constants is [StatusOther]. *)
Inductive Status := StatusPending | StatusRunning | StatusExited | StatusUnknown | StatusOther (s : string).
#[export] Instance Status_eq_dec : EqDecision Status.
Proof. solve_decision. Defined.
Definition Status_text (s : Status) : string :=
  match s with
  | StatusPending => "pending" | StatusRunning => "running" | StatusExited => "exited"
  | StatusUnknown => "unknown" | StatusOther s => s
  end.

Record ContainerSpec := mkSpec {
  Spec_Image : string; Spec_Name : string; Spec_Env : gmap string string;
  Spec_Ports : list PortSpec; Spec_Command : list string }.
Record ContainerStatusInfo := mkInfo {
  Info_ID : string; Info_Status : Status; Info_ExitCode : Z; Info_StartedAt : time;
  Info_Ports : list PortSpec }.

(** What kind of failure [errdefs] sees. *)
Record RtError := mkRtError { rt_not_found : bool; rt_text : string }.
Inductive RtRes (A : Type) := RtOk (a : A) | RtErr (e : RtError).
Arguments RtOk {A} a.
Arguments RtErr {A} e.

(** What the reads of a log stream give, one after another: bytes, and with
    the last of them the end of the stream or its failure ([io.Reader]: a read
    may give both).  A stream still followed has no last read yet. *)
Inductive ReadErr := EOF | ReadFailed (msg : string).
Record LogRead := mkRead { read_data : string; read_err : option ReadErr }.
Abbreviation LogReads := (list LogRead) (only parsing).

Class ContainerRuntime (RT : Type) := {
  PullImage : string → RT → RtRes unit * RT;
  CreateContainer : ContainerSpec → RT → RtRes string * RT;
  StartContainer : string → RT → RtRes unit * RT;
  StopContainer : string → time → RT → RtRes unit * RT;
  RemoveContainer : string → RT → RtRes unit * RT;
  ContainerStatus_ : string → RT → RtRes ContainerStatusInfo * RT;
  StreamLogs : string → bool → RT → RtRes LogReads * RT }.

(** [if err != nil { return err }] over the engine's state. *)
Definition rt_bind {RT A B} (m : RT → RtRes A * RT) (k : A → RT → RtRes B * RT) : RT → RtRes B * RT :=
  λ s, match m s with (RtOk a, s') => k a s' | (RtErr e, s') => (RtErr e, s') end.
(** [fmt.Errorf("prefix: %w", err)]: the kind shows through. *)
Definition rt_wrap {RT A} (prefix : string) (m : RT → RtRes A * RT) : RT → RtRes A * RT :=
  λ s, match m s with
       | (RtOk a, s') => (RtOk a, s')
       | (RtErr e, s') => (RtErr (mkRtError e.(rt_not_found) (prefix +:+ ": " +:+ e.(rt_text))), s')
       end.

(** ** A concrete engine

    An engine with one image: containers are named after it, start running
    and keep their row until removed; their log is one line; an exit code is a byte. *)
Definition Shelf : Type := gmap string ContainerStatusInfo.
Definition not_on_shelf : RtError := mkRtError true "no such container".
Definition on_shelf {A} (id : string) (rt : Shelf) (a : A) (rt' : Shelf) : RtRes A * Shelf :=
  match rt !! id with Some _ => (RtOk a, rt') | None => (RtErr not_on_shelf, rt) end.
#[export] Instance shelf_runtime : ContainerRuntime Shelf := {
  PullImage image rt := (if decide (image = "nginx:1") then RtOk tt else RtErr (mkRtError false "no such image"), rt);
  CreateContainer spec rt :=
    let id := "c1" in (RtOk id, <[id := mkInfo id StatusPending 0 0 spec.(Spec_Ports)]> rt);
  StartContainer id rt :=
    on_shelf id rt tt (alter (λ i, mkInfo id StatusRunning 0 0 i.(Info_Ports)) id rt);
  StopContainer id _ rt := on_shelf id rt tt (alter (λ i, mkInfo id StatusExited 0 0 []) id rt);
  RemoveContainer id rt := on_shelf id rt tt (delete id rt);
  ContainerStatus_ id rt :=
    (match rt !! id with
     | Some i => RtOk (mkInfo i.(Info_ID) i.(Info_Status) (i.(Info_ExitCode) mod 256) i.(Info_StartedAt) i.(Info_Ports))
     | None => RtErr not_on_shelf
     end, rt);
  StreamLogs id _ rt := on_shelf id rt [mkRead "hello" (Some EOF)] rt }.
