(* ===== verification/NodeAgent.v ===== *)
(** * NodeAgent: the worker's side of the event bus

    services/worker/internal/nodeagent/nodeagent.go, assign.go and nodeid.go.
    The agent's state is the container engine's and the map of the containers
    it tracks; its handlers return nothing, so each is a function from the
    agent (with the world it publishes into) to the agent after. *)
From S2P Require Import Prelude Json Schema Effects Wire Slug Runtime.
From stdpp Require Import base gmap strings list.
From Stdlib Require Import ZArith Lia.
Open Scope Z_scope.

Record trackedContainer := mkTracked { containerID : string; lastStatus : string }.

(** [Config], as far as a message carries it; the labels are never nil. *)
Record NodeConfig := mkNodeConfig {
  Config_NodeID : uuid; Config_Hostname : string; Config_IP : string;
  Config_CPUCapacityMillicores : Z; Config_MemoryCapacityMB : Z;
  Config_Labels : gmap string string }.

Record Agent (RT : Type) := mkAgent {
  a_world : World; a_rt : RT; a_tracked : gmap string trackedContainer }.
Arguments mkAgent {RT}.
Arguments a_world {RT}.
Arguments a_rt {RT}.
Arguments a_tracked {RT}.

Section agent.
Context `{UUIDText} `{TimeText} {RT : Type} `{!ContainerRuntime RT} (cfg : NodeConfig).

(** What the agent does on the bus and in its log. *)
Definition on_bus (m : M unit) (a : Agent RT) : Agent RT :=
  mkAgent (m a.(a_world)).2 a.(a_rt) a.(a_tracked).
Definition set_rt (rt : RT) (a : Agent RT) : Agent RT := mkAgent a.(a_world) rt a.(a_tracked).
Definition set_tracked (t : gmap string trackedContainer) (a : Agent RT) : Agent RT :=
  mkAgent a.(a_world) a.(a_rt) t.

(** ** nodeagent.go *)

Definition publishRegister : M unit :=
  Publish (NodeRegisterSubject (uuid_String cfg.(Config_NodeID)))
    (to_json {| registerMessage_NodeID := uuid_String cfg.(Config_NodeID);
                registerMessage_Hostname := cfg.(Config_Hostname);
                registerMessage_IP := cfg.(Config_IP);
                registerMessage_CPUCapacityMillicores := cfg.(Config_CPUCapacityMillicores);
                registerMessage_MemoryCapacityMB := cfg.(Config_MemoryCapacityMB);
                registerMessage_Labels := cfg.(Config_Labels) |}).
Definition publishHeartbeat : M unit :=
  t ← now;
  Publish (NodeHeartbeatSubject (uuid_String cfg.(Config_NodeID)))
    (to_json {| heartbeatMessage_NodeID := uuid_String cfg.(Config_NodeID);
                heartbeatMessage_Timestamp := t |}).
(** A failed publish is logged, not fatal ([Run]). *)
Definition logged (m : M unit) (msg : string) : M unit :=
  r ← try m; match r with Err _ => logf msg | Ok _ => mret tt end.

(** ** assign.go *)

Definition containerStatus (info : ContainerStatusInfo) : string :=
  match info.(Info_Status) with
  | StatusPending => "pending"
  | StatusRunning => "running"
  | StatusExited => if decide (info.(Info_ExitCode) = 0) then "stopped" else "crashed"
  | _ => "crashed"
  end.
Definition status_message (assignmentID containerID status : string) (exitCode : Z)
    (ports : list PortSpec) (t : time) : statusMessage :=
  {| statusMessage_AssignmentID := assignmentID; statusMessage_ContainerID := containerID;
     statusMessage_Status := status; statusMessage_ExitCode := exitCode;
     statusMessage_Ports := ports; statusMessage_Timestamp := t |}.
Definition publishStatus (assignmentID containerID status : string) (exitCode : Z)
    (ports : list PortSpec) : M unit :=
  t ← now;
  logged (PublishDurable (NodeStatusSubject (uuid_String cfg.(Config_NodeID)))
            (to_json (status_message assignmentID containerID status exitCode ports t)))
         "publishing status message".

Definition specOf (msg : assignMessage) : ContainerSpec :=
  mkSpec msg.(assignMessage_Image) "" msg.(assignMessage_Env) msg.(assignMessage_Ports)
         msg.(assignMessage_Command).
Definition startAssignedContainer (msg : assignMessage) : RT → RtRes ContainerStatusInfo * RT :=
  rt_bind (rt_wrap ("pulling image " +:+ msg.(assignMessage_Image)) (PullImage msg.(assignMessage_Image)))
  (λ _, rt_bind (rt_wrap "creating container" (CreateContainer (specOf msg)))
  (λ id, rt_bind (rt_wrap ("starting container " +:+ id) (StartContainer id))
  (λ _, rt_wrap ("inspecting container " +:+ id) (ContainerStatus_ id)))).

Definition handleAssignment (data : wire) (a : Agent RT) : Agent RT :=
  match Unmarshal data with
  | None => on_bus (logf "decoding assignment message") a
  | Some msg =>
      let '(r, rt) := startAssignedContainer msg a.(a_rt) in
      let a := set_rt rt a in
      match r with
      | RtErr _ =>
          on_bus (publishStatus msg.(assignMessage_AssignmentID) "" "crashed" 0 [])
            (on_bus (logf "acting on assignment") a)
      | RtOk info =>
          let status := containerStatus info in
          let a := on_bus (publishStatus msg.(assignMessage_AssignmentID) info.(Info_ID) status
                             info.(Info_ExitCode) info.(Info_Ports))
                     (on_bus (logf "assignment started") a) in
          set_tracked (<[msg.(assignMessage_AssignmentID) := mkTracked info.(Info_ID) status]>
                         a.(a_tracked)) a
      end
  end.

(** A warning when the engine's call failed. *)
Definition warned (r : RtRes unit * RT) (msg : string) (a : Agent RT) : Agent RT :=
  let a := set_rt r.2 a in
  match r.1 with RtErr _ => on_bus (logf msg) a | RtOk _ => a end.
Definition handleUnassign (data : wire) (a : Agent RT) : Agent RT :=
  match Unmarshal data with
  | None => on_bus (logf "decoding unassign message") a
  | Some msg =>
      let id := msg.(unassignMessage_ContainerID) in
      let a := warned (StopContainer id (10 * Second) a.(a_rt)) "stopping container for unassign" a in
      let a := warned (RemoveContainer id a.(a_rt)) "removing container for unassign" a in
      let a := on_bus (publishStatus msg.(unassignMessage_AssignmentID) id "stopped" 0 [])
                 (on_bus (logf "container unassigned") a) in
      set_tracked (delete msg.(unassignMessage_AssignmentID) a.(a_tracked)) a
  end.

(** One entry of the snapshot. *)
Definition checkTracked (assignmentID : string) (tc : trackedContainer) (a : Agent RT) : Agent RT :=
  let '(r, rt) := ContainerStatus_ tc.(containerID) a.(a_rt) in
  let a := set_rt rt a in
  match r with
  | RtErr _ => on_bus (logf "checking tracked container health") a
  | RtOk info =>
      let status := containerStatus info in
      if decide (status = tc.(lastStatus)) then a
      else
        let a := on_bus (publishStatus assignmentID tc.(containerID) status info.(Info_ExitCode)
                           info.(Info_Ports))
                   (on_bus (logf "tracked container status changed") a) in
        match a.(a_tracked) !! assignmentID with
        | Some current =>
            set_tracked (<[assignmentID := mkTracked current.(containerID) status]> a.(a_tracked)) a
        | None => a
        end
  end.
Definition checkTrackedContainers `{MapOrder} (a : Agent RT) : Agent RT :=
  foldl (λ a e, checkTracked e.1 e.2 a) a (visit a.(a_tracked)).

(** ** nodeid.go *)

(** The file: not there, unreadable, or its text. *)
Inductive NodeIDFile := FileAbsent | FileUnreadable | FileText (s : string).
(** [fresh] is [uuid.New()], [writable] whether the write succeeds; the result
    is the id, and the file after. *)
Definition LoadOrCreateNodeID (file : NodeIDFile) (fresh : uuid)
    (writable : bool) : option uuid * NodeIDFile :=
  match file with
  | FileText s => (uuid_Parse (TrimSpace s), file)
  | FileUnreadable => (None, file)
  | FileAbsent =>
      if writable then (Some fresh, FileText (uuid_String fresh)) else (None, file)
  end.

(** ** Outcomes *)

Definition status_event (m : statusMessage) : Event :=
  EvPublishDurable (NodeStatusSubject (uuid_String cfg.(Config_NodeID))) (to_json m).
Lemma publishStatus_reports assignmentID cid status exitCode ports :
  reports (publishStatus assignmentID cid status exitCode ports)
    (λ e, [status_event (status_message assignmentID cid status exitCode ports e.(e_now))]).
Proof.
  intros w. unfold publishStatus, mbind, M_bind at 1. simpl. unfold logged.
  apply (reports_publish_last _ (status_event
           (status_message assignmentID cid status exitCode ports w.(w_now)))).
  - apply PublishDurable_publishes.
  - intros [[]|er]; [by apply reports_ret|apply reports_logf].
Qed.
Lemma on_bus_sends m f (a : Agent RT) :
  reports m f → sends a.(a_world) (f (env_of a.(a_world))) (on_bus m a).(a_world).
Proof. intros Hm. destruct (Hm a.(a_world)) as (w' & E & Hs). unfold on_bus. simpl. by rewrite E. Qed.
(** A log line, then the status. *)
Lemma log_then_status msg assignmentID cid status exitCode ports (a : Agent RT) :
  sends a.(a_world) [status_event (status_message assignmentID cid status exitCode ports
                                     a.(a_world).(w_now))]
    (on_bus (publishStatus assignmentID cid status exitCode ports) (on_bus (logf msg) a)).(a_world).
Proof.
  apply (sends_app _ [] (on_bus (logf msg) a).(a_world)); [exact (on_bus_sends _ _ a (reports_logf msg))|].
  exact (on_bus_sends _ _ (on_bus (logf msg) a) (publishStatus_reports assignmentID cid status exitCode ports)).
Qed.

(** An assignment it reads. *)
Definition assignment_done (msg : assignMessage) (a a' : Agent RT) : Prop :=
  let i := msg.(assignMessage_AssignmentID) in
  let '(r, rt) := startAssignedContainer msg a.(a_rt) in
  let t := a.(a_world).(w_now) in
  a'.(a_rt) = rt
  ∧ match r with
    | RtErr _ => a'.(a_tracked) = a.(a_tracked)
        ∧ sends a.(a_world) [status_event (status_message i "" "crashed" 0 [] t)] a'.(a_world)
    | RtOk info =>
        a'.(a_tracked) = <[i := mkTracked info.(Info_ID) (containerStatus info)]> a.(a_tracked)
        ∧ sends a.(a_world) [status_event (status_message i info.(Info_ID) (containerStatus info)
                               info.(Info_ExitCode) info.(Info_Ports) t)] a'.(a_world)
    end.
Lemma assignment_handled data msg a :
  Unmarshal data = Some msg → assignment_done msg a (handleAssignment data a).
Proof.
  intros Hmsg. unfold handleAssignment, assignment_done. rewrite Hmsg.
  destruct (startAssignedContainer msg (a_rt a)) as [[info|er] rt]; (split; [done|]); (split; [done|]);
    apply (log_then_status _ _ _ _ _ _ (set_rt rt a)).
Qed.

(** an assignment.  Whatever the engine does, the agent asks it for the
    image, the container and its start, in this order and stopping at the
    first failure, and then reports exactly one status for the assignment:
    "crashed" without a container when a step failed, leaving what it tracks
    as it was, and otherwise the container the engine made, its state as the
    engine tells it and its ports, which it tracks from then on with the
    status it reported.  A payload it cannot read is dropped. *)
Theorem handleAssignment_correct data a :
  match Unmarshal data with
  | None => (handleAssignment data a).(a_rt) = a.(a_rt)
            ∧ (handleAssignment data a).(a_tracked) = a.(a_tracked)
            ∧ sends a.(a_world) [] (handleAssignment data a).(a_world)
  | Some msg => assignment_done msg a (handleAssignment data a)
  end.
Proof.
  destruct (Unmarshal data) as [msg|] eqn:Hmsg; [by apply assignment_handled|].
  unfold handleAssignment. rewrite Hmsg.
  split; [done|]. split; [done|]. exact (on_bus_sends _ _ a (reports_logf _)).
Qed.

Lemma warned_sends r msg (a : Agent RT) :
  sends a.(a_world) [] (warned r msg a).(a_world) ∧ (warned r msg a).(a_rt) = r.2
  ∧ (warned r msg a).(a_tracked) = a.(a_tracked).
Proof.
  unfold warned. destruct r as [[u|er] rt]; simpl; (split; [|done]).
  - apply sends_nil.
  - exact (on_bus_sends _ _ (set_rt rt a) (reports_logf msg)).
Qed.

(** a release.  The agent stops, then removes the container it is told
    to, whether or not the engine could, and in any case reports the
    assignment stopped once and forgets it, and it alone. *)
Theorem handleUnassign_correct data a msg :
  Unmarshal data = Some msg →
  let i := msg.(unassignMessage_AssignmentID) in
  let c := msg.(unassignMessage_ContainerID) in
  let a' := handleUnassign data a in
  a'.(a_rt) = (RemoveContainer c (StopContainer c (10 * Second) a.(a_rt)).2).2
  ∧ a'.(a_tracked) = delete i a.(a_tracked)
  ∧ sends a.(a_world) [status_event (status_message i c "stopped" 0 [] a.(a_world).(w_now))] a'.(a_world).
Proof.
  intros Hmsg i c a'. unfold a', handleUnassign. rewrite Hmsg. fold c i.
  destruct (warned_sends (StopContainer c (10 * Second) a.(a_rt)) "stopping container for unassign" a)
    as (Hs1 & Hr1 & Ht1).
  set (a1 := warned _ _ a) in *. clearbody a1.
  destruct (warned_sends (RemoveContainer c a1.(a_rt)) "removing container for unassign" a1)
    as (Hs2 & Hr2 & Ht2).
  set (a2 := warned _ _ a1) in *. clearbody a2. simpl.
  split; [by rewrite Hr2, Hr1|]. split; [by rewrite Ht2, Ht1|].
  change [status_event ?m] with ([] ++ [] ++ [status_event m]).
  eapply sends_app; [exact Hs1|]. eapply sends_app; [exact Hs2|].
  destruct Hs1 as [[= _ _ Hn1] _], Hs2 as [[= _ _ Hn2] _]. rewrite <-Hn1, <-Hn2.
  apply (log_then_status _ _ _ _ _ _ a2).
Qed.

(** ** Polling *)

(** Asking for a container's state leaves the engine as it was. *)
Hypothesis status_reads : ∀ id rt, (ContainerStatus_ id rt).2 = rt.

(** What a poll makes of one tracked container, and what it reports. *)
Definition polled (rt : RT) (tc : trackedContainer) : trackedContainer :=
  match (ContainerStatus_ tc.(containerID) rt).1 with
  | RtOk info => mkTracked tc.(containerID) (containerStatus info)
  | RtErr _ => tc
  end.
Definition poll_event (rt : RT) (t : time) (e : string * trackedContainer) : option Event :=
  match (ContainerStatus_ e.2.(containerID) rt).1 with
  | RtOk info =>
      if decide (containerStatus info = e.2.(lastStatus)) then None
      else Some (status_event (status_message e.1 e.2.(containerID) (containerStatus info)
                                 info.(Info_ExitCode) info.(Info_Ports) t))
  | RtErr _ => None
  end.
Lemma checkTracked_correct i tc (a : Agent RT) :
  a.(a_tracked) !! i = Some tc →
  let a' := checkTracked i tc a in
  a'.(a_rt) = a.(a_rt) ∧ a'.(a_tracked) = <[i := polled a.(a_rt) tc]> a.(a_tracked)
  ∧ sends a.(a_world) (option_list (poll_event a.(a_rt) a.(a_world).(w_now) (i, tc))) a'.(a_world).
Proof.
  intros Hi. unfold checkTracked, polled, poll_event. simpl.
  pose proof (status_reads tc.(containerID) a.(a_rt)) as Hrt.
  destruct (ContainerStatus_ (containerID tc) (a_rt a)) as [[info|er] rt]; simpl in *; subst rt.
  - case_decide as Hst; simpl.
    + split; [done|]. split; [|apply sends_nil]. rewrite Hst, insert_id; [done|]. by destruct tc.
    + rewrite Hi. split; [done|]. split; [done|].
      apply (log_then_status _ _ _ _ _ _ (set_rt (a_rt a) a)).
  - split; [done|]. split; [by rewrite insert_id|]. exact (on_bus_sends _ _ (set_rt (a_rt a) a) (reports_logf _)).
Qed.
Lemma poll_loop l (a : Agent RT) :
  NoDup l.*1 → (∀ i tc, (i, tc) ∈ l → a.(a_tracked) !! i = Some tc) →
  let a' := foldl (λ a e, checkTracked e.1 e.2 a) a l in
  a'.(a_rt) = a.(a_rt)
  ∧ (∀ i, a'.(a_tracked) !! i = (if decide (i ∈ l.*1) then polled a.(a_rt) <$> a.(a_tracked) !! i
                                 else a.(a_tracked) !! i))
  ∧ sends a.(a_world) (omap (poll_event a.(a_rt) a.(a_world).(w_now)) l) a'.(a_world).
Proof.
  revert a. induction l as [|[i tc] l IH]; intros a Hnd Hl; simpl; [split; [done|]; split; [done|apply sends_nil]|].
  apply NoDup_cons in Hnd as [Hni Hnd].
  destruct (checkTracked_correct i tc a) as (Hr & Ht & Hs); [apply Hl; left|].
  set (a1 := checkTracked i tc a) in *. clearbody a1.
  destruct (IH a1 Hnd) as (Hr' & Ht' & Hs').
  { intros j tj Hj. rewrite Ht. assert (j ∈ l.*1) by (apply list_elem_of_fmap; by exists (j, tj)).
    rewrite lookup_insert_ne by (by intros ->). apply Hl. by right. }
  split; [congruence|]. split.
  - intros j. rewrite Ht', Ht, Hr. destruct (decide (j = i)) as [->|Hj].
    + rewrite decide_False by done. rewrite decide_True by left.
      rewrite lookup_insert_eq. by rewrite (Hl i tc) by left.
    + rewrite lookup_insert_ne by done. case_decide as Hin; case_decide as Hin'; [done| |..|done].
      * destruct Hin'. by right.
      * apply elem_of_cons in Hin' as [?|?]; done.
  - assert (w_now a1.(a_world) = w_now a.(a_world)) as Hn by (destruct Hs as [[=] _]; congruence).
    rewrite Hr, Hn in Hs'.
    destruct (poll_event (a_rt a) (w_now (a_world a)) (i, tc)) as [ev|] eqn:Hev; simpl in Hs.
    + exact (sends_app _ _ _ _ _ Hs Hs').
    + exact (sends_app _ _ _ _ _ Hs Hs').
Qed.

(** One poll. *)
Lemma poll_once `{!MapOrder} (a : Agent RT) :
  let a' := checkTrackedContainers a in
  a'.(a_rt) = a.(a_rt)
  ∧ (∀ i, a'.(a_tracked) !! i = polled a.(a_rt) <$> a.(a_tracked) !! i)
  ∧ sends a.(a_world) (omap (poll_event a.(a_rt) a.(a_world).(w_now)) (visit a.(a_tracked))) a'.(a_world).
Proof.
  unfold checkTrackedContainers.
  destruct (poll_loop (visit a.(a_tracked)) a) as (Hr & Ht & Hs).
  - rewrite visit_perm. apply NoDup_fst_map_to_list.
  - intros i tc. by rewrite elem_of_visit.
  - split; [done|]. split; [|done]. intros i. rewrite Ht. case_decide as Hin; [done|].
    destruct (a_tracked a !! i) as [tc|] eqn:Hi; [|done]. destruct Hin.
    apply list_elem_of_fmap. exists (i, tc). by rewrite elem_of_visit.
Qed.

(** the health poll.  In whatever order the map is visited, the agent
    reports one status for each tracked container whose state the engine
    tells and is not the one last reported, and nothing for the others, and
    remembers what it reported; a second poll, while
    the engine's answers stay the same, is silent and changes nothing. *)
Theorem checkTrackedContainers_correct `{!MapOrder} (a : Agent RT) :
  let a1 := checkTrackedContainers a in
  let a2 := checkTrackedContainers a1 in
  (a1.(a_rt) = a.(a_rt)
   ∧ (∀ i, a1.(a_tracked) !! i = polled a.(a_rt) <$> a.(a_tracked) !! i)
   ∧ sends a.(a_world) (omap (poll_event a.(a_rt) a.(a_world).(w_now)) (visit a.(a_tracked))) a1.(a_world))
  ∧ messages a2.(a_world) = messages a1.(a_world) ∧ a2.(a_tracked) = a1.(a_tracked).
Proof.
  intros a1 a2.
  destruct (poll_once a) as (Hr & Ht & _). fold a1 in Hr, Ht.
  pose proof (poll_once a) as Hone. fold a1 in Hone. split; [exact Hone|]. clear Hone.
  destruct (poll_once a1) as (_ & Ht2 & _ & l & Hm & Hl & _). fold a2 in Ht2, Hm.
  assert (∀ tc, polled (a_rt a) (polled (a_rt a) tc) = polled (a_rt a) tc) as Hidem.
  { intros tc. unfold polled. destruct (ContainerStatus_ (containerID tc) (a_rt a)) as [[info|er] rt] eqn:E;
      simpl; rewrite ?E; simpl; rewrite ?E; done. }
  assert (∀ i tc, a_tracked a1 !! i = Some tc → ∃ tc0, tc = polled (a_rt a) tc0) as Hpolled.
  { intros i tc Hi. rewrite Ht in Hi. apply fmap_Some in Hi as (tc0 & _ & ->). by exists tc0. }
  split.
  - assert (l = []) as ->; [|by rewrite Hm, app_nil_r]. apply sublist_nil_r.
    replace (@nil Event) with (omap (poll_event (a_rt a1) (w_now (a_world a1))) (visit (a_tracked a1))); [done|].
    assert (∀ e, e ∈ visit (a_tracked a1) → poll_event (a_rt a1) (w_now (a_world a1)) e = None) as Hnone.
    { intros [i tc] Hin%elem_of_visit. destruct (Hpolled i tc Hin) as [tc0 ->]. rewrite Hr.
      unfold poll_event, polled. simpl.
      destruct (ContainerStatus_ (containerID tc0) (a_rt a)) as [[info|er] rt] eqn:E; simpl; rewrite E; simpl;
        [by rewrite decide_True|done]. }
    revert Hnone. generalize (visit (a_tracked a1)). induction l0 as [|e l' IH]; [done|].
    intros Hnone. simpl. rewrite Hnone by left. apply IH. intros e' He'. apply Hnone. by right.
  - apply map_eq. intros i. rewrite Ht2, Hr. destruct (a_tracked a1 !! i) as [tc|] eqn:Hi; [|done].
    simpl. destruct (Hpolled i tc Hi) as [tc0 ->]. by rewrite Hidem.
Qed.
End agent.

(** a node keeps its identity: once an id was obtained, every later start
    obtains the same one, whatever fresh id it is offered; a file that is
    there is never rewritten.  The text of the fresh id has no space around it. *)
Theorem node_identity_stable `{UUIDText} file fresh writable id file' :
  TrimSpace (uuid_String fresh) = uuid_String fresh →
  LoadOrCreateNodeID file fresh writable = (Some id, file') →
  (file ≠ FileAbsent → file' = file)
  ∧ ∀ fresh' writable', LoadOrCreateNodeID file' fresh' writable' = (Some id, file').
Proof.
  intros Htrim. unfold LoadOrCreateNodeID. destruct file as [| |s]; [destruct writable|..];
    intros [= Hid <-]; (split; [done|]); intros fresh' writable'; simpl.
  - subst id. by rewrite Htrim, uuid_Parse_String.
  - by rewrite Hid.
Qed.

(** ** On a concrete engine *)

#[local] Existing Instances hexUUID hexTime fixed_order.
Definition agent_config : NodeConfig := mkNodeConfig 40 "a" "10.0.0.1" 2000 2048 ∅.
(** One container tracked as running, gone since. *)
Definition busy_agent : Agent Shelf :=
  mkAgent (mkWorld emptyDB noSession 0 0 [] []) {["c1" := mkInfo "c1" StatusExited 137 0 []]}
          {["50" := mkTracked "c1" "running"]}.
Definition release : unassignMessage :=
  {| unassignMessage_AssignmentID := "50"; unassignMessage_ContainerID := "c1" |}.

Lemma release_read : Unmarshal (Some (to_json release)) = Some release.
Proof. apply wire_roundtrip. exact I. Qed.
Lemma handleUnassign_correct_witness :
  (handleUnassign agent_config (Some (to_json release)) busy_agent).(a_tracked) = ∅.
Proof.
  destruct (handleUnassign_correct agent_config (Some (to_json release)) busy_agent release
              release_read) as (_ & -> & _).
  vm_compute. reflexivity.
Defined.
Lemma shelf_reads id (rt : Shelf) : (ContainerStatus_ id rt).2 = rt.
Proof. done. Qed.
Lemma checkTrackedContainers_correct_witness :
  calm busy_agent.(a_world) ∧
  messages (checkTrackedContainers agent_config busy_agent).(a_world)
  = [status_event agent_config (status_message "50" "c1" "crashed" 137 [] 0)].
Proof.
  split; [done|].
  destruct (checkTrackedContainers_correct agent_config shelf_reads busy_agent)
    as [(_ & _ & _ & l & -> & _ & Hl) _].
  destruct (Hl eq_refl) as [-> _]. vm_compute. reflexivity.
Defined.
Lemma node_identity_stable_witness :
  LoadOrCreateNodeID (LoadOrCreateNodeID FileAbsent 40 true).2 41 true = LoadOrCreateNodeID FileAbsent 40 true.
Proof.
  apply (node_identity_stable FileAbsent 40 true 40 (FileText (uuid_String 40))); vm_compute; reflexivity.
Defined.
