(* ===== verification/Docker.v ===== *)
(** * Docker: the Docker adapter of the container runtime

    internal/runtime/docker.go, over the Docker client (github.com/moby/moby:
    a parameter, as are its port texts and the demultiplexing of its log
    stream).  It makes any such client a [ContainerRuntime]. *)
From S2P Require Import Prelude Text Json Schema Effects Wire Runtime.
From stdpp Require Import base gmap strings list pretty.
From Stdlib Require Import ZArith Lia Ascii.
Open Scope Z_scope.

(** ** The client *)

(** [network.Port], its parts and its parser. *)
Class DockerPorts := {
  Port : Type;
  Port_eq_dec :: EqDecision Port;
  Port_countable :: Countable Port;
  Num : Port → Z;
  Proto : Port → string;
  ParsePort : string → Port + string }.

(** [network.PortBinding] and what [ContainerInspect] tells. *)
Record HostBinding := mkHostBinding { HostIP : string; HostPort : string }.
Record InspectState := mkInspectState { State_Status : string; State_ExitCode : Z; State_StartedAt : string }.
Record Inspect `{DockerPorts} := mkInspect {
  Inspect_ID : string; Inspect_State : option InspectState;
  Inspect_Ports : option (gmap Port (list HostBinding)) }.
Record CreateOptions `{DockerPorts} := mkCreateOptions {
  Create_Image : string; Create_Name : string; Create_Env : list string; Create_Cmd : list string;
  Create_ExposedPorts : gset Port; Create_PortBindings : gmap Port (list HostBinding) }.
Arguments mkInspect {_}.
Arguments mkCreateOptions {_}.

Class DockerClient (D : Type) `{DockerPorts} := {
  RawLogs : Type;
  (** the response is drained: it may break off *)
  ImagePull : string → D → (option RtError + RtError) * D;
  ContainerCreate : CreateOptions → D → (string + RtError) * D;
  ContainerStart : string → D → (unit + RtError) * D;
  ContainerStop : string → Z → D → (unit + RtError) * D;
  ContainerRemove : string → D → (unit + RtError) * D;
  ContainerInspect : string → D → (Inspect + RtError) * D;
  ContainerLogs : string → bool → D → (RawLogs + RtError) * D;
  StdCopy : RawLogs → LogReads }.

Section docker.
Context `{!TimeText} `{!MapOrder} {D : Type} `{!DockerPorts} `{!DockerClient D}.

(** [fmt.Errorf("prefix: %w", err)] *)
Definition wrapped (prefix : string) (e : RtError) : RtError :=
  mkRtError e.(rt_not_found) (prefix +:+ ": " +:+ e.(rt_text)).
Definition rt_of {A B} (prefix : string) (f : A → B) (r : (A + RtError) * D) : RtRes B * D :=
  match r with
  | (inl a, d) => (RtOk (f a), d)
  | (inr e, d) => (RtErr (wrapped prefix e), d)
  end.

Definition docker_PullImage (image : string) (d : D) : RtRes unit * D :=
  match ImagePull image d with
  | (inr e, d) => (RtErr (wrapped ("pulling image " +:+ image) e), d)
  | (inl (Some e), d) => (RtErr (wrapped ("reading pull response for image " +:+ image) e), d)
  | (inl None, d) => (RtOk tt, d)
  end.

Definition proto_of (p : PortSpec) : string :=
  if decide (p.(PortSpec_Protocol) = "") then "tcp" else p.(PortSpec_Protocol).
Definition port_text (p : PortSpec) : string := pretty p.(PortSpec_ContainerPort) +:+ "/" +:+ proto_of p.
(** The empty text asks the engine for any free port. *)
Definition host_port_text (p : PortSpec) : string :=
  if decide (p.(PortSpec_HostPort) = 0) then "" else pretty p.(PortSpec_HostPort).
(** The exposed ports and their bindings. *)
Fixpoint port_maps (ports : list PortSpec) (exposed : gset Port) (bindings : gmap Port (list HostBinding))
    : (gset Port * gmap Port (list HostBinding)) + string :=
  match ports with
  | [] => inl (exposed, bindings)
  | p :: ports =>
      match ParsePort (port_text p) with
      | inr err => inr ("building port spec for " +:+ port_text p +:+ ": " +:+ err)
      | inl port => port_maps ports ({[port]} ∪ exposed)
                      (<[port := [mkHostBinding "0.0.0.0" (host_port_text p)]]> bindings)
      end
  end.
Definition docker_CreateContainer (spec : ContainerSpec) (d : D) : RtRes string * D :=
  let env := (λ kv, kv.1 +:+ "=" +:+ kv.2) <$> visit spec.(Spec_Env) in
  match port_maps spec.(Spec_Ports) ∅ ∅ with
  | inr err => (RtErr (mkRtError false err), d)
  | inl (exposed, bindings) =>
      rt_of ("creating container from image " +:+ spec.(Spec_Image)) id
        (ContainerCreate (mkCreateOptions spec.(Spec_Image) spec.(Spec_Name) env spec.(Spec_Command)
                            exposed bindings) d)
  end.

Definition docker_StartContainer (id : string) (d : D) : RtRes unit * D :=
  rt_of ("starting container " +:+ id) (λ _, tt) (ContainerStart id d).
(** [int(timeout.Seconds())]: the whole seconds (the conversion through a
    float is exact for the grace periods there are). *)
Definition docker_StopContainer (id : string) (timeout : time) (d : D) : RtRes unit * D :=
  rt_of ("stopping container " +:+ id) (λ _, tt) (ContainerStop id (Z.quot timeout Second) d).
Definition docker_RemoveContainer (id : string) (d : D) : RtRes unit * D :=
  rt_of ("removing container " +:+ id) (λ _, tt) (ContainerRemove id d).

Definition status_of (st : option InspectState) : Status :=
  match st with
  | None => StatusUnknown
  | Some st =>
      if decide (st.(State_Status) = "created") then StatusPending
      else if decide (st.(State_Status) = "running") then StatusRunning
      else if decide (st.(State_Status) = "exited" ∨ st.(State_Status) = "dead") then StatusExited
      else StatusUnknown
  end.
(** One port with its bindings: the first one's number, if it has one. *)
Definition bound_port (e : Port * list HostBinding) : option PortSpec :=
  match e.2 with
  | [] => None
  | b :: _ => n ← Atoi b.(HostPort); Some (Build_PortSpec (Num e.1) n (Proto e.1))
  end.
Definition hostPortBindings (ns : option (gmap Port (list HostBinding))) : list PortSpec :=
  match ns with None => [] | Some ports => omap bound_port (visit ports) end.
(** A start time that does not parse is the zero time. *)
Definition info_of (i : Inspect) : ContainerStatusInfo :=
  mkInfo i.(Inspect_ID) (status_of i.(Inspect_State))
    (match i.(Inspect_State) with Some st => st.(State_ExitCode) | None => 0 end)
    (match i.(Inspect_State) with Some st => default 0 (time_Parse st.(State_StartedAt)) | None => 0 end)
    (hostPortBindings i.(Inspect_Ports)).
Definition docker_ContainerStatus (id : string) (d : D) : RtRes ContainerStatusInfo * D :=
  rt_of ("inspecting container " +:+ id) info_of (ContainerInspect id d).
Definition docker_StreamLogs (id : string) (follow : bool) (d : D) : RtRes LogReads * D :=
  rt_of ("streaming logs for container " +:+ id) StdCopy (ContainerLogs id follow d).

#[export] Instance docker_runtime : ContainerRuntime D := {
  PullImage := docker_PullImage;
  CreateContainer := docker_CreateContainer;
  StartContainer := docker_StartContainer;
  StopContainer := docker_StopContainer;
  RemoveContainer := docker_RemoveContainer;
  ContainerStatus_ := docker_ContainerStatus;
  StreamLogs := docker_StreamLogs }.
End docker.

(** ** Ports, there and back *)

Section ports.
Context `{!TimeText} `{!MapOrder} `{!DockerPorts}.
(** A parsed port has the number and the protocol of its text. *)
Hypothesis ParsePort_parts : ∀ n proto port, 0 < n < 2 ^ 16 →
  ParsePort (pretty n +:+ "/" +:+ proto) = inl port → Num port = n ∧ Proto port = proto.

(** What identifies a port, and what the engine is asked to bind it to. *)
Definition port_key (p : PortSpec) : Z * string := (p.(PortSpec_ContainerPort), proto_of p).
Definition fixed_port (p : PortSpec) : option PortSpec :=
  if decide (p.(PortSpec_HostPort) = 0) then None
  else Some (Build_PortSpec p.(PortSpec_ContainerPort) p.(PortSpec_HostPort) (proto_of p)).
Definition port_ok (p : PortSpec) : Prop :=
  0 < p.(PortSpec_ContainerPort) < 2 ^ 16 ∧ 0 ≤ p.(PortSpec_HostPort) < 2 ^ 16.

Lemma bound_fixed p port :
  port_ok p → ParsePort (port_text p) = inl port →
  bound_port (port, [mkHostBinding "0.0.0.0" (host_port_text p)]) = fixed_port p.
Proof.
  intros [Hc Hh] [Hn Hpr]%ParsePort_parts; [|done]. unfold bound_port, fixed_port, host_port_text.
  simpl. case_decide as Hz; [done|]. rewrite Atoi_pretty by lia. simpl. by rewrite Hn, Hpr.
Qed.
Lemma ports_back ports exposed bindings exposed' bindings' :
  Forall port_ok ports → NoDup (port_key <$> ports) →
  (∀ p port, p ∈ ports → ParsePort (port_text p) = inl port → bindings !! port = None) →
  port_maps ports exposed bindings = inl (exposed', bindings') →
  omap bound_port (map_to_list bindings') ≡ₚ omap fixed_port ports ++ omap bound_port (map_to_list bindings)
  ∧ (∀ port, port ∈ exposed' ↔ port ∈ exposed ∨ ∃ p, p ∈ ports ∧ ParsePort (port_text p) = inl port).
Proof.
  revert exposed bindings. induction ports as [|p ports IH]; intros exposed bindings Hok Hnd Hfresh Hm; simpl in Hm.
  { simplify_eq. split; [done|]. intros port. split; [by left|].
    intros [?|(p & ?%not_elem_of_nil & _)]; done. }
  destruct (ParsePort (port_text p)) as [port|err] eqn:E; [|done].
  apply Forall_cons in Hok as [Hp Hok]. apply NoDup_cons in Hnd as [Hnp Hnd].
  destruct (IH ({[port]} ∪ exposed) (<[port:=[mkHostBinding "0.0.0.0" (host_port_text p)]]> bindings) Hok Hnd)
    as [Hb He]; [|done|].
  - intros q port' Hq Eq. rewrite lookup_insert_ne; [apply (Hfresh q); [by right|done]|].
    intros <-. apply Hnp. apply list_elem_of_fmap. exists q. split; [|done].
    apply ParsePort_parts in E as [E1 E2]; [|apply Hp].
    apply ParsePort_parts in Eq as [Eq1 Eq2]; [|rewrite Forall_forall in Hok; by apply Hok].
    unfold port_key. congruence.
  - split.
    + rewrite Hb. rewrite map_to_list_insert by (apply (Hfresh p); [left|done]).
      simpl. rewrite (bound_fixed p port) by done. destruct (fixed_port p); [|done].
      by rewrite <-Permutation_middle.
    + intros port'. rewrite He, elem_of_union, elem_of_singleton. setoid_rewrite elem_of_cons.
      split; [intros [[->|?]|(q & ? & ?)]|intros [?|(q & [->|?] & ?)]]; eauto.
      left; left; congruence.
Qed.

(** ports survive the engine's vocabulary: for port specifications that
    name distinct ports, the ports exposed to the engine are exactly the
    parsed ones, and reading the bindings asked for the way an inspection is
    read gives back, in some order, each specification with a fixed host port
    (its protocol filled in), and nothing for those left to the engine. *)
Theorem port_bindings_roundtrip ports exposed bindings :
  Forall port_ok ports → NoDup (port_key <$> ports) →
  port_maps ports ∅ ∅ = inl (exposed, bindings) →
  hostPortBindings (Some bindings) ≡ₚ omap fixed_port ports
  ∧ ∀ port, port ∈ exposed ↔ ∃ p, p ∈ ports ∧ ParsePort (port_text p) = inl port.
Proof.
  intros Hok Hnd Hm. destruct (ports_back ports ∅ ∅ exposed bindings Hok Hnd) as [Hb He]; [done..|].
  split.
  - simpl. rewrite visit_perm, Hb, map_to_list_empty. by rewrite app_nil_r.
  - intros port. rewrite He. set_solver.
Qed.
End ports.

(** ** On the sample *)

(** Ports as their number and protocol; their text is cut at the slash. *)
Definition plain_ports : DockerPorts := {|
  Port := Z * string; Num := fst; Proto := snd;
  ParsePort s := match cut_on "/"%char s with
                 | (n, Some proto) => match Atoi n with Some n => inl (n, proto) | None => inr "bad port" end
                 | _ => inr "bad port"
                 end |}.
Lemma plain_ParsePort n proto (port : @Port plain_ports) : 0 < n < 2 ^ 16 →
  @ParsePort plain_ports (pretty n +:+ "/" +:+ proto) = inl port → Num port = n ∧ Proto port = proto.
Proof.
  intros Hn. cbn [ParsePort plain_ports].
  destruct (digits_pretty n) as [Hd _]; [lia|].
  rewrite cut_on_app by (by eapply digits_plain). simpl. rewrite append_nil_r, Atoi_pretty by lia.
  by intros [= <-].
Qed.
Definition shop_ports : list PortSpec :=
  [Build_PortSpec 80 8080 ""; Build_PortSpec 53 0 "udp"; Build_PortSpec 443 8443 "tcp"].
#[local] Existing Instances plain_ports fixed_order.
Lemma port_bindings_roundtrip_witness :
  ∃ exposed bindings, port_maps shop_ports ∅ ∅ = inl (exposed, bindings)
    ∧ hostPortBindings (Some bindings) ≡ₚ [Build_PortSpec 80 8080 "tcp"; Build_PortSpec 443 8443 "tcp"].
Proof.
  destruct (port_maps shop_ports ∅ ∅) as [[exposed bindings]|err] eqn:E; [|discriminate E].
  exists exposed, bindings. split; [done|].
  refine (proj1 (port_bindings_roundtrip plain_ParsePort shop_ports exposed bindings _ _ E)).
  - repeat constructor; simpl; lia.
  - apply (bool_decide_unpack _). vm_compute. exact I.
Defined.
