(* ===== verification/WorkerServer.v ===== *)
(** * WorkerServer: the worker's HTTP contract

    services/worker/internal/server/server.go: the container operations over
    HTTP, on any engine ([ContainerRuntime]).  A request is its method, its
    path with the query, and its body ([None] when there is none, then the
    first JSON value of it); a path is clean and has no percent escapes (the mux
    redirects one with an empty or dot segment before its end).  What is logged
    is left out, and [HEAD], which is answered like [GET] without the body. *)
From S2P Require Import Prelude Text Json Http Schema Effects Wire Runtime.
From stdpp Require Import base gmap strings list.
From Stdlib Require Import ZArith Lia Ascii.
Open Scope Z_scope.

(** ** HTTP *)

Record Request := mkRequest { req_method : Method; req_url : string; req_body : option wire }.
(** The body of a response: JSON, plain text, nothing, or a stream as the
    client has read it so far. *)
Inductive RespBody := BodyJSON (j : json) | BodyText (s : string) | BodyEmpty | BodyLog (s : string).
Record Response := mkResponse { resp_status : Z; resp_body : RespBody }.

(** ** Bodies *)

Record createContainerRequest := {
  createContainerRequest_Image : string; createContainerRequest_Name : string;
  createContainerRequest_Env : gmap string string; createContainerRequest_Ports : list PortSpec;
  createContainerRequest_Command : list string }.
#[export] Instance createContainerRequest_zero : Inhabited createContainerRequest :=
  populate (Build_createContainerRequest "" "" ∅ [] []).
#[export] Instance into_createContainerRequest : Into createContainerRequest := decode_struct
  [("image", λ m j, v ← into m.(createContainerRequest_Image) j;
      Some (Build_createContainerRequest v m.(createContainerRequest_Name) m.(createContainerRequest_Env)
              m.(createContainerRequest_Ports) m.(createContainerRequest_Command)));
   ("name", λ m j, v ← into m.(createContainerRequest_Name) j;
      Some (Build_createContainerRequest m.(createContainerRequest_Image) v m.(createContainerRequest_Env)
              m.(createContainerRequest_Ports) m.(createContainerRequest_Command)));
   ("env", λ m j, v ← into m.(createContainerRequest_Env) j;
      Some (Build_createContainerRequest m.(createContainerRequest_Image) m.(createContainerRequest_Name) v
              m.(createContainerRequest_Ports) m.(createContainerRequest_Command)));
   ("ports", λ m j, v ← into m.(createContainerRequest_Ports) j;
      Some (Build_createContainerRequest m.(createContainerRequest_Image) m.(createContainerRequest_Name)
              m.(createContainerRequest_Env) v m.(createContainerRequest_Command)));
   ("command", λ m j, v ← into m.(createContainerRequest_Command) j;
      Some (Build_createContainerRequest m.(createContainerRequest_Image) m.(createContainerRequest_Name)
              m.(createContainerRequest_Env) m.(createContainerRequest_Ports) v))].

Record stopRequest := { stopRequest_TimeoutSeconds : Z }.
#[export] Instance stopRequest_zero : Inhabited stopRequest := populate (Build_stopRequest 0).
#[export] Instance into_stopRequest : Into stopRequest := decode_struct
  [("timeout_seconds", λ m j, v ← into m.(stopRequest_TimeoutSeconds) j; Some (Build_stopRequest v))].

Record containerResponse := {
  containerResponse_ID : string; containerResponse_Status : string;
  containerResponse_ExitCode : Z; containerResponse_StartedAt : time }.
#[export] Instance to_json_containerResponse `{TimeText} : ToJSON containerResponse := λ m, JObject (
  [("id", to_json m.(containerResponse_ID)); ("status", to_json m.(containerResponse_Status))]
  ++ omitempty (bool_decide (m.(containerResponse_ExitCode) = 0)) "exit_code"
       (to_json m.(containerResponse_ExitCode))
  ++ [("started_at", JString (time_String m.(containerResponse_StartedAt)))]).
Definition toContainerResponse (info : ContainerStatusInfo) : containerResponse :=
  Build_containerResponse info.(Info_ID) (Status_text info.(Info_Status)) info.(Info_ExitCode)
    info.(Info_StartedAt).

Record errorBody := { errorBody_Code : string; errorBody_Message : string }.
#[export] Instance to_json_errorBody : ToJSON errorBody := λ m, JObject
  [("code", to_json m.(errorBody_Code)); ("message", to_json m.(errorBody_Message))].
Definition writeJSON (status : Z) (j : json) : Response := mkResponse status (BodyJSON j).
Definition writeError (status : Z) (code message : string) : Response :=
  writeJSON status (JObject [("error", to_json (Build_errorBody code message))]).

(** ** Paths *)

(** The patterns of the mux: [/v1/containers], [/v1/containers/{id}],
    [/v1/containers/{id}/stop], [/v1/containers/{id}/logs]. *)
Inductive Endpoint := AllContainers | OneContainer (id : string) | StopOf (id : string)
  | LogsOf (id : string) | NoEndpoint.
Definition endpoint (path : string) : Endpoint :=
  match split_on "/"%char path with
  | root :: v1 :: containers :: rest =>
      if decide (root = "" ∧ v1 = "v1" ∧ containers = "containers") then
        match rest with
        | [] => AllContainers
        | [id] => if decide (id = "") then NoEndpoint else OneContainer id
        | [id; op] => if decide (id = "") then NoEndpoint
                      else if decide (op = "stop") then StopOf id
                      else if decide (op = "logs") then LogsOf id else NoEndpoint
        | _ => NoEndpoint
        end
      else NoEndpoint
  | _ => NoEndpoint
  end.

(** ** Handlers *)

(** The copying loop of [handleLogs]: what it has written, given the stream's
    reads and whether each write goes through; [true] when it has returned. *)
Fixpoint copy_logs (reads : LogReads) (writes : list bool) : string * bool :=
  match reads with
  | [] => ("", false)
  | r :: reads =>
      let last := match r.(read_err) with Some _ => true | None => false end in
      if decide (r.(read_data) = "")
      then if last then ("", true) else copy_logs reads writes
      else if head writes is Some false then ("", true)
      else if last then (r.(read_data), true)
      else let '(s, fin) := copy_logs reads (tail writes) in (r.(read_data) +:+ s, fin)
  end.

Section server.
Context `{TimeText} {RT : Type} `{!ContainerRuntime RT}.

(** 404 for a container the engine does not know, 502 for anything else. *)
Definition writeRuntimeError (action id : string) (e : RtError) : Response :=
  if e.(rt_not_found)
  then writeError 404 "container_not_found" ("no container with id " +:+ id)
  else writeError 502 "runtime_error" (action +:+ " container " +:+ id +:+ ": " +:+ e.(rt_text)).

Definition handleCreate (body : wire) (s : RT) : Response * RT :=
  match Unmarshal body with
  | None => (writeError 400 "invalid_body"
               "request body must be valid JSON matching the create-container schema", s)
  | Some req =>
      if decide (req.(createContainerRequest_Image) = "")
      then (writeError 422 "missing_field" "image is required", s)
      else
      let '(pulled, s) := PullImage req.(createContainerRequest_Image) s in
      match pulled with
      | RtErr e => (writeError 502 "pull_failed"
          ("pulling image " +:+ req.(createContainerRequest_Image) +:+ ": " +:+ e.(rt_text)), s)
      | RtOk _ =>
      let '(created, s) := CreateContainer
        (mkSpec req.(createContainerRequest_Image) req.(createContainerRequest_Name)
           req.(createContainerRequest_Env) req.(createContainerRequest_Ports)
           req.(createContainerRequest_Command)) s in
      match created with
      | RtErr e => (writeError 502 "create_failed" ("creating container: " +:+ e.(rt_text)), s)
      | RtOk id =>
      let '(started, s) := StartContainer id s in
      match started with
      | RtErr e => (writeError 502 "start_failed"
          ("starting container " +:+ id +:+ ": " +:+ e.(rt_text)), s)
      | RtOk _ =>
      let '(info, s) := ContainerStatus_ id s in
      match info with
      | RtErr e => (writeError 502 "status_failed"
          ("inspecting container " +:+ id +:+ ": " +:+ e.(rt_text)), s)
      | RtOk info => (writeJSON 201 (to_json (toContainerResponse info)), s)
      end end end end
  end.

Definition handleStatus (id : string) (s : RT) : Response * RT :=
  let '(info, s) := ContainerStatus_ id s in
  match info with
  | RtErr e => (writeRuntimeError "inspecting" id e, s)
  | RtOk info => (writeJSON 200 (to_json (toContainerResponse info)), s)
  end.

(** The grace period: ten seconds unless the body gives a positive number of
    seconds; the product is of 64 bits. *)
Definition stop_timeout (body : option wire) : option time :=
  match body with
  | None => Some (10 * Second)
  | Some body =>
      req ← Unmarshal body;
      Some (if decide (0 < req.(stopRequest_TimeoutSeconds))
            then wrap64 (req.(stopRequest_TimeoutSeconds) * Second) else 10 * Second)
  end.
Definition handleStop (id : string) (body : option wire) (s : RT) : Response * RT :=
  match stop_timeout body with
  | None => (writeError 400 "invalid_body" "request body must be valid JSON matching the stop schema", s)
  | Some timeout =>
      let '(stopped, s) := StopContainer id timeout s in
      match stopped with
      | RtErr e => (writeRuntimeError "stopping" id e, s)
      | RtOk _ =>
          let '(info, s) := ContainerStatus_ id s in
          match info with
          | RtErr e => (writeRuntimeError "inspecting" id e, s)
          | RtOk info => (writeJSON 200 (to_json (toContainerResponse info)), s)
          end
      end
  end.

Definition handleRemove (id : string) (s : RT) : Response * RT :=
  let '(removed, s) := RemoveContainer id s in
  match removed with
  | RtErr e => (writeRuntimeError "removing" id e, s)
  | RtOk _ => (mkResponse 204 BodyEmpty, s)
  end.

Definition handleLogs (id : string) (query : option string) (writes : list bool) (s : RT)
    : Response * RT :=
  let follow := bool_decide (query_get "follow" query = "true") in
  let '(logs, s) := StreamLogs id follow s in
  match logs with
  | RtErr e => (writeRuntimeError "streaming logs for" id e, s)
  | RtOk reads => (mkResponse 200 (BodyLog (copy_logs reads writes).1), s)
  end.

(** [Routes]: the path's pattern, then the method.  [writes] tells of each
    write to a log stream whether it goes through. *)
Definition Routes (writes : list bool) (q : Request) (s : RT) : Response * RT :=
  let '(path, query) := cut_on "?"%char q.(req_url) in
  match endpoint path, q.(req_method) with
  | AllContainers, POST => handleCreate (default None q.(req_body)) s
  | OneContainer id, GET => handleStatus id s
  | OneContainer id, DELETE => handleRemove id s
  | StopOf id, POST => handleStop id q.(req_body) s
  | LogsOf id, GET => handleLogs id query writes s
  | NoEndpoint, _ => (mkResponse 404 (BodyText "404 page not found"), s)
  | _, _ => (mkResponse 405 (BodyText "Method Not Allowed"), s)
  end.
End server.
