(* ===== verification/WorkerClient.v ===== *)
(** * WorkerClient: the API server's client of the worker

    services/apiserver/internal/workerclient/client.go, over any transport
    ([Do], the HTTP client's, which may fail), and what it gives when the
    other end is the worker ([WorkerServer.Routes]): each call is the engine's
    own operation, its answer and its two kinds of failure. *)
From S2P Require Import Prelude Text Json Http Schema Effects Wire Runtime NodeAgent WorkerServer.
From stdpp Require Import base gmap strings list pretty.
From Stdlib Require Import ZArith Lia Ascii.
Open Scope Z_scope.

(** ** Bodies *)

(** The client's copy has no command. *)
Record CreateContainerRequest := {
  CreateContainerRequest_Image : string; CreateContainerRequest_Name : string;
  CreateContainerRequest_Env : gmap string string; CreateContainerRequest_Ports : list PortSpec }.
#[export] Instance to_json_CreateContainerRequest : ToJSON CreateContainerRequest := λ m, JObject (
  [("image", to_json m.(CreateContainerRequest_Image)); ("name", to_json m.(CreateContainerRequest_Name))]
  ++ omitempty (bool_decide (m.(CreateContainerRequest_Env) = ∅)) "env"
       (to_json m.(CreateContainerRequest_Env))
  ++ omitempty (bool_decide (m.(CreateContainerRequest_Ports) = [])) "ports"
       (to_json m.(CreateContainerRequest_Ports))).

(** [ContainerStatus] has the fields and tags of the server's
    [containerResponse]. *)
#[export] Instance containerResponse_zero : Inhabited containerResponse :=
  populate (Build_containerResponse "" "" 0 zeroTime).
#[export] Instance into_containerResponse `{TimeText} : Into containerResponse := decode_struct
  [("id", λ m j, v ← into m.(containerResponse_ID) j;
      Some (Build_containerResponse v m.(containerResponse_Status) m.(containerResponse_ExitCode)
              m.(containerResponse_StartedAt)));
   ("status", λ m j, v ← into m.(containerResponse_Status) j;
      Some (Build_containerResponse m.(containerResponse_ID) v m.(containerResponse_ExitCode)
              m.(containerResponse_StartedAt)));
   ("exit_code", λ m j, v ← into m.(containerResponse_ExitCode) j;
      Some (Build_containerResponse m.(containerResponse_ID) m.(containerResponse_Status) v
              m.(containerResponse_StartedAt)));
   ("started_at", λ m j, v ← into_time m.(containerResponse_StartedAt) j;
      Some (Build_containerResponse m.(containerResponse_ID) m.(containerResponse_Status)
              m.(containerResponse_ExitCode) v))].

#[export] Instance errorBody_zero : Inhabited errorBody := populate (Build_errorBody "" "").
#[export] Instance into_errorBody : Into errorBody := decode_struct
  [("code", λ m j, v ← into m.(errorBody_Code) j; Some (Build_errorBody v m.(errorBody_Message)));
   ("message", λ m j, v ← into m.(errorBody_Message) j; Some (Build_errorBody m.(errorBody_Code) v))].
Record workerErrorEnvelope := { envelope_Error : errorBody }.
#[export] Instance workerErrorEnvelope_zero : Inhabited workerErrorEnvelope :=
  populate (Build_workerErrorEnvelope inhabitant).
#[export] Instance into_workerErrorEnvelope : Into workerErrorEnvelope := decode_struct
  [("error", λ m j, v ← into m.(envelope_Error) j; Some (Build_workerErrorEnvelope v))].

(** ** The client *)

(** [ErrNotFound], and every other error by its text. *)
Inductive ClientError := WorkerNotFound | WorkerFailed (msg : string).
Inductive WRes (A : Type) := WOk (a : A) | WErr (e : ClientError).
Arguments WOk {A} a.
Arguments WErr {A} e.

(** The body as [json.Decoder] reads it. *)
Definition body_json (b : RespBody) : wire := match b with BodyJSON j => Some j | _ => None end.

Definition called (method : Method) (path : string) : string :=
  "worker " +:+ Method_text method +:+ " " +:+ path +:+ ": ".
(** The error of a status that is not the wanted one; a body which is not an
    envelope counts as an empty one. *)
Definition status_error (method : Method) (path : string) (r : Response) : ClientError :=
  let envelope := default inhabitant (Unmarshal (A:=workerErrorEnvelope) (body_json r.(resp_body))) in
  let called := called method path in
  if decide (r.(resp_status) = 404) then WorkerNotFound
  else if decide (envelope.(envelope_Error).(errorBody_Message) ≠ "")
  then WorkerFailed (called +:+ envelope.(envelope_Error).(errorBody_Message)
                     +:+ " (" +:+ envelope.(envelope_Error).(errorBody_Code) +:+ ")")
  else WorkerFailed (called +:+ "unexpected status " +:+ pretty r.(resp_status)).
Definition calling (method : Method) (path msg : string) : ClientError :=
  WorkerFailed ("calling worker " +:+ Method_text method +:+ " " +:+ path +:+ ": " +:+ msg).

Section client.
Context `{TimeText} {S : Type} (Do : Request → S → (Response + string) * S).

(** [do] with a status to decode, or without. *)
Definition do_ (method : Method) (path : string) (body : option wire) (wantStatus : Z) (s : S)
    : WRes RespBody * S :=
  let '(resp, s) := Do (mkRequest method path body) s in
  match resp with
  | inr msg => (WErr (calling method path msg), s)
  | inl r =>
      if decide (r.(resp_status) = wantStatus) then (WOk r.(resp_body), s)
      else (WErr (status_error method path r), s)
  end.
Definition do_status (method : Method) (path : string) (body : option wire) (wantStatus : Z) (s : S)
    : WRes containerResponse * S :=
  let '(got, s) := do_ method path body wantStatus s in
  match got with
  | WErr e => (WErr e, s)
  | WOk b =>
      match Unmarshal (body_json b) with
      | Some status => (WOk status, s)
      | None => (WErr (WorkerFailed ("decoding worker response for " +:+ Method_text method
                                     +:+ " " +:+ path)), s)
      end
  end.

Definition Client_CreateContainer (req : CreateContainerRequest) : S → WRes containerResponse * S :=
  do_status POST "/v1/containers" (Some (Some (to_json req))) 201.
Definition Client_ContainerStatus (id : string) : S → WRes containerResponse * S :=
  do_status GET ("/v1/containers/" +:+ id) None 200.
Definition Client_StopContainer (id : string) (timeoutSeconds : Z) : S → WRes containerResponse * S :=
  do_status POST ("/v1/containers/" +:+ id +:+ "/stop")
    (Some (Some (JObject [("timeout_seconds", to_json timeoutSeconds)]))) 200.
Definition Client_RemoveContainer (id : string) (s : S) : WRes unit * S :=
  let '(got, s) := do_ DELETE ("/v1/containers/" +:+ id) None 204 s in
  match got with WOk _ => (WOk tt, s) | WErr e => (WErr e, s) end.
Definition Client_StreamLogs (id : string) (follow : bool) (s : S) : WRes RespBody * S :=
  do_ GET ("/v1/containers/" +:+ id +:+ "/logs" +:+ (if follow then "?follow=true" else "")) None 200 s.
End client.

(** What one side writes the other reads. *)
Section bodies.
Context `{TimeText}.
Lemma status_roundtrip (m : containerResponse) :
  int64_ok m.(containerResponse_ExitCode) = true → Unmarshal (Some (to_json m)) = Some m.
Proof.
  destruct m as [i st x t]; simpl; intros Hx.
  unfold Unmarshal, to_json, to_json_containerResponse, into, into_containerResponse. simpl. by wire_fields.
Qed.
Lemma envelope_roundtrip (m : errorBody) :
  Unmarshal (Some (JObject [("error", to_json m)])) = Some (Build_workerErrorEnvelope m).
Proof. by destruct m. Qed.
Definition create_request (m : CreateContainerRequest) : createContainerRequest :=
  Build_createContainerRequest m.(CreateContainerRequest_Image) m.(CreateContainerRequest_Name)
    m.(CreateContainerRequest_Env) m.(CreateContainerRequest_Ports) [].
Lemma create_roundtrip (m : CreateContainerRequest) :
  Forall PortSpec_ok m.(CreateContainerRequest_Ports) →
  Unmarshal (Some (to_json m)) = Some (create_request m).
Proof.
  destruct m as [i n v p]; simpl; intros Hp.
  unfold Unmarshal, to_json, to_json_CreateContainerRequest, into, into_createContainerRequest. simpl.
  wire_fields; rewrite ?into_ports by done; done.
Qed.
Lemma stop_roundtrip n :
  int64_ok n = true →
  Unmarshal (Some (JObject [("timeout_seconds", to_json n)])) = Some (Build_stopRequest n).
Proof.
  intros Hn. unfold Unmarshal, into, into_stopRequest. simpl. by wire_fields.
Qed.
End bodies.

(** ** Paths *)

(** An id that needs no escaping in a path. *)
Definition url_plain (c : ascii) : Prop := c ≠ "/"%char ∧ c ≠ "?"%char.
Definition plain_id (id : string) : Prop :=
  id ≠ "" ∧ Forall url_plain (String.list_ascii_of_string id).
#[export] Instance plain_id_dec id : Decision (plain_id id).
Proof. unfold plain_id, url_plain. apply _. Defined.

Lemma plain_no_slash id : plain_id id → Forall (λ c, c ≠ "/"%char) (String.list_ascii_of_string id).
Proof. intros [_ H]. eapply Forall_impl; [exact H|]. by intros c [? _]. Qed.
Lemma plain_no_mark id : plain_id id → Forall (λ c, c ≠ "?"%char) (String.list_ascii_of_string id).
Proof. intros [_ H]. eapply Forall_impl; [exact H|]. by intros c [_ ?]. Qed.

(** ** The worker at the other end *)

(** What becomes of a request: it is answered, it never arrives, or its answer
    is lost. *)
Inductive Net := Delivered | Refused (msg : string) | Cut (msg : string).

Section worker.
Context `{TimeText} {RT : Type} `{!ContainerRuntime RT}.

Definition worker (net : Net) (writes : list bool) (q : Request) (s : RT) : (Response + string) * RT :=
  match net with
  | Refused msg => (inr msg, s)
  | Delivered => let '(r, s) := Routes writes q s in (inl r, s)
  | Cut msg => let '(_, s) := Routes writes q s in (inr msg, s)
  end.

(** Paths below the collection. *)
Lemma cut_below x : cut_on "?"%char ("/v1/containers/" +:+ x)
  = (let '(a, b) := cut_on "?"%char x in ("/v1/containers/" +:+ a, b)).
Proof. apply cut_on_app. by repeat constructor. Qed.
Lemma split_below x :
  split_on "/"%char ("/v1/containers/" +:+ x) = ["" ; "v1" ; "containers"] ++ split_on "/"%char x.
Proof. reflexivity. Qed.

Section routes.
Context (writes : list bool) (id : string) (s : RT) (Hid : plain_id id).
Ltac path :=
  unfold endpoint; rewrite ?split_below, ?split_on_app, ?split_on_plain by (by apply plain_no_slash);
  simpl; destruct Hid; by rewrite decide_False.
Lemma endpoint_one : endpoint ("/v1/containers/" +:+ id) = OneContainer id.
Proof. path. Qed.
Lemma endpoint_stop : endpoint ("/v1/containers/" +:+ id +:+ "/stop") = StopOf id.
Proof. path. Qed.
Lemma endpoint_logs : endpoint ("/v1/containers/" +:+ id +:+ "/logs") = LogsOf id.
Proof. path. Qed.
Ltac route lem :=
  unfold Routes; simpl req_url; rewrite cut_below, ?cut_on_app, ?cut_on_plain by (by apply plain_no_mark);
  simpl; rewrite lem; done.
Lemma Routes_one (m : Method) body :
  Routes writes (mkRequest m ("/v1/containers/" +:+ id) body) s
  = match m with
    | GET => handleStatus id s
    | DELETE => handleRemove id s
    | _ => (mkResponse 405 (BodyText "Method Not Allowed"), s)
    end.
Proof. route endpoint_one. Qed.
Lemma Routes_stop body :
  Routes writes (mkRequest POST ("/v1/containers/" +:+ id +:+ "/stop") body) s = handleStop id body s.
Proof. route endpoint_stop. Qed.
Lemma Routes_logs (follow : bool) :
  Routes writes (mkRequest GET ("/v1/containers/" +:+ id +:+ "/logs"
                                +:+ (if follow then "?follow=true" else "")) None) s
  = handleLogs id (if follow then Some "follow=true" else None) writes s.
Proof. destruct follow; route endpoint_logs. Qed.
End routes.

(** ** What the client gets *)

(** What the client is told of a delivered exchange, when the exchange may
    fail on its way; and the state it leaves. *)
Definition outcome {A} (net : Net) (m : Method) (path : string) (r : WRes A) : WRes A :=
  match net with Delivered => r | Refused msg | Cut msg => WErr (calling m path msg) end.
Definition after (net : Net) (s s' : RT) : RT := match net with Refused _ => s | _ => s' end.
(** An engine's failure, seen through the worker. *)
Definition engine_error (m : Method) (path action id : string) (e : RtError) : ClientError :=
  if e.(rt_not_found) then WorkerNotFound
  else WorkerFailed (called m path +:+ (action +:+ " container " +:+ id +:+ ": " +:+ e.(rt_text)) +:+ " (runtime_error)").
Definition told {A B} (f : A → B) (err : RtError → ClientError) (r : RtRes A) : WRes B :=
  match r with RtOk a => WOk (f a) | RtErr e => WErr (err e) end.

(** What the client makes of a response. *)
Definition read_raw (m : Method) (path : string) (want : Z) (r : Response) : WRes RespBody :=
  if decide (r.(resp_status) = want) then WOk r.(resp_body) else WErr (status_error m path r).
Definition read_status (m : Method) (path : string) (want : Z) (r : Response) : WRes containerResponse :=
  match read_raw m path want r with
  | WErr e => WErr e
  | WOk b => match Unmarshal (body_json b) with
             | Some status => WOk status
             | None => WErr (WorkerFailed ("decoding worker response for " +:+ Method_text m +:+ " " +:+ path))
             end
  end.
Lemma do_worker net writes m path body want s :
  do_ (worker net writes) m path body want s
  = (let '(r, s') := Routes writes (mkRequest m path body) s in
     (outcome net m path (read_raw m path want r), after net s s')).
Proof.
  unfold do_, worker, read_raw. destruct net, (Routes writes (mkRequest m path body) s) as [r s']; simpl; [|done..].
  by destruct (decide (resp_status r = want)).
Qed.
Lemma do_status_worker net writes m path body want s :
  do_status (worker net writes) m path body want s
  = (let '(r, s') := Routes writes (mkRequest m path body) s in
     (outcome net m path (read_status m path want r), after net s s')).
Proof.
  unfold do_status. rewrite do_worker. destruct (Routes writes (mkRequest m path body) s) as [r s'].
  unfold read_status. destruct net; simpl; [|done..].
  destruct (read_raw m path want r); [|done]. by destruct (Unmarshal _).
Qed.

Lemma read_told m path want info :
  int64_ok info.(Info_ExitCode) = true →
  read_status m path want (writeJSON want (to_json (toContainerResponse info)))
  = WOk (toContainerResponse info).
Proof.
  intros Hx. unfold read_status, read_raw, writeJSON. cbn [resp_status resp_body].
  rewrite decide_True by done. cbn [body_json]. by rewrite status_roundtrip.
Qed.
Lemma status_error_envelope m path status code msg :
  status ≠ 404 → msg ≠ "" →
  status_error m path (writeError status code msg)
  = WorkerFailed (called m path +:+ msg +:+ " (" +:+ code +:+ ")").
Proof.
  intros Hs Hm. unfold status_error, writeError, writeJSON. cbn [resp_body resp_status body_json].
  rewrite envelope_roundtrip, decide_False by done. cbn [envelope_Error errorBody_Message errorBody_Code default].
  by rewrite decide_True.
Qed.
Lemma read_raw_error m path want action id e :
  action ≠ "" → want ≠ 404 → want ≠ 502 →
  read_raw m path want (writeRuntimeError action id e) = WErr (engine_error m path action id e).
Proof.
  intros Ha H4 H5. unfold read_raw, writeRuntimeError, engine_error. destruct (rt_not_found e).
  - by rewrite decide_False by (simpl; congruence).
  - rewrite decide_False by (simpl; congruence). rewrite status_error_envelope; [|done|by destruct action].
    done.
Qed.
Lemma read_status_error m path want action id e :
  action ≠ "" → want ≠ 404 → want ≠ 502 →
  read_status m path want (writeRuntimeError action id e) = WErr (engine_error m path action id e).
Proof. intros. unfold read_status. by rewrite read_raw_error. Qed.

(** What the engine says of a container fits the machine. *)
Hypothesis exit_codes : ∀ id s info s', ContainerStatus_ id s = (RtOk info, s') → int64_ok info.(Info_ExitCode) = true.

Definition engine_status (net : Net) (id : string) (s : RT) : WRes containerResponse * RT :=
  let path := "/v1/containers/" +:+ id in
  let '(r, s') := ContainerStatus_ id s in
  (outcome net GET path (told toContainerResponse (engine_error GET path "inspecting" id) r),
   after net s s').
Lemma client_status net writes id s :
  plain_id id → Client_ContainerStatus (worker net writes) id s = engine_status net id s.
Proof.
  intros Hid. unfold Client_ContainerStatus, engine_status. rewrite do_status_worker, Routes_one by done.
  unfold handleStatus. destruct (ContainerStatus_ id s) as [[info|e] s'] eqn:E.
  - by rewrite read_told by (by eapply exit_codes).
  - by rewrite read_status_error.
Qed.
(** The grace period the worker gives. *)
Definition grace (timeoutSeconds : Z) : time :=
  if decide (0 < timeoutSeconds) then wrap64 (timeoutSeconds * Second) else 10 * Second.
Definition engine_stop (net : Net) (id : string) (n : Z) (s : RT) : WRes containerResponse * RT :=
  let path := "/v1/containers/" +:+ id +:+ "/stop" in
  let '(stopped, s1) := StopContainer id (grace n) s in
  match stopped with
  | RtErr e => (outcome net POST path (WErr (engine_error POST path "stopping" id e)), after net s s1)
  | RtOk _ =>
      let '(r, s2) := ContainerStatus_ id s1 in
      (outcome net POST path (told toContainerResponse (engine_error POST path "inspecting" id) r),
       after net s s2)
  end.
Lemma client_stop net writes id n s :
  plain_id id → int64_ok n = true →
  Client_StopContainer (worker net writes) id n s = engine_stop net id n s.
Proof.
  intros Hid Hn. unfold Client_StopContainer, engine_stop. rewrite do_status_worker, Routes_stop by done.
  unfold handleStop, stop_timeout. rewrite stop_roundtrip by done. simpl. fold (grace n).
  destruct (StopContainer id (grace n) s) as [[[]|e] s1]; [|by rewrite read_status_error].
  destruct (ContainerStatus_ id s1) as [[info|e] s2] eqn:E.
  - by rewrite read_told by (by eapply exit_codes).
  - by rewrite read_status_error.
Qed.
Definition engine_remove (net : Net) (id : string) (s : RT) : WRes unit * RT :=
  let path := "/v1/containers/" +:+ id in
  let '(r, s') := RemoveContainer id s in
  (outcome net DELETE path (told (λ _, tt) (engine_error DELETE path "removing" id) r), after net s s').
Lemma client_remove net writes id s :
  plain_id id → Client_RemoveContainer (worker net writes) id s = engine_remove net id s.
Proof.
  intros Hid. unfold Client_RemoveContainer, engine_remove. rewrite do_worker, Routes_one by done.
  unfold handleRemove. destruct (RemoveContainer id s) as [[[]|e] s'].
  - by destruct net.
  - rewrite read_raw_error by done. by destruct net.
Qed.
Definition engine_logs (net : Net) (writes : list bool) (id : string) (follow : bool) (s : RT)
    : WRes RespBody * RT :=
  let path := "/v1/containers/" +:+ id +:+ "/logs" +:+ (if follow then "?follow=true" else "") in
  let '(r, s') := StreamLogs id follow s in
  (outcome net GET path (told (λ reads, BodyLog (copy_logs reads writes).1)
                           (engine_error GET path "streaming logs for" id) r), after net s s').
Lemma client_logs net writes id (follow : bool) s :
  plain_id id → Client_StreamLogs (worker net writes) id follow s = engine_logs net writes id follow s.
Proof.
  intros Hid. unfold Client_StreamLogs, engine_logs. rewrite do_worker, Routes_logs by done. unfold handleLogs.
  replace (bool_decide (query_get "follow" (if follow then Some "follow=true" else None) = "true"))
    with follow by (by destruct follow).
  destruct (StreamLogs id follow s) as [[reads|e] s']; [done|]. by rewrite read_raw_error.
Qed.
(** Pulling, creating, starting, inspecting: what the node agent does with an
    assignment. *)
Definition launch (spec : ContainerSpec) : RT → RtRes ContainerStatusInfo * RT :=
  rt_bind (rt_wrap ("pulling image " +:+ spec.(Spec_Image)) (PullImage spec.(Spec_Image)))
  (λ _, rt_bind (rt_wrap "creating container" (CreateContainer spec))
  (λ id, rt_bind (rt_wrap ("starting container " +:+ id) (StartContainer id))
  (λ _, rt_wrap ("inspecting container " +:+ id) (ContainerStatus_ id)))).
Definition spec_of (req : CreateContainerRequest) : ContainerSpec :=
  mkSpec req.(CreateContainerRequest_Image) req.(CreateContainerRequest_Name)
    req.(CreateContainerRequest_Env) req.(CreateContainerRequest_Ports) [].
(** The stage a creation failed at. *)
Inductive Stage := PullFailed | CreateFailed | StartFailed | StatusFailed.
Definition Stage_code (st : Stage) : string :=
  match st with
  | PullFailed => "pull_failed" | CreateFailed => "create_failed"
  | StartFailed => "start_failed" | StatusFailed => "status_failed"
  end.
Definition create_path : string := "/v1/containers".
Definition engine_create (net : Net) (stage : Stage) (req : CreateContainerRequest) (s : RT)
    : WRes containerResponse * RT :=
  if decide (req.(CreateContainerRequest_Image) = "")
  then (outcome net POST create_path
          (WErr (WorkerFailed (called POST create_path +:+ "image is required" +:+ " (" +:+ "missing_field" +:+ ")"))), s)
  else
    let '(r, s') := launch (spec_of req) s in
    (outcome net POST create_path
       (told toContainerResponse
          (λ e, WorkerFailed (called POST create_path +:+ e.(rt_text) +:+ " (" +:+ Stage_code stage +:+ ")")) r),
     after net s s').
Lemma read_status_envelope m path want status code msg :
  status ≠ want → status ≠ 404 → msg ≠ "" →
  read_status m path want (writeError status code msg)
  = WErr (WorkerFailed (called m path +:+ msg +:+ " (" +:+ code +:+ ")")).
Proof.
  intros. unfold read_status, read_raw. rewrite decide_False by done.
  by rewrite status_error_envelope.
Qed.
Lemma client_create net writes req s :
  Forall PortSpec_ok req.(CreateContainerRequest_Ports) →
  ∃ stage, Client_CreateContainer (worker net writes) req s = engine_create net stage req s.
Proof.
  intros Hp. unfold Client_CreateContainer, engine_create. setoid_rewrite do_status_worker.
  change (Routes writes (mkRequest POST "/v1/containers" (Some (Some (to_json req)))) s)
    with (handleCreate (Some (to_json req)) s).
  unfold handleCreate. rewrite create_roundtrip by done. cbn [createContainerRequest_Image create_request].
  case_decide as Hi; [exists PullFailed; by rewrite read_status_envelope; [destruct net|..]|].
  unfold launch, rt_bind, rt_wrap. cbn [Spec_Image spec_of].
  destruct (PullImage _ s) as [[[]|e] s1]; [|exists PullFailed; by rewrite read_status_envelope; simpl; rewrite ?append_assoc].
  change (mkSpec _ _ _ _ _) with (spec_of req).
  destruct (CreateContainer _ s1) as [[id|e] s2]; [|exists CreateFailed; by rewrite read_status_envelope; simpl; rewrite ?append_assoc].
  destruct (StartContainer id s2) as [[[]|e] s3]; [|exists StartFailed; by rewrite read_status_envelope; simpl; rewrite ?append_assoc].
  destruct (ContainerStatus_ id s3) as [[info|e] s4] eqn:E; [|exists StatusFailed; by rewrite read_status_envelope; simpl; rewrite ?append_assoc].
  exists PullFailed. by rewrite read_told by (by eapply exit_codes).
Qed.

(** C23: the API server's client, over a network that may lose a request or an
    answer, does to the container engine exactly what the engine's own
    operations do: each call's answer is the engine's (404 and only 404 is
    [ErrNotFound]; a lost exchange or any other failure is another error), and
    the state it leaves is the engine's own operation's, or untouched when the
    request never arrived; creating a container over HTTP is what the node
    agent does with the same assignment from the bus. *)
Theorem client_refines_engine net writes s :
  (∀ req, Forall PortSpec_ok req.(CreateContainerRequest_Ports) →
     ∃ stage, Client_CreateContainer (worker net writes) req s = engine_create net stage req s)
  ∧ (∀ msg, launch (specOf msg) s = startAssignedContainer msg s)
  ∧ ∀ id, plain_id id →
      Client_ContainerStatus (worker net writes) id s = engine_status net id s
      ∧ Client_RemoveContainer (worker net writes) id s = engine_remove net id s
      ∧ (∀ n, int64_ok n = true → Client_StopContainer (worker net writes) id n s = engine_stop net id n s)
      ∧ ∀ follow, Client_StreamLogs (worker net writes) id follow s = engine_logs net writes id follow s.
Proof.
  split; [by intros; apply client_create|]. split; [done|]. intros id Hid.
  split; [by apply client_status|]. split; [by apply client_remove|].
  split; [intros; by apply client_stop|intros; by apply client_logs].
Qed.
End worker.

(** ** Streaming *)

(** The end of a stream: its first read with an error. *)
Fixpoint until_end (reads : LogReads) : LogReads :=
  match reads with
  | [] => []
  | r :: reads => match r.(read_err) with Some _ => [r] | None => r :: until_end reads end
  end.
Definition is_last (r : LogRead) : bool := match r.(read_err) with Some _ => true | None => false end.
Definition text_of (reads : LogReads) : string := foldr (λ r s, r.(read_data) +:+ s) "" reads.

(** the log a client reads is the container's: with every write going
    through, the copying loop writes exactly the bytes read up to the end of
    the stream, those of the last read included, and returns exactly when the
    stream has ended; whatever write fails, what was written is a prefix. *)
Theorem copy_logs_correct reads :
  copy_logs reads [] = (text_of (until_end reads), existsb is_last reads)
  ∧ ∀ writes, ∃ rest, text_of (until_end reads) = (copy_logs reads writes).1 +:+ rest.
Proof.
  assert (∀ r, text_of [r] = r.(read_data)) as Hone by (intros; apply append_nil_r).
  split.
  - induction reads as [|[d [er|]] reads IH]; [done|..]; simpl; rewrite ?IH, ?append_nil_r;
      case_decide as Hd; try done; by rewrite Hd.
  - induction reads as [|r reads IH]; intros writes; [by exists ""|]. simpl.
    case_decide as Hd.
    + destruct (read_err r); [rewrite Hone, Hd; by exists ""|].
      destruct (IH writes) as [rest Hr]. exists rest. simpl. rewrite Hd. exact Hr.
    + destruct (match head writes with Some false => true | _ => false end) eqn:Hw.
      * destruct (head writes) as [[]|]; try done. by eexists.
      * assert (∀ b1 b2 : string * bool, (if head writes is Some false then b1 else b2) = b2) as Hif
          by (intros; by destruct (head writes) as [[]|]).
        rewrite Hif. destruct (read_err r); [rewrite Hone; exists ""; by rewrite append_nil_r|].
        destruct (IH (tail writes)) as [rest Hr]. exists rest. simpl. rewrite Hr.
        destruct (copy_logs reads (tail writes)). simpl. by rewrite append_assoc.
Qed.

(** ** On the sample *)

#[local] Existing Instances hexTime.
Definition worker_shelf : Shelf := {["c1" := mkInfo "c1" StatusRunning 0 5 []]}.
Lemma shelf_exit_codes id (s : Shelf) info s' :
  ContainerStatus_ id s = (RtOk info, s') → int64_ok info.(Info_ExitCode) = true.
Proof.
  simpl. destruct (s !! id) as [i|]; [|done]. intros [= <- _]. simpl.
  apply bool_decide_eq_true. pose proof (Z.mod_pos_bound (Info_ExitCode i) 256). lia.
Qed.
(** A running container is removed, then asked for; the first answer is lost. *)
Lemma client_refines_engine_witness :
  let '(removed, s1) := Client_RemoveContainer (worker (Cut "timeout") []) "c1" worker_shelf in
  removed = WErr (calling DELETE "/v1/containers/c1" "timeout")
  ∧ (Client_ContainerStatus (worker Delivered []) "c1" s1).1 = WErr WorkerNotFound.
Proof.
  destruct (client_refines_engine shelf_exit_codes (Cut "timeout") [] worker_shelf) as (_ & _ & Hone).
  destruct (Hone "c1") as (_ & -> & _); [by apply (bool_decide_unpack _)|]. vm_compute. done.
Defined.
