(* ===== verification/ImageBuilder.v ===== *)
(** * ImageBuilder: from a repository to an image

    services/image-builder/internal/imagebuilder: the NATS consumer
    (consumer.go), the Docker adapter (docker.go), the clone (git.go) and the
    build context (tar.go).  The host (temporary directories, the git program,
    the files of a clone, the Docker Engine) is a parameter; a failure is the
    text of its error.  Timeouts show as failures of what they cut short. *)
From S2P Require Import Prelude Text Json Schema Effects Outcomes Failures Wire Slug.
From stdpp Require Import base gmap strings list.
From Stdlib Require Import ZArith Lia Ascii.
Open Scope Z_scope.

(** ** tar.go *)

(** A directory tree, as [filepath.Walk] meets it: the entries in the order of
    their names.  A regular file and a symbolic link carry what opening and
    reading them gives, the text or an error (a link to nothing or to a
    directory cannot be read); a directory may refuse to be listed. *)
#[warnings="-register-all"] Inductive Node :=
| File (content : string + string)
| Symlink (target : string + string)
| Directory (entries : list (string * Node))
| UnreadableDir (err : string).

Inductive EntryKind := RegularEntry | SymlinkEntry | DirEntry.
Record TarEntry := mkEntry { entry_name : string; entry_kind : EntryKind; entry_content : string }.

(** [rel == ".git" || strings.HasPrefix(rel, ".git/")] *)
Definition skipped (rel : string) : bool := bool_decide (rel = ".git") || String.prefix ".git/" rel.
(** The path of an entry relative to the root, which itself is [""] here. *)
Definition join (rel name : string) : string := if decide (rel = "") then name else rel +:+ "/" +:+ name.
Definition ErrWriteTooLong : string := "archive/tar: write too long".

Definition sum_bind {A B E} (m : A + E) (k : A → B + E) : B + E :=
  match m with inl a => k a | inr e => inr e end.

(** The header of a link announces no content, so copying any fails. *)
Fixpoint walk (rel : string) (n : Node) : list TarEntry + string :=
  if skipped rel then inl []
  else match n with
  | File content => sum_bind content (λ c, inl [mkEntry rel RegularEntry c])
  | Symlink target => sum_bind target (λ c,
      if decide (c = "") then inl [mkEntry rel SymlinkEntry ""] else inr ErrWriteTooLong)
  | UnreadableDir err => inr err
  | Directory entries =>
      sum_bind ((fix walk_entries (l : list (string * Node)) : list TarEntry + string :=
         match l with
         | [] => inl []
         | (name, n) :: l =>
             sum_bind (walk (join rel name) n) (λ a, sum_bind (walk_entries l) (λ b, inl (a ++ b)))
         end) entries)
      (λ below, inl (if decide (rel = "") then below else mkEntry (rel +:+ "/") DirEntry "" :: below))
  end.
Definition tarDirectory (dir : Node) : list TarEntry + string := walk "" dir.

(** ** docker.go: the response stream *)

(** One object of the stream. *)
Record streamMessage := { streamMessage_Error : string; streamMessage_ErrorDetail : string }.
#[export] Instance streamMessage_zero : Inhabited streamMessage := populate (Build_streamMessage "" "").
Definition errorDetail_fields : fields string := [("message", λ m j, into m j)].
#[export] Instance into_streamMessage : Into streamMessage := decode_struct
  [("error", λ m j, v ← into m.(streamMessage_Error) j;
      Some (Build_streamMessage v m.(streamMessage_ErrorDetail)));
   ("errorDetail", λ m j, v ← decode_struct errorDetail_fields m.(streamMessage_ErrorDetail) j;
      Some (Build_streamMessage m.(streamMessage_Error) v))].

(** The values of the stream in order ([None]: what is there is not JSON, or
    the connection broke); [None] as a result is no error. *)
Fixpoint drainDockerStream (r : list wire) : option string :=
  match r with
  | [] => None
  | v :: r =>
      match Unmarshal (A:=streamMessage) v with
      | None => Some "reading docker response stream"
      | Some msg =>
          if decide (msg.(streamMessage_Error) = "") then drainDockerStream r
          else Some (if decide (msg.(streamMessage_ErrorDetail) = "") then msg.(streamMessage_Error)
                     else msg.(streamMessage_ErrorDetail))
      end
  end.

(** ** The host *)

Class BuildHost (H : Type) := {
  MkdirTemp : H → (string + string) * H;
  RemoveAll : string → H → H;
  (** a command: its combined output, and its error *)
  run_command : list string → H → (string * option string) * H;
  read_tree : string → H → Node;
  ImageBuild : string → list TarEntry → H → (list wire + string) * H;
  ImagePush : string → H → (list wire + string) * H }.

(** imagebuilder.go *)
Record BuildRequest := mkBuildRequest {
  Request_GitURL : string; Request_GitRef : string; Request_ImageRepository : string }.
Record BuildResult := mkBuildResult { Result_CommitSHA : string; Result_Image : string }.

Section builder.
Context {H : Type} `{!BuildHost H}.

(** ** git.go *)

Definition runGit (dir : string) (args : list string) (h : H) : (string * option string) * H :=
  let args := if decide (dir = "") then args else "-C" :: dir :: args in
  let '((out, err), h) := run_command ("git" :: args) h in
  ((TrimSpace out, err), h).

Definition cloneRepo (gitURL gitRef : string) (h : H) : ((string * string) + string) * H :=
  let '(made, h) := MkdirTemp h in
  match made with
  | inr err => (inr ("creating temp clone dir: " +:+ err), h)
  | inl dir =>
      let '((out, err), h) := runGit "" ["clone"; "--depth"; "1"; "--branch"; gitRef; gitURL; dir] h in
      match err with
      | Some err => (inr ("git clone: " +:+ err +:+ ": " +:+ out), RemoveAll dir h)
      | None =>
          let '((sha, err), h) := runGit dir ["rev-parse"; "HEAD"] h in
          match err with
          | Some err => (inr ("git rev-parse HEAD: " +:+ err +:+ ": " +:+ sha), RemoveAll dir h)
          | None => (inl (dir, TrimSpace sha), h)
          end
      end
  end.

(** ** docker.go: Build *)

(** A response to drain: [None] when it went well. *)
Definition drained (step failed : string) (r : (list wire + string) * H) : option string * H :=
  match r with
  | (inr err, h) => (Some (step +:+ ": " +:+ err), h)
  | (inl stream, h) =>
      (match drainDockerStream stream with
       | Some err => Some (failed +:+ ": " +:+ err)
       | None => None
       end, h)
  end.
(** What [Build] does in the clone [dir]. *)
Definition buildIn (dir commitSHA imageRepository : string) (h : H) : (BuildResult + string) * H :=
  let tag := imageRepository +:+ ":" +:+ commitSHA in
  match tarDirectory (read_tree dir h) with
  | inr err => (inr ("preparing build context: " +:+ err), h)
  | inl buildCtx =>
      let '(built, h) := drained "building image" "build failed" (ImageBuild tag buildCtx h) in
      match built with
      | Some err => (inr err, h)
      | None =>
          let '(pushed, h) := drained "pushing image" "push failed" (ImagePush tag h) in
          match pushed with
          | Some err => (inr err, h)
          | None => (inl (mkBuildResult commitSHA tag), h)
          end
      end
  end.
Definition Build (req : BuildRequest) (h : H) : (BuildResult + string) * H :=
  let '(cloned, h) := cloneRepo req.(Request_GitURL) req.(Request_GitRef) h in
  match cloned with
  | inr err => (inr ("cloning " +:+ req.(Request_GitURL) +:+ "@" +:+ req.(Request_GitRef)
                     +:+ ": " +:+ err), h)
  | inl (dir, commitSHA) =>
      let '(r, h) := buildIn dir commitSHA req.(Request_ImageRepository) h in
      (r, RemoveAll dir h)
  end.

(** ** consumer.go *)

(** The process: the bus and the log it writes to, and its host. *)
Record Builder := mkBuilder { b_world : World; b_host : H }.

Definition completedMessage (msg : buildRequestedMessage) (r : BuildResult + string)
    : buildCompletedMessage :=
  match r with
  | inr err => Build_buildCompletedMessage msg.(buildRequestedMessage_BuildID)
                 msg.(buildRequestedMessage_OrgID) "failed" "" "" err
  | inl result => Build_buildCompletedMessage msg.(buildRequestedMessage_BuildID)
                 msg.(buildRequestedMessage_OrgID) "succeeded" result.(Result_CommitSHA)
                 result.(Result_Image) ""
  end.
Definition handleBuildRequested (data : wire) (b : Builder) : Builder :=
  match Unmarshal data with
  | None => mkBuilder (logf "decoding build.requested message" b.(b_world)).2 b.(b_host)
  | Some msg =>
      let '(r, h) := Build (mkBuildRequest msg.(buildRequestedMessage_GitURL)
                        msg.(buildRequestedMessage_GitRef)
                        msg.(buildRequestedMessage_ImageRepository)) b.(b_host) in
      let w := (logf (match r with inr _ => "build failed" | inl _ => "build succeeded" end)
                  b.(b_world)).2 in
      let publish := sent ← try (PublishDurable BuildCompletedSubject (to_json (completedMessage msg r)));
                     match sent with
                     | Err _ => logf "publishing build.completed"
                     | Ok _ => mret tt
                     end in
      mkBuilder (publish w).2 h
  end.
End builder.
Arguments Builder H : clear implicits.
Arguments mkBuilder {H} _ _.
Arguments b_world {H} _.
Arguments b_host {H} _.

(** ** The build context *)

(** The node at a path of a tree. *)
Inductive reaches : Node → list string → Node → Prop :=
| reaches_here n : reaches n [] n
| reaches_below entries name n p m :
    (name, n) ∈ entries → reaches n p m → reaches (Directory entries) (name :: p) m.
(** A name: not empty, no slash. *)
Definition good_name (s : string) : Prop :=
  s ≠ "" ∧ Forall (λ c, c ≠ "/"%char) (String.list_ascii_of_string s).
Definition names_ok (n : Node) : Prop := ∀ p m, reaches n p m → Forall good_name p.
Fixpoint path_text (p : list string) : string :=
  match p with [] => "" | [name] => name | name :: p => name +:+ "/" +:+ path_text p end.
(** In the [.git] of the root. *)
Definition in_git (p : list string) : Prop := head p = Some ".git".
(** The entry of a node, or why it has none. *)
Definition entry_of (rel : string) (n : Node) : TarEntry + string :=
  match n with
  | File (inl c) => inl (mkEntry rel RegularEntry c)
  | Symlink (inl c) => if decide (c = "") then inl (mkEntry rel SymlinkEntry "") else inr ErrWriteTooLong
  | File (inr err) | Symlink (inr err) | UnreadableDir err => inr err
  | Directory _ => inl (mkEntry (rel +:+ "/") DirEntry "")
  end.

Lemma Node_induction (P : Node → Prop) :
  (∀ c, P (File c)) → (∀ t, P (Symlink t)) → (∀ err, P (UnreadableDir err)) →
  (∀ entries, Forall (λ e, P e.2) entries → P (Directory entries)) → ∀ n, P n.
Proof.
  intros Hf Hs Hu Hd. fix IH 1. intros [c|t|entries|err]; [apply Hf|apply Hs| |apply Hu].
  apply Hd. induction entries as [|[name n] entries IHl]; constructor; [apply IH|exact IHl].
Qed.

Lemma path_text_snoc p name :
  Forall good_name p → path_text (p ++ [name]) = join (path_text p) name.
Proof.
  unfold join. intros Hp. destruct p as [|x p]; [done|].
  assert (path_text (x :: p) ≠ "") as Hne.
  { apply Forall_cons in Hp as [[Hx _] _]. destruct p; [done|]. by destruct x. }
  rewrite decide_False by done. clear Hne Hp. revert x. induction p as [|y p IH]; intros x; [done|].
  change (x +:+ "/" +:+ path_text ((y :: p) ++ [name]) = (x +:+ "/" +:+ path_text (y :: p)) +:+ "/" +:+ name).
  by rewrite IH, !append_assoc.
Qed.
Lemma split_path_text p :
  p ≠ [] → Forall good_name p → split_on "/"%char (path_text p) = p.
Proof.
  induction p as [|x p IH]; [done|]. intros _ [[_ Hx] Hp]%Forall_cons.
  destruct p as [|y p]; [by apply split_on_plain|].
  change (path_text (x :: y :: p)) with (x +:+ String "/" (path_text (y :: p))).
  rewrite split_on_app by done. by rewrite IH.
Qed.
Lemma prefix_app pre s : String.prefix pre s = true → ∃ t, s = pre +:+ t.
Proof.
  revert s. induction pre as [|c pre IH]; intros s; [by exists s|]. destruct s as [|c' s]; [done|].
  simpl. destruct (Ascii.ascii_dec c c') as [<-|]; [|done]. intros [t ->]%IH. by exists t.
Qed.
Lemma prefix_self pre t : String.prefix pre (pre +:+ t) = true.
Proof.
  induction pre as [|c pre IH]; [by destruct t|].
  change (String.prefix (String c pre) (String c (pre +:+ t)) = true). simpl.
  by destruct (Ascii.ascii_dec c c).
Qed.
Lemma skipped_spec p :
  Forall good_name p → skipped (path_text p) = true ↔ in_git p.
Proof.
  intros Hp. unfold in_git. destruct p as [|x p]; [by split|].
  pose proof (split_path_text (x :: p) ltac:(done) Hp) as Hs. unfold skipped.
  rewrite orb_true_iff, bool_decide_eq_true. simpl head. split.
  - intros [Hg|(t & Hg)%prefix_app]; rewrite Hg in Hs.
    + by injection Hs as <-.
    + change (".git/" +:+ t) with (".git" +:+ String "/" t) in Hs.
      rewrite split_on_app in Hs by (by repeat constructor). by injection Hs as <-.
  - intros [= ->]. destruct p as [|y p]; [by left|right].
    apply (prefix_self ".git/" (path_text (y :: p))).
Qed.

Fixpoint walk_entries (rel : string) (l : list (string * Node)) : list TarEntry + string :=
  match l with
  | [] => inl []
  | (name, n) :: l =>
      sum_bind (walk (join rel name) n) (λ a, sum_bind (walk_entries rel l) (λ b, inl (a ++ b)))
  end.
Lemma walk_directory rel entries :
  walk rel (Directory entries)
  = if skipped rel then inl []
    else sum_bind (walk_entries rel entries)
           (λ below, inl (if decide (rel = "") then below else mkEntry (rel +:+ "/") DirEntry "" :: below)).
Proof.
  simpl. destruct (skipped rel); [done|]. f_equal.
  induction entries as [|[name n] l IH]; [done|]. simpl. destruct (walk (join rel name) n); [|done].
  simpl. by rewrite IH.
Qed.
Lemma in_git_app p q : p ≠ [] → in_git (p ++ q) ↔ in_git p.
Proof. by destruct p. Qed.

(** What walking the part of the tree that [at_] reaches gives: the entries
    of what is there outside [.git], or why one has none. *)
Definition walked (at_ : list string → Node → Prop) (r : list TarEntry + string) : Prop :=
  match r with
  | inl es =>
      (∀ e, e ∈ es ↔ ∃ p m, at_ p m ∧ ¬ in_git p ∧ entry_of (path_text p) m = inl e)
      ∧ ∀ p m, at_ p m → ¬ in_git p → ∃ e, entry_of (path_text p) m = inl e
  | inr err => ∃ p m, at_ p m ∧ ¬ in_git p ∧ entry_of (path_text p) m = inr err
  end.
Lemma walked_proper (P Q : list string → Node → Prop) r :
  (∀ p m, P p m ↔ Q p m) → walked P r → walked Q r.
Proof.
  intros HPQ. destruct r as [es|err]; simpl.
  - intros [He Ht]. split; [|intros p m HQ; apply Ht; by apply HPQ].
    intros e. rewrite He. by setoid_rewrite HPQ.
  - by setoid_rewrite HPQ.
Qed.
(** Nothing outside [.git] is there. *)
Lemma walked_none (P : list string → Node → Prop) :
  (∀ p m, P p m → in_git p) → walked P (inl []).
Proof.
  intros HP. split; [|intros p m Hp Hn; by destruct Hn; eapply HP].
  intros e. split; [by intros ?%not_elem_of_nil|]. intros (p & m & Hp & Hn & _). by destruct Hn; eapply HP.
Qed.
(** One part, then another. *)
Lemma walked_app (P Q : list string → Node → Prop) r1 r2 :
  walked P r1 → walked Q r2 →
  walked (λ p m, P p m ∨ Q p m) (sum_bind r1 (λ a, sum_bind r2 (λ b, inl (a ++ b)))).
Proof.
  destruct r1 as [a|err]; simpl; [|naive_solver]. destruct r2 as [b|err]; simpl; [|naive_solver].
  intros [Ha Ta] [Hb Tb]. split; [|naive_solver]. intros e. rewrite elem_of_app, Ha, Hb. naive_solver.
Qed.
(** One node. *)
Lemma walked_one (P : list string → Node → Prop) p n :
  (∀ q m, P q m ↔ q = p ∧ m = n) → ¬ in_git p →
  walked P (sum_bind (entry_of (path_text p) n) (λ e, inl [e])).
Proof.
  intros HP Hp. destruct (entry_of (path_text p) n) as [e|err] eqn:E; simpl.
  - split; [|intros q m [-> ->]%HP _; by exists e]. intros e'. rewrite list_elem_of_singleton. split.
    + intros ->. exists p, n. split; [by apply HP|]. done.
    + intros (q & m & [-> ->]%HP & _ & He). congruence.
  - exists p, n. split; [by apply HP|]. done.
Qed.

Lemma path_text_nil p : Forall good_name p → path_text p = "" ↔ p = [].
Proof.
  intros Hp. split; [|by intros ->]. destruct p as [|x p]; [done|].
  apply Forall_cons in Hp as [[Hx _] _]. destruct p; [done|]. by destruct x.
Qed.
Lemma reaches_leaf n p m : (∀ es, n ≠ Directory es) → reaches n p m ↔ p = [] ∧ m = n.
Proof.
  intros Hn. split; [|intros [-> ->]; constructor]. inversion 1; subst; [done|].
  by destruct (Hn entries).
Qed.

(** What is below the directory at [p0]. *)
Definition below_entries (p0 : list string) (l : list (string * Node)) (q : list string) (m : Node) : Prop :=
  ∃ name n p, (name, n) ∈ l ∧ q = p0 ++ name :: p ∧ reaches n p m.
Definition at_or_below (p0 : list string) (n : Node) (q : list string) (m : Node) : Prop :=
  q ≠ [] ∧ ∃ p, q = p0 ++ p ∧ reaches n p m.
Lemma walk_skip p0 n :
  Forall good_name p0 → in_git p0 → walked (at_or_below p0 n) (walk (path_text p0) n).
Proof.
  intros Hp Hg. pose proof (proj2 (skipped_spec p0 Hp) Hg) as Hs.
  replace (walk (path_text p0) n) with (inl [] : list TarEntry + string)
    by (destruct n; simpl; by rewrite Hs).
  apply walked_none. intros q m (_ & p & -> & _). by apply in_git_app; [destruct p0|].
Qed.
Lemma walk_entries_walked p0 l :
  Forall (λ e, ∀ q0, Forall good_name q0 → (∀ p m, reaches e.2 p m → Forall good_name p) → q0 ≠ [] →
               walked (at_or_below q0 e.2) (walk (path_text q0) e.2)) l →
  Forall good_name p0 → (∀ q m, below_entries [] l q m → Forall good_name q) →
  walked (below_entries p0 l) (walk_entries (path_text p0) l).
Proof.
  intros Hl Hp0. induction Hl as [|[name n] l Hn Hl IH]; intros Hok.
  { apply walked_none. by intros q m (? & ? & ? & ?%not_elem_of_nil & _). }
  simpl in *. assert (Forall good_name (p0 ++ [name])) as Hsnoc.
  { apply Forall_app. split; [done|]. apply (Hok [name] n). exists name, n, [].
    split; [left|]. split; [done|constructor]. }
  eapply (walked_proper (λ q m, at_or_below (p0 ++ [name]) n q m ∨ below_entries p0 l q m)).
  2:{ rewrite <-path_text_snoc by done. apply walked_app.
      - apply Hn; [done| |by destruct p0]. intros p m Hr.
        assert (Forall good_name (name :: p)) as [_ ?]%Forall_cons; [|done].
        apply (Hok (name :: p) m). exists name, n, p. split; [left|]. done.
      - apply IH. intros q m (x & y & p & Hin & -> & Hr). apply (Hok _ m). exists x, y, p.
        split; [by right|]. done. }
  intros q m. unfold at_or_below, below_entries. split.
  - intros [(Hq & p & -> & Hr)|(x & y & p & Hin & -> & Hr)].
    + exists name, n, p. split; [left|]. split; [by rewrite <-app_assoc|done].
    + exists x, y, p. split; [by right|]. done.
  - intros (x & y & p & [[= -> ->]|Hin]%elem_of_cons & -> & Hr).
    + left. split; [by destruct p0|]. exists p. split; [by rewrite <-app_assoc|done].
    + right. by exists x, y, p.
Qed.
Lemma not_skipped p : Forall good_name p → ¬ in_git p → skipped (path_text p) = false.
Proof. intros Hp Hg. apply not_true_is_false. by rewrite skipped_spec. Qed.
Lemma walk_leaf n p0 :
  Forall good_name p0 → ¬ in_git p0 → p0 ≠ [] → (∀ es, n ≠ Directory es) →
  walked (at_or_below p0 n) (walk (path_text p0) n).
Proof.
  intros Hp0 Hg Hne Hn.
  replace (walk (path_text p0) n) with (sum_bind (entry_of (path_text p0) n) (λ e, inl [e]) : list TarEntry + string).
  - apply walked_one; [|done]. intros q m. unfold at_or_below. setoid_rewrite reaches_leaf; [|done].
    split; [intros (_ & p & -> & -> & ->); by rewrite app_nil_r|].
    intros [-> ->]. split; [done|]. exists []. by rewrite app_nil_r.
  - destruct n as [c|t|es|err]; [| |by destruct (Hn es)|]; simpl; rewrite not_skipped by done;
      [by destruct c|destruct t as [t|err]; [simpl; by case_decide|done]|done].
Qed.
Lemma walk_walked n p0 :
  Forall good_name p0 → (∀ p m, reaches n p m → Forall good_name p) →
  (p0 = [] → ∃ es, n = Directory es) →
  walked (at_or_below p0 n) (walk (path_text p0) n).
Proof.
  revert p0. induction n as [c|t|err|entries IH] using Node_induction; intros p0 Hp0 Hok Hroot;
    (destruct (decide (in_git p0)) as [Hg|Hg]; [by apply walk_skip|]);
    try (apply walk_leaf; [done|done|by intros Hr; destruct (Hroot Hr)|done]).
  assert (∀ q m, below_entries [] entries q m → Forall good_name q) as Hbelow.
  { intros q m (name & n & p & Hin & -> & Hr). apply (Hok (name :: p) m). by econstructor. }
  assert (walked (below_entries p0 entries) (walk_entries (path_text p0) entries)) as Hw.
  { apply walk_entries_walked; [|done..]. eapply Forall_impl; [exact IH|]. simpl.
    intros [name n] Hn q0 Hq0 Hok' Hne. by apply Hn. }
  assert (∀ q m, at_or_below p0 (Directory entries) q m ↔
    (q = p0 ∧ m = Directory entries ∧ p0 ≠ []) ∨ below_entries p0 entries q m) as Hsplit.
  { intros q m. unfold at_or_below, below_entries. split.
    - intros (Hq & p & -> & Hr). inversion Hr; subst.
      + left. rewrite app_nil_r in *. done.
      + right. by eexists _, _, _.
    - intros [(-> & -> & Hne)|(name & n & p & Hin & -> & Hr)].
      + split; [done|]. exists []. rewrite app_nil_r. split; [done|constructor].
      + split; [by destruct p0|]. exists (name :: p). split; [done|]. by econstructor. }
  rewrite walk_directory, not_skipped by done.
  eapply walked_proper; [intros q m; symmetry; apply Hsplit|].
  destruct (decide (p0 = [])) as [->|Hne].
  - eapply walked_proper; [|by destruct (walk_entries (path_text []) entries); exact Hw].
    intros q m. naive_solver.
  - set (r := sum_bind _ _).
    replace r with (sum_bind (sum_bind (entry_of (path_text p0) (Directory entries)) (λ e, inl [e]))
      (λ a, sum_bind (walk_entries (path_text p0) entries) (λ b, inl (a ++ b)))
      : list TarEntry + string).
    2:{ unfold r. simpl. destruct (walk_entries (path_text p0) entries); [|done]. simpl.
        by rewrite decide_False by (by rewrite path_text_nil). }
    apply walked_app; [|done]. apply walked_one; [|done]. naive_solver.
Qed.

(** C25: the build context.  [tarDirectory] of a clone gives exactly one entry
    kind and content for each file, link and directory of the tree, under its
    path, leaving out [.git] at the root and nothing else; and it fails only
    when one of these cannot be read, or is a link to a file that is not
    empty. *)
Theorem tarDirectory_correct entries :
  names_ok (Directory entries) →
  walked (λ p m, p ≠ [] ∧ reaches (Directory entries) p m) (tarDirectory (Directory entries)).
Proof.
  intros Hok. eapply walked_proper; [|apply (walk_walked (Directory entries) []); [done|exact Hok|eauto]].
  intros p m. unfold at_or_below. simpl. naive_solver.
Qed.

(** ** A build *)

Lemma drain_none r :
  drainDockerStream r = None ↔
  Forall (λ v, ∃ msg, Unmarshal (A:=streamMessage) v = Some msg ∧ msg.(streamMessage_Error) = "") r.
Proof.
  induction r as [|v r IH]; [by split|]. simpl. rewrite Forall_cons, <-IH.
  destruct (Unmarshal v) as [msg|]; [|naive_solver]. case_decide; naive_solver.
Qed.

Section build.
Context {H : Type} `{!BuildHost H}.
(** The temporary directories of the host: only [MkdirTemp] makes one, one
    that was not there and has a name, and only [RemoveAll] removes one. *)
Context (temp : H → gset string).
Hypothesis temp_Mkdir : ∀ h, match MkdirTemp h with
  | (inl d, h') => d ∉ temp h ∧ d ≠ "" ∧ temp h' = {[d]} ∪ temp h
  | (inr _, h') => temp h' = temp h
  end.
Hypothesis temp_Remove : ∀ d h, temp (RemoveAll d h) = temp h ∖ {[d]}.
Hypothesis temp_run : ∀ c h, temp (run_command c h).2 = temp h.
Hypothesis temp_ImageBuild : ∀ t c h, temp (ImageBuild t c h).2 = temp h.
Hypothesis temp_ImagePush : ∀ t h, temp (ImagePush t h).2 = temp h.

Lemma made_removed (d : string) (X : gset string) : d ∉ X → ({[d]} ∪ X) ∖ {[d]} = X.
Proof. set_solver. Qed.
Lemma temp_runGit d args h : temp (runGit d args h).2 = temp h.
Proof.
  unfold runGit. pose proof (temp_run ("git" :: (if decide (d = "") then args else "-C" :: d :: args)) h) as E.
  by destruct (run_command _ h) as [[out err] h'].
Qed.
Lemma temp_drained step failed (r : (list wire + string) * H) : temp (drained step failed r).2 = temp r.2.
Proof. by destruct r as [[s|err] h]. Qed.
Lemma cloneRepo_temp url ref h :
  match cloneRepo url ref h with
  | (inl (d, _), h') => d ∉ temp h ∧ d ≠ "" ∧ temp h' = {[d]} ∪ temp h
  | (inr _, h') => temp h' = temp h
  end.
Proof.
  unfold cloneRepo. pose proof (temp_Mkdir h) as Hm. destruct (MkdirTemp h) as [[d|err] h1]; [|done].
  destruct Hm as (Hd & Hne & H1).
  pose proof (temp_runGit "" ["clone"; "--depth"; "1"; "--branch"; ref; url; d] h1) as H2.
  destruct (runGit "" _ h1) as [[out [err|]] h2]; simpl in H2;
    [by rewrite temp_Remove, H2, H1, made_removed|].
  pose proof (temp_runGit d ["rev-parse"; "HEAD"] h2) as H3.
  destruct (runGit d _ h2) as [[sha [err|]] h3]; simpl in H3;
    [by rewrite temp_Remove, H3, H2, H1, made_removed|].
  split; [done|]. split; [done|]. congruence.
Qed.
Lemma buildIn_temp d sha repo h : temp (buildIn d sha repo h).2 = temp h.
Proof.
  unfold buildIn. destruct (tarDirectory _) as [ctx|err]; [|done].
  pose proof (temp_drained "building image" "build failed" (ImageBuild (repo +:+ ":" +:+ sha) ctx h)) as H1.
  rewrite temp_ImageBuild in H1. destruct (drained _ _ _) as [[err|] h1]; simpl in *; [done|].
  pose proof (temp_drained "pushing image" "push failed" (ImagePush (repo +:+ ":" +:+ sha) h1)) as H2.
  rewrite temp_ImagePush in H2. destruct (drained "pushing image" _ _) as [[err|] h2]; simpl in *; congruence.
Qed.

(** The streams of a build and a push that went well. *)
Definition stream_ok (s : list wire) : Prop :=
  Forall (λ v, ∃ msg, Unmarshal (A:=streamMessage) v = Some msg ∧ msg.(streamMessage_Error) = "") s.
(** The steps of a successful build, from host to host. *)
Definition built_and_pushed (req : BuildRequest) (h : H) (res : BuildResult) (h' : H) : Prop :=
  ∃ d h1 out1 h2 out2 h3 ctx s1 h4 s2 h5,
    MkdirTemp h = (inl d, h1)
    ∧ run_command ["git"; "clone"; "--depth"; "1"; "--branch"; req.(Request_GitRef);
                   req.(Request_GitURL); d] h1 = ((out1, None), h2)
    ∧ run_command ["git"; "-C"; d; "rev-parse"; "HEAD"] h2 = ((out2, None), h3)
    ∧ res.(Result_CommitSHA) = TrimSpace (TrimSpace out2)
    ∧ res.(Result_Image) = req.(Request_ImageRepository) +:+ ":" +:+ res.(Result_CommitSHA)
    ∧ tarDirectory (read_tree d h3) = inl ctx
    ∧ ImageBuild res.(Result_Image) ctx h3 = (inl s1, h4) ∧ stream_ok s1
    ∧ ImagePush res.(Result_Image) h4 = (inl s2, h5) ∧ stream_ok s2
    ∧ h' = RemoveAll d h5.
Lemma drained_none step failed (r : (list wire + string) * H) h :
  drained step failed r = (None, h) → ∃ s, r = (inl s, h) ∧ stream_ok s.
Proof.
  destruct r as [[s|err] h']; simpl; [|done]. destruct (drainDockerStream s) eqn:E; [done|].
  intros [= ->]. exists s. split; [done|]. by apply drain_none.
Qed.

(** C24: a build leaves no clone behind: whichever step fails, the temporary
    directories of the host are afterwards those there were before.  It
    succeeds only when the repository was cloned at the ref, the image built
    from what [tarDirectory] makes of that clone and then pushed, both
    without an error in the engine's stream, under the repository's name and
    the commit that was checked out; and that is what it answers. *)
Theorem Build_correct req h :
  temp (Build req h).2 = temp h
  ∧ ∀ res h', Build req h = (inl res, h') → built_and_pushed req h res h'.
Proof.
  split.
  - unfold Build. pose proof (cloneRepo_temp req.(Request_GitURL) req.(Request_GitRef) h) as Hc.
    destruct (cloneRepo _ _ h) as [[[d sha]|err] h1]; [|done]. destruct Hc as (Hd & _ & H1).
    pose proof (buildIn_temp d sha req.(Request_ImageRepository) h1) as H2.
    destruct (buildIn _ _ _ h1) as [r h2]. simpl in *.
    by rewrite temp_Remove, H2, H1, made_removed.
  - intros res h'. unfold Build, cloneRepo. pose proof (temp_Mkdir h) as Hm.
    destruct (MkdirTemp h) as [[d|err] h1] eqn:E1; [|done]. destruct Hm as (_ & Hd & _).
    unfold runGit. rewrite decide_True, decide_False by done. cbn [app].
    destruct (run_command _ h1) as [[out1 [err|]] h2] eqn:E2; [done|].
    destruct (run_command ["git"; "-C"; d; "rev-parse"; "HEAD"] h2) as [[out2 [err|]] h3] eqn:E3; [done|].
    destruct (buildIn _ _ _ h3) as [r h4] eqn:E4. intros [= -> <-]. unfold buildIn in E4.
    destruct (tarDirectory _) as [ctx|err] eqn:Ec; [|done].
    destruct (drained _ _ (ImageBuild _ _ _)) as [[err|] h5] eqn:E5; [done|].
    destruct (drained _ _ (ImagePush _ _)) as [[err|] h6] eqn:E6; [done|].
    apply drained_none in E5 as (s1 & E5 & Hs1), E6 as (s2 & E6 & Hs2). injection E4 as <- <-.
    exists d, h1, out1, h2, out2, h3, ctx, s1, h5, s2, h6. by split_and!.
Qed.

(** What an outcome must say of a build: whose it is, and either the commit and
    the image, or the reason. *)
Definition says (msg : buildRequestedMessage) (r : BuildResult + string) (m : buildCompletedMessage) : Prop :=
  m.(buildCompletedMessage_BuildID) = msg.(buildRequestedMessage_BuildID)
  ∧ m.(buildCompletedMessage_OrgID) = msg.(buildRequestedMessage_OrgID)
  ∧ match r with
    | inl res => m.(buildCompletedMessage_Status) = "succeeded" ∧ m.(buildCompletedMessage_Error) = ""
        ∧ m.(buildCompletedMessage_CommitSHA) = res.(Result_CommitSHA)
        ∧ m.(buildCompletedMessage_Image) = res.(Result_Image)
    | inr err => m.(buildCompletedMessage_Status) = "failed" ∧ m.(buildCompletedMessage_Error) = err
        ∧ m.(buildCompletedMessage_CommitSHA) = "" ∧ m.(buildCompletedMessage_Image) = ""
    end.
(** The one publish of a computation that looks at nothing else. *)
Lemma published_or_lost subject payload msg w :
  let w' := (sent ← try (PublishDurable subject payload);
             match sent with Err _ => logf msg | Ok _ => mret tt end) w in
  env_of w'.2 = env_of w
  ∧ (messages w'.2 = messages w ++ [EvPublishDurable subject payload]
     ∨ messages w'.2 = messages w ∧ lost 1 w w'.2).
Proof.
  rewrite bind_try. destruct (PublishDurable subject payload w) as [r w1] eqn:E.
  pose proof (blameless_PublishDurable subject payload w) as Hb.
  destruct (PublishDurable_cases _ _ _ _ _ E) as [(e & -> & He & Ht)|(-> & He & Ht)]; simpl; (split; [done|]).
  - right. split; [etrans; [apply (messages_logf msg w1)|unfold messages; by rewrite Ht]|]. exact (blameless_Err _ _ _ _ Hb E).
  - left. unfold messages. rewrite Ht. by rewrite filter_app.
Qed.

(** C26: one outcome per request.  A request it can read is built once, and
    then one [build.completed] is sent, unless the call that publishes it
    fails, which sends nothing.  It names the build and its organization as
    the request did and says what [Build] answered: "succeeded" with the commit
    and the image, or "failed" with the reason and neither; and it is what the
    API server reads.  A request that cannot be read is dropped, with nothing
    done. *)
Theorem handleBuildRequested_correct data (b : Builder H) :
  let b' := handleBuildRequested data b in
  env_of b'.(b_world) = env_of b.(b_world) ∧
  match Unmarshal data with
  | None => b'.(b_host) = b.(b_host) ∧ messages b'.(b_world) = messages b.(b_world)
  | Some msg =>
      let '(r, h) := Build (mkBuildRequest msg.(buildRequestedMessage_GitURL)
                        msg.(buildRequestedMessage_GitRef) msg.(buildRequestedMessage_ImageRepository))
                       b.(b_host) in
      b'.(b_host) = h
      ∧ ∃ m, says msg r m ∧ Unmarshal (Some (to_json m)) = Some m
      ∧ (messages b'.(b_world) = messages b.(b_world) ++ [EvPublishDurable "build.completed" (to_json m)]
         ∨ messages b'.(b_world) = messages b.(b_world) ∧ lost 1 b.(b_world) b'.(b_world))
  end.
Proof.
  intros b'. unfold b', handleBuildRequested. destruct (Unmarshal data) as [msg|].
  2:{ split; [done|]. split; [done|]. apply (messages_logf "decoding build.requested message"). }
  destruct (Build _ b.(b_host)) as [r h]. cbn [b_world b_host].
  set (l := match r with inr _ => _ | inl _ => _ end).
  destruct (published_or_lost BuildCompletedSubject (to_json (completedMessage msg r))
    "publishing build.completed" (logf l b.(b_world)).2) as [He Hm].
  rewrite messages_logf in Hm. split; [exact He|]. split; [done|].
  exists (completedMessage msg r). split; [by destruct r|]. split; [by apply wire_roundtrip|exact Hm].
Qed.
End build.

(** ** On the sample *)

(** A repository with one source file beside its Dockerfile. *)
Definition shop_entries : list (string * Node) :=
  [(".git", Directory [("HEAD", File (inl "ref: refs/heads/main"))]);
   ("Dockerfile", File (inl "FROM nginx"));
   ("src", Directory [("index.html", File (inl "hello"))])].
(** The names in a tree. *)
Fixpoint all_names (n : Node) : list string :=
  match n with
  | Directory entries => foldr (λ e acc, e.1 :: all_names e.2 ++ acc) [] entries
  | _ => []
  end.
#[local] Instance good_name_dec s : Decision (good_name s).
Proof. unfold good_name. apply _. Defined.
Lemma all_names_ok n : Forall good_name (all_names n) → names_ok n.
Proof.
  intros Hn p m Hr. induction Hr as [n|entries name n p m Hin Hr IH]; [done|].
  assert (good_name name ∧ Forall good_name (all_names n)) as [??]; [|by constructor; auto].
  simpl in Hn. clear IH. induction entries as [|[x k] entries IHl]; [by apply not_elem_of_nil in Hin|].
  simpl in Hn. apply Forall_cons in Hn as [? [? ?]%Forall_app].
  apply elem_of_cons in Hin as [[= -> ->]|Hin]; auto.
Qed.
Lemma shop_names_ok : names_ok (Directory shop_entries).
Proof. apply all_names_ok. apply (bool_decide_unpack _). vm_compute. exact I. Qed.
Lemma tarDirectory_correct_witness :
  tarDirectory (Directory shop_entries)
  = inl [mkEntry "Dockerfile" RegularEntry "FROM nginx"; mkEntry "src/" DirEntry "";
         mkEntry "src/index.html" RegularEntry "hello"]
  ∧ walked (λ p m, p ≠ [] ∧ reaches (Directory shop_entries) p m) (tarDirectory (Directory shop_entries)).
Proof. split; [vm_compute; reflexivity|]. apply tarDirectory_correct. exact shop_names_ok. Defined.

(** A host: its temporary directories; every command and the engine succeed. *)
Definition Desk : Type := gset string.
Definition fresh_dir (h : Desk) : string := fresh ({[""]} ∪ h).
#[local] Instance desk : BuildHost Desk := {
  MkdirTemp h := (inl (fresh_dir h), {[fresh_dir h]} ∪ h);
  RemoveAll d h := h ∖ {[d]};
  run_command _ h := (("abc", None), h);
  read_tree _ _ := Directory shop_entries;
  ImageBuild _ _ h := (inl [Some (JObject [("stream", JString "Step 1/1")])], h);
  ImagePush _ h := (inl [], h) }.
Definition shop_build_request : BuildRequest :=
  mkBuildRequest "https://example.com/shop.git" "main" "registry/shop".
Lemma Build_correct_witness :
  let '(r, h) := Build shop_build_request ({["other"]} : Desk) in
  r = inl (mkBuildResult "abc" "registry/shop:abc") ∧ h = {["other"]}.
Proof.
  destruct (Build shop_build_request ({["other"]} : Desk)) as [r h] eqn:E.
  destruct (Build_correct (id : Desk → gset string)) with (req := shop_build_request) (h := ({["other"]} : Desk))
    as [Ht _]; [| |done..|].
  - intros h0. pose proof (is_fresh ({[""]} ∪ h0)) as Hf. fold (fresh_dir h0) in Hf.
    simpl. split_and!; [set_solver|set_solver|done].
  - done.
  - rewrite E in Ht. simpl in Ht. split; [|exact Ht].
    apply (f_equal fst) in E. simpl in E. rewrite <-E. vm_compute. reflexivity.
Defined.
