(* ===== verification/Started.v ===== *)
(** * Started: what the services are once they have started

    About the mains of [Startup]: which subscriptions, tickers and streams a
    start that succeeds leaves behind, which failures it survives, and what the
    process keeps while it runs, whatever it is given and whatever others do to
    what it shares with them. *)
From S2P Require Import Prelude Text Json Schema Effects Settings EventBus Wire Slug Scheduler DeployController ServiceController LbRegistry LoadBalancer Auth ApiApps Runtime NodeAgent ImageBuilder Startup.
From stdpp Require Import base gmap strings list.
From Stdlib Require Import ZArith Lia Ascii String.
Open Scope Z_scope.
Open Scope list_scope.

(** ** Inverting a start that succeeds *)

Section inversion.
Context `{Network} `{!NetworkLaws} {S : Type}.
Implicit Types h : Host S.

Lemma setting_runs {A} (f : gmap string string → A) h : setting f h = (Done (f h.(h_env)), h).
Proof. done. Qed.
Lemma or_exit_Done {A} (m : Boot S A) h a h' : or_exit m h = (Done a, h') → m h = (Done a, h').
Proof. intros [?|(e & h1 & _ & [=])]%on_error_Done. done. Qed.
Lemma deferring_Done {A} (m : Boot S A) h a h' :
  deferring m h = (Done a, h') → m h = (Done a, h').
Proof.
  intros [?|(e & h1 & _ & (? & ? & _ & [=])%bind_Done)]%on_error_Done. done.
Qed.
Lemma require_bus_Done (c : Boot S bool) h a h' :
  require_bus c h = (Done a, h') → c h = (Done true, h').
Proof. intros ([] & h1 & E & Hk)%bind_Done; [|done]. injection Hk as _ <-. done. Qed.
Lemma ensure_Done cfg h a h' :
  ensure cfg h = (Done a, h') →
  ∃ n, h' = set_net n h
    ∧ streams n = <[cfg.(StreamConfig_Name) := cfg.(StreamConfig_Subjects)]> (streams h.(h_net)).
Proof. by intros ?%wrapped_Done%EnsureStream_Done. Qed.
Lemma ListenAndServe_Done addr h a h' :
  ListenAndServe addr h = (Done a, h') →
  ∃ l, h' = mkHost h.(h_env) (http_Listen addr h.(h_net)).2 h.(h_state) h.(h_subs) h.(h_tickers) l.
Proof. destruct (ListenAndServe_ends addr h) as (l & ->). intros [= _ <-]. by exists l. Qed.
End inversion.

(** [h] after a start: its network is [n], and it has these subscriptions and
    tickers more. *)
Definition started_with `{Network} {S} (h : Host S) (n : net) (subs : list (Subscription S))
    (ticks : list (Ticker S)) : Host S :=
  mkHost h.(h_env) n h.(h_state) (h.(h_subs) ++ subs) (h.(h_tickers) ++ ticks) h.(h_listening).

(** Takes a successful start apart into its steps. *)
Ltac boot_inv :=
  repeat match goal with
  | E : (_ ≫= _) _ = (Done _, _) |- _ => apply bind_Done in E as (? & ? & ? & ?)
  | E : or_exit _ _ = (Done _, _) |- _ => apply or_exit_Done in E
  | E : deferring _ _ = (Done _, _) |- _ => apply deferring_Done in E
  | E : wrapped _ _ _ = (Done _, _) |- _ => apply wrapped_Done in E
  | E : require_bus _ _ = (Done _, _) |- _ => apply require_bus_Done in E
  | E : setting _ _ = (Done _, _) |- _ => apply setting_Done in E as [-> ->]
  | E : updates _ _ = (Done _, _) |- _ => apply modify_Done in E as ->
  | E : Open _ _ = (Done _, _) |- _ => apply Open_Done in E as (? & ->)
  | E : EventBus.connectEventBus _ _ = (Done _, _) |- _ => apply connect_Done in E as (? & ->)
  | E : NewTicker _ _ _ = (Done _, _) |- _ => apply NewTicker_Done in E as [? ->]
  | E : ensure _ _ = (Done _, _) |- _ => apply ensure_Done in E as (? & -> & ?)
  | E : SubscribeDurable _ _ _ _ _ = (Done _, _) |- _ =>
      apply SubscribeDurable_Done in E as (? & -> & ? & ?)
  | E : natsBus_Subscribe _ _ _ = (Done _, _) |- _ =>
      apply natsBus_Subscribe_Done in E as (? & -> & ?)
  | E : ListenAndServe _ _ = (Done _, _) |- _ => apply ListenAndServe_Done in E as (? & ->)
  | E : calls _ _ = (Done _, _) |- _ => apply calls_Done in E as (? & ? & ->)
  end; simpl in *.
(** Follows the streams back. *)
Ltac gathered := split; [unfold started_with, add_sub, add_ticker, set_net; simpl;
                         rewrite <-?app_assoc, ?app_nil_r; simpl; reflexivity|].
Ltac streams_back := repeat match goal with E : streams ?x = _ |- context[streams ?x] => rewrite E end.

(** ** The scheduler *)

Section scheduler.
Context `{Network} `{!NetworkLaws} `{UUIDText} `{TimeText}.

(** What the scheduler subscribes to. *)
Definition registry_subs : list (Subscription World) :=
  [mkSubscription Core "node.*.register"
     (λ m s, (None, on_message (λ d, on_world (handleRegister d)) m s));
   mkSubscription Core "node.*.heartbeat"
     (λ m s, (None, on_message (λ d, on_world (handleHeartbeat d)) m s))].
Definition placement_sub : Subscription World :=
  mkSubscription (Durable PlacementStream "scheduler-placement") PlacementRequestedSubject
    (acked (λ d, on_world (handlePlacement d))).
Definition status_sub : Subscription World :=
  mkSubscription (Durable NodeStatusStream "scheduler-status") NodeStatusStreamFilter
    (acked (λ d, on_world (Scheduler.handleStatus d))).

Lemma started_with_set_net {S} (h : Host S) n : set_net n h = started_with h n [] [].
Proof. unfold started_with, set_net. by rewrite !app_nil_r. Qed.
Lemma started_with_trans {S} (h : Host S) n1 s1 t1 n2 s2 t2 :
  started_with (started_with h n1 s1 t1) n2 s2 t2 = started_with h n2 (s1 ++ s2) (t1 ++ t2).
Proof. unfold started_with. simpl. by rewrite !app_assoc. Qed.

Lemma subscribeRegistry_Done (h h' : Host World) :
  SchedulerMain.subscribeRegistry h = (Done tt, h') →
  ∃ n, h' = started_with h n registry_subs [] ∧ streams n = streams h.(h_net).
Proof.
  unfold SchedulerMain.subscribeRegistry. intros E. boot_inv. eexists.
  gathered. by streams_back.
Qed.
Lemma subscribePlacement_Done (h h' : Host World) :
  SchedulerMain.subscribePlacement h = (Done tt, h') →
  ∃ n, h' = started_with h n [placement_sub] []
    ∧ streams n = <[NodeAssignmentsStream := [NodeAssignmentsStreamFilter]]>
        (<[PlacementStream := [PlacementStreamFilter]]> (streams h.(h_net))).
Proof.
  unfold SchedulerMain.subscribePlacement. intros E. boot_inv. eexists. gathered. by streams_back.
Qed.
Lemma subscribeStatus_Done (h h' : Host World) :
  SchedulerMain.subscribeStatus h = (Done tt, h') →
  ∃ n, h' = started_with h n [status_sub] []
    ∧ streams n = <[NodeStatusStream := [NodeStatusStreamFilter]]> (streams h.(h_net)).
Proof.
  unfold SchedulerMain.subscribeStatus. intros E. boot_inv. eexists. gathered. by streams_back.
Qed.
Lemma scheduler_started (h h' : Host World) :
  SchedulerMain.main h = (Done tt, h') →
  ∃ n0 n cfg, SchedulerMain.config h = (Done cfg, h)
    ∧ 0 < cfg.(Scheduler.LivenessSweepInterval)
    ∧ streams n = <[NodeStatusStream := [NodeStatusStreamFilter]]>
        (<[NodeAssignmentsStream := [NodeAssignmentsStreamFilter]]>
        (<[PlacementStream := [PlacementStreamFilter]]> (streams n0)))
    ∧ h' = started_with h n (registry_subs ++ [placement_sub; status_sub])
             [mkTicker cfg.(Scheduler.LivenessSweepInterval) (on_world (sweepUnreachable cfg))].
Proof.
  intros E. unfold SchedulerMain.main in E. boot_inv.
  unfold SchedulerMain.connectEventBus, SchedulerMain.Run in *. boot_inv.
  match goal with E : SchedulerMain.config _ = _ |- _ => injection E as <- <- end.
  repeat match goal with x : () |- _ => destruct x end.
  match goal with E : SchedulerMain.subscribeRegistry _ = _ |- _ =>
    apply subscribeRegistry_Done in E as (n1 & -> & Hs1) end.
  match goal with E : SchedulerMain.subscribePlacement _ = _ |- _ =>
    apply subscribePlacement_Done in E as (n2 & -> & Hs2) end.
  match goal with E : SchedulerMain.subscribeStatus _ = _ |- _ =>
    apply subscribeStatus_Done in E as (n3 & -> & Hs3) end.
  eexists _, n3, _. split; [reflexivity|]. split; [eassumption|]. simpl in *. split.
  - rewrite Hs3, Hs2. reflexivity.
  - unfold started_with, add_ticker. simpl. by rewrite <-!app_assoc.
Qed.
End scheduler.

(** ** Every message is acknowledged

    Every durable handler of the platform returns [nil], whatever happened. *)

Definition returns_nil {S} (x : Subscription S) : Prop := ∀ m s, (x.(sub_handler) m s).1 = None.
Lemma acked_nil {S} st c subject (f : wire → S → S) :
  returns_nil (mkSubscription (Durable st c) subject (acked f)).
Proof. done. Qed.
Lemma core_nil {S} subject (f : Handler S) :
  returns_nil (mkSubscription Core subject (λ m s, (None, f m s))).
Proof. done. Qed.
#[export] Hint Resolve acked_nil core_nil : boot.

Section leaves.
Context `{Network} {S : Type} (P : Subscription S → Prop).
Lemma leaves_or_exit {A} (m : Boot S A) : leaves P m → leaves P (or_exit m).
Proof. intros Hm. apply leaves_on_error; [done|]. intros. apply leaves_os_Exit. Qed.
Lemma leaves_deferring {A} (m : Boot S A) : leaves P m → leaves P (deferring m).
Proof. intros Hm. apply leaves_on_error; [done|]. intros. solve_leaves. Qed.
Lemma leaves_require_bus c : leaves P c → leaves P (require_bus c).
Proof. intros Hc. apply leaves_bind; [done|]. intros []; solve_leaves. Qed.
Lemma leaves_ensure cfg : leaves P (ensure cfg).
Proof. apply leaves_wrapped, leaves_EnsureStream. Qed.
End leaves.
#[export] Hint Resolve leaves_ensure : boot.
#[export] Hint Extern 2 (leaves _ (or_exit _)) => apply leaves_or_exit; solve_leaves : boot.
#[export] Hint Extern 2 (leaves _ (deferring _)) => apply leaves_deferring; solve_leaves : boot.
#[export] Hint Extern 2 (leaves _ (require_bus _)) => apply leaves_require_bus; solve_leaves : boot.

Section mains_leave.
Context `{Network} `{!NetworkLaws} `{MapOrder} `{UUIDText} `{TimeText}.
Lemma scheduler_leaves : leaves returns_nil SchedulerMain.main.
Proof.
  unfold SchedulerMain.main, SchedulerMain.connectEventBus, SchedulerMain.config, SchedulerMain.Run,
    SchedulerMain.subscribeRegistry, SchedulerMain.subscribePlacement, SchedulerMain.subscribeStatus.
  solve_leaves.
Qed.
Lemma apiserver_leaves : leaves returns_nil ApiserverMain.main.
Proof.
  unfold ApiserverMain.main, ApiserverMain.connectEventBus, ApiserverMain.ensure_or_drop,
    ApiserverMain.SubscribeBuilds, ApiserverMain.NewTokenIssuer, bus_Close.
  solve_leaves.
Qed.
Lemma controller_leaves first : leaves returns_nil (ControllerMain.main first).
Proof.
  unfold ControllerMain.main, ControllerMain.connectEventBus, ControllerMain.Controller_Run,
    ControllerMain.ServiceInstance_Run.
  solve_leaves. repeat match goal with x : Res () |- _ => destruct x end; solve_leaves.
Qed.
Lemma worker_leaves {RT} `{!ContainerRuntime RT} mc : leaves returns_nil (WorkerMain.main mc).
Proof.
  unfold WorkerMain.main, WorkerMain.connectEventBus, WorkerMain.runNodeAgent, WorkerMain.Run,
    WorkerMain.subscribeAssignments, WorkerMain.subscribeUnassign.
  solve_leaves.
Qed.
Lemma builder_leaves {HT} `{!BuildHost HT} : leaves returns_nil ImageBuilderMain.main.
Proof.
  unfold ImageBuilderMain.main, ImageBuilderMain.NewDockerBuilder, ImageBuilderMain.connectEventBus,
    ImageBuilderMain.Subscribe.
  solve_leaves.
Qed.
Lemma balancer_leaves probes : leaves returns_nil (LoadBalancerMain.main probes).
Proof.
  unfold LoadBalancerMain.main, LoadBalancerMain.connectEventBus, LoadBalancerMain.Checker_Run.
  solve_leaves.
Qed.
End mains_leave.

(** What such a process does with a message of a durable consumer, at any
    point of any run: it runs the handler, then asks for exactly one thing of
    the network, the acknowledgement of that message. *)
Definition acknowledges `{Network} {S} (h0 : Host S) : Prop :=
  ∀ os k x st c i m, let h := steps os h0 in
  h.(h_subs) !! k = Some x → x.(sub_delivery) = Durable st c →
  EventBus.step (Delivered k i m) h
    = set_net (msg_Ack i h.(h_net)).2 (set_state (x.(sub_handler) m h.(h_state)).2 h).
Lemma nil_acknowledges `{Network} {S} (h : Host S) :
  Forall returns_nil h.(h_subs) → acknowledges h.
Proof.
  intros Hn os k x st c i m h1 Hk Hd. simpl. rewrite Hk. unfold deliver. rewrite Hd. unfold EventBus.consume.
  unfold h1 in Hk. rewrite (proj1 (steps_static os h)) in Hk. eapply (Forall_lookup_1 _ _ _ _ Hn) in Hk.
  specialize (Hk m h1.(h_state)).
  destruct (sub_handler x m (h_state h1)) as [err s]. simpl in *. by subst err.
Qed.
Lemma starts_acknowledging `{Network} {S A} (m : Boot S A) (h : Host S) :
  leaves returns_nil m → h.(h_subs) = [] → acknowledges (m h).2.
Proof. intros Hm Hh. apply nil_acknowledges, Hm. by rewrite Hh. Qed.

(** C22: every durable message is acknowledged by a service it is delivered
    to, and never handed back: however the service started, whatever it has
    done since, and whatever the handler made of the message, a delivery runs
    the handler and then calls [Ack] on that message, once, and nothing else
    of the network; never [Nak], also when handling the message failed.  So a
    failed message is not asked for again: it comes back only if that
    acknowledgement itself is lost. *)
Theorem always_acknowledged `{Network} `{!NetworkLaws} `{MapOrder} `{UUIDText} `{TimeText}
    {RT HT : Type} `{!ContainerRuntime RT} `{!BuildHost HT} probes mc first
    (hs ha : Host World) (hc : Host ControllerMain.Manager) (hw : Host (Agent RT))
    (hb : Host (Builder HT)) (hl : Host LoadBalancerMain.Balancer) :
  hs.(h_subs) = [] → ha.(h_subs) = [] → hc.(h_subs) = [] → hw.(h_subs) = [] → hb.(h_subs) = [] →
  hl.(h_subs) = [] →
  acknowledges (SchedulerMain.main hs).2 ∧ acknowledges (ApiserverMain.main ha).2
  ∧ acknowledges (ControllerMain.main first hc).2 ∧ acknowledges (WorkerMain.main mc hw).2
  ∧ acknowledges (ImageBuilderMain.main hb).2 ∧ acknowledges (LoadBalancerMain.main probes hl).2.
Proof.
  intros. split_and!; apply starts_acknowledging;
    auto using scheduler_leaves, apiserver_leaves, controller_leaves, worker_leaves, builder_leaves,
      balancer_leaves.
Qed.

(** ** Which subjects the streams take *)

Lemma tokens_app s t : tokens (s +:+ String "."%char t) = tokens s ++ tokens t.
Proof. apply split_on_join. Qed.
Lemma tokens_match_Forall2 f s :
  Forall (λ x, x ≠ ">") f → tokens_match f s = true ↔ Forall2 (λ x y, x = "*" ∨ x = y) f s.
Proof.
  intros Hf. revert s. induction Hf as [|x f Hx Hf IH]; intros [|y s]; simpl.
  - split; [constructor|done].
  - split; [done|]. by intros ?%Forall2_nil_inv_l.
  - split; [done|]. by intros ?%Forall2_nil_inv_r.
  - rewrite decide_False by done. rewrite andb_true_iff, bool_decide_eq_true, IH, Forall2_cons. done.
Qed.
(** [node.*.<kind>] takes exactly the subjects of that kind of a node whose id
    has no point. *)
Lemma node_filter kind id kind' :
  tokens kind = [kind] → kind ≠ ">" → kind ≠ "*" → tokens kind' = [kind'] →
  subject_matches ("node.*." +:+ kind) ("node." +:+ id +:+ "." +:+ kind') = true
  ↔ kind = kind' ∧ ∃ t, tokens id = [t].
Proof.
  intros Hk Hgt Hstar Hk'. unfold subject_matches.
  change ("node.*." +:+ kind) with ("node" +:+ String "."%char ("*" +:+ String "."%char kind)).
  change ("node." +:+ id +:+ "." +:+ kind') with ("node" +:+ String "."%char (id +:+ String "."%char kind')).
  rewrite !tokens_app, Hk, Hk'. change (tokens "node") with ["node"].
  change (tokens "*") with ["*"]. rewrite tokens_match_Forall2.
  2:{ repeat constructor; done. }
  simpl. split.
  - intros (_ & Hr)%Forall2_cons. pose proof (Forall2_length _ _ _ Hr) as Hl.
    rewrite length_app in Hl. simpl in Hl.
    destruct (tokens id) as [|t [|t' l]] eqn:E; simpl in Hl; [|clear Hl|lia].
    { by apply split_on_nonempty in E. }
    simpl in Hr. apply Forall2_cons in Hr as [_ Hr]. apply Forall2_cons in Hr as [[?|?] _]; [done|].
    split; [done|by exists t].
  - intros (-> & t & ->). simpl. repeat (apply Forall2_cons; split; [by auto|]). constructor.
Qed.

Section streams.
Context `{Network} `{!NetworkLaws} `{MapOrder} `{UUIDText} `{TimeText}.

(** Stream [st] takes messages on [subject]. *)
Definition takes (n : net) (st subject : string) : Prop :=
  ∃ subjects f, streams n !! st = Some subjects ∧ f ∈ subjects ∧ subject_matches f subject = true.
(** The platform's streams, and nothing else. *)
Definition platform_streams : list string :=
  [PlacementStream; NodeAssignmentsStream; NodeStatusStream; BuildsStream].
Definition only_platform (n : net) : Prop :=
  (∀ st subjects, streams n !! st = Some subjects → st ∈ platform_streams)
  ∧ (∀ subjects, streams n !! BuildsStream = Some subjects → subjects = BuildsStreamSubjects).

Lemma not_node_subject f id kind :
  tokens f = ["placement"; "requested"] ∨ tokens f = ["build"; "requested"]
    ∨ tokens f = ["build"; "completed"] →
  subject_matches f ("node." +:+ id +:+ "." +:+ kind) = false.
Proof.
  unfold subject_matches.
  change ("node." +:+ id +:+ "." +:+ kind) with ("node" +:+ String "."%char (id +:+ String "."%char kind)).
  rewrite !tokens_app. change (tokens "node") with ["node"].
  by intros [->|[->| ->]].
Qed.

(** When the scheduler starts, releases have no stream any more. *)
Lemma scheduler_drops_releases (h h' : Host World) id data :
  SchedulerMain.main h = (Done tt, h') → only_platform h'.(h_net) →
  (∃ t, tokens id = [t]) →
  takes h'.(h_net) NodeAssignmentsStream (NodeAssignSubject id)
  ∧ ¬ covered (NodeUnassignSubject id) h'.(h_net)
  ∧ ∃ e h2, natsBus_PublishDurable (NodeUnassignSubject id) data h' = (Failed e, h2).
Proof.
  intros E [Honly Hb] Hid. destruct (scheduler_started _ _ E) as (n0 & n & cfg & _ & _ & Hn & ->).
  cbn [h_net started_with] in *.
  assert (¬ covered (NodeUnassignSubject id) n) as Hnot.
  { intros (st & subjects & f & Hst & Hf & Hm). apply Honly in Hst as Hin.
    unfold platform_streams in Hin. rewrite !elem_of_cons, elem_of_nil in Hin.
    destruct Hin as [->|[->|[->|[->|[]]]]].
    4: { apply Hb in Hst as ->. unfold BuildsStreamSubjects in Hf.
         rewrite !elem_of_cons, elem_of_nil in Hf. unfold NodeUnassignSubject in Hm.
         destruct Hf as [->|[->|[]]]; (rewrite (not_node_subject _ id "unassign") in Hm; [done|vm_compute; auto]). }
    all: rewrite Hn in Hst; rewrite ?lookup_insert_eq, ?lookup_insert_ne, ?lookup_insert_eq in Hst by done.
    all: injection Hst as <-; apply list_elem_of_singleton in Hf as ->; unfold NodeUnassignSubject in Hm.
    - (rewrite (not_node_subject _ id "unassign") in Hm; [done|vm_compute; auto]).
    - by apply (node_filter "assign" id "unassign") in Hm as [[=] _].
    - by apply (node_filter "status" id "unassign") in Hm as [[=] _]. }
  split; [|split; [done|]].
  - exists [NodeAssignmentsStreamFilter], NodeAssignmentsStreamFilter. rewrite Hn.
    split; [by rewrite lookup_insert_ne, lookup_insert_eq by done|].
    split; [by left|]. by apply (node_filter "assign" id "assign").
  - unfold natsBus_PublishDurable, wrapped, on_error, attempt, calls, mbind, Boot_bind. simpl.
    destruct (js_Publish (NodeUnassignSubject id) data n) as [[e|] n2] eqn:Ep.
    { eexists _, _. reflexivity. }
    by apply publish_taken in Ep.
Qed.

Lemma attempt_Done {S A} (m : Boot S A) h r h' :
  attempt m h = (Done r, h') →
  match r with Ok a => m h = (Done a, h') | Err e => m h = (Failed e, h') end.
Proof. unfold attempt. by destruct (m h) as [[] ?]; intros [= <- <-]. Qed.

(** What the controller manager subscribes to. *)
Definition ports_sub : Subscription ControllerMain.Manager :=
  mkSubscription (Durable NodeStatusStream "controller-manager-service-instance-ports")
    NodeStatusStreamFilter (acked ControllerMain.handleStatus).
Lemma Controller_Run_Done interval (h h' : Host ControllerMain.Manager) :
  ControllerMain.Controller_Run interval h = (Done tt, h') →
  0 < interval ∧ ∃ n, h' = started_with h n [] [mkTicker interval ControllerMain.deployment_tick]
    ∧ streams n = <[NodeAssignmentsStream := [NodeAssignmentsStreamFilter; NodeUnassignStreamFilter]]>
        (<[PlacementStream := [PlacementStreamFilter]]> (streams h.(h_net))).
Proof.
  unfold ControllerMain.Controller_Run. intros E. boot_inv. split; [done|]. eexists.
  gathered. by streams_back.
Qed.
Lemma ServiceInstance_Run_Done interval (h h' : Host ControllerMain.Manager) :
  ControllerMain.ServiceInstance_Run interval h = (Done tt, h') →
  0 < interval ∧ ∃ n, h' = started_with h n [ports_sub] [mkTicker interval ControllerMain.instance_tick]
    ∧ streams n = <[NodeStatusStream := [NodeStatusStreamFilter]]> (streams h.(h_net)).
Proof.
  unfold ControllerMain.ServiceInstance_Run. intros E. boot_inv. split; [done|]. eexists.
  gathered. by streams_back.
Qed.
Lemma controller_started first (h h' : Host ControllerMain.Manager) :
  ControllerMain.main first h = (Done tt, h') →
  ∃ n i j ticks, 0 < i ∧ 0 < j
    ∧ h' = started_with h n [ports_sub] ticks
    ∧ ticks ≡ₚ [mkTicker i ControllerMain.deployment_tick; mkTicker j ControllerMain.instance_tick]
    ∧ streams n !! PlacementStream = Some [PlacementStreamFilter]
    ∧ streams n !! NodeAssignmentsStream
        = Some [NodeAssignmentsStreamFilter; NodeUnassignStreamFilter]
    ∧ streams n !! NodeStatusStream = Some [NodeStatusStreamFilter].
Proof.
  intros E. unfold ControllerMain.main, ControllerMain.connectEventBus in E. boot_inv.
  repeat match goal with r : Res () |- _ => destruct r as [[]|]; try done end. boot_inv.
  repeat match goal with E : mret _ _ = _ |- _ => injection E as <- end.
  destruct first; repeat match goal with E : attempt _ _ = _ |- _ => apply attempt_Done in E end.
  all: match goal with E : ControllerMain.Controller_Run _ _ = _ |- _ =>
         apply Controller_Run_Done in E as (Hi & n1 & -> & E1) end.
  all: match goal with E : ControllerMain.ServiceInstance_Run _ _ = _ |- _ =>
         apply ServiceInstance_Run_Done in E as (Hj & n2 & -> & E2) end.
  all: simpl in E1, E2; eexists _, _, _, _; split; [exact Hi|]; split; [exact Hj|].
  all: split; [unfold started_with, set_net; simpl; rewrite <-!app_assoc; reflexivity|].
  all: split; [solve [reflexivity|apply perm_swap]|].
  all: rewrite ?E1, ?E2, ?E1; split_and!.
  all: repeat first [rewrite lookup_insert_eq; reflexivity|rewrite lookup_insert_ne by done].
Qed.

(** C11: the last service to start decides what the NODE_ASSIGNMENTS stream
    takes.  After the controller manager's start it takes assignments and
    releases; after the scheduler's it takes assignments only: on a server
    that holds the platform's streams and no other, every durable publish of a
    [node.<id>.unassign] fails from then on. *)
Theorem last_start_decides id data :
  (∃ t, tokens id = [t]) →
  (∀ first (h h' : Host ControllerMain.Manager),
    ControllerMain.main first h = (Done tt, h') →
    takes h'.(h_net) NodeAssignmentsStream (NodeAssignSubject id)
    ∧ takes h'.(h_net) NodeAssignmentsStream (NodeUnassignSubject id))
  ∧ (∀ h h' : Host World,
      SchedulerMain.main h = (Done tt, h') → only_platform h'.(h_net) →
      takes h'.(h_net) NodeAssignmentsStream (NodeAssignSubject id)
      ∧ ∃ e h2, natsBus_PublishDurable (NodeUnassignSubject id) data h' = (Failed e, h2)).
Proof.
  intros Hid. split.
  - intros first h h' E. destruct (controller_started _ _ _ E) as (n & i & j & tk & _ & _ & -> & _ & _ & Hn & _).
    simpl. split; eexists _, _; (split; [exact Hn|]).
    + split; [by left|]. by apply (node_filter "assign" id "assign").
    + split; [by right; left|]. by apply (node_filter "unassign" id "unassign").
  - intros h h' E Ho. by destruct (scheduler_drops_releases h h' id data E Ho Hid) as (? & _ & ?).
Qed.
End streams.

(** ** The API server starts without a bus *)

Section apiserver.
Context `{Network} `{!NetworkLaws} `{UUIDText} `{TimeText}.
Implicit Types h : Host World.

Lemma Open_ends {S} c (h : Host S) :
  (∃ e n, Open c h = (Failed e, set_net n h)) ∨ ∃ n, Open c h = (Done tt, set_net n h).
Proof.
  unfold Open, wrapped, on_error, attempt, calls, failed, mbind, Boot_bind, mret, Boot_ret.
  destruct (pgxpool_New c h.(h_net)) as [[e|] n1]; simpl; [by left; eexists _, _|].
  destruct (pool_Ping c n1) as [[e|] n2]; simpl; [left|right]; eauto.
Qed.
Lemma ensure_or_drop_ends cfg bus h :
  ∃ b n, ApiserverMain.ensure_or_drop cfg bus h = (Done b, set_net n h)
    ∧ (b = true → bus = true
       ∧ streams n = <[cfg.(StreamConfig_Name) := cfg.(StreamConfig_Subjects)]> (streams h.(h_net))).
Proof.
  destruct bus; [|exists false, h.(h_net); by destruct h].
  unfold ApiserverMain.ensure_or_drop, EnsureStream, bus_Close, wrapped, on_error, attempt, calls, failed,
    mbind, Boot_bind, mret, Boot_ret.
  destruct (js_CreateOrUpdateStream cfg h.(h_net)) as [[e|] n1] eqn:E; simpl.
  - by eexists false, _.
  - apply stream_set in E. by eexists true, n1.
Qed.

(** The API server's only subscription. *)
Definition builds_sub (bus : bool) : Subscription World :=
  mkSubscription (Durable BuildsStream "apiserver-build-completed") BuildCompletedSubject
    (acked (λ d, on_world (handleBuildCompleted bus d))).
Lemma SubscribeBuilds_ends srv h :
  ∃ n subs, on_error (ApiserverMain.SubscribeBuilds srv) (λ _, mret tt) h
      = (Done tt, started_with h n subs [])
    ∧ (subs = [] ∨ srv.(ApiserverMain.srv_bus) = true ∧ subs = [builds_sub true])
    ∧ ∀ name, name ≠ BuildsStream → streams n !! name = streams h.(h_net) !! name.
Proof.
  unfold ApiserverMain.SubscribeBuilds. destruct (ApiserverMain.srv_bus srv); simpl.
  2:{ exists h.(h_net), []. rewrite <-started_with_set_net. destruct h. by auto. }
  unfold ensure, EnsureStream, SubscribeDurable, modify, wrapped, on_error, attempt, calls, failed,
    mbind, Boot_bind, mret, Boot_ret.
  pose proof (stream_others builds_stream h.(h_net)) as Ho.
  destruct (js_CreateOrUpdateStream builds_stream h.(h_net)) as [[e|] n1]; simpl in *.
  { exists n1, []. rewrite <-started_with_set_net. auto. }
  set (cfg := mkConsumerConfig _ _). pose proof (consumer_streams BuildsStream cfg n1) as Hc.
  destruct (js_CreateOrUpdateConsumer BuildsStream cfg n1) as [[e|] n2]; simpl in *.
  { exists n2, []. rewrite <-started_with_set_net, Hc. auto. }
  pose proof (consume_streams BuildsStream "apiserver-build-completed" n2) as Hs.
  destruct (consumer_Consume BuildsStream _ n2) as [[e|] n3]; simpl in *.
  { exists n3, []. rewrite <-started_with_set_net, Hs, Hc. auto. }
  exists n3, [builds_sub true]. rewrite Hs, Hc. split; [|auto].
  unfold started_with. simpl. by rewrite app_nil_r.
Qed.

(** C28: the API server starts if and only if it has a signing key and its
    database answers; neither an unreachable bus, nor a stream that cannot be
    ensured, nor a subscription that is refused keeps it from serving, and it
    never panics.  It then either has a bus, on which the streams it publishes
    to take its messages, or it runs without one and subscribes to nothing. *)
Theorem apiserver_starts h :
  let key := String_ h.(h_env) "JWT_SIGNING_KEY" "" in
  let db := Open (String_ h.(h_env) "APP_DATABASE_URL" default_app_db) in
  (key = "" → ApiserverMain.main h = (Exit 1, h))
  ∧ (key ≠ "" → ∀ e h1, db h = (Failed e, h1) → ApiserverMain.main h = (Exit 1, h1))
  ∧ (key ≠ "" → ∀ h1, db h = (Done tt, h1) →
      ∃ srv h', ApiserverMain.main h = (Done srv, h')
        ∧ h'.(h_state) = h.(h_state) ∧ h'.(h_tickers) = h.(h_tickers)
        ∧ srv.(ApiserverMain.srv_registryAddr)
          = String_ h.(h_env) "IMAGE_REGISTRY_ADDR" ApiserverMain.defaultImageRegistryAddr
        ∧ if srv.(ApiserverMain.srv_bus)
          then streams h'.(h_net) !! PlacementStream = Some [PlacementStreamFilter]
            ∧ streams h'.(h_net) !! NodeAssignmentsStream
              = Some [NodeAssignmentsStreamFilter; NodeUnassignStreamFilter]
            ∧ (h'.(h_subs) = h.(h_subs) ∨ h'.(h_subs) = h.(h_subs) ++ [builds_sub true])
          else h'.(h_subs) = h.(h_subs)).
Proof.
  intros key db. unfold ApiserverMain.main, ApiserverMain.NewTokenIssuer, or_exit. split_and!.
  all: intros Hk; rewrite (bind_runs _ _ _ _ _ (setting_runs _ _)); fold key.
  { rewrite decide_True by done. by rewrite (bind_exits _ _ _ _ _ (on_error_fails _ _ _ _ _ eq_refl)). }
  all: rewrite decide_False by done;
    rewrite (bind_runs _ _ _ _ _ (on_error_runs (mret tt) _ h tt h eq_refl)),
      (bind_runs _ _ _ _ _ (setting_runs _ _)); fold db.
  { intros e h1 E. by rewrite (bind_exits _ _ _ _ _ (on_error_fails _ _ _ _ _ E)). }
  intros h1 E. rewrite (bind_runs _ _ _ _ _ (on_error_runs _ _ _ _ _ E)).
  apply Open_Done in E as (n1 & ->).
  destruct (connect_ends_in "APISERVER_NATS_URL" (set_net n1 h)) as (b1 & ? & E & _ & (n2 & ->) & _).
  unfold ApiserverMain.connectEventBus. rewrite (bind_runs _ _ _ _ _ E). clear E.
  edestruct (ensure_or_drop_ends placement_stream b1) as (b2 & n3 & E & Hb2).
  rewrite (bind_runs _ _ _ _ _ E). clear E.
  edestruct (ensure_or_drop_ends assignments_stream b2) as (b3 & n4 & E & Hb3).
  rewrite (bind_runs _ _ _ _ _ E), (bind_runs _ _ _ _ _ (setting_runs _ _)). clear E. simpl in *.
  set (srv := ApiserverMain.WithImageRegistry _ _).
  edestruct (SubscribeBuilds_ends srv) as (n5 & subs & E & Hsubs & Hkeep).
  rewrite (bind_runs _ _ _ _ _ E), (bind_runs _ _ _ _ _ (setting_runs _ _)). clear E. simpl in *.
  match goal with |- context [ListenAndServe ?addr ≫= _] =>
    destruct (ListenAndServe_ends addr (started_with (set_net n4 (set_net n3 (set_net n2 (set_net n1 h)))) n5 subs []))
      as (l & E) end.
  rewrite (bind_runs _ _ _ _ _ E). clear E. simpl.
  assert (srv.(ApiserverMain.srv_bus) = b3) as Hb.
  { unfold srv, ApiserverMain.WithImageRegistry. by case_decide. }
  eexists srv, _. split; [reflexivity|]. simpl. split; [done|]. split; [apply app_nil_r|]. split.
  { unfold srv, ApiserverMain.WithImageRegistry, String_.
    destruct (decide (Getenv (h_env h) "IMAGE_REGISTRY_ADDR" = "")) as [->|Hr]; [done|].
    rewrite !decide_True by (rewrite ?decide_True by done; done). done. }
  rewrite Hb in Hsubs |- *. destruct b3.
  - destruct (Hb3 eq_refl) as [-> E4]. destruct (Hb2 eq_refl) as [_ E3].
    rewrite listen_streams, !Hkeep by done. rewrite E4, E3. split.
    { by rewrite lookup_insert_ne, lookup_insert_eq by done. }
    split; [by rewrite lookup_insert_eq|]. destruct Hsubs as [->|[_ ->]]; [left; apply app_nil_r|by right].
  - destruct Hsubs as [->|[[=] _]]. apply app_nil_r.
Qed.
End apiserver.
