(* ===== verification/AtWork.v ===== *)
(** * AtWork: the processes while they run

    What the scheduler and the balancer keep once they have started, whatever
    messages they are given, whenever their tickers fire, and whatever the
    others do in the meantime to the database they share; the settings that
    make a start panic; the mains on a concrete network. *)
From S2P Require Import Prelude Json Schema Effects Settings EventBus DbCluster Wire Sample Slug Scheduler DeployController ServiceController LbRegistry LoadBalancer Auth ApiApps Runtime NodeAgent ImageBuilder Startup Started.
From stdpp Require Import base gmap strings list.
From Stdlib Require Import ZArith Lia Ascii String.
Open Scope Z_scope.
Open Scope list_scope.

(** ** The scheduler *)

Section scheduler.
Context `{Network} `{!NetworkLaws} `{UUIDText} `{TimeText}.

(** What a step of the running scheduler is: the message of one of its four
    subscriptions, in the order its main makes them, or its ticker's tick. *)
Definition own_input (o : Occurrence (S:=World)) : option input :=
  match o with
  | Delivered 0 _ m => Some (InRegister m.(Message_Data))
  | Delivered 1 _ m => Some (InHeartbeat m.(Message_Data))
  | Delivered 2 _ m => Some (InPlacement m.(Message_Data))
  | Delivered 3 _ m => Some (InStatus m.(Message_Data))
  | Fired 0 => Some InSweep
  | _ => None
  end.

(** C10: a scheduler at work.  Once its main has started it, its steps are
    exactly the scheduler's inputs: whatever happened before, its own steps and
    any changes the others made to the database among them, a message of one
    of its four subscriptions or a tick of its ticker does what [handle] does
    with it, under the settings main read, and nothing else of its own changes
    anything.  And in each of these steps, with any call failing, no container
    disappears, moves or forgets its runtime id or its stamps, and if all
    containers were stamped they still are. *)
Theorem scheduler_at_work (h h' : Host World) :
  SchedulerMain.main h = (Done tt, h') → h.(h_subs) = [] → h.(h_tickers) = [] →
  ∃ cfg, SchedulerMain.config h = (Done cfg, h) ∧
  ∀ os o, (∀ f, o ≠ Meanwhile f) →
    let w := (steps os h').(h_state) in let w' := (steps (os ++ [o]) h').(h_state) in
    w' = match own_input o with Some i => on_world (handle cfg i) w | None => w end
    ∧ containers_evolve w.(w_db) w'.(w_db).
Proof.
  intros E Hs Ht. destruct (scheduler_started _ _ E) as (n0 & n & cfg & Hcfg & _ & _ & ->).
  exists cfg. split; [done|]. intros os o Ho w w'.
  set (h0 := started_with _ _ _ _) in *.
  assert (h0.(h_subs) = registry_subs ++ [placement_sub; status_sub]) as Hsub0 by (simpl; by rewrite Hs).
  assert (h0.(h_tickers) = [mkTicker cfg.(Scheduler.LivenessSweepInterval) (on_world (sweepUnreachable cfg))])
    as Htick0 by (simpl; by rewrite Ht).
  clearbody h0.
  assert (w' = match own_input o with Some i => on_world (handle cfg i) w | None => w end) as Hw.
  { unfold w', w, steps. rewrite foldl_app. simpl. fold (steps os h0).
    destruct (steps_static os h0) as [Hsub Htick]. rewrite Hsub0 in Hsub. rewrite Htick0 in Htick.
    destruct o as [k i m|k|f]; [| |by destruct (Ho f)]; simpl.
    - rewrite Hsub. by do 4 (destruct k as [|k]; [done|]).
    - rewrite Htick. by destruct k as [|k]. }
  split; [done|]. rewrite Hw. destruct (own_input o) as [i|]; [apply handle_evolve|reflexivity].
Qed.
End scheduler.

(** ** The balancer *)

Section balancer.
Context `{Network} `{!NetworkLaws} `{MapOrder} `{UUIDText}.
Context (probes : Registry → list (Instance * Probe * time)).
(** The name of the service a container serves. *)
Context (dns_of : uuid → string).

(** The database names each container in at most one instance, of its own
    service; the registry lists it under that service. *)
Definition named_db (d : DB) : Prop :=
  one_instance_per_container d
  ∧ ∀ e, e ∈ LoadBalancerRepository.registry_rows d →
      e.(ServiceRegistryEntry_DNSName) = dns_of e.(ServiceRegistryEntry_ContainerID).
Definition named_registry (r : Registry) : Prop :=
  wf r ∧ ∀ dns x, x ∈ instances r dns → dns = dns_of x.(Instance_ContainerID).
Definition named (s : LoadBalancerMain.Balancer) : Prop :=
  named_db s.(LoadBalancerMain.lb_world).(w_db) ∧ named_registry s.(LoadBalancerMain.lb_registry).

Lemma named_refreshing f s :
  (∀ r w, named_db w.(w_db) → named_registry r →
     (f r w).2.(w_db) = w.(w_db) ∧ ∀ r', (f r w).1 = Ok r' → named_registry r') →
  named s → named (LoadBalancerMain.refreshing f s).
Proof.
  intros Hf [Hd Hr]. destruct (Hf _ _ Hd Hr) as [Hw Hok]. unfold LoadBalancerMain.refreshing, named.
  destruct (f _ _) as [[r'|e] w']; simpl in *; rewrite Hw; auto.
Qed.
Lemma named_resync r w : named_db w.(w_db) → named_registry r →
  (resync r w).2.(w_db) = w.(w_db) ∧ ∀ r', (resync r w).1 = Ok r' → named_registry r'.
Proof.
  intros [Hu Hn] [Hwf Hl]. unfold resync, mbind, M_bind.
  destruct (resync_services_cases r w) as (r1 & w1 & -> & Hd1 & _ & _ & Hs).
  destruct (resync_routes_cases r1 w1) as (r2 & w2 & -> & Hd2 & Ht). simpl.
  split; [congruence|]. intros r' [= <-].
  assert (named_registry r1) as [Hwf1 Hl1].
  { destruct Hs as [[_ ->]| ->]; [done|]. split; [by apply ReplaceAll_wf, registry_well_listed|].
    intros dns x Hx. change (x ∈ listed (group (LoadBalancerRepository.registry_rows w.(w_db))) dns) in Hx.
    rewrite group_listed in Hx.
    apply list_elem_of_fmap in Hx as (e & -> & [<- He]%list_elem_of_filter). by apply Hn. }
  destruct Ht as [[_ ->]| ->]; [done|]. split; [by apply ReplaceHostRoutes_wf|done].
Qed.
Lemma named_updated data r w : named_db w.(w_db) → named_registry r →
  (handleServiceUpdated data r w).2.(w_db) = w.(w_db)
  ∧ ∀ r', (handleServiceUpdated data r w).1 = Ok r' → named_registry r'.
Proof.
  intros [Hu Hn] [Hwf Hl]. unfold handleServiceUpdated.
  destruct (Unmarshal data) as [msg|]; [|simpl; split; [done|]; by intros r' [= <-]].
  destruct (uuid_Parse _) as [id|]; [|simpl; split; [done|]; by intros r' [= <-]].
  rewrite bind_try. destruct (GetHealthy_cases PoolConn id w) as (o & w1 & -> & Hd & Ho).
  simpl. destruct o as [o|e]; [subst o|simpl; split; [done|]; by intros r' [= <-]].
  destruct (rows_about w.(w_db) id) as [|e l] eqn:E; simpl; (split; [done|]); intros r' [= <-].
  - split; [by apply removeLocked_wf|]. intros dns x Hx.
    unfold Remove in Hx. rewrite removeLocked_instances in Hx by done.
    apply list_elem_of_filter in Hx as [_ Hx]. by apply Hl.
  - assert (e ∈ rows_about w.(w_db) id) as [Hid He]%list_elem_of_filter by (rewrite E; left).
    split.
    + apply Upsert_wf; [done|]. intros dns Hd'. apply list_elem_of_fmap in Hd' as (x & Hx & Hin).
      rewrite (Hl _ _ Hin), <-Hx. symmetry. by apply Hn.
    + intros dns x. rewrite Upsert_elem by done. intros [[-> ->]|[Hin _]]; [by apply Hn|by apply Hl].
Qed.

Lemma named_same r r' :
  (∀ dns, instances r' dns = instances r dns) → wf r' → named_registry r → named_registry r'.
Proof. intros Hi Hwf [_ Hl]. split; [done|]. intros dns x. rewrite Hi. apply Hl. Qed.
Lemma named_sweeping ttl s : named s → named (LoadBalancerMain.sweeping ttl s).
Proof.
  intros [Hd [Hwf Hl]]. split; [done|]. simpl. unfold Sweep. set (l := stale _ _ _).
  destruct (removeLocked_all l s.(LoadBalancerMain.lb_registry) Hwf) as (Hwf' & Hi & _).
  split; [done|]. intros dns x. rewrite Hi. intros [_ Hx]%list_elem_of_filter. by apply Hl.
Qed.
Lemma named_probing interval s : named s → named (LoadBalancerMain.probing probes interval s).
Proof.
  intros [Hd Hn]. split; [done|]. simpl. unfold probeAll. generalize (probes (LoadBalancerMain.lb_registry s)).
  intros l. revert Hn. generalize (LoadBalancerMain.lb_registry s). induction l as [|[[i p] t] l IH]; [done|].
  intros r Hn. simpl. apply IH. apply (named_same r); [|by apply probeOne_wf, Hn|done].
  intros dns. destruct p; simpl; [done..|]. by case_decide.
Qed.

(** C33: a balancer at work, started with an empty registry, over a database in
    which containers keep their service: whatever it is told, however its
    probes end and whenever its tickers fire, its registry lists a container
    once and under its own service, so that a request is never answered with a
    panic and only ever goes to an instance of the service it names. *)
Theorem balancer_at_work (h h' : Host LoadBalancerMain.Balancer) os :
  LoadBalancerMain.main probes h = (Done tt, h') →
  h.(h_subs) = [] → h.(h_tickers) = [] →
  h.(h_state).(LoadBalancerMain.lb_registry) = LbRegistry.New →
  named_db h.(h_state).(LoadBalancerMain.lb_world).(w_db) →
  Forall (allowed named) os →
  let r := (steps os h').(h_state).(LoadBalancerMain.lb_registry) in
  named_registry r
  ∧ ∀ window backend req now, ∃ resp r', ServeHTTP window backend req now r = (Some resp, r')
      ∧ named_registry r'
      ∧ ∀ x status, resp = Forwarded x status →
          resolveDNSName req r = Some (dns_of x.(Instance_ContainerID)).
Proof.
  intros E Hs Ht Hr Hd Hos r.
  assert (keeps_all named h' ∧ named h'.(h_state)) as [Hk Hi].
  { unfold LoadBalancerMain.main, LoadBalancerMain.connectEventBus, LoadBalancerMain.Checker_Run in E.
    boot_inv. rewrite Hs, Ht. simpl.
    assert (named h.(h_state)) as Hn.
    { split; [done|]. rewrite Hr. split; [apply New_wf|]. intros dns y Hy. by apply not_elem_of_nil in Hy. }
    split; [|by apply named_refreshing; [apply named_resync|]]. split.
    - intros ? ->%list_elem_of_singleton m s. simpl. apply named_refreshing. intros; by apply named_updated.
    - intros tk Hin s. simpl in Hin. rewrite !elem_of_cons, elem_of_nil in Hin. destruct Hin as [->|[->|[->|[]]]]; simpl.
      + apply named_refreshing, named_resync.
      + apply named_sweeping.
      + apply named_probing. }
  apply (steps_keep named os h') in Hi as [_ Hn]; [|done..]. fold r in Hn. split; [done|].
  intros window backend req now. unfold ServeHTTP.
  destruct (resolveDNSName req r) as [dns|] eqn:Hres; [|by exists NotFound, r].
  destruct (Next_correct r dns now (proj1 Hn)) as (o & r1 & -> & Hav & _ & Hwf1 & cs & ->).
  assert (named_registry (mkRegistry r.(byDNS) cs r.(lastSeen) r.(unhealthyUntil) r.(hostRoutes)))
    as Hn1 by (by apply (named_same r)).
  destruct o as [x|]; [|by eexists ServiceUnavailable, _].
  destruct (backend x) as [status|t] eqn:Eb.
  - eexists _, _. split; [done|]. split; [done|]. intros y st [= <- <-]. f_equal.
    apply (proj2 Hn dns). by apply Hav.
  - eexists _, _. split; [done|]. split; [|done].
    apply (named_same r); [done|by apply set_unhealthy_wf|done].
Qed.
End balancer.

(** ** The worker starts without a bus *)

Section worker.
Context `{Network} `{!NetworkLaws} `{MapOrder} `{UUIDText} `{TimeText} {RT : Type} `{!ContainerRuntime RT}.

(** [m] never exits, and panics only if [Q]. *)
Definition survives (Q : Prop) {S A} (m : Boot S A) : Prop :=
  ∀ h, match (m h).1 with Done _ | Failed _ => True | Exit _ => False | Panic _ => Q end.
Lemma survives_bind Q {S A B} (m : Boot S A) (k : A → Boot S B) :
  survives Q m → (∀ a, survives Q (k a)) → survives Q (m ≫= k).
Proof.
  intros Hm Hk h. unfold mbind, Boot_bind. specialize (Hm h). destruct (m h) as [[a|e|c|e] h1]; try done.
  apply Hk.
Qed.
Lemma survives_on_error Q {S A} (m : Boot S A) k :
  survives Q m → (∀ e, survives Q (k e)) → survives Q (on_error m k).
Proof.
  intros Hm Hk. apply survives_bind; [|by intros [a|e]; [|apply Hk]].
  intros h. unfold attempt. specialize (Hm h). by destruct (m h) as [[a|e|c|e] h1].
Qed.
Lemma survives_wrapped Q {S A} p (m : Boot S A) : survives Q m → survives Q (wrapped p m).
Proof. intros Hm. by apply survives_on_error. Qed.
Lemma survives_calls Q {S} f : survives Q (calls (S:=S) f).
Proof. intros h. unfold calls. by destruct (f (h_net h)) as [[e|] n]. Qed.
Lemma survives_ensure Q {S} cfg : survives Q (ensure (S:=S) cfg).
Proof. apply survives_wrapped, survives_wrapped, survives_calls. Qed.
Lemma survives_SubscribeDurable Q {S} st c subject f :
  survives Q (SubscribeDurable (S:=S) st c subject f).
Proof.
  apply survives_bind; [apply survives_wrapped, survives_calls|]. intros [].
  apply survives_bind; [apply survives_wrapped, survives_calls|]. by intros [].
Qed.
Lemma survives_NewTicker {S} d f : survives (d ≤ 0) (NewTicker (S:=S) d f).
Proof. intros h. unfold NewTicker. by case_decide. Qed.

(** The agent's [Run] panics only on its heartbeat interval. *)
Lemma Run_survives cfg heartbeat health :
  survives (heartbeat ≤ 0) (WorkerMain.Run (RT:=RT) cfg heartbeat health).
Proof.
  unfold WorkerMain.Run, WorkerMain.subscribeAssignments, WorkerMain.subscribeUnassign.
  apply survives_bind; [done|]. intros [].
  apply survives_bind.
  { apply survives_wrapped, survives_bind; [apply survives_ensure|]. intros [].
    apply survives_bind; [apply survives_ensure|]. intros []. apply survives_SubscribeDurable. }
  intros []. apply survives_on_error; [|intros e; by apply survives_bind].
  apply survives_bind; [apply survives_wrapped, survives_SubscribeDurable|]. intros [].
  apply survives_bind; [apply survives_NewTicker|]. intros [] h. simpl.
  assert (∀ d, 0 < d → NewTicker d (checkTrackedContainers cfg) h
    = (Done tt, add_ticker (mkTicker d (checkTrackedContainers cfg)) h)) as Hn.
  { intros d Hd. unfold NewTicker. by rewrite decide_False by lia. }
  by case_decide; rewrite Hn by (unfold Second; lia).
Qed.

(** C27: a worker starts if and only if a Docker client can be made of its
    environment, which contacts no daemon; when none can, it exits at once,
    having done nothing.  Neither a daemon that is out of reach, nor an
    unreachable bus, nor an unreadable node id, nor a refused subscription ends
    it; one setting does: a heartbeat interval that is not positive, for which
    nothing is substituted, unlike for the health check interval, makes it
    panic. *)
Theorem worker_starts mc (h : Host (Agent RT)) :
  (∀ e, docker_New h.(h_env) = Some e → WorkerMain.main mc h = (Exit 1, h))
  ∧ (docker_New h.(h_env) = None →
      (WorkerMain.main mc h).1 = Done tt
      ∨ Duration h.(h_env) "WORKER_HEARTBEAT_INTERVAL" (5 * Second) ≤ 0
        ∧ ∃ msg, (WorkerMain.main mc h).1 = Panic msg).
Proof.
  unfold WorkerMain.main, or_exit. split.
  - intros e Ed.
    assert (NewDockerRuntime h = (Failed (Errorf "connecting to docker daemon" (Opaque e)), h)) as E.
    { unfold NewDockerRuntime. by rewrite Ed. }
    by rewrite (bind_exits _ _ _ _ _ (on_error_fails _ _ _ _ _ E)).
  - intros Ed.
    assert (NewDockerRuntime h = (Done tt, h)) as E by (unfold NewDockerRuntime; by rewrite Ed).
    rewrite (bind_runs _ _ _ _ _ (on_error_runs _ _ _ _ _ E)), (bind_runs _ _ _ _ _ (setting_runs _ _)).
    clear E. simpl.
    destruct (ListenAndServe_ends (String_ (h_env h) "WORKER_LISTEN_ADDR" ":7100") h) as (l & E).
    rewrite (bind_runs _ _ _ _ _ E). clear E.
    match goal with |- context [mbind _ WorkerMain.connectEventBus ?h1] =>
      destruct (connect_ends_in "WORKER_NATS_URL" h1) as (b & h2 & E & _ & (n2 & ->) & _) end.
    unfold WorkerMain.connectEventBus. rewrite (bind_runs _ _ _ _ _ E). clear E.
    destruct b; [|by left]. unfold WorkerMain.runNodeAgent.
    destruct ((LoadOrCreateNodeID _ _ _).1) as [nodeID|]; [|by left].
    do 6 rewrite (bind_runs _ _ _ _ _ (setting_runs _ _)). simpl.
    set (cfg := mkNodeConfig _ _ _ _ _ _).
    match goal with |- context [on_error ?m ?k ?h1] => pose proof (Run_survives cfg
      (Duration (h_env h) "WORKER_HEARTBEAT_INTERVAL" (5 * Second))
      (Duration (h_env h) "WORKER_HEALTH_CHECK_INTERVAL" (3 * Second)) h1) as Hs end.
    unfold on_error, attempt, mbind, Boot_bind.
    destruct (WorkerMain.Run cfg _ _ _) as [[[]|e|c|msg] h3]; simpl in *; [by left|by left|done|].
    right. by split; [|exists msg].
Qed.
End worker.
