(* ===== verification/SimNet.v ===== *)
(** * SimNet: a concrete network, and the starts on it

    A network to evaluate the mains on: a clock, the time from which the NATS
    server answers, the time of a signal, the streams it holds and the messages
    it still has to deliver.  The theorems of [EventBus], [Started] and [AtWork]
    are applied to it. *)
From S2P Require Import Prelude Json Schema Effects Settings EventBus DbCluster Wire Sample Slug Scheduler DeployController ServiceController LbRegistry LoadBalancer Auth ApiApps Runtime NodeAgent ImageBuilder Startup Started AtWork.
From stdpp Require Import base gmap strings list.
From Stdlib Require Import ZArith Lia Ascii String.
Open Scope Z_scope.
Open Scope list_scope.

Record Sim := mkSim {
  s_clock : time; s_up : time; s_signal : option time;
  s_streams : gmap string (list string); s_undelivered : gset N }.
Definition set_clock (t : time) (n : Sim) : Sim :=
  mkSim t n.(s_up) n.(s_signal) n.(s_streams) n.(s_undelivered).
Definition put_stream (name : string) (subjects : list string) (n : Sim) : Sim :=
  mkSim n.(s_clock) n.(s_up) n.(s_signal) (<[name := subjects]> n.(s_streams))
    n.(s_undelivered).
Definition put_undelivered (u : gset N) (n : Sim) : Sim :=
  mkSim n.(s_clock) n.(s_up) n.(s_signal) n.(s_streams) u.
Definition sim_canceled (n : Sim) : bool :=
  match n.(s_signal) with Some t => bool_decide (t ≤ n.(s_clock)) | None => false end.
Definition sim_wait (d : time) (n : Sim) : bool * Sim :=
  let fires := n.(s_clock) + Z.max d 0 in
  match n.(s_signal) with
  | Some t => if decide (t < fires) then (false, set_clock (Z.max t n.(s_clock)) n)
              else (true, set_clock fires n)
  | None => (true, set_clock fires n)
  end.
Definition sim_takes (subject : string) (n : Sim) : bool :=
  existsb (λ e, existsb (λ f, subject_matches f subject) e.2) (map_to_list n.(s_streams)).

#[export] Instance sim : Network := {
  net := Sim;
  clock := s_clock;
  canceled := sim_canceled;
  after_or_done := sim_wait;
  pgxpool_New _ n := (None, n);
  pool_Ping _ n := (None, n);
  docker_New env := if String.prefix "tcp:" (String_ env "DOCKER_HOST" "tcp://") then None
                    else Some "unable to parse docker host";
  http_Listen _ n := (None, n);
  nats_Connect _ n := (if decide (n.(s_up) ≤ n.(s_clock)) then None
                       else Some "nats: no servers available for connection", n);
  jetstream_New n := (None, n);
  nats_Close n := n;
  conn_Publish _ _ n := (None, n);
  conn_Subscribe _ n := (None, n);
  js_CreateOrUpdateStream cfg n :=
    (None, put_stream cfg.(StreamConfig_Name) cfg.(StreamConfig_Subjects) n);
  js_Publish subject _ n := (if sim_takes subject n then None
                             else Some "nats: no response from stream", n);
  js_CreateOrUpdateConsumer st _ n := (match n.(s_streams) !! st with
                                       | Some _ => None | None => Some "nats: stream not found" end, n);
  consumer_Consume _ _ n := (None, n);
  msg_Ack i n := (None, put_undelivered (n.(s_undelivered) ∖ {[i]}) n);
  msg_Nak _ n := (None, n);
  streams := s_streams }.
#[export] Instance sim_laws : NetworkLaws.
Proof.
  split; try done; intros.
  - simpl. unfold sim_wait. destruct (s_signal n); [case_decide|]; simpl; lia.
  - simpl in *. unfold sim_wait in *. destruct (s_signal n); [case_decide|]; simplify_eq/=; lia.
  - simpl in *. unfold sim_wait, sim_canceled in *. destruct (s_signal n) eqn:E; [case_decide|]; simplify_eq/=.
    rewrite E. apply bool_decide_eq_true. lia.
  - by injection H as <-.
  - simpl in *. by rewrite lookup_insert_ne.
  - simpl in *. destruct (sim_takes subject n) eqn:E; [|done]. unfold sim_takes in E.
    apply existsb_exists in E as ([name subjects] & Hin & (f & Hf & Hm)%existsb_exists).
    exists name, subjects, f. split; [|split; [by apply list_elem_of_In|done]].
    by apply elem_of_map_to_list, list_elem_of_In.
  - simpl in *. destruct (s_streams n !! st); by simplify_eq.
Qed.

(** ** Connecting *)

#[local] Existing Instances hexUUID hexTime fixed_order desk.

(** A process that starts: the server comes up seven seconds later. *)
Definition fresh_net (signal : option time) : Sim :=
  mkSim (100 * Second) (107 * Second) signal ∅ {[7%N]}.
Definition starting {S} (s : S) (signal : option time) : Host S :=
  mkHost {["JWT_SIGNING_KEY" := "secret"]} (fresh_net signal) s [] [] [].

Lemma sim_up url : server_comes_up url (107 * Second) 0 (λ n, n.(s_signal) = None ∧ n.(s_up) = 107 * Second).
Proof.
  split; simpl; intros n [Hs Hu].
  - split_and!; try done; unfold sim_wait; by rewrite Hs.
  - intros Ht. split; [|done]. by rewrite decide_True by lia.
  - unfold sim_canceled. by rewrite Hs.
  - lia.
Qed.
(** With a signal after three seconds, and with none. *)
Lemma connectEventBus_correct_witness :
  (connectEventBus "X_NATS_URL" (starting tt (Some (103 * Second)))).1 = Done false
  ∧ ∃ h', connectEventBus "X_NATS_URL" (starting tt None) = (Done true, h').
Proof.
  split; [vm_compute; reflexivity|].
  destruct (connectEventBus_correct "X_NATS_URL" (starting tt None)) as (b & h' & E & _ & _ & _ & Hb).
  rewrite (Hb (107 * Second) 0 _ (sim_up _)) in E; [by exists h'|by split|simpl; unfold Second; lia].
Defined.

(** ** One service after the other *)

(** The next process, on the network the last one left. *)
Definition next_on {S S'} (h : Host S) (s : S') : Host S' :=
  mkHost {["JWT_SIGNING_KEY" := "secret"]} h.(h_net) s [] [] [].
Definition api_up : Host World := (ApiserverMain.main (starting sampleWorld None)).2.
Definition manager_up : Host ControllerMain.Manager :=
  (ControllerMain.main true (next_on api_up (ControllerMain.NewServiceInstanceController sampleWorld))).2.
Definition scheduler_up : Host World := (SchedulerMain.main (next_on manager_up sampleWorld)).2.
Definition machine : WorkerMain.Machine :=
  WorkerMain.mkMachine FileAbsent 40 true (Some "a") (Some "10.0.0.1").
Definition worker_up : Host (Agent Shelf) :=
  (WorkerMain.main machine (next_on scheduler_up (WorkerMain.New sampleWorld (∅ : Shelf)))).2.
Definition balancer_up : Host LoadBalancerMain.Balancer :=
  (LoadBalancerMain.main (λ _, []) (next_on scheduler_up (LoadBalancerMain.mkBalancer servedWorld LbRegistry.New))).2.

(** The release of a container of node [40], before and after the scheduler's
    start, and again once a worker has started. *)
Definition release {S} (h : Host S) : Outcome unit :=
  (natsBus_PublishDurable (NodeUnassignSubject (uuid_String 40)) JNull h).1.
Lemma releases :
  release manager_up = Done tt
  ∧ (∃ e, release scheduler_up = Failed e)
  ∧ release worker_up = Done tt.
Proof. vm_compute. split; [done|]. split; [by eexists|done]. Qed.

Lemma ran {S A} (m : Boot S A) h a : (m h).1 = Done a → m h = (Done a, (m h).2).
Proof. intros <-. apply surjective_pairing. Qed.
Lemma manager_ran :
  ControllerMain.main true (next_on api_up (ControllerMain.NewServiceInstanceController sampleWorld)) = (Done tt, manager_up).
Proof. unfold manager_up. refine (ran _ _ tt _). vm_compute. reflexivity. Qed.
Lemma scheduler_ran : SchedulerMain.main (next_on manager_up sampleWorld) = (Done tt, scheduler_up).
Proof. unfold scheduler_up. refine (ran _ _ tt _). vm_compute. reflexivity. Qed.
Lemma last_start_decides_witness :
  takes manager_up.(h_net) NodeAssignmentsStream (NodeUnassignSubject (uuid_String 40))
  ∧ ∃ e h2, natsBus_PublishDurable (NodeUnassignSubject (uuid_String 40)) JNull scheduler_up = (Failed e, h2).
Proof.
  destruct (last_start_decides (uuid_String 40) JNull) as [Hm Hs]; [eexists; vm_compute; reflexivity|].
  split.
  - apply (Hm true (next_on api_up (ControllerMain.NewServiceInstanceController sampleWorld)) manager_up).
    exact manager_ran.
  - apply (Hs (next_on manager_up sampleWorld) scheduler_up); [exact scheduler_ran|].
    split.
    + intros st subjects Hst. apply elem_of_map_to_list in Hst. revert Hst.
      set (l := map_to_list _). vm_compute in l. subst l.
      rewrite !elem_of_cons, elem_of_nil. unfold platform_streams.
      intros [[= -> _]|[[= -> _]|[[= -> _]|[[= -> _]|[]]]]]; repeat first [left; reflexivity|right].
    + vm_compute. by intros subjects [= <-].
Defined.

Lemma apiserver_starts_witness :
  ∃ srv h', ApiserverMain.main (starting sampleWorld None) = (Done srv, h')
    ∧ srv = ApiserverMain.mkServer true "localhost:5000".
Proof.
  destruct (apiserver_starts (starting sampleWorld None)) as (_ & _ & H).
  destruct (H ltac:(vm_compute; discriminate) (starting sampleWorld None) eq_refl)
    as (srv & h' & E & _).
  exists srv, h'. split; [exact E|]. apply (f_equal fst) in E. vm_compute in E. by injection E as <-.
Defined.
Lemma worker_starts_witness :
  (WorkerMain.main machine (starting (mkAgent sampleWorld (∅ : Shelf) ∅) None)).1 = Done tt.
Proof.
  destruct (worker_starts machine (starting (mkAgent sampleWorld (∅ : Shelf) ∅) None)) as [_ H].
  destruct (H eq_refl) as [Hd|[Hh _]]; [exact Hd|]. vm_compute in Hh. by destruct Hh.
Defined.

(** ** At work *)

(** Another one's statement, a message that is no JSON, a sweep. *)
Definition some_day : list (Occurrence (S:=World)) :=
  [Meanwhile (set_gen 2000); Delivered 2 7 (mkMessage PlacementRequestedSubject None); Fired 0].
(** Started alone, the scheduler acknowledges what its placement consumer is
    given. *)
Lemma third_is_placement :
  sub_delivery <$> (SchedulerMain.main (starting sampleWorld None)).2.(h_subs) !! 2%nat
  = Some (Durable PlacementStream "scheduler-placement").
Proof. vm_compute. reflexivity. Qed.
Lemma nothing_left : (steps some_day scheduler_up).(h_net).(s_undelivered) = ∅.
Proof. vm_compute. reflexivity. Qed.
Lemma always_acknowledged_witness :
  ∃ x, (SchedulerMain.main (starting sampleWorld None)).2.(h_subs) !! 2%nat = Some x
    ∧ ∀ m, let h := steps [] (SchedulerMain.main (starting sampleWorld None)).2 in
        EventBus.step (Delivered 2 7 m) h
        = set_net (msg_Ack 7%N h.(h_net)).2 (set_state (x.(sub_handler) m h.(h_state)).2 h).
Proof.
  destruct (always_acknowledged (λ _, []) machine true (starting sampleWorld None) (starting sampleWorld None)
    (starting (ControllerMain.NewServiceInstanceController sampleWorld) None)
    (starting (mkAgent sampleWorld (∅ : Shelf) ∅) None)
    (starting (mkBuilder sampleWorld (∅ : Desk)) None)
    (starting (LoadBalancerMain.mkBalancer sampleWorld LbRegistry.New) None))
    as (Hs & _); [reflexivity..|].
  pose proof third_is_placement as Hp. revert Hs Hp.
  generalize (SchedulerMain.main (starting sampleWorld None)).2. intros h Hs Hp.
  destruct (h.(h_subs) !! 2%nat) as [x|] eqn:Hx; [|discriminate Hp]. injection Hp as Hd.
  exists x. split; [reflexivity|]. intros m. exact (Hs [] 2%nat x _ _ 7%N m Hx Hd).
Defined.
Lemma scheduler_at_work_witness :
  ∃ cfg, SchedulerMain.config (next_on manager_up sampleWorld) = (Done cfg, next_on manager_up sampleWorld) ∧
  let w := (steps some_day scheduler_up).(h_state) in
  let w' := (steps (some_day ++ [Fired 0]) scheduler_up).(h_state) in
  w' = match own_input (Fired 0) with Some i => on_world (handle cfg i) w | None => w end
  ∧ containers_evolve w.(w_db) w'.(w_db).
Proof.
  destruct (scheduler_at_work (next_on manager_up sampleWorld) scheduler_up) as (cfg & Hcfg & H);
    [exact scheduler_ran|reflexivity..|].
  exists cfg. split; [exact Hcfg|]. apply (H some_day (Fired 0)). intros f Hf. discriminate Hf.
Defined.
Lemma served_named : named_db (λ _, "shop.web") servedDB.
Proof.
  split; [exact served_unique|].
  assert (LoadBalancerRepository.registry_rows servedDB
    = [mkServiceRegistryEntry "shop.web" 50 "10.0.0.1" 32768]) as -> by (vm_compute; reflexivity).
  by intros e ->%list_elem_of_singleton.
Qed.
Lemma balancer_at_work_witness :
  let r := (steps [Fired 0; Fired 1] balancer_up).(h_state).(LoadBalancerMain.lb_registry) in
  named_registry (λ _, "shop.web") r ∧ r.(byDNS) !! "shop.web" = Some [mkInstance 50 "10.0.0.1" 32768].
Proof.
  split; [|vm_compute; reflexivity].
  refine (proj1 (balancer_at_work (λ _, []) (λ _, "shop.web")
    (next_on scheduler_up (LoadBalancerMain.mkBalancer servedWorld LbRegistry.New)) balancer_up
    [Fired 0; Fired 1] _ _ _ _ _ _)).
  - unfold balancer_up. refine (ran _ _ tt _). vm_compute. reflexivity.
  - reflexivity.
  - reflexivity.
  - reflexivity.
  - exact served_named.
  - repeat constructor.
Defined.
