(* ===== verification/Pipeline.v ===== *)
(** * Pipeline: the services together

    What one service publishes the next one reads: a placement request goes
    through the scheduler to a node's agent and its engine and back to the
    container's row. *)
From S2P Require Import Prelude Json Schema Effects Outcomes DbWorkload DbCluster Wire Scheduler.
From S2P Require Import Runtime NodeAgent Sample.
From stdpp Require Import base gmap strings list.
From Stdlib Require Import ZArith Lia.
Open Scope Z_scope.

Section pipeline.
Context `{UUIDText} `{TimeText} {RT : Type} `{!ContainerRuntime RT}.
(** What the engine says of a container fits the machine. *)
Hypothesis exit_codes : ∀ id s info s', ContainerStatus_ id s = (RtOk info, s') → int64_ok info.(Info_ExitCode) = true.

(** The status a row gets for what the engine says. *)
Definition row_status (info : ContainerStatusInfo) : ContainerStatus :=
  match info.(Info_Status) with
  | StatusPending => ContainerStatusPending
  | StatusRunning => ContainerStatusRunning
  | StatusExited => if decide (info.(Info_ExitCode) = 0) then ContainerStatusStopped else ContainerStatusCrashed
  | _ => ContainerStatusCrashed
  end.
Lemma row_status_text info : of_text (containerStatus info) = Some (row_status info).
Proof.
  rewrite <-(of_to_text (row_status info)). f_equal. unfold containerStatus, row_status.
  by destruct (Info_Status info); try case_decide.
Qed.
(** What a row becomes when the engine was asked for its container. *)
Definition row_after (r : RtRes ContainerStatusInfo) (t : time) (c : Container) : Container :=
  match r with
  | RtErr _ => ContainerRepository.with_status ContainerStatusCrashed None t c
  | RtOk info => ContainerRepository.with_status (row_status info)
                   (if decide (info.(Info_ID) = "") then None else Some info.(Info_ID)) t c
  end.

Lemma started_exit_code msg s info s' :
  startAssignedContainer msg s = (RtOk info, s') → int64_ok info.(Info_ExitCode) = true.
Proof.
  unfold startAssignedContainer, rt_bind, rt_wrap. repeat (case_match; simplify_eq/=; try done).
  intros [= <- <-]. by eapply exit_codes.
Qed.

(** The status an agent reports is the observation the scheduler accepts. *)
Lemma status_accepted i c st code ports t st' :
  int64_ok code = true → of_text st = Some st' →
  accepted (Some (to_json (status_message (uuid_String i) c st code ports t)))
  = Some (i, st', if decide (c = "") then None else Some c).
Proof.
  intros Hcode Hst. unfold accepted. rewrite statusMessage_observed by done. simpl.
  by rewrite uuid_Parse_String, Hst.
Qed.

(** One assignment, from its message to the row. *)
Lemma assignment_to_row cfg (a : Agent RT) (m : assignMessage) id data :
  calm a.(a_world) → Unmarshal data = Some m → m.(assignMessage_AssignmentID) = uuid_String id →
  let a' := handleAssignment cfg data a in
  let r := (startAssignedContainer m a.(a_rt)).1 in
  a'.(a_rt) = (startAssignedContainer m a.(a_rt)).2
  ∧ ∃ status, messages a'.(a_world) = messages a.(a_world) ++
        [EvPublishDurable (NodeStatusSubject (uuid_String cfg.(Config_NodeID))) status]
      ∧ ∀ w, calm w →
          (handleStatus (Some status) w).2.(w_db)
          = set_containers (alter (row_after r w.(w_now)) id w.(w_db).(containers)) w.(w_db).
Proof.
  intros Hc Hm Hid. cbv zeta. pose proof (assignment_handled cfg data m a Hm) as Hdone.
  unfold assignment_done in Hdone.
  destruct (startAssignedContainer m a.(a_rt)) as [[info|er] s'] eqn:E; simpl;
    destruct Hdone as (Hr & _ & _ & l & Hl & _ & Hcalm); (split; [exact Hr|]);
    destruct (Hcalm Hc) as [-> _]; rewrite Hid in Hl; eexists; (split; [exact Hl|]); intros w Hw.
  - exact (proj2 (status_recorded _ _ _ _ w Hw
      (status_accepted id _ _ _ _ _ _ (started_exit_code _ _ _ _ E) (row_status_text info)))).
  - exact (proj2 (status_recorded _ id ContainerStatusCrashed None w Hw
      (status_accepted id "" "crashed" 0 [] _ _ eq_refl eq_refl))).
Qed.

(** C8: what is asked for runs, and is recorded.  A placement request that can
    be placed leads, when no call fails, to an assignment for one node; the
    agent of that node, whatever it was doing, has its engine start exactly
    the container asked for and sends one status; and the scheduler, whatever
    else happened meanwhile, then rewrites the row the placement made, and only
    that row, to what the engine answered: the container's state and id, or
    crashed when it could not be started. *)
Theorem placement_reaches_the_engine data msg dep w :
  calm w → Unmarshal data = Some msg →
  uuid_Parse msg.(placementRequestedMessage_DeploymentID) = Some dep →
  Exists eligible (NodeRepository.all_nodes w.(w_db)) →
  (∀ i n, w.(w_db).(nodes) !! i = Some n → n.(Node_ID) = i) →
  has_room w dep →
  (∀ g, (w.(w_gen) ≤ g)%N → w.(w_db).(containers) !! g = None) →
  ∃ n id payload,
    let w1 := (handlePlacement data w).2 in
    let c := pending_container id dep n.(Node_ID) in
    least_loaded (node_load w.(w_db)) (NodeRepository.all_nodes w.(w_db)) n
    ∧ w1.(w_db) = set_containers (<[id := c]> w.(w_db).(containers)) w.(w_db)
    ∧ messages w1 = messages w ++ [EvPublishDurable (NodeAssignSubject (uuid_String n.(Node_ID))) payload]
    ∧ ∀ cfg (a : Agent RT), cfg.(Config_NodeID) = n.(Node_ID) → calm a.(a_world) →
      let a' := handleAssignment cfg (Some payload) a in
      let '(r, s') := startAssignedContainer (assignment msg c) a.(a_rt) in
      a'.(a_rt) = s'
      ∧ ∃ status, messages a'.(a_world) = messages a.(a_world) ++
            [EvPublishDurable (NodeStatusSubject (uuid_String n.(Node_ID))) status]
          ∧ ∀ w2, calm w2 →
              (handleStatus (Some status) w2).2.(w_db)
              = set_containers (alter (row_after r w2.(w_now)) id w2.(w_db).(containers)) w2.(w_db).
Proof.
  intros Hc Hmsg Hdep Hex Hkey Hroom Hfresh.
  destruct (placement_made data msg dep w) as (n & id & Hn & _ & Hd & Hm); [done..|].
  exists n, id, (to_json (assignment msg (pending_container id dep n.(Node_ID)))).
  cbv zeta. split; [done|]. split; [exact Hd|]. split; [exact Hm|].
  intros cfg a Hcfg Ha.
  pose proof (assignment_to_row cfg a (assignment msg (pending_container id dep n.(Node_ID))) id
    (Some (to_json (assignment msg (pending_container id dep n.(Node_ID))))) Ha) as Hrow.
  cbv zeta in Hrow. rewrite Hcfg in Hrow. destruct (startAssignedContainer _ _) as [r s'].
  apply Hrow; [|done]. apply wire_roundtrip. simpl. by eapply placementRequest_ports_ok.
Qed.
End pipeline.

(** ** On the sample *)

#[local] Existing Instances hexUUID hexTime.
Lemma shelf_codes id (s : Shelf) info s' :
  ContainerStatus_ id s = (RtOk info, s') → int64_ok info.(Info_ExitCode) = true.
Proof.
  simpl. destruct (s !! id) as [i|]; [|done]. intros [= <- _]. simpl.
  apply bool_decide_eq_true. pose proof (Z.mod_pos_bound (Info_ExitCode i) 256). lia.
Qed.
Definition idle_agent (node : uuid) : Agent Shelf :=
  mkAgent (mkWorld emptyDB noSession 0 0 [] []) ∅ ∅.
Lemma placement_reaches_the_engine_witness :
  ∃ n id payload,
    let w1 := (handlePlacement (Some (to_json shop_request)) sampleWorld).2 in
    let a' := handleAssignment (mkNodeConfig n "a" "10.0.0.1" 2000 2048 ∅) (Some payload) (idle_agent n) in
    ∃ status, messages a'.(a_world) = [EvPublishDurable (NodeStatusSubject (uuid_String n)) status]
      ∧ (λ c, (c.(Container_Status), c.(Container_ContainerRuntimeID)))
          <$> ((handleStatus (Some status) w1).2.(w_db).(containers) !! id)
        = Some (ContainerStatusRunning, Some "c1").
Proof.
  destruct (placement_reaches_the_engine shelf_codes (Some (to_json shop_request)) shop_request 30 sampleWorld)
    as (n & id & payload & _ & Hd & _ & Hrun).
  - reflexivity.
  - exact shop_request_read.
  - vm_compute. reflexivity.
  - apply (bool_decide_unpack _). vm_compute. exact I.
  - exact sample_keyed.
  - exact sample_room.
  - exact sample_fresh.
  - exists n.(Node_ID), id, payload. cbv zeta in *.
    specialize (Hrun (mkNodeConfig n.(Node_ID) "a" "10.0.0.1" 2000 2048 ∅) (idle_agent n.(Node_ID)) eq_refl eq_refl).
    destruct (startAssignedContainer _ _) as [r s'] eqn:E. destruct Hrun as (_ & status & Hm & Hrow).
    exists status. split; [exact Hm|]. rewrite Hrow, Hd; [|vm_compute; reflexivity]. simpl.
    rewrite lookup_alter_eq, lookup_insert_eq. simpl. apply (f_equal fst) in E. vm_compute in E.
    rewrite <-E. reflexivity.
Defined.
