(* ===== verification/Deploys.v ===== *)
(** * Deploys: what deploying, scaling and deleting an application do

    The outcomes of handleDeploy, handleGitDeploy, handleBuildCompleted,
    handleScaleApplication and handleDeleteApplication of
    services/apiserver/internal/server, on every branch. *)
From S2P Require Import Prelude Json Schema Effects Rls Outcomes Failures DbTenancy DbWorkload.
From S2P Require Import DbCluster Wire Encoding Auth Concrete ApiCore ApiOrgs ApiApps.
From S2P Require Import Isolation Quotas Writes Routes Handlers Sample.
From stdpp Require Import base gmap strings list.
From Stdlib Require Import ZArith Lia.
Open Scope Z_scope.

(** ** Revisions *)

Lemma max_revision_ge l x : x ∈ l → x.(Deployment_Revision) ≤ max_revision l.
Proof.
  destruct l as [|y l]; [by intros ?%not_elem_of_nil|]. simpl.
  intros [->|Hx]%elem_of_cons.
  - clear. induction l as [|z l IH]; simpl; [lia|]. lia.
  - induction l as [|z l IH]; [by apply not_elem_of_nil in Hx|]. simpl.
    apply elem_of_cons in Hx as [->|Hx]; [lia|]. specialize (IH Hx). lia.
Qed.
(** A member of the organization sees all the revisions. *)
Lemma revisions_visible d i a s :
  consistent d → d.(applications) !! i = Some a → org_visible s d a.(Application_OrgID) →
  filter (λ x, org_visible s d x.(Deployment_OrgID)) (revisions d i) = revisions d i.
Proof.
  intros Hc Ha Hv. apply filter_all, Forall_forall. intros x [Hx [j Hj]]%elem_of_select.
  destruct (c_deployment _ Hc j x Hj) as (a' & Ha' & Ho). rewrite Hx in Ha'. simplify_eq.
  by rewrite <-Ho.
Qed.
Lemma next_revision_eq e g i a :
  consistent e.(e_db) → e.(e_db).(applications) !! i = Some a → can_see e a.(Application_OrgID) →
  next_revision e g i = max_revision (revisions e.(e_db) i) + 1.
Proof.
  intros Hc Ha Hs. unfold next_revision. erewrite revisions_visible; [done..|].
  by apply can_see_spec.
Qed.

(** ** When the database takes a new deployment *)

(** The revision fits its column, the rows the foreign keys name are there,
    and the identifiers still to be drawn are new. *)
Definition takes_deployment (w : World) (o i u : uuid) : Prop :=
  int4_ok (max_revision (revisions w.(w_db) i) + 1) = true
  ∧ is_Some (w.(w_db).(organizations) !! o) ∧ is_Some (w.(w_db).(users) !! u)
  ∧ ∀ g, (w.(w_gen) ≤ g)%N → w.(w_db).(deployments) !! g = None ∧ w.(w_db).(audit_logs) !! g = None.
(** All the application's deployments are the organization's. *)
Definition revisions_in (d : DB) (o i : uuid) : Prop :=
  ∀ y, y ∈ revisions d i → y.(Deployment_OrgID) = o.
Lemma consistent_revisions d i a :
  consistent d → d.(applications) !! i = Some a → revisions_in d a.(Application_OrgID) i.
Proof.
  intros Hc Ha y [Hy [j Hj]]%elem_of_select.
  destruct (c_deployment _ Hc j y Hj) as (a' & Ha' & Ho). rewrite Hy in Ha'. by simplify_eq.
Qed.
Lemma deployment_Create_blameless o i u image w :
  takes_deployment w o i u → revisions_in w.(w_db) o i → can_see (env_of w) o →
  is_Some (w.(w_db).(applications) !! i) →
  blameless (DeploymentRepository.Create TxConn o i image u) w.
Proof.
  intros (Hi & Horg & Hu & Hg) Hr Hs Ha. apply blameless_catch; [apply refails_or_conflict|].
  apply blameless_catch; [apply refails_scan|]. apply blameless_run_stmt. intros g Hgw.
  apply (can_see_spec _ g) in Hs. unfold DeploymentRepository.Create_sql.
  rewrite (filter_all (λ x, org_visible _ _ _)).
  2: { apply Forall_forall. intros y Hy. by rewrite (Hr y Hy). }
  rewrite !require_true; [by do 2 eexists|done|split|done|done]; [apply Hg; done|].
  apply Forall_forall. intros y Hy%max_revision_ge. lia.
Qed.
Lemma recordAudit_blameless c o u action ttype tid metadata w :
  (∀ g, org_visible (stmt_in c (env_of w) g) w.(w_db) o) →
  is_Some (w.(w_db).(organizations) !! o) → is_Some (w.(w_db).(users) !! u) →
  (∀ g, (w.(w_gen) ≤ g)%N → w.(w_db).(audit_logs) !! g = None) →
  blameless (recordAudit c o u action ttype tid metadata) w.
Proof.
  intros Hv Horg Hu Hg. apply blameless_wrap, blameless_run_stmt. intros g Hgw.
  unfold AuditLogRepository.Record_sql.
  rewrite !require_true; [by do 2 eexists| |by apply Hg|apply Hv].
  split; [done|]. simpl. by repeat constructor.
Qed.
Lemma env_of_db w w' : env_of w' = env_of w → w'.(w_db) = w.(w_db).
Proof. by intros [= ? _ _]. Qed.
Lemma image_set_tables image i app app' e d :
  image_set image i app app' e d →
  d.(deployments) = e.(e_db).(deployments) ∧ d.(organizations) = e.(e_db).(organizations)
  ∧ d.(users) = e.(e_db).(users) ∧ d.(audit_logs) = e.(e_db).(audit_logs)
  ∧ d.(memberships) = e.(e_db).(memberships)
  ∧ ∀ j, is_Some (e.(e_db).(applications) !! j) → is_Some (d.(applications) !! j).
Proof.
  intros [(_ & _ & _ & a & s & Ha & ->)|(_ & _ & ->)]; [|done]. do 5 (split; [done|]). simpl. intros j Hj.
  destruct (decide (i = j)) as [->|]; [rewrite lookup_insert_eq; by eexists|by rewrite lookup_insert_ne].
Qed.
Lemma gives_image_set image i app :
  gives (if decide (image ≠ "" ∧ image ≠ app.(Application_Image)) then
           ApplicationRepository.UpdateImage TxConn i image ;;
           mret {| Application_ID := app.(Application_ID); Application_OrgID := app.(Application_OrgID);
                   Application_ProjectID := app.(Application_ProjectID);
                   Application_Name := app.(Application_Name); Application_Image := image;
                   Application_ReplicasDesired := app.(Application_ReplicasDesired);
                   Application_CPUMillicores := app.(Application_CPUMillicores);
                   Application_MemoryMB := app.(Application_MemoryMB);
                   Application_Ports := app.(Application_Ports);
                   Application_HealthCheckPath := app.(Application_HealthCheckPath);
                   Application_CreatedAt := app.(Application_CreatedAt);
                   Application_UpdatedAt := app.(Application_UpdatedAt) |}
         else mret app)
    (λ e app' e', ∃ d, image_set image i app app' e d ∧ e' = with_db e d).
Proof.
  eapply gives_mono; [gives_auto|]. intros e app' e' [(Hi & u & e1 & Hr & -> & ->)|(Hi & -> & ->)].
  - destruct Hr as (a & s & Ha & ->). eexists. split; [|done]. left. destruct Hi. eauto 8.
  - exists e.(e_db). split; [by right|]. by destruct e.
Qed.
Lemma createDeploymentTx_blameless `{UUIDText} o i u app image w a :
  takes_deployment w o i u → revisions_in w.(w_db) o i → can_see (env_of w) o →
  w.(w_db).(applications) !! i = Some a → a.(Application_OrgID) = o →
  blameless (createDeploymentTx o i u app image) w.
Proof.
  intros (Hi & Horg & Hu & Hg) Hr Hs Ha Hao. unfold createDeploymentTx. apply blameless_bind.
  { case_decide; [|apply blameless_ret]. apply blameless_bind; [|intros; apply blameless_ret].
    eapply blameless_update; [exact Ha|]. intros g. rewrite Hao. by apply (can_see_spec (env_of w)). }
  intros app' w1 [(d & Himg & He) _]%gives_image_set [Hg1 _].
  destruct (image_set_tables _ _ _ _ _ _ Himg) as (Hd & Horg' & Hu' & Hal & Hme & Hap).
  unfold env_of, with_db in He. injection He as Hdb Hse Hno. simpl in *.
  assert (can_see (env_of w1) o) as Hs1.
  { unfold can_see, is_member in *. simpl in *. by rewrite Hse, Hdb, Hme. }
  assert (takes_deployment w1 o i u) as Ht1.
  { unfold takes_deployment, revisions. rewrite Hdb, Hd, Horg', Hu', Hal.
    repeat (split; [done|]). intros g ?. apply Hg. lia. }
  apply blameless_bind.
  { apply blameless_catch; [apply refails_mapped|]. apply deployment_Create_blameless; [done| |done|].
    - unfold revisions_in, revisions. by rewrite Hdb, Hd.
    - rewrite Hdb. apply Hap. by eexists. }
  intros x w2 [Hx _]%(gives_catch _ _ _ (gives_deployment_Create _ _ _ _ _) (refails_mapped _ _)) [Hg2 _].
  apply blameless_bind; [|intros; apply blameless_ret].
  destruct Hx as (g & -> & _ & _ & _ & _ & He2). unfold env_of, with_db in He2. injection He2 as Hdb2 Hse2 Hno2.
  destruct Ht1 as (_ & Horg1 & Hu1 & Hgen). apply recordAudit_blameless.
  - intros g'. apply (can_see_spec (env_of w2)). unfold can_see, is_member in *. simpl in *. by rewrite Hse2, Hdb2.
  - by rewrite Hdb2.
  - by rewrite Hdb2.
  - intros g' ?. rewrite Hdb2. apply Hgen. lia.
Qed.

(** *** The build.completed consumer *)

(** Recording a failed build only fails with a failed call; recording a
    success may also be refused by the database, which must take the
    deployment. *)
Definition message_succeeded (msg : buildCompletedMessage) : Prop :=
  msg.(buildCompletedMessage_Status) = "succeeded" ∧ msg.(buildCompletedMessage_Image) ≠ "".
Lemma deployBuilt_blameless `{UUIDText} o i u image (b : Build) w a :
  takes_deployment w o i u → revisions_in w.(w_db) o i → can_see (env_of w) o →
  w.(w_db).(applications) !! i = Some a → a.(Application_OrgID) = o →
  blameless (app ← ApplicationRepository.Get TxConn i;
             da ← createDeploymentTx o i u app image; mret (b, Some da)) w.
Proof.
  intros (Hi & Horg & Hu & Hgen) Hr Hs Ha Hao. apply blameless_bind.
  { apply blameless_catch; [apply refails_or_not_found|]. apply blameless_query_row.
    intros g. rewrite Ha. simpl. rewrite filter_cons_True; [done|]. rewrite Hao.
    by apply (can_see_spec (env_of w)). }
  intros a' w1 [(He & Ha' & _) _]%gives_application_Get [Hg _]. simpl in Ha'.
  rewrite Ha in Ha'. injection Ha' as <-.
  assert (w1.(w_db) = w.(w_db)) as Hdb by by apply env_of_db.
  apply blameless_bind; [|intros; apply blameless_ret].
  eapply createDeploymentTx_blameless; [|by rewrite Hdb|by rewrite He|rewrite Hdb; exact Ha|exact Hao].
  unfold takes_deployment. rewrite Hdb. repeat (split; [done|]). intros g ?. apply Hgen. lia.
Qed.
Lemma completeBuild_blameless `{UUIDText} i msg b w :
  consistent w.(w_db) → w.(w_db).(builds) !! i = Some b →
  w.(w_sess).(app_current_org_id) = Some b.(Build_OrgID) →
  (message_succeeded msg →
   takes_deployment w b.(Build_OrgID) b.(Build_ApplicationID) b.(Build_CreatedBy)) →
  blameless (completeBuild i msg) w.
Proof.
  intros Hc Hb Hs Ht. unfold completeBuild.
  assert (∀ w1 g, w1.(w_sess).(app_current_org_id) = Some b.(Build_OrgID) →
    org_visible (stmt_in TxConn (env_of w1) g) w1.(w_db) b.(Build_OrgID)) as Hv.
  { intros w1 g Hw1. apply (can_see_spec (env_of w1)). by left. }
  apply blameless_bind.
  { apply blameless_catch.
    { intros er w1. destruct (errors_Is er ErrNotFound); by eexists. }
    apply blameless_catch; [apply refails_scan|]. apply blameless_query_row.
    intros g. rewrite Hb. simpl. rewrite filter_cons_True by (by apply Hv). done. }
  intros b' w1 [Hb1 _]%gives_build_Get [Hg1 _].
  destruct Hb1 as (He1 & Hb1 & _). simpl in Hb1. rewrite Hb in Hb1. injection Hb1 as <-.
  apply blameless_bind; [apply blameless_SetCurrentUser|].
  intros [] w2 [He2 _]%gives_SetCurrentUser [Hg2 _]. rewrite He1 in He2. unfold env_of in He2.
  injection He2 as Hdb2 Hse2 _. simpl in *.
  assert (w2.(w_sess).(app_current_org_id) = Some b.(Build_OrgID)) as Hs2 by by rewrite Hse2.
  assert (∀ st sha image err, blameless (BuildRepository.UpdateResult TxConn i st sha image err) w2) as Hup.
  { intros. eapply (blameless_update _ builds); [by rewrite Hdb2|]. intros g. by apply Hv. }
  case_decide as Hst; [apply blameless_bind; [apply Hup|]; intros; apply blameless_ret|].
  case_decide as Him.
  { apply blameless_bind; [apply blameless_emit|]. intros [] w3 [= <-] _.
    apply blameless_bind; [|intros; apply blameless_ret].
    eapply (blameless_update _ builds); [simpl; by rewrite Hdb2|]. intros g. by apply (Hv (add_event _ w2)). }
  destruct (Ht (conj Hst Him)) as (Hi & Horg & Hu & Hgen). destruct (c_build _ Hc _ _ Hb) as (a & Ha & Hao).
  apply blameless_bind; [apply Hup|].
  intros [] w3 [(y & s & _ & He3) _]%gives_build_UpdateResult [Hg3 _].
  unfold env_of, with_db in He3. injection He3 as Hdb3 Hse3 _. simpl in *. rewrite Hdb2 in Hdb3.
  eapply (deployBuilt_blameless _ _ _ _ _ _ a).
  - unfold takes_deployment, revisions. rewrite Hdb3. simpl. repeat (split; [done|]).
    intros g ?. apply Hgen. lia.
  - rewrite <-Hao. unfold revisions_in, revisions. rewrite Hdb3. exact (consistent_revisions _ _ _ Hc Ha).
  - left. simpl. by rewrite Hse3.
  - rewrite Hdb3. exact Ha.
  - exact Hao.
Qed.

(** ** Publishing *)

Section deploys.
Context `{UUIDText} `{TimeText} `{CursorText} `{Credentials}.
Context (bus : bool) (registryAddr : string).

(** Without a bus every publish fails by itself. *)
Definition publish_lost (w w' : World) : Prop := lost (if bus then 1 else 0) w w'.
Definition marking_lost (w w' : World) : Prop := lost (if bus then 2 else 1) w w'.
Lemma bus_cases subject payload w r w' :
  bus_PublishDurable bus subject payload w = (r, w') →
  env_of w' = env_of w ∧ onward w w' ∧
  ((∃ e, r = Err e ∧ messages w' = messages w ∧ publish_lost w w')
   ∨ (r = Ok tt ∧ messages w' = messages w ++ [EvPublishDurable subject payload])).
Proof.
  unfold bus_PublishDurable, publish_lost. destruct bus.
  - intros E. pose proof (onwards_PublishDurable subject payload w) as Ho.
    pose proof (blameless_PublishDurable subject payload w) as Hb. rewrite E in Ho. simpl in Ho.
    destruct (PublishDurable_cases _ _ _ _ _ E) as [(e & -> & He & Ht)|(-> & He & Ht)];
      (split; [done|]); (split; [done|]); unfold messages; rewrite Ht; [left|right; by rewrite filter_app].
    exists e. split; [done|]. split; [done|]. by eapply blameless_Err.
  - intros [= <- <-]. split; [done|]. split; [done|]. left. eexists. split; [done|]. split; [done|].
    unfold lost. lia.
Qed.
Lemma logf_env msg w : env_of (logf msg w).2 = env_of w.
Proof. done. Qed.

(** The deployment's row, marked failed. *)
Definition marked_failed (x : Deployment) (d d' : DB) : Prop :=
  ∃ y s, d.(deployments) !! x.(Deployment_ID) = Some y
    ∧ d' = set_deployments (<[x.(Deployment_ID) :=
             DeploymentRepository.with_result DeploymentStatusFailed None s y]> d.(deployments)) d.
(** A deployment that could not be announced is marked failed, unless a call
    of the marking failed in turn. *)
Definition abandoned (x : Deployment) (d : DB) (w w' : World) : Prop :=
  marked_failed x d w'.(w_db) ∨ (w'.(w_db) = d ∧ marking_lost w w').
(** The placement request of a deployment: it names the deployment and its
    application, the image to run and the application's ports. *)
Definition placement_event (app : Application) (x : Deployment) : Event :=
  EvPublishDurable "placement.requested" (to_json (Build_placementRequestedMessage
    (uuid_String x.(Deployment_ID)) (uuid_String app.(Application_ID)) x.(Deployment_Image) ∅
    app.(Application_Ports) [])).
(** An update of one visible row, in a transaction of its own. *)
Lemma update_tx_cases {A} p (t : DB → table A) put org f i o u w r w' x :
  WithTx u o (exec_affected p TxConn (update_by_id t put org f i)) w = (r, w') →
  t w.(w_db) !! i = Some x → org x = o → can_see (tx_env (env_of w) u o) o →
  messages w' = messages w ∧ onward w w'
  ∧ ((∃ s, w'.(w_db) = put (<[i := f s x]> (t w.(w_db))) w.(w_db)) ∨ (w'.(w_db) = w.(w_db) ∧ lost 1 w w')).
Proof.
  intros E Hx Hxo Hs.
  destruct (WithTx_quiet_cases _ _ _ _ _ _ _ (gives_rewrites _ _ t put org f i) (quiet_exec_affected _ _ _) E)
    as [Hm Hr]. split; [done|].
  assert (blameless (WithTx u o (exec_affected p TxConn (update_by_id t put org f i))) w) as Hb.
  { apply blameless_WithTx. intros w1 _ He. eapply (blameless_update _ t).
    - by replace w1.(w_db) with w.(w_db) by (unfold env_of, tx_env in He; by injection He).
    - intros g. rewrite Hxo. apply (can_see_spec (env_of w1)). by rewrite He. }
  split; [by apply blameless_onward in Hb; rewrite E in Hb|].
  destruct Hr as [(er & -> & Hd)|(a & e1 & -> & (z & s & Hz & ->) & Hd)].
  - right. split; [done|]. by eapply blameless_Err.
  - left. simpl in Hz. rewrite Hx in Hz. injection Hz as <-. by exists s.
Qed.
Lemma marking_cases o u x w r w' :
  WithTx u o (DeploymentRepository.UpdateResult TxConn x.(Deployment_ID) DeploymentStatusFailed None) w
    = (r, w') →
  deployed o x w.(w_db) → can_see (tx_env (env_of w) u o) o →
  messages w' = messages w ∧ onward w w'
  ∧ (marked_failed x w.(w_db) w'.(w_db) ∨ (w'.(w_db) = w.(w_db) ∧ lost 1 w w')).
Proof.
  intros E (y & Hy & Hyo) Hs.
  destruct (update_tx_cases _ _ _ _ _ _ _ _ _ _ _ _ E Hy Hyo Hs) as (? & ? & [(s & ?)|?]); [|auto].
  split; [done|]. split; [done|]. left. by exists y, s.
Qed.
Lemma publishPlacement_cases o u app x w r w' :
  publishPlacement bus o u app x w = (r, w') →
  deployed o x w.(w_db) → can_see (tx_env (env_of w) u o) o →
  (r = Ok tt ∧ w'.(w_db) = w.(w_db) ∧ messages w' = messages w ++ [placement_event app x])
  ∨ ((∃ er, r = Err er) ∧ messages w' = messages w ∧ abandoned x w.(w_db) w w'
     ∧ publish_lost w w').
Proof.
  unfold publishPlacement, catch. intros Hr Hdep Hs.
  destruct (bus_PublishDurable bus _ _ w) as [[[]|er] w1] eqn:E;
    destruct (bus_cases _ _ _ _ _ E) as [He [Ho [(e0 & ? & Hm & Hl)|(? & Hm)]]]; try discriminate.
  - injection Hr as <- <-. left. split; [done|]. split; [|done]. by apply env_of_db.
  - right. unfold mbind, M_bind in Hr. simpl in Hr. set (w2 := add_event _ w1) in Hr.
    assert (env_of w2 = env_of w ∧ messages w2 = messages w ∧ publish_lost w w2) as (He2 & Hm2 & Hl2).
    { split; [done|]. split; [|done]. rewrite <-Hm. apply (messages_logf _ w1). }
    clearbody w2. unfold try in Hr. assert (w2.(w_db) = w.(w_db)) as Hd2 by by apply env_of_db.
    destruct (WithTx u o _ w2) as [r3 w3] eqn:E3.
    rewrite <-Hd2 in Hdep. rewrite <-He2 in Hs.
    destruct (marking_cases _ _ _ _ _ _ E3 Hdep Hs) as (Hm3 & Ho3 & Hf). rewrite Hd2 in Hf.
    assert (abandoned x w.(w_db) w w3) as Hab.
    { destruct Hf as [?|[? Hl3]]; [by left|right]. split; [done|].
      unfold marking_lost, publish_lost, lost in *. destruct bus; lia. }
    assert (publish_lost w w3) as Hl3 by (by eapply lost_onward_r).
    destruct r3 as [[]|er3]; simpl in Hr; injection Hr as <- <-; (split; [by eexists|]).
    + split; [congruence|]. done.
    + split; [|done]. rewrite <-Hm2, <-Hm3. apply messages_logf.
Qed.

Lemma createDeploymentTx_quiet o i u app image : quiet (createDeploymentTx o i u app image).
Proof.
  unfold createDeploymentTx, ApplicationRepository.UpdateImage, mapped, DeploymentRepository.Create,
    recordAudit, AuditLogRepository.Record_. quiet_auto.
Qed.
Lemma completeBuild_quiet i msg : quiet (completeBuild i msg).
Proof.
  unfold completeBuild, BuildRepository.Get, BuildRepository.UpdateResult, ApplicationRepository.Get.
  repeat first [apply createDeploymentTx_quiet | quiet_step].
Qed.

(** Why a message is dropped without a trace: it cannot be read, names no
    build of the organization it claims, a call failed, or it asks for a
    deployment the database does not take. *)
Definition dropped (data : wire) (w w' : World) : Prop :=
  match Unmarshal data with
  | None => True
  | Some msg =>
      match uuid_Parse msg.(buildCompletedMessage_BuildID), uuid_Parse msg.(buildCompletedMessage_OrgID) with
      | Some i, Some o =>
          lost 1 w w' ∨ o = Nil
          ∨ ∀ b, w.(w_db).(builds) !! i = Some b → b.(Build_OrgID) = o →
              message_succeeded msg ∧ ¬ takes_deployment w o b.(Build_ApplicationID) b.(Build_CreatedBy)
      | _, _ => True
      end
  end.
Lemma takes_deployment_onward o i u w w1 :
  takes_deployment w o i u → onward w w1 → w1.(w_db) = w.(w_db) → takes_deployment w1 o i u.
Proof.
  intros (? & ? & ? & Hg) [Ho _] Hd. unfold takes_deployment. rewrite Hd. repeat (split; [done|]).
  intros g ?. apply Hg. lia.
Qed.
Lemma completeBuild_lost i o msg w er w1 :
  consistent w.(w_db) → WithTx Nil o (completeBuild i msg) w = (Err er, w1) →
  lost 1 w w1 ∨ o = Nil
  ∨ ∀ b, w.(w_db).(builds) !! i = Some b → b.(Build_OrgID) = o →
      message_succeeded msg ∧ ¬ takes_deployment w o b.(Build_ApplicationID) b.(Build_CreatedBy).
Proof.
  intros Hc E. destruct (decide (o = Nil)) as [->|Ho]; [auto|].
  destruct (decide (S (failures w1) ≤ failures w)%nat) as [Hl|Hl].
  { left. unfold lost. lia. }
  right; right. intros b Hb Hbo.
  assert (¬ (message_succeeded msg → takes_deployment w o b.(Build_ApplicationID) b.(Build_CreatedBy))) as Hno.
  { intros Ht. apply Hl. enough (lost 1 w w1) by (unfold lost in *; lia).
    eapply blameless_Err; [|exact E]. apply blameless_WithTx. intros w2 Ho2 He.
    unfold env_of, tx_env, tx_session, not_nil in He. rewrite (decide_False (P := o = Nil)) in He by done.
    injection He as Hd Hs _. eapply completeBuild_blameless; [by rewrite Hd|by rewrite Hd| |].
    - rewrite Hs, Hbo. done.
    - intros Hm. rewrite Hbo. eapply takes_deployment_onward; [by apply Ht|done|done]. }
  unfold message_succeeded in *. split; [|tauto].
  destruct (decide (buildCompletedMessage_Status msg = "succeeded" ∧ buildCompletedMessage_Image msg ≠ "")); tauto.
Qed.
Lemma createDeploymentTx_onwards o i u app image : onwards (createDeploymentTx o i u app image).
Proof.
  unfold createDeploymentTx, ApplicationRepository.UpdateImage, mapped, DeploymentRepository.Create,
    recordAudit, AuditLogRepository.Record_. onwards_auto.
Qed.
Lemma completeBuild_onwards i msg : onwards (completeBuild i msg).
Proof.
  unfold completeBuild, BuildRepository.Get, BuildRepository.UpdateResult, ApplicationRepository.Get, logf.
  repeat first [apply createDeploymentTx_onwards | onwards_step].
Qed.
Lemma dropped_logged data msg w (Q : World → Prop) :
  consistent w.(w_db) → dropped data w (logf msg w).2 →
  ∃ w', logf msg w = (Ok tt, w') ∧ consistent w'.(w_db) ∧
  ((w'.(w_db) = w.(w_db) ∧ messages w' = messages w ∧ dropped data w w') ∨ Q w').
Proof.
  intros Hc Hd. eexists. split; [done|]. split; [done|]. left. split; [done|].
  split; [apply (messages_logf msg w)|done].
Qed.
(** The second half, once the success and its deployment are recorded. *)
Lemma announce_built b x app w w1 d :
  onward w w1 → messages w1 = messages w → w1.(w_db) = d →
  b.(Build_OrgID) ≠ Nil → acts b.(Build_OrgID) w.(w_db) d → deployed b.(Build_OrgID) x d →
  consistent w.(w_db) →
  ∃ w', (logf "build succeeded, deploying" ;;
         r ← try (publishPlacement bus b.(Build_OrgID) b.(Build_CreatedBy) app x);
         match r with Err _ => logf "deploying a successful build" | Ok _ => mret tt end) w1 = (Ok tt, w')
    ∧ consistent w'.(w_db) ∧ (∀ f, f ≠ b.(Build_OrgID) → untouched f w.(w_db) w'.(w_db))
    ∧ ((w'.(w_db) = d ∧ messages w' = messages w ++ [placement_event app x])
       ∨ (messages w' = messages w ∧ abandoned x d w w' ∧ publish_lost w w')).
Proof.
  intros Hon Hm <- Ho Hacts Hdep Hc. destruct (Hacts Hc) as [Hc1 Hu1].
  unfold mbind, M_bind. simpl. set (w2 := add_event _ w1).
  assert (w2.(w_db) = w1.(w_db) ∧ messages w2 = messages w) as [Hd2 Hm2].
  { split; [done|]. rewrite <-Hm. apply (messages_logf _ w1). }
  assert (onward w w2) as Hon2 by done.
  clearbody w2. unfold try.
  destruct (publishPlacement bus _ _ app x w2) as [r3 w3] eqn:E3.
  pose proof (publishPlacement_acts bus b.(Build_OrgID) b.(Build_CreatedBy) app x w2) as Hact3.
  rewrite E3, Hd2 in Hact3. simpl in Hact3. destruct Hact3 as [Hact3 _]; [exact Hdep|].
  destruct (Hact3 Hc1) as [Hc3 Hu3].
  assert (∀ f, f ≠ b.(Build_OrgID) → untouched f w.(w_db) w3.(w_db)) as Hu.
  { intros f Hf. etransitivity; [by apply Hu1|by apply Hu3]. }
  destruct (publishPlacement_cases _ _ _ _ _ _ _ E3) as [(-> & Hd3 & Hm3)|((er & ->) & Hm3 & Hf & Hl)];
    [by rewrite Hd2|left; simpl; unfold not_nil; by rewrite decide_False| |];
    (eexists; split; [done|]); simpl; (split; [done|]); (split; [done|]).
  - left. split; [congruence|]. by rewrite Hm3, Hm2.
  - right. split; [|split].
    + change (messages (logf "deploying a successful build" w3).2 = messages w). by rewrite messages_logf, Hm3.
    + rewrite Hd2 in Hf. destruct Hf as [Hf|[Hf Hf']]; [by left|right]. split; [done|]. by eapply lost_onward_l.
    + by eapply lost_onward_l.
Qed.

(** C13: the consumer of build.completed.  It never fails, and it does one of
    three things.  It changes and sends nothing: for a message it cannot read,
    one that names no build of the organization it claims, one whose
    deployment the database does not take, or when a call fails.  It records
    the build as failed, deploying nothing: when the message does not say it
    succeeded with an image.  Or it records the build as succeeded together
    with a new deployment of exactly the image built, and then either
    publishes one placement request for it, or, only when that publish failed
    (or there is no bus), sends nothing and marks the deployment failed; the
    deployment is left pending without a request only when a call of the
    marking failed as well.  In every case only rows of the organization that
    owns the build can have changed. *)
Theorem handleBuildCompleted_correct data w :
  consistent w.(w_db) →
  ∃ w', handleBuildCompleted bus data w = (Ok tt, w') ∧ consistent w'.(w_db) ∧
  ((w'.(w_db) = w.(w_db) ∧ messages w' = messages w ∧ dropped data w w')
   ∨ ∃ msg i b d r, Unmarshal data = Some msg
      ∧ uuid_Parse msg.(buildCompletedMessage_BuildID) = Some i
      ∧ uuid_Parse msg.(buildCompletedMessage_OrgID) = Some b.(Build_OrgID)
      ∧ w.(w_db).(builds) !! i = Some b
      ∧ (∀ f, f ≠ b.(Build_OrgID) → untouched f w.(w_db) w'.(w_db))
      ∧ build_recorded i msg b r (tx_env (env_of w) Nil b.(Build_OrgID)) d
      ∧ match r with
        | None => w'.(w_db) = d ∧ messages w' = messages w
        | Some (x, app) =>
            (w'.(w_db) = d ∧ messages w' = messages w ++ [placement_event app x])
            ∨ (messages w' = messages w ∧ abandoned x d w w' ∧ publish_lost w w')
        end).
Proof.
  intros Hc. unfold handleBuildCompleted.
  destruct (Unmarshal data) as [msg|] eqn:Hmsg.
  2: { by apply dropped_logged; [|unfold dropped; rewrite Hmsg]. }
  destruct (uuid_Parse _) as [i|] eqn:Hi.
  2: { by apply dropped_logged; [|unfold dropped; rewrite Hmsg, Hi]. }
  destruct (uuid_Parse (buildCompletedMessage_OrgID msg)) as [hint|] eqn:Ho.
  2: { by apply dropped_logged; [|unfold dropped; rewrite Hmsg, Hi, Ho]. }
  rewrite bind_try. destruct (WithTx Nil hint _ w) as [r w1] eqn:E.
  pose proof (onwards_run _ _ _ _ (onwards_WithTx _ _ _ (completeBuild_onwards i msg)) E) as Hon1.
  destruct (WithTx_quiet_cases _ _ _ _ _ _ _ (gives_completeBuild i msg) (completeBuild_quiet i msg) E)
    as [Hm [(er & -> & Hd)|([b r'] & e1 & -> & (Hb & (g & Hv) & Hrec) & Hd)]]; simpl in *.
  { pose proof (completeBuild_lost _ _ _ _ _ _ Hc E) as Hlost.
    destruct (errors_Is er ErrNotFound); (eexists; split; [done|]); (split; [by rewrite <-Hd in Hc|]);
      left; (split; [done|]); rewrite <-Hm; (split; [apply messages_logf|]);
      unfold dropped; by rewrite Hmsg, Hi, Ho. }
  assert (hint = b.(Build_OrgID) ∧ hint ≠ Nil) as [-> Hnn].
  { apply org_visible_spec in Hv as [[=]|[Hv|(u & [=] & _)]]. simpl in Hv.
    unfold not_nil in Hv. case_decide; [done|]. split; congruence. }
  destruct (build_recorded_acts i msg b r' (tx_env (env_of w) Nil b.(Build_OrgID)) _ Hc Hb Hrec) as [Hacts Hdep].
  destruct r' as [[x app]|].
  - destruct (announce_built b x app w w1 e1.(e_db)) as (w' & Ew' & Hc' & Hu' & Hout);
      [done..|exact (Hdep _ eq_refl)|done|].
    rewrite Ew'. eexists. split; [done|]. split; [done|]. right.
    exists msg, i, b, e1.(e_db), (Some (x, app)). by split_and!.
  - destruct (Hacts Hc) as [Hc1 Hu1]. eexists. split; [done|]. simpl. rewrite Hd. split; [done|]. right.
    exists msg, i, b, e1.(e_db), None. by split_and!.
Qed.

Definition deployment_allowed_and_made (id : Identity) (i : uuid) (w : World)
    (x : Deployment) (app' : Application) (image : string) (d : DB) : Prop :=
  let e := tx_env (env_of w) id.(UserID) Nil in
  ∃ app, deploy_allowed id i e app.(Application_OrgID) app
    ∧ x.(Deployment_Revision) = max_revision (revisions w.(w_db) i) + 1
    ∧ deployment_made app.(Application_OrgID) i id.(UserID) app image
        (enter app.(Application_OrgID) e) (x, app') d.
Definition build_allowed_and_made (id : Identity) (i : uuid) (w : World) (b : Build)
    (url ref : string) (d : DB) : Prop :=
  let e := tx_env (env_of w) id.(UserID) Nil in
  ∃ app, deploy_allowed id i e app.(Application_OrgID) app
    ∧ build_made app.(Application_OrgID) i id.(UserID) url ref e b d.
Lemma authorizeDeploy_quiet id i : quiet (authorizeDeploy id i).
Proof.
  unfold authorizeDeploy, resolve_org, mapped, requirePermission, requireAPIKeyOrgMatch,
    ApplicationRepository.OrgID, ApplicationRepository.Get, MembershipRepository.RoleForUser,
    checkDeploymentQuota, checkResourceQuota, QuotaRepository.Get, QuotaRepository.CurrentUsage,
    currentAppContainers, DeploymentRepository.Latest, ContainerRepository.CountActiveByDeployment.
  quiet_auto.
Qed.
Lemma deployImage_quiet id i image : quiet (deployImage id i image).
Proof.
  unfold deployImage. repeat first [apply authorizeDeploy_quiet | apply createDeploymentTx_quiet | quiet_step].
Qed.
Lemma requestBuild_quiet id i url ref : quiet (requestBuild id i url ref).
Proof.
  unfold requestBuild, BuildRepository.Create, recordAudit, AuditLogRepository.Record_.
  repeat first [apply authorizeDeploy_quiet | quiet_step].
Qed.

Lemma authorizeDeploy_onwards id i : onwards (authorizeDeploy id i).
Proof.
  unfold authorizeDeploy, resolve_org, mapped, requirePermission, requireAPIKeyOrgMatch,
    ApplicationRepository.OrgID, ApplicationRepository.Get, MembershipRepository.RoleForUser,
    checkDeploymentQuota, checkResourceQuota, QuotaRepository.Get, QuotaRepository.CurrentUsage,
    currentAppContainers, DeploymentRepository.Latest, ContainerRepository.CountActiveByDeployment.
  onwards_auto.
Qed.
Lemma deployImage_onwards id i image : onwards (deployImage id i image).
Proof.
  unfold deployImage. repeat first [apply authorizeDeploy_onwards | apply createDeploymentTx_onwards | onwards_step].
Qed.
Lemma requestBuild_onwards id i url ref : onwards (requestBuild id i url ref).
Proof.
  unfold requestBuild, BuildRepository.Create, recordAudit, AuditLogRepository.Record_.
  repeat first [apply authorizeDeploy_onwards | onwards_step].
Qed.

(** The build's row, marked failed with a reason. *)
Definition build_marked_failed (b : Build) (d d' : DB) : Prop :=
  ∃ y s msg, d.(builds) !! b.(Build_ID) = Some y
    ∧ d' = set_builds (<[b.(Build_ID) :=
             BuildRepository.with_result BuildStatusFailed None None (Some msg) s y]> d.(builds)) d.
Definition build_abandoned (b : Build) (d : DB) (w w' : World) : Prop :=
  build_marked_failed b d w'.(w_db) ∨ (w'.(w_db) = d ∧ marking_lost w w').
(** The build request of a build: it names the build, its organization and
    application, the repository and the ref to build, and where to push. *)
Definition build_event (b : Build) (i o : uuid) : Event :=
  EvPublishDurable "build.requested" (to_json (Build_buildRequestedMessage
    (uuid_String b.(Build_ID)) (uuid_String o) (uuid_String i) b.(Build_GitURL) b.(Build_GitRef)
    (registryAddr +:+ "/" +:+ uuid_String o +:+ "/" +:+ uuid_String i))).

(** How a deploy request that named application [i] fails, and succeeds. *)
Definition deploy_failed (id : Identity) (i : uuid) (w w' : World) : Prop :=
  messages w' = messages w
  ∧ (w'.(w_db) = w.(w_db)
     ∨ (publish_lost w w'
        ∧ ((∃ x app' image d, deployment_allowed_and_made id i w x app' image d ∧ abandoned x d w w')
           ∨ (∃ b url ref d, build_allowed_and_made id i w b url ref d ∧ build_abandoned b d w w')))).
Definition deploy_accepted (id : Identity) (i : uuid) (w : World) (reply : Reply) (w' : World) : Prop :=
  (∃ x app' image, deployment_allowed_and_made id i w x app' image w'.(w_db)
     ∧ reply = writeJSON 201 (deploymentResponse x
                 (mkReplicaState app'.(Application_ReplicasDesired) 0 []) None)
     ∧ messages w' = messages w ++ [placement_event app' x])
  ∨ (∃ b url ref, build_allowed_and_made id i w b url ref w'.(w_db)
     ∧ reply = writeJSON 202 (toBuildResponse b)
     ∧ messages w' = messages w ++ [build_event b i b.(Build_OrgID)]).
Definition deploy_result (id : Identity) (i : uuid) (w : World) (r : Res Reply) (w' : World) : Prop :=
  match r with Ok reply => deploy_accepted id i w reply w' | Err _ => deploy_failed id i w w' end.

(** Who may deploy sees the organization, then and after. *)
Lemma bind_Ok {A B} (m : M A) (k : A → M B) w b w' :
  (m ≫= k) w = (Ok b, w') → ∃ a w1, m w = (Ok a, w1) ∧ k a w1 = (Ok b, w').
Proof. unfold mbind, M_bind. destruct (m w) as [[a|e] w1]; [eauto|done]. Qed.
Lemma authorizeDeploy_sees id i w oa w' :
  authorizeDeploy id i w = (Ok oa, w') → can_see (env_of w) oa.1.
Proof.
  unfold authorizeDeploy, resolve_org. intros (o & w1 & (o' & w2 & E & E1)%bind_Ok & E2)%bind_Ok.
  apply (gives_mapped _ _ _ _ (gives_org_of _ _ _ _ _)) in E as [(_ & x & g & _ & _ & Hv) _].
  apply bind_Ok in E1 as ([] & w3 & _ & [= <- _]).
  repeat match goal with H : (_ ≫= _) _ = (Ok _, _) |- _ => apply bind_Ok in H as (? & ? & _ & H) end.
  injection E2 as <- _. by apply (can_see_spec (env_of w)) in Hv.
Qed.
Lemma gives_and {A} (m : M A) Q (P : Env → A → Prop) :
  gives m Q → (∀ w a w', m w = (Ok a, w') → P (env_of w) a) → gives m (λ e a e', Q e a e' ∧ P e a).
Proof. intros Hm HP w a w' E. destruct (Hm w a w' E). eauto. Qed.
Lemma requestBuild_sees id i url ref w ob w' :
  requestBuild id i url ref w = (Ok ob, w') → can_see (env_of w) ob.1.
Proof.
  unfold requestBuild. intros (oa & w1 & E%authorizeDeploy_sees & E1)%bind_Ok.
  apply bind_Ok in E1 as (b & w2 & _ & E1). apply bind_Ok in E1 as ([] & w3 & _ & [= <- _]). exact E.
Qed.
Lemma deployImage_sees id i image w oda w' :
  deployImage id i image w = (Ok oda, w') → can_see (env_of w) oda.1.1.
Proof.
  unfold deployImage. intros (oa & w1 & E%authorizeDeploy_sees & E1)%bind_Ok.
  apply bind_Ok in E1 as (da & w2 & _ & [= <- _]). exact E.
Qed.
Lemma sees_after e w1 u o :
  can_see (tx_env e u Nil) o → w1.(w_db).(memberships) = e.(e_db).(memberships) →
  can_see (tx_env (env_of w1) u o) o.
Proof.
  intros [[=]|(v & Hv & Hm)] Hd. right. exists v. split; [done|].
  unfold is_member in *. simpl in *. by rewrite Hd.
Qed.

(** The git mode's second half: announcing the build, or giving it up. *)
Definition announceBuild (id : Identity) (i o : uuid) (b : Build) : M unit :=
  catch (publishBuildRequested bus registryAddr b i o) (λ err,
    logf "publishing build.requested" ;;
    r ← try (WithTx id.(UserID) o (BuildRepository.UpdateResult TxConn b.(Build_ID)
               BuildStatusFailed None None (Some ("failed to queue build: " +:+ error_text err))));
    match r with Err _ => logf "recording build result" | Ok _ => mret tt end ;;
    fail (APIError 502 "deploy_failed" ("failed to publish build request: " +:+ error_text err))).
Lemma announceBuild_cases id i b w r w' :
  announceBuild id i b.(Build_OrgID) b w = (r, w') →
  w.(w_db).(builds) !! b.(Build_ID) = Some b →
  can_see (tx_env (env_of w) id.(UserID) b.(Build_OrgID)) b.(Build_OrgID) →
  (r = Ok tt ∧ w'.(w_db) = w.(w_db) ∧ messages w' = messages w ++ [build_event b i b.(Build_OrgID)])
  ∨ ((∃ er, r = Err er) ∧ messages w' = messages w ∧ publish_lost w w' ∧ build_abandoned b w.(w_db) w w').
Proof.
  unfold announceBuild, catch, publishBuildRequested. intros Hr Hrow Hsee.
  destruct (bus_PublishDurable bus _ _ w) as [[[]|er] w2] eqn:E2;
    destruct (bus_cases _ _ _ _ _ E2) as (He2 & Hon2 & [(e0 & ? & Hm2 & Hl2)|(? & Hm2)]); try discriminate.
  - injection Hr as <- <-. left. split; [done|]. split; [by apply env_of_db|done].
  - right. unfold mbind, M_bind in Hr. simpl in Hr. set (w3 := add_event _ w2) in Hr.
    assert (env_of w3 = env_of w ∧ messages w3 = messages w ∧ publish_lost w w3) as (He3 & Hm3 & Hl3).
    { split; [done|]. split; [rewrite <-Hm2; apply (messages_logf _ w2)|done]. }
    clearbody w3. unfold try in Hr. pose proof (env_of_db _ _ He3) as Hd3.
    destruct (WithTx _ _ _ w3) as [r4 w4] eqn:E4. rewrite <-Hd3 in Hrow. rewrite <-He3 in Hsee.
    destruct (update_tx_cases _ _ _ _ _ _ _ _ _ _ _ _ E4 Hrow eq_refl Hsee) as (Hm4 & Hon4 & Hf).
    assert (build_abandoned b w.(w_db) w w4) as Hab.
    { rewrite Hd3 in *. destruct Hf as [(s & Hf)|[Hf Hl4]]; [left; by eexists b, s, _|right]. split; [done|].
      unfold marking_lost, publish_lost, lost in *. destruct bus; lia. }
    assert (publish_lost w w4) as Hl4 by (by eapply lost_onward_r).
    destruct r4 as [[]|er4]; simpl in Hr; injection Hr as <- <-; (split; [by eexists|]);
      (split; [|done]); [congruence|]. rewrite <-Hm3, <-Hm4. apply messages_logf.
Qed.
Lemma handleGitDeploy_cases id i req w r w' :
  handleGitDeploy bus registryAddr id i req w = (r, w') → deploy_result id i w r w'.
Proof.
  set (url := req.(deployRequest_GitURL)). set (ref := req.(deployRequest_GitRef)).
  intros Hr. unfold handleGitDeploy in Hr. unfold mbind at 1, M_bind at 1 in Hr.
  destruct (WithTx id.(UserID) Nil _ w) as [r1 w1] eqn:E.
  pose proof (onwards_run _ _ _ _ (onwards_WithTx _ _ _ (requestBuild_onwards id i url ref)) E) as Hon1.
  destruct (WithTx_quiet_cases _ _ _ _ _ _ _
      (gives_and _ _ (λ e ob, can_see e ob.1) (gives_requestBuild id i url ref) (requestBuild_sees id i url ref))
      (requestBuild_quiet _ _ _ _) E)
    as [Hm [(er & -> & Hd)|([o b] & e1 & -> & ((app & Hok & Hb) & Hsee) & Hd)]].
  { injection Hr as <- <-. by split; [|left]. }
  assert (build_allowed_and_made id i w b url ref w1.(w_db)) as Hmade.
  { exists app. rewrite Hd. destruct (Hok) as (_ & _ & Ho & _). simpl in *. by subst o. }
  assert (b.(Build_OrgID) = o ∧ w1.(w_db).(builds) !! b.(Build_ID) = Some b
          ∧ w1.(w_db).(memberships) = w.(w_db).(memberships)) as (Hbo & Hrow & Hmem).
  { rewrite Hd. simpl in Hb. destruct Hb as (g & -> & _ & g' & _ & ->). simpl. by rewrite lookup_insert_eq. }
  apply (sees_after _ w1) in Hsee; [|done]. simpl in Hr, Hsee. rewrite <-Hbo in Hr, Hsee.
  fold (announceBuild id i b.(Build_OrgID) b) in Hr. unfold mbind at 1, M_bind at 1 in Hr.
  destruct (announceBuild id i b.(Build_OrgID) b w1) as [r2 w2] eqn:E2.
  destruct (announceBuild_cases _ _ _ _ _ _ E2 Hrow Hsee) as [(-> & Hd2 & Hm2)|((er & ->) & Hm2 & Hl & Hab)];
    injection Hr as <- <-.
  - right. exists b, url, ref. by rewrite Hd2, Hm2, Hm.
  - split; [congruence|]. right. split; [by eapply lost_onward_l|]. right. exists b, url, ref, w1.(w_db).
    split; [done|]. destruct Hab as [?|[? ?]]; [by left|right]. split; [done|]. by eapply lost_onward_l.
Qed.
Lemma deployment_made_memberships o i u app image e da d' :
  deployment_made o i u app image e da d' → d'.(memberships) = e.(e_db).(memberships).
Proof.
  intros (g & d & Himg%image_set_tables & _ & _ & _ & _ & _ & _ & g' & _ & ->). simpl. by destruct_and! Himg.
Qed.
Lemma deployImage_cases id i image w r w' :
  consistent w.(w_db) →
  (WithTx id.(UserID) Nil (deployImage id i image) ≫= λ '(orgID, deployment, app),
     catch (publishPlacement bus orgID id.(UserID) app deployment) (λ err,
       fail (APIError 502 "deploy_failed" ("failed to publish placement request: " +:+ error_text err))) ;;
     mret (writeJSON 201 (deploymentResponse deployment
             (mkReplicaState app.(Application_ReplicasDesired) 0 []) None))) w = (r, w') →
  deploy_result id i w r w'.
Proof.
  intros Hc Hr. unfold mbind at 1, M_bind at 1 in Hr.
  destruct (WithTx id.(UserID) Nil _ w) as [r1 w1] eqn:E.
  pose proof (onwards_run _ _ _ _ (onwards_WithTx _ _ _ (deployImage_onwards id i image)) E) as Hon1.
  destruct (WithTx_quiet_cases _ _ _ _ _ _ _
      (gives_and _ _ (λ e oda, can_see e oda.1.1) (gives_deployImage id i image) (deployImage_sees id i image))
      (deployImage_quiet _ _ _) E)
    as [Hm [(er & -> & Hd)|([[o x] app'] & e1 & -> & ((app & Hok & Hx) & Hsee) & Hd)]].
  { injection Hr as <- <-. by split; [|left]. }
  simpl in *. rewrite <-Hd in Hx.
  assert (deployment_allowed_and_made id i w x app' image w1.(w_db)) as Hmade.
  { exists app. destruct (Hok) as (_ & Ha & Ho & _). simpl in Ha. subst o. split; [done|]. split; [|done].
    destruct Hx as (g & d & _ & _ & _ & Hx & _). simpl in Hx. rewrite Hx. simpl.
    by erewrite next_revision_eq; [done|done|exact Ha|apply can_see_enter]. }
  assert (deployed o x w1.(w_db) ∧ w1.(w_db).(memberships) = w.(w_db).(memberships)) as [Hdep Hmem].
  { destruct (Hok) as (_ & Ha & Ho & _). split; [|exact (deployment_made_memberships _ _ _ _ _ _ _ _ Hx)].
    exact (proj2 (deployment_made_acts _ _ _ _ _ _ _ _ Hx (ex_intro _ app (conj Ha (eq_sym Ho))))). }
  apply (sees_after _ w1) in Hsee; [|done]. simpl in Hsee.
  unfold mbind at 1, M_bind at 1, catch in Hr.
  destruct (publishPlacement bus o _ app' x w1) as [r2 w2] eqn:E2.
  destruct (publishPlacement_cases _ _ _ _ _ _ _ E2 Hdep Hsee)
    as [(-> & Hd2 & Hm2)|((er & ->) & Hm2 & Hab & Hl)];
    injection Hr as <- <-.
  - left. exists x, app', image. by rewrite Hd2, Hm2, Hm.
  - split; [congruence|]. right. split; [by eapply lost_onward_l|]. left. exists x, app', image, w1.(w_db).
    split; [done|]. destruct Hab as [?|[? ?]]; [by left|right]. split; [done|]. by eapply lost_onward_l.
Qed.

Lemma deployAs_cases id i req w r w' :
  consistent w.(w_db) → deployAs bus registryAddr id i req w = (r, w') → deploy_result id i w r w'.
Proof.
  unfold deployAs. intros Hc. case_decide; [by intros [= <- <-]; split; [|left]|].
  case_decide; [apply handleGitDeploy_cases|by apply deployImage_cases].
Qed.

Lemma respond_onward m w r w' : respond m w = (r, w') → ∀ er w1, m w = (Err er, w1) → onward w1 w'.
Proof.
  unfold respond, catch. intros Hr er w1 E. rewrite E in Hr.
  eapply onwards_run; [|exact Hr]. unfold writeError, logf. onwards_auto.
Qed.
(** Writing the error out changes nothing of it. *)
Lemma deploy_failed_onward id i w w1 w' :
  deploy_failed id i w w1 → onward w1 w' → w'.(w_db) = w1.(w_db) → messages w' = messages w1 →
  deploy_failed id i w w'.
Proof.
  unfold deploy_failed, abandoned, build_abandoned. intros (Hm & Hd) Ho Hdb Hms. rewrite Hdb, Hms.
  split; [done|]. destruct Hd as [?|[Hl Hd]]; [by left|right]. split; [by eapply lost_onward_r|].
  destruct Hd as [(x & app' & image & d & ? & Hd)|(b & url & ref & d & ? & Hd)]; [left|right];
    do 4 eexists; (split; [done|]); (destruct Hd as [?|[? ?]]; [by left|right]); (split; [done|]);
    by eapply lost_onward_r.
Qed.

(** C12: deploying.  A request to deploy has one of three outcomes: an error
    reply, nothing sent, and either the database as it was or, only when the
    message could not be published, the one new deployment (or build) marked
    failed, which is left pending only when a call of that marking failed as
    well; a 201 with exactly one new
    deployment of the application, revision one above all its revisions,
    made by a caller who may deploy there while the organization's daily and
    resource quotas allowed it, and exactly one placement request for it; or
    a 202 with exactly one new build, under the same checks, and exactly one
    build request for it. *)
Theorem handleDeploy_correct id appId body w r w' :
  consistent w.(w_db) →
  handleDeploy bus registryAddr id appId body w = (r, w') →
  ∃ reply, r = Ok reply ∧
    ((is_error reply ∧ ((messages w' = messages w ∧ w'.(w_db) = w.(w_db))
                        ∨ ∃ i, uuid_Parse appId = Some i ∧ deploy_failed id i w w'))
     ∨ ∃ i, uuid_Parse appId = Some i ∧ deploy_accepted id i w reply w').
Proof.
  intros Hc Hr. unfold handleDeploy in Hr.
  assert (∀ r1 w1, (appID ← path_id "appId" appId;
      req ← match body with
            | None => mret inhabitant
            | Some body => decode_body "an optional image or git_url" body
            end;
      deployAs bus registryAddr id appID req) w = (r1, w1) →
    (w1 = w ∧ ∃ er, r1 = Err er) ∨ ∃ i, uuid_Parse appId = Some i ∧ deploy_result id i w r1 w1) as Hbody.
  { intros r1 w1 E. unfold mbind at 1, M_bind at 1 in E. rewrite path_id_cases in E.
    destruct (uuid_Parse appId) as [i|]; [|simplify_eq; eauto].
    assert (∀ req, deployAs bus registryAddr id i req w = (r1, w1) →
      (w1 = w ∧ ∃ er, r1 = Err er) ∨ ∃ i0, Some i = Some i0 ∧ deploy_result id i0 w r1 w1) as Hreq.
    { intros req Hreq. right. exists i. split; [done|]. by eapply deployAs_cases. }
    unfold mbind, M_bind in E. destruct body as [body|]; [|exact (Hreq _ E)].
    unfold decode_body in E. destruct (Unmarshal body) as [req|]; [exact (Hreq _ E)|]. unfold fail in E; simplify_eq. eauto. }
  pose proof (respond_onward _ _ _ _ Hr) as Hon.
  apply respond_cases in Hr as [(reply & -> & Hr)|(er & w1 & reply & Hr & -> & Herr & Hd & Hm)];
    (exists reply; split; [done|]); destruct (Hbody _ _ Hr) as [[-> [? ?]]|(i & Hi & Hres)];
    simplify_eq; [right; eauto|left; auto|left].
  split; [done|]. right. exists i. split; [done|]. apply Hon in Hr. by eapply deploy_failed_onward.
Qed.
End deploys.

(** ** On the sample *)

#[local] Existing Instances hexUUID hexTime hexCursor plainCredentials.
(** The owner deploys the shop's current image: the reply is the 201. *)
Lemma handleDeploy_correct_witness :
  let (r, w') := handleDeploy true "" (mkIdentity 2 None) (canonical_String 20) None sampleWorld in
  (∃ reply, r = Ok reply ∧ reply.(reply_status) = 201
            ∧ deploy_accepted "" (mkIdentity 2 None) 20 sampleWorld reply w').
Proof.
  destruct (handleDeploy true "" (mkIdentity 2 None) (canonical_String 20) None sampleWorld) as [r w'] eqn:E.
  destruct (handleDeploy_correct true "" _ _ _ sampleWorld r w' sample_consistent E)
    as (reply & -> & [[(st & code & msg & Herr) _]|(i & Hi & Hacc)]).
  - exfalso. apply (f_equal fst) in E. vm_compute in E. injection E as E.
    rewrite Herr in E. unfold writeJSON, errorBody in E. discriminate E.
  - exists reply. split; [reflexivity|]. split.
    + apply (f_equal fst) in E. vm_compute in E. injection E as E. by rewrite <-E.
    + replace 20%N with i; [exact Hacc|]. vm_compute in Hi. congruence.
Defined.

(** A build of the shop, queued, and the message that it succeeded. *)
Definition shop_build : Build :=
  Build_Build 80 1 20 "https://example.com/shop.git" "main" None BuildStatusPending None None 2 0 None.
Definition buildingDB : DB := set_builds {[80%N := shop_build]} sampleDB.
Definition buildingWorld : World := set_db buildingDB sampleWorld.
Definition shop_built : buildCompletedMessage :=
  Build_buildCompletedMessage (canonical_String 80) (canonical_String 1) "succeeded" "abc" "registry/shop:abc" "".
Lemma building_consistent : consistent buildingDB.
Proof.
  split; unfold buildingDB, sampleDB; simpl; intros i x; rewrite ?lookup_singleton_Some, ?lookup_empty; try done;
    try (intros [<- <-]; done); intros [<- <-]; eexists; rewrite lookup_singleton_eq; done.
Qed.
Lemma handleBuildCompleted_correct_witness :
  ∃ w', handleBuildCompleted true (Some (to_json shop_built)) buildingWorld = (Ok tt, w')
    ∧ consistent w'.(w_db)
    ∧ size w'.(w_db).(deployments) = 2%nat.
Proof.
  destruct (handleBuildCompleted_correct true (Some (to_json shop_built)) buildingWorld building_consistent)
    as (w' & E & Hc & _).
  exists w'. split; [exact E|]. split; [exact Hc|].
  apply (f_equal (λ x, size x.2.(w_db).(deployments))) in E. simpl in E. rewrite <-E.
  vm_compute. reflexivity.
Defined.

(** The same message delivered twice deploys twice. *)
Lemma redelivered_build_deploys_again :
  let w1 := (handleBuildCompleted true (Some (to_json shop_built)) buildingWorld).2 in
  let w2 := (handleBuildCompleted true (Some (to_json shop_built)) w1).2 in
  size w1.(w_db).(deployments) = 2%nat ∧ size w2.(w_db).(deployments) = 3%nat.
Proof. vm_compute. done. Qed.
