(* ===== verification/Accounts.v ===== *)
(** * Accounts: signing up, logging in, refreshing

    What the three handlers of handlers_auth.go do, on every branch: the rows
    a sign-up makes, the tokens a login and a refresh issue, and that a
    refresh token is good for one refresh. *)
From S2P Require Import Prelude Json Schema Effects Rls Outcomes DbTenancy DbWorkload.
From S2P Require Import DbCluster Slug Encoding Auth Concrete ApiCore ApiOrgs ApiAuth.
From S2P Require Import Handlers Isolation Writes Sample.
From stdpp Require Import base gmap strings list.
From Stdlib Require Import ZArith Lia.
Open Scope Z_scope.

(** ** The statements *)

Lemma gives_user_Create c email hash :
  gives (UserRepository.Create c email hash)
    (λ e u e', ∃ g, u = Build_User g email hash e.(e_now) ∧ e.(e_db).(users) !! g = None
       ∧ Forall (λ x, x.(User_Email) ≠ email) (rows e.(e_db).(users))
       ∧ e' = with_db e (set_users (<[g := u]> e.(e_db).(users)) e.(e_db))).
Proof.
  apply gives_or_conflict. eapply gives_mono; [apply gives_run_stmt|].
  intros e u e' (g & d & Hst & ->). unfold UserRepository.Create_sql in Hst.
  stmt_inv Hst. destruct_and?. by exists g.
Qed.
Lemma gives_organization_Create c name slug :
  gives (OrganizationRepository.Create c name slug)
    (λ e o e', ∃ g, o = Build_Organization g name slug e.(e_now)
       ∧ e.(e_db).(organizations) !! g = None
       ∧ e' = with_db e (set_organizations (<[g := o]> e.(e_db).(organizations)) e.(e_db))).
Proof.
  apply gives_or_conflict. eapply gives_mono; [apply gives_run_stmt|].
  intros e u e' (g & d & Hst & ->). unfold OrganizationRepository.Create_sql in Hst.
  stmt_inv Hst. destruct_and?. by exists g.
Qed.
(** The quota row of an organization: the ceilings of [q]. *)
Definition quota_of (o : uuid) (q : ResourceQuota) (t : time) : ResourceQuota :=
  Build_ResourceQuota o q.(ResourceQuota_MaxCPUMillicores) q.(ResourceQuota_MaxMemoryMB)
    q.(ResourceQuota_MaxContainers) q.(ResourceQuota_MaxProjects)
    q.(ResourceQuota_MaxDeploymentsPerDay) t.
Lemma gives_quota_Create c o q :
  gives (QuotaRepository.Create c o q)
    (λ e r e', r = quota_of o q e.(e_now) ∧ e.(e_db).(resource_quotas) !! o = None
       ∧ e' = with_db e (set_resource_quotas (<[o := r]> e.(e_db).(resource_quotas)) e.(e_db))).
Proof.
  apply gives_or_conflict. eapply gives_mono; [apply gives_run_stmt|].
  intros e u e' (g & d & Hst & ->). unfold QuotaRepository.Create_sql in Hst.
  stmt_inv Hst. by unfold quota_of.
Qed.
(** A new refresh token. *)
Definition new_token (g u : uuid) (hash : string) (created expires : time) : RefreshToken :=
  Build_RefreshToken g u hash created expires None None.
Lemma gives_token_Create c u hash t :
  gives (RefreshTokenRepository.Create c u hash t)
    (λ e x e', ∃ g, x = new_token g u hash e.(e_now) t
       ∧ e.(e_db).(refresh_tokens) !! g = None
       ∧ Forall (λ y, y.(RefreshToken_TokenHash) ≠ hash) (rows e.(e_db).(refresh_tokens))
       ∧ e' = with_db e (set_refresh_tokens (<[g := x]> e.(e_db).(refresh_tokens)) e.(e_db))).
Proof.
  apply gives_or_conflict, gives_scan. eapply gives_mono; [apply gives_run_stmt|].
  intros e u' e' (g & d & Hst & ->). unfold RefreshTokenRepository.Create_sql in Hst.
  stmt_inv Hst. destruct_and?. by exists g.
Qed.
Lemma GetByHash_refails {A} :
  refails (λ e, if errors_Is e ErrNotFound then @fail A ErrNotFound
                else fail (Errorf "fetching refresh token" e)).
Proof. apply (refails_if (λ e, errors_Is e ErrNotFound) (λ _, ErrNotFound)). Qed.
Lemma gives_GetByHash c hash :
  gives (RefreshTokenRepository.GetByHash c hash)
    (λ e x e', e' = e ∧ x.(RefreshToken_TokenHash) = hash
               ∧ ∃ i, e.(e_db).(refresh_tokens) !! i = Some x).
Proof.
  apply gives_catch; [|apply GetByHash_refails]. apply gives_scan.
  eapply gives_mono; [apply gives_query_row|]. intros e x e' (-> & g & l & Hl). split; [done|].
  apply (elem_of_select (λ x, x.(RefreshToken_TokenHash) = hash)). simpl in Hl. rewrite Hl. left.
Qed.
Lemma gives_GetByID c i :
  gives (UserRepository.GetByID c i) (λ e u e', e' = e ∧ e.(e_db).(users) !! i = Some u).
Proof.
  apply gives_or_not_found. eapply gives_mono; [apply gives_query_row|].
  intros e u e' (-> & g & l & Hl). split; [done|]. simpl in Hl.
  destruct (e.(e_db).(users) !! i); by simplify_eq/=.
Qed.
Lemma gives_Rotate c i j :
  gives (RefreshTokenRepository.Rotate c i j)
    (λ e _ e', ∃ x, e.(e_db).(refresh_tokens) !! i = Some x
       ∧ e' = with_db e (set_refresh_tokens
                (<[i := RefreshTokenRepository.revoke e.(e_now) (Some j) x]> e.(e_db).(refresh_tokens))
                e.(e_db))).
Proof.
  eapply gives_mono; [apply gives_exec_affected|]. intros e _ e' (n & g & d & Hn & Hst & ->).
  unfold RefreshTokenRepository.Rotate_sql in Hst.
  destruct (e.(e_db).(refresh_tokens) !! i) as [x|] eqn:E; [|by simplify_eq].
  stmt_inv Hst. by exists x.
Qed.
Lemma gives_ListForUser c u :
  gives (MembershipRepository.ListForUser c u)
    (λ e l e', e' = e ∧ ∃ g, l = select (λ m, m.(Membership_UserID) = u
                                    ∧ membership_visible (stmt_in c e g) e.(e_db) m) e.(e_db).(memberships)).
Proof. apply gives_wrap, gives_query. Qed.
Lemma gives_orgSlug o :
  gives (orgSlug o) (λ e s e', e' = e ∧ ∃ x, e.(e_db).(organizations) !! o = Some x
                                              ∧ s = x.(Organization_Slug)).
Proof.
  eapply gives_mono; [apply gives_query_row|]. intros e s e' (-> & g & l & Hl). split; [done|].
  simpl in Hl. destruct (e.(e_db).(organizations) !! o) as [x|]; simplify_eq/=. eauto.
Qed.
#[export] Hint Resolve GetByHash_refails : effects.
#[export] Hint Resolve gives_user_Create gives_organization_Create gives_quota_Create gives_token_Create
  gives_GetByHash gives_GetByID gives_Rotate gives_ListForUser gives_orgSlug : gives.

(** ** Signing up *)

(** The rows of a new account: a user, an organization of theirs with the
    default quota, their ownership, and the audit entry. *)
Definition signed_up (email hash name slug : string) (e : Env) (uo : User * Organization)
    (d' : DB) : Prop :=
  let d := e.(e_db) in let t := e.(e_now) in
  ∃ gm, uo.1 = Build_User uo.1.(User_ID) email hash t
    ∧ uo.2 = Build_Organization uo.2.(Organization_ID) name slug t
    ∧ d.(users) !! uo.1.(User_ID) = None
    ∧ Forall (λ x, x.(User_Email) ≠ email) (rows d.(users))
    ∧ d.(organizations) !! uo.2.(Organization_ID) = None
    ∧ d.(resource_quotas) !! uo.2.(Organization_ID) = None
    ∧ d.(memberships) !! gm = None
    ∧ ¬ is_member d uo.1.(User_ID) uo.2.(Organization_ID)
    ∧ audited uo.2.(Organization_ID) uo.1.(User_ID) "organization.create" "organization"
        uo.2.(Organization_ID) [] t
        (set_memberships (<[gm := Build_Membership gm uo.2.(Organization_ID) uo.1.(User_ID)
                                    MembershipRoleOwner t]> d.(memberships))
        (set_resource_quotas (<[uo.2.(Organization_ID) := quota_of uo.2.(Organization_ID) DefaultResourceQuota t]>
                                d.(resource_quotas))
        (set_organizations (<[uo.2.(Organization_ID) := uo.2]> d.(organizations))
        (set_users (<[uo.1.(User_ID) := uo.1]> d.(users)) d)))) d'.
Lemma gives_signup email hash name slug :
  gives (signup email hash name slug)
    (λ e uo e', signed_up email hash name slug e uo e'.(e_db) ∧ e'.(e_now) = e.(e_now)).
Proof.
  unfold signup. eapply gives_mono; [repeat first [eapply gives_mapped | gives_step]|].
  intros e uo e'. simpl. intros HH. gives_inv. simpl in *.
  split; [|done]. exists x15. by split_and!.
Qed.
Lemma signup_quiet email hash name slug : quiet (signup email hash name slug).
Proof.
  unfold signup, UserRepository.Create, OrganizationRepository.Create, QuotaRepository.Create,
    MembershipRepository.Create, mapped, recordAudit, AuditLogRepository.Record_. quiet_auto.
Qed.

Section accounts.
Context `{UUIDText} `{TimeText} `{Credentials}.

(** A refresh token of user [u] was stored, by its hash only. *)
Definition token_at (g u : uuid) (plain : string) (t : time) (d d' : DB) : Prop :=
  d.(refresh_tokens) !! g = None
    ∧ Forall (λ x, x.(RefreshToken_TokenHash) ≠ HashRefreshToken plain) (rows d.(refresh_tokens))
    ∧ d' = set_refresh_tokens
             (<[g := new_token g u (HashRefreshToken plain) t (t + RefreshTokenTTL)]> d.(refresh_tokens)) d.
Definition token_issued (u : uuid) (plain : string) (t : time) (d d' : DB) : Prop :=
  ∃ g, token_at g u plain t d d'.
(** What a client gets with it: an access token for 15 minutes. *)
Definition auth_of (user : User) (orgID : uuid) (slug role : string) (t : time) (plain : string)
    : authResponse :=
  mkAuthResponse user orgID slug role (jwt_issue user.(User_ID) (t + AccessTokenTTL))
    (t + AccessTokenTTL) plain.
Lemma gives_issueAuthResponse user o slug role raw :
  gives (issueAuthResponse user o slug role raw)
    (λ e a e', ∃ plain d, a = auth_of user o slug role e.(e_now) plain
       ∧ token_issued user.(User_ID) plain e.(e_now) e.(e_db) d ∧ e' = with_db e d).
Proof.
  unfold issueAuthResponse, IssueAccessToken, GenerateRefreshToken.
  destruct raw as [raw|]; simpl; eapply gives_mono; [gives_auto|..|gives_auto|];
    intros e a e'; simpl; intros HH; gives_inv.
  eexists _, _. split; [done|]. split; [|done]. eexists. by split_and!.
Qed.
Lemma issueAuthResponse_atomic user o slug role raw : atomic (issueAuthResponse user o slug role raw).
Proof.
  unfold issueAuthResponse, IssueAccessToken, GenerateRefreshToken.
  eapply atomic_after; [apply observes_now|]. intros issued. destruct raw; [|apply atomic_fail].
  eapply atomic_after; [apply observes_now|]. intros t. apply atomic_then.
  apply atomic_catch; [|solve [eauto with effects]]. apply atomic_catch; [|solve [eauto with effects]].
  apply atomic_run_stmt.
Qed.

(** How signing up with [req] ends. *)
Definition signup_row (req : credentialsRequest) (fresh : uuid) (w : World) (uo : User * Organization)
    (d : DB) : Prop :=
  ∃ hash, HashPassword req.(credentialsRequest_Password) = Some hash
    ∧ req.(credentialsRequest_Email) ≠ "" ∧ req.(credentialsRequest_Password) ≠ ""
    ∧ let org := defaultOrgFor req.(credentialsRequest_Email) fresh in
      signed_up req.(credentialsRequest_Email) hash org.1 org.2 (env_of w) uo d.
Definition signup_end (req : credentialsRequest) (fresh : uuid) (w : World) (r : Res Reply) (d' : DB)
    : Prop :=
  match r with
  | Err _ => d' = w.(w_db) ∨ ∃ uo, signup_row req fresh w uo d'
  | Ok reply => ∃ uo d plain, signup_row req fresh w uo d
      ∧ token_issued uo.1.(User_ID) plain w.(w_now) d d'
      ∧ reply = writeJSON 201 (auth_json (auth_of uo.1 uo.2.(Organization_ID)
                  uo.2.(Organization_Slug) "owner" w.(w_now) plain))
  end.
Lemma signupAs_cases req fresh raw w r w' :
  signupAs req fresh raw w = (r, w') → messages w' = messages w ∧ signup_end req fresh w r w'.(w_db).
Proof.
  unfold signupAs. intros E. case_decide as He; [injection E as <- <-; split; [done|simpl; by left]|].
  destruct (HashPassword _) as [hash|] eqn:Hh; [|injection E as <- <-; split; [done|simpl; by left]].
  destruct (atomic_cases _ _ _ _ _ _ (gives_WithTx _ _ _ _ (gives_signup _ _ _ _))
    (atomic_WithTx _ _ _ _ (gives_signup _ _ _ _) (signup_quiet _ _ _ _)) E)
    as [(er & _ & -> & Hd & Hm)|(uo & w1 & _ & (e1 & [Hs Hn] & He1) & Hm1 & E1)]; [split; [done|simpl; by left]|].
  injection He1 as Hd1 _ Hn1. rewrite Hn in Hn1. rewrite <-Hd1 in Hs.
  assert (signup_row req fresh w uo w1.(w_db)) as Hrow by (exists hash; naive_solver).
  destruct (atomic_cases _ _ _ _ _ _ (gives_issueAuthResponse _ _ _ _ _)
    (issueAuthResponse_atomic _ _ _ _ _) E1)
    as [(er & _ & -> & Hd & Hm)|(a & w2 & _ & (plain & d & -> & Ht & He2) & Hm2 & E2)].
  { split; [congruence|]. right. exists uo. by rewrite Hd. }
  injection E2 as <- <-. split; [congruence|]. exists uo, w1.(w_db), plain.
  injection He2 as Hd2 _ _. simpl in Hn1. rewrite Hd2. unfold env_of in Ht; simpl in Ht; rewrite Hn1 in Ht |- *. by split_and!.
Qed.

(** C29: signing up.  Either an error reply, with the database as it was or,
    when only the refresh token could not be stored, the complete account; or
    a 201 with the complete account of the email and the password's hash, an
    organization of the default quota owned by the new user, and one session:
    a refresh token stored by its hash only. *)
Theorem handleSignup_correct body fresh raw w r w' :
  handleSignup body fresh raw w = (r, w') →
  messages w' = messages w ∧ ∃ reply, r = Ok reply ∧
  ((is_error reply ∧ (w'.(w_db) = w.(w_db)
      ∨ ∃ req uo, Unmarshal body = Some req ∧ signup_row req fresh w uo w'.(w_db)))
   ∨ ∃ req, Unmarshal body = Some req ∧ signup_end req fresh w (Ok reply) w'.(w_db)).
Proof.
  unfold handleSignup, decode_body. intros Hr.
  destruct (Unmarshal body) as [req|].
  - apply respond_cases in Hr as [(reply & -> & E)|(er & w1 & reply & E & -> & Herr & Hd & Hm)];
      apply (signupAs_cases req) in E as [Hm1 Hend].
    + split; [done|]. exists reply. split; [done|]. right. by exists req.
    + split; [congruence|]. exists reply. split; [done|]. left. split; [done|]. rewrite Hd.
      destruct Hend as [|(uo & Hrow)]; [by left|right]. by exists req, uo.
  - apply respond_cases in Hr as [(reply & -> & E)|(er & w1 & reply & E & -> & Herr & Hd & Hm)]; [done|injection E as <- <-].
    split; [done|]. exists reply. split; [done|]. left. split; [done|]. by left.
Qed.

(** ** Logging in *)

Lemma login_refails {A} er : refails (λ e, if errors_Is e ErrNotFound then @fail A er else fail e).
Proof. apply refails_not_found. Qed.
Lemma GetByEmail_atomic c email : atomic (UserRepository.GetByEmail c email).
Proof. apply atomic_catch; [apply atomic_run_stmt|solve [eauto with effects]]. Qed.
Lemma ListForUser_quiet c u : quiet (MembershipRepository.ListForUser c u).
Proof. unfold MembershipRepository.ListForUser. quiet_auto. Qed.

(** The user the credentials are of, a membership of theirs and its
    organization. *)
Definition login_row (req : credentialsRequest) (w : World) (u : User) (m : Membership) (x : Organization)
    : Prop :=
  (∃ i, w.(w_db).(users) !! i = Some u) ∧ u.(User_Email) = req.(credentialsRequest_Email)
  ∧ VerifyPassword u.(User_PasswordHash) req.(credentialsRequest_Password) = Some true
  ∧ (∃ j, w.(w_db).(memberships) !! j = Some m) ∧ m.(Membership_UserID) = u.(User_ID)
  ∧ w.(w_db).(organizations) !! m.(Membership_OrgID) = Some x.
Definition login_end (req : credentialsRequest) (w : World) (r : Res Reply) (d' : DB) : Prop :=
  match r with
  | Err _ => d' = w.(w_db)
  | Ok reply => ∃ u m x plain, login_row req w u m x
      ∧ token_issued u.(User_ID) plain w.(w_now) w.(w_db) d'
      ∧ reply = writeJSON 200 (auth_json (auth_of u m.(Membership_OrgID) x.(Organization_Slug)
                  (to_text m.(Membership_Role)) w.(w_now) plain))
  end.
Lemma loginAs_cases req raw w r w' :
  loginAs req raw w = (r, w') → messages w' = messages w ∧ login_end req w r w'.(w_db).
Proof.
  unfold loginAs. intros E.
  destruct (atomic_cases _ _ _ _ _ _ (gives_catch _ _ _ (gives_GetByEmail _ _) (login_refails _))
    (atomic_catch _ _ (GetByEmail_atomic _ _) (login_refails _)) E)
    as [(er & _ & -> & Hd & Hm)|(u & w1 & _ & ([= Hd1 _ Hn1] & Hu & Hi) & Hm1 & E1)]; [done|].
  destruct (VerifyPassword _ _) as [[|]|] eqn:Hp; [|injection E1 as <- <-; by split..].
  destruct (atomic_cases _ _ _ _ _ _ (gives_WithTx _ _ _ _ (gives_ListForUser _ _))
    (atomic_WithTx _ _ _ _ (gives_ListForUser _ _) (ListForUser_quiet _ _)) E1)
    as [(er & _ & -> & Hd & Hm)|(l & w2 & _ & (e1 & [-> (g & Hl)] & [= Hd2 _ Hn2]) & Hm2 & E2)];
    [split; simpl; congruence|].
  simpl in *. destruct l as [|m l]; [injection E2 as <- <-; split; simpl; congruence|].
  assert (m ∈ m :: l) as Hin by left. rewrite Hl in Hin.
  apply elem_of_select in Hin as [[Hmu _] Hmi].
  destruct (atomic_cases _ _ _ _ _ _ (gives_orgSlug _) (atomic_run_stmt _ _) E2)
    as [(er & _ & -> & Hd & Hm)|(s & w3 & _ & ([= Hd3 _ Hn3] & x & Hx & ->) & Hm3 & E3)];
    [split; simpl; congruence|].
  destruct (atomic_cases _ _ _ _ _ _ (gives_issueAuthResponse _ _ _ _ _)
    (issueAuthResponse_atomic _ _ _ _ _) E3)
    as [(er & _ & -> & Hd & Hm)|(a & w4 & _ & (plain & d & -> & Ht & [= Hd4 _ _]) & Hm4 & E4)];
    [split; simpl; congruence|].
  injection E4 as <- <-. split; [congruence|].
  assert (w_db w3 = w_db w ∧ w_now w3 = w_now w) as [HD HN] by (split; congruence).
  simpl in Ht. rewrite HD, HN in Ht. exists u, m, x, plain. simpl. rewrite Hd4, HN.
  split; [|done]. simpl in Hx. unfold login_row. split_and!; try done; [rewrite <-Hd1; done|congruence].
Qed.

(** logging in.  A 200 only for an email and a password that verifies
    against its user's hash, as a member of an organization; it stores one
    refresh token of that user, by its hash, and nothing else changes; an
    error reply changes nothing. *)
Theorem handleLogin_correct body raw w r w' :
  handleLogin body raw w = (r, w') →
  messages w' = messages w ∧ ∃ reply, r = Ok reply ∧
  ((is_error reply ∧ w'.(w_db) = w.(w_db))
   ∨ ∃ req, Unmarshal body = Some req ∧ login_end req w (Ok reply) w'.(w_db)).
Proof.
  unfold handleLogin, decode_body. intros Hr. destruct (Unmarshal body) as [req|].
  - apply respond_cases in Hr as [(reply & -> & E)|(er & w1 & reply & E & -> & Herr & Hd & Hm)];
      apply (loginAs_cases req) in E as [Hm1 Hend].
    + split; [done|]. exists reply. split; [done|]. right. by exists req.
    + split; [congruence|]. exists reply. split; [done|]. left. split; [done|]. by rewrite Hd.
  - apply respond_cases in Hr as [(reply & -> & E)|(er & w1 & reply & E & -> & Herr & Hd & Hm)]; [done|injection E as <- <-].
    split; [done|]. exists reply. split; [done|]. by left.
Qed.

(** a refused login says nothing about who has an account: with no call
    failing, an unknown email and a wrong password of a known one get the very
    same reply, and change nothing. *)
Theorem login_refusal_uniform body req raw w :
  calm w → Unmarshal body = Some req →
  (∀ i u, w.(w_db).(users) !! i = Some u → u.(User_Email) = req.(credentialsRequest_Email) →
     VerifyPassword u.(User_PasswordHash) req.(credentialsRequest_Password) = Some false) →
  ∃ w', handleLogin body raw w
        = (Ok (writeJSON 401 (errorBody "unauthorized" "invalid email or password")), w')
        ∧ keeps w w'.
Proof.
  intros Hc Hreq Hno. unfold handleLogin, decode_body. rewrite Hreq. unfold respond, catch.
  assert (∃ w', loginAs req raw w = (Err badCredentials, w') ∧ keeps w w') as (w' & E & Hk).
  2:{ unfold mbind, M_bind, mret, M_ret. rewrite E. simpl. by exists w'. }
  unfold loginAs, UserRepository.GetByEmail, or_not_found. unfold mbind at 1, M_bind at 1.
  unfold catch. rewrite run_stmt_calm by done. unfold execute, query_row. simpl.
  destruct (select _ (users (w_db w))) as [|u l] eqn:Hl; simpl.
  - by eexists.
  - assert (u ∈ u :: l) as Hin by left. rewrite <-Hl in Hin. apply elem_of_select in Hin as [Hu [i Hi]].
    rewrite (Hno i u Hi Hu). by eexists.
Qed.

(** ** Refreshing *)

(** The token table: keyed by id, one row per hash. *)
Definition tokens_wf (d : DB) : Prop :=
  (∀ i x, d.(refresh_tokens) !! i = Some x → x.(RefreshToken_ID) = i)
  ∧ ∀ i j x y, d.(refresh_tokens) !! i = Some x → d.(refresh_tokens) !! j = Some y →
      x.(RefreshToken_TokenHash) = y.(RefreshToken_TokenHash) → i = j.
Lemma tokens_wf_same d d' : d'.(refresh_tokens) = d.(refresh_tokens) → tokens_wf d → tokens_wf d'.
Proof. unfold tokens_wf. by intros ->. Qed.
Lemma tokens_wf_issued u plain t d d' : token_issued u plain t d d' → tokens_wf d → tokens_wf d'.
Proof.
  intros (g & Hg & Hfresh & ->) [Hk Hu].
  assert (∀ i x, d.(refresh_tokens) !! i = Some x → x.(RefreshToken_TokenHash) ≠ HashRefreshToken plain) as Hne.
  { intros i x Hi. rewrite Forall_forall in Hfresh. apply Hfresh, elem_of_rows. by exists i. }
  split; simpl.
  - intros i x [[<- <-]|[_ Hi]]%lookup_insert_Some; [done|by apply Hk].
  - intros i j x y [[<- <-]|[_ Hi]]%lookup_insert_Some [[<- <-]|[_ Hj]]%lookup_insert_Some Hxy;
      [done|by destruct (Hne _ _ Hj)|by destruct (Hne _ _ Hi)|by eapply Hu].
Qed.
(** Revoking a row keeps its id and hash. *)
Lemma tokens_wf_revoke d i x t b :
  d.(refresh_tokens) !! i = Some x → tokens_wf d →
  tokens_wf (set_refresh_tokens (<[i := RefreshTokenRepository.revoke t b x]> d.(refresh_tokens)) d).
Proof.
  intros Hx [Hk Hu].
  assert (∀ j y, <[i := RefreshTokenRepository.revoke t b x]> d.(refresh_tokens) !! j = Some y →
    ∃ y0, d.(refresh_tokens) !! j = Some y0 ∧ y.(RefreshToken_ID) = y0.(RefreshToken_ID)
          ∧ y.(RefreshToken_TokenHash) = y0.(RefreshToken_TokenHash)) as Hback.
  { intros j y [[<- <-]|[_ Hj]]%lookup_insert_Some; [by exists x|by exists y]. }
  split; simpl.
  - intros j y (y0 & Hj & -> & _)%Hback. by apply Hk.
  - intros j k y z (y0 & Hj & _ & Hy)%Hback (z0 & Hk0 & _ & Hz)%Hback Hyz. eapply Hu; eauto; congruence.
Qed.

Lemma gives_checkRefresh token :
  gives (checkRefresh token) (λ e x e', e' = e ∧ (∃ i, e.(e_db).(refresh_tokens) !! i = Some x)
    ∧ x.(RefreshToken_TokenHash) = HashRefreshToken token
    ∧ x.(RefreshToken_RevokedAt) = None ∧ e.(e_now) ≤ x.(RefreshToken_ExpiresAt)).
Proof.
  unfold checkRefresh. eapply gives_mono; [gives_auto|]. simpl.
  intros e x e' (y & _ & (-> & Hh & Hi) & _ & _ & (-> & ->) & Hn & -> & ->).
  split; [done|]. split; [done|]. split; [done|].
  destruct (RefreshToken_RevokedAt y); [destruct Hn; by left|]. split; [done|]. lia.
Qed.
Lemma checkRefresh_readonly token : readonly (checkRefresh token).
Proof. unfold checkRefresh, RefreshTokenRepository.GetByHash. readonly_auto. Qed.

(** How issuing for the row [stored] ends. *)
Definition issue_end (stored : RefreshToken) (w : World) (r : Res Reply) (d' : DB) : Prop :=
  match r with
  | Err _ => d' = w.(w_db)
      ∨ ∃ u plain, w.(w_db).(users) !! stored.(RefreshToken_UserID) = Some u
          ∧ token_issued u.(User_ID) plain w.(w_now) w.(w_db) d'
  | Ok reply => ∃ u plain g d y, w.(w_db).(users) !! stored.(RefreshToken_UserID) = Some u
      ∧ token_at g u.(User_ID) plain w.(w_now) w.(w_db) d
      ∧ d.(refresh_tokens) !! stored.(RefreshToken_ID) = Some y
      ∧ d' = set_refresh_tokens (<[stored.(RefreshToken_ID) :=
               RefreshTokenRepository.revoke w.(w_now) (Some g) y]> d.(refresh_tokens)) d
      ∧ reply = writeJSON 200 (refresh_json (jwt_issue u.(User_ID) (w.(w_now) + AccessTokenTTL))
                                 (w.(w_now) + AccessTokenTTL) plain)
  end.
Lemma token_Create_atomic c u hash t : atomic (RefreshTokenRepository.Create c u hash t).
Proof.
  apply atomic_catch; [|solve [eauto with effects]]. apply atomic_catch; [|solve [eauto with effects]].
  apply atomic_run_stmt.
Qed.
Lemma Rotate_atomic c i j : atomic (RefreshTokenRepository.Rotate c i j).
Proof.
  apply atomic_exec_affected. intros s d d' Hst. unfold RefreshTokenRepository.Rotate_sql in Hst.
  destruct (refresh_tokens d !! i); [|by simplify_eq]. by stmt_inv Hst.
Qed.
Lemma issueRefresh_cases stored raw w r w' :
  issueRefresh stored raw w = (r, w') → messages w' = messages w ∧ issue_end stored w r w'.(w_db).
Proof.
  unfold issueRefresh. intros E.
  destruct (atomic_cases _ _ _ _ _ _ (gives_GetByID _ _) (atomic_catch _ _ (atomic_run_stmt _ _) (refails_or_not_found _)) E)
    as [(er & _ & -> & Hd & Hm)|(u & w1 & _ & ([= Hd1 _ Hn1] & Hu) & Hm1 & E1)];
    [split; [done|by left]|].
  unfold mbind at 1, M_bind at 1 in E1. simpl in E1. unfold GenerateRefreshToken in E1.
  destruct raw as [raw|]; simpl in E1; [|injection E1 as <- <-; split; [congruence|by left]].
  unfold mbind at 1, M_bind at 1 in E1. simpl in E1.
  destruct (atomic_cases _ _ _ _ _ _ (gives_token_Create _ _ _ _) (token_Create_atomic _ _ _ _) E1)
    as [(er & _ & -> & Hd & Hm)|(x & w2 & _ & (g & -> & Hg & Hfresh & [= Hd2 _ Hn2]) & Hm2 & E2)];
    [split; [congruence|left; simpl; congruence]|].
  set (plain := String.string_of_list_ascii (EncodeToString raw)) in *.
  assert (token_at g u.(User_ID) plain w.(w_now) w.(w_db) w2.(w_db)) as Ht.
  { unfold token_at. simpl in *. rewrite <-Hd1, <-Hn1. by split_and!. }
  destruct (atomic_cases _ _ _ _ _ _ (gives_Rotate _ _ _) (Rotate_atomic _ _ _) E2)
    as [(er & _ & -> & Hd & Hm)|([] & w3 & _ & (y & Hy & [= Hd3 _ Hn3]) & Hm3 & E3)].
  - split; [congruence|]. right. exists u, plain. split; [done|]. exists g. by rewrite Hd.
  - injection E3 as <- <-. split; [congruence|]. exists u, plain, g, w2.(w_db), y.
    split; [done|]. split; [done|]. split; [done|]. simpl in *. rewrite Hd3, <-Hn1.
    split; [|done]. by rewrite Hn2, Hn1.
Qed.

(** How a refresh with [token] ends: the row of the token is revoked, naming
    its successor, a new token of the same user. *)
Definition refresh_end (token : string) (w : World) (r : Res Reply) (d' : DB) : Prop :=
  match r with
  | Err _ => d' = w.(w_db) ∨ ∃ u plain, token_issued u plain w.(w_now) w.(w_db) d'
  | Ok reply => ∃ i x u plain g d, w.(w_db).(refresh_tokens) !! i = Some x
      ∧ x.(RefreshToken_TokenHash) = HashRefreshToken token
      ∧ x.(RefreshToken_RevokedAt) = None ∧ w.(w_now) ≤ x.(RefreshToken_ExpiresAt)
      ∧ w.(w_db).(users) !! x.(RefreshToken_UserID) = Some u
      ∧ token_at g u.(User_ID) plain w.(w_now) w.(w_db) d
      ∧ d' = set_refresh_tokens (<[i := RefreshTokenRepository.revoke w.(w_now) (Some g) x]>
                                    d.(refresh_tokens)) d
      ∧ reply = writeJSON 200 (refresh_json (jwt_issue u.(User_ID) (w.(w_now) + AccessTokenTTL))
                                 (w.(w_now) + AccessTokenTTL) plain)
  end.
Lemma refreshWith_cases token raw w r w' :
  tokens_wf w.(w_db) → refreshWith token raw w = (r, w') →
  messages w' = messages w ∧ refresh_end token w r w'.(w_db).
Proof.
  intros [Hk _] E. unfold refreshWith in E.
  destruct (atomic_cases _ _ _ _ _ _ (gives_checkRefresh _) (atomic_observes _ _ (checkRefresh_readonly _)) E)
    as [(er & _ & -> & Hd & Hm)|(x & w1 & _ & ([= Hd1 _ Hn1] & (i & Hi) & Hx) & Hm1 & E1)];
    [split; [done|by left]|].
  apply issueRefresh_cases in E1 as [Hm2 Hend]. split; [congruence|].
  unfold issue_end in Hend. rewrite Hd1, Hn1 in Hend. simpl in Hi, Hx.
  destruct r as [reply|er]; simpl.
  - destruct Hend as (u & plain & g & d & y & Hu & (Hg & Hfr & ->) & Hy & -> & ->). simpl in Hy.
    assert (x.(RefreshToken_ID) = i) as Hxi by (by apply Hk). rewrite Hxi in Hy |- *.
    rewrite lookup_insert_ne in Hy by congruence. assert (y = x) as -> by congruence.
    destruct Hx as (? & ? & ?). eexists i, x, u, plain, g, _. by split_and!.
  - destruct Hend as [|(u & plain & _ & Ht)]; [by left|right]. by exists u.(User_ID), plain.
Qed.

(** The token of this hash was used (or revoked). *)
Definition spent (hash : string) (d : DB) : Prop :=
  ∃ i x, d.(refresh_tokens) !! i = Some x ∧ x.(RefreshToken_TokenHash) = hash
         ∧ x.(RefreshToken_RevokedAt) ≠ None.
Lemma spent_issued hash u plain t d d' : token_issued u plain t d d' → spent hash d → spent hash d'.
Proof.
  intros (g & Hg & _ & ->) (i & x & Hi & Hx). exists i, x. simpl. by rewrite lookup_insert_ne by congruence.
Qed.
Lemma spent_revoke hash d i x t b :
  d.(refresh_tokens) !! i = Some x → spent hash d ∨ x.(RefreshToken_TokenHash) = hash →
  spent hash (set_refresh_tokens (<[i := RefreshTokenRepository.revoke t b x]> d.(refresh_tokens)) d).
Proof.
  intros Hi [(j & y & Hj & Hy & Hr)|Hx].
  - destruct (decide (i = j)) as [->|].
    + simplify_eq. exists j, (RefreshTokenRepository.revoke t b x). simpl. by rewrite lookup_insert_eq.
    + exists j, y. simpl. by rewrite lookup_insert_ne.
  - exists i, (RefreshTokenRepository.revoke t b x). simpl. by rewrite lookup_insert_eq.
Qed.

(** From one database to a later one: the token table stays well formed and
    a spent token stays spent. *)
Definition ledger (d d' : DB) : Prop :=
  tokens_wf d → tokens_wf d' ∧ ∀ hash, spent hash d → spent hash d'.
#[export] Instance ledger_preorder : PreOrder ledger.
Proof.
  split; [by intros d Hd|]. intros d1 d2 d3 H12 H23 Hd. destruct (H12 Hd) as [Hd2 Hs].
  destruct (H23 Hd2). auto.
Qed.
Lemma ledger_same d d' : d'.(refresh_tokens) = d.(refresh_tokens) → ledger d d'.
Proof.
  intros Hd Hw. split; [by eapply tokens_wf_same|]. intros hash. unfold spent. by rewrite Hd.
Qed.
Lemma ledger_issued u plain t d d' : token_issued u plain t d d' → ledger d d'.
Proof. intros Ht Hw. split; [by eapply tokens_wf_issued|]. intros hash. by eapply spent_issued. Qed.
Lemma ledger_refresh token w reply d' :
  tokens_wf w.(w_db) → refresh_end token w (Ok reply) d' →
  ledger w.(w_db) d' ∧ spent (HashRefreshToken token) d'.
Proof.
  intros Hw (i & x & u & plain & g & d & Hi & Hx & _ & _ & _ & Ht & -> & _).
  assert (d.(refresh_tokens) !! i = Some x) as Hi'.
  { destruct Ht as (Hg & _ & ->). simpl. by rewrite lookup_insert_ne by congruence. }
  assert (token_issued u.(User_ID) plain w.(w_now) w.(w_db) d) as Hti by (by exists g).
  split; [|by apply spent_revoke; [|right]]. intros _.
  split; [by apply tokens_wf_revoke; [|by eapply tokens_wf_issued]|].
  intros hash Hs. apply spent_revoke; [done|left]. by eapply spent_issued.
Qed.
(** A spent token is refused. *)
Lemma refresh_spent token raw w r w' :
  tokens_wf w.(w_db) → spent (HashRefreshToken token) w.(w_db) →
  refreshWith token raw w = (r, w') → (∃ er, r = Err er) ∧ w'.(w_db) = w.(w_db).
Proof.
  intros [_ Hu] (j & y & Hj & Hy & Hr) E. unfold refreshWith in E.
  destruct (atomic_cases _ _ _ _ _ _ (gives_checkRefresh _) (atomic_observes _ _ (checkRefresh_readonly _)) E)
    as [(er & _ & -> & Hd & Hm)|(x & w1 & _ & ([= Hd1 _ Hn1] & (i & Hi) & Hx & Hrx & _) & Hm1 & E1)];
    [by split; [eexists|]|].
  simpl in *. assert (i = j) as -> by (eapply Hu; [exact Hi|exact Hj|congruence]). congruence.
Qed.

(** refreshing.  A 200 only for the token of an unrevoked, unexpired row,
    and then that row is revoked and names its successor, the one new row, of
    the same user and known by its hash only, whose token the reply carries;
    an error reply leaves the table as it was or, when only the rotation
    failed, with a new row nobody was given the token of. *)
Theorem handleRefresh_correct body raw w r w' :
  tokens_wf w.(w_db) → handleRefresh body raw w = (r, w') →
  messages w' = messages w ∧ ∃ reply, r = Ok reply ∧
  ((is_error reply
      ∧ (w'.(w_db) = w.(w_db) ∨ ∃ u plain, token_issued u plain w.(w_now) w.(w_db) w'.(w_db)))
   ∨ ∃ req, Unmarshal body = Some req
       ∧ refresh_end req.(refreshRequest_RefreshToken) w (Ok reply) w'.(w_db)).
Proof.
  intros Hw Hr. unfold handleRefresh in Hr.
  apply respond_cases in Hr as [(reply & -> & E)|(er & w1 & reply & E & -> & Herr & Hd & Hm)];
    destruct (Unmarshal body) as [req|]; try case_decide; try discriminate E.
  - apply (refreshWith_cases _ _ _ _ _ Hw) in E as [Hm Hend].
    split; [done|]. exists reply. split; [done|]. right. by exists req.
  - injection E as <- <-. split; [done|]. exists reply. split; [done|]. left. split; [done|]. by left.
  - apply (refreshWith_cases _ _ _ _ _ Hw) in E as [Hm1 Hend].
    split; [congruence|]. exists reply. split; [done|]. left. split; [done|]. by rewrite Hd.
  - injection E as <- <-. split; [done|]. exists reply. split; [done|]. left. split; [done|]. by left.
Qed.
End accounts.

(** ** On the sample *)

#[local] Existing Instances hexUUID hexTime hexCursor plainCredentials.
Definition credentials_body (email password : string) : wire :=
  Some (JObject [("email", JString email); ("password", JString password)]).
Definition refresh_body (token : string) : wire := Some (JObject [("refresh_token", JString token)]).
(** Thirty-two random bytes. *)
Definition random_bytes : option (list Z) := Some (repeat 7 32).

(** Bob signs up: the 201, and his rows. *)
Lemma handleSignup_correct_witness :
  let (r, w') := handleSignup (credentials_body "bob@example.com" "secret") 777 random_bytes sampleWorld in
  ∃ reply req, r = Ok reply ∧ reply.(reply_status) = 201
               ∧ signup_end req 777 sampleWorld (Ok reply) w'.(w_db).
Proof.
  destruct (handleSignup (credentials_body "bob@example.com" "secret") 777 random_bytes sampleWorld)
    as [r w'] eqn:E.
  destruct (handleSignup_correct _ _ _ _ _ _ E) as (_ & reply & -> & [[(st & code & msg & Herr) _]|(req & _ & Hend)]).
  - exfalso. apply (f_equal fst) in E. vm_compute in E. injection E as E.
    rewrite Herr in E. unfold writeJSON, errorBody in E. discriminate E.
  - exists reply, req. split; [done|]. split; [|exact Hend].
    apply (f_equal fst) in E. vm_compute in E. injection E as E. by rewrite <-E.
Defined.

(** Ann logs in. *)
Lemma handleLogin_correct_witness :
  let (r, w') := handleLogin (credentials_body "ann@example.com" "hash") random_bytes sampleWorld in
  ∃ reply req, r = Ok reply ∧ reply.(reply_status) = 200
               ∧ login_end req sampleWorld (Ok reply) w'.(w_db).
Proof.
  destruct (handleLogin (credentials_body "ann@example.com" "hash") random_bytes sampleWorld)
    as [r w'] eqn:E.
  destruct (handleLogin_correct _ _ _ _ _ E) as (_ & reply & -> & [[(st & code & msg & Herr) _]|(req & _ & Hend)]).
  - exfalso. apply (f_equal fst) in E. vm_compute in E. injection E as E.
    rewrite Herr in E. unfold writeJSON, errorBody in E. discriminate E.
  - exists reply, req. split; [done|]. split; [|exact Hend].
    apply (f_equal fst) in E. vm_compute in E. injection E as E. by rewrite <-E.
Defined.
(** A guess at Ann's password. *)
Lemma login_refusal_uniform_witness :
  ∃ w', handleLogin (credentials_body "ann@example.com" "guess") random_bytes sampleWorld
        = (Ok (writeJSON 401 (errorBody "unauthorized" "invalid email or password")), w')
        ∧ keeps sampleWorld w'.
Proof.
  apply (login_refusal_uniform _ {| credentialsRequest_Email := "ann@example.com";
                                    credentialsRequest_Password := "guess" |});
    [done|done|].
  intros i u Hi _. simpl in Hi.
  apply lookup_insert_Some in Hi as [[<- <-]|[_ [<- <-]%lookup_singleton_Some]]; done.
Defined.

(** A session of Ann's. *)
Definition ann_token : RefreshToken := new_token 60 2 "t0" (90 * Second) (200 * Second).
Definition sessionWorld : World := set_db (set_refresh_tokens {[60%N := ann_token]} sampleDB) sampleWorld.
Lemma session_tokens_wf : tokens_wf sessionWorld.(w_db).
Proof.
  split; simpl.
  - by intros i x [<- <-]%lookup_singleton_Some.
  - by intros i j x y [<- <-]%lookup_singleton_Some [<- <-]%lookup_singleton_Some.
Qed.
Lemma handleRefresh_correct_witness :
  let (r, w') := handleRefresh (refresh_body "t0") random_bytes sessionWorld in
  ∃ reply req, r = Ok reply ∧ reply.(reply_status) = 200
    ∧ refresh_end req.(refreshRequest_RefreshToken) sessionWorld (Ok reply) w'.(w_db).
Proof.
  destruct (handleRefresh (refresh_body "t0") random_bytes sessionWorld) as [r w'] eqn:E.
  destruct (handleRefresh_correct _ _ _ _ _ session_tokens_wf E)
    as (_ & reply & -> & [[(st & code & msg & Herr) _]|(req & _ & Hend)]).
  - exfalso. apply (f_equal fst) in E. vm_compute in E. injection E as E.
    rewrite Herr in E. unfold writeJSON, errorBody in E. discriminate E.
  - exists reply, req. split; [done|]. split; [|exact Hend].
    apply (f_equal fst) in E. vm_compute in E. injection E as E. by rewrite <-E.
Defined.

(** Two refreshes with one token, interleaved: both look the token up before
    either rotates it, and both get new tokens. *)
Definition refresh_race (w : World) : option (Z * Z) :=
  match checkRefresh "t0" w with
  | (Ok x, w) =>
      match checkRefresh "t0" w with
      | (Ok y, w) =>
          match issueRefresh x random_bytes w with
          | (Ok a, w) =>
              match issueRefresh y (Some (repeat 9 32)) w with
              | (Ok b, _) => Some (a.(reply_status), b.(reply_status))
              | _ => None
              end
          | _ => None
          end
      | _ => None
      end
  | _ => None
  end.
Lemma concurrent_refreshes_both_succeed : refresh_race sessionWorld = Some (200, 200).
Proof. vm_compute. reflexivity. Qed.
