(* ===== verification/Traffic.v ===== *)
(** * Traffic: the API server under any sequence of requests

    Every route of services/apiserver/internal/server/server.go, the
    authenticated ones and the three of handlers_auth.go, one after another,
    with any headers, bodies and failures: the invariants of the database. *)
From S2P Require Import Prelude Json Schema Effects Rls Outcomes DbTenancy DbWorkload.
From S2P Require Import DbCluster Wire Encoding Auth Concrete ApiCore ApiOrgs ApiApps ApiAuth.
From S2P Require Import Handlers Isolation Quotas Writes Routes Bodies Members Accounts Sample.
From stdpp Require Import base gmap strings list.
From Stdlib Require Import ZArith Lia.
Open Scope Z_scope.

(** ** Requests *)

Inductive HttpRequest `{UUIDText} `{TimeText} `{CursorText} `{Credentials} :=
| ApiRequest (header : string) (r : Route)
| SignupRequest (body : wire) (fresh : uuid) (raw : option (list Z))
| LoginRequest (body : wire) (raw : option (list Z))
| RefreshRequest (body : wire) (raw : option (list Z)).

Section traffic.
Context `{UUIDText} `{TimeText} `{CursorText} `{Credentials}.
Context (bus : bool) (registryAddr : string).

Definition http (q : HttpRequest) : M Reply :=
  match q with
  | ApiRequest header r => serve bus registryAddr header r
  | SignupRequest body fresh raw => handleSignup body fresh raw
  | LoginRequest body raw => handleLogin body raw
  | RefreshRequest body raw => handleRefresh body raw
  end.
Fixpoint http_all (qs : list HttpRequest) (w : World) : World :=
  match qs with [] => w | q :: qs => http_all qs (http q w).2 end.

(** What is to be shown of a request: of the bodies of the routes, of a new
    account, and of a refresh token stored or revoked. *)
Section requests.
Context (R : DB → DB → Prop) `{!PreOrder R}.
Hypothesis Hbodies : bodies_along R.
Hypothesis Hsignup : ∀ email hash name slug e uo d',
  signed_up email hash name slug e uo d' → R e.(e_db) d'.
Hypothesis Hissued : ∀ u plain t d d', token_issued u plain t d d' → R d d'.
Hypothesis Hrevoked : ∀ d i x t b, d.(refresh_tokens) !! i = Some x →
  R d (set_refresh_tokens (<[i := RefreshTokenRepository.revoke t b x]> d.(refresh_tokens)) d).

Lemma serve_moves header r : moves R (serve bus registryAddr header r).
Proof.
  unfold serve, authenticated. apply moves_bind; [apply _| |].
  - intros w. destruct (Authenticate_same header w) as [[= Hd _ _] _]. by rewrite Hd.
  - intros [id|]; [by apply dispatch_along|by apply moves_ret].
Qed.
Lemma signup_moves body fresh raw : moves R (handleSignup body fresh raw).
Proof.
  apply moves_respond. apply moves_bind; [apply _|apply moves_eq, decode_body_pure; apply _|].
  intros req w. destruct (signupAs req fresh raw w) as [r w'] eqn:E.
  apply signupAs_cases in E as [_ Hend]. simpl. destruct r as [reply|er]; simpl in Hend.
  - destruct Hend as (uo & d & plain & (hash & _ & _ & _ & Hs) & Ht & _).
    etransitivity; [exact (Hsignup _ _ _ _ _ _ _ Hs)|by eapply Hissued].
  - destruct Hend as [->|(uo & hash & _ & _ & _ & Hs)]; [reflexivity|exact (Hsignup _ _ _ _ _ _ _ Hs)].
Qed.
Lemma login_moves body raw : moves R (handleLogin body raw).
Proof.
  apply moves_respond. apply moves_bind; [apply _|apply moves_eq, decode_body_pure; apply _|].
  intros req w. destruct (loginAs req raw w) as [r w'] eqn:E.
  apply loginAs_cases in E as [_ Hend]. simpl. destruct r as [reply|er]; simpl in Hend.
  - destruct Hend as (u & m & x & plain & _ & Ht & _). by eapply Hissued.
  - by rewrite Hend.
Qed.
Lemma issueRefresh_moves stored raw : moves R (issueRefresh stored raw).
Proof.
  intros w. destruct (issueRefresh stored raw w) as [r w'] eqn:E.
  apply issueRefresh_cases in E as [_ Hend]. simpl. destruct r as [reply|er]; simpl in Hend.
  - destruct Hend as (u & plain & g & d & y & _ & Ht & Hy & -> & _).
    transitivity d; [eapply Hissued; by exists g|by apply Hrevoked].
  - destruct Hend as [->|(u & plain & _ & Ht)]; [reflexivity|by eapply Hissued].
Qed.
Lemma refresh_moves body raw : moves R (handleRefresh body raw).
Proof.
  apply moves_respond. destruct (Unmarshal body) as [req|]; [|by apply moves_fail].
  case_decide; [by apply moves_fail|]. apply moves_bind; [apply _| |intros; apply issueRefresh_moves].
  intros w. destruct (checkRefresh_readonly (refreshRequest_RefreshToken req) w) as [[[= Hd _ _] _] _].
  simpl. by rewrite Hd.
Qed.
Lemma http_moves q : moves R (http q).
Proof.
  destruct q; simpl; [apply serve_moves|apply signup_moves|apply login_moves|apply refresh_moves].
Qed.
Lemma http_all_moves qs w : R w.(w_db) (http_all qs w).(w_db).
Proof.
  revert w. induction qs as [|q qs IH]; intros w; [reflexivity|]. simpl.
  etransitivity; [apply http_moves|apply IH].
Qed.
End requests.

(** *** Every organization keeps an owner *)

Lemma owned_signed_up email hash name slug e uo d' :
  signed_up email hash name slug e uo d' → owned e.(e_db) → owned d'.
Proof.
  intros (gm & _ & _ & _ & _ & Ho & _ & Hgm & Hnm & Haud) [Hu Hown].
  eapply owned_audited; [exact Haud|].
  assert (∀ i x, e.(e_db).(memberships) !! i = Some x → x.(Membership_OrgID) = uo.2.(Organization_ID) →
    x.(Membership_UserID) = uo.1.(User_ID) → False) as Hnew.
  { intros i x ???. apply Hnm, is_member_spec. eauto. }
  split.
  - intros i j x y; simpl. intros [[<- <-]|[_ Hx]]%lookup_insert_Some [[<- <-]|[_ Hy]]%lookup_insert_Some ??;
      [done|by edestruct Hnew|by edestruct Hnew|by eapply Hu].
  - intros o. simpl. rewrite lookup_insert_is_Some. intros [<-|[Hne Hs]].
    + exists uo.1.(User_ID), gm. simpl. rewrite lookup_insert_eq. by eexists.
    + destruct (Hown o Hs) as (u & i & m & Hi & ?). exists u, i, m. simpl.
      by rewrite lookup_insert_ne by congruence.
Qed.
Lemma owned_issued u plain t d d' : token_issued u plain t d d' → owned d → owned d'.
Proof. intros (g & _ & _ & ->). by apply owned_same. Qed.

(** C5: the last-owner guard, over all traffic: whatever sequence of requests
    is served, by whomever and with whatever failures, if every organization
    had an owner and no user two memberships of one organization, then so it
    is afterwards; the organizations of new accounts included. *)
Theorem every_organization_keeps_an_owner qs w :
  owned w.(w_db) → owned (http_all qs w).(w_db).
Proof.
  apply (http_all_moves (keeping owned)); [exact bodies_owned|..]; unfold keeping.
  - intros. by eapply owned_signed_up.
  - intros. by eapply owned_issued.
  - intros d i x t b Hi. by apply owned_same.
Qed.

(** *** A refresh token is good for one refresh *)

Definition same_tokens (d d' : DB) : Prop := d'.(refresh_tokens) = d.(refresh_tokens).
#[local] Instance same_tokens_preorder : PreOrder same_tokens.
Proof. split; [by intros d|]. unfold same_tokens. intros d1 d2 d3 ??. congruence. Qed.
#[local] Hint Resolve gives_authorizeDeploy gives_createDeploymentTx gives_latestContainers : gives.
Lemma same_tokens_audited o u action ttype tid md t d1 d d' :
  audited o u action ttype tid md t d d' → same_tokens d1 d → same_tokens d1 d'.
Proof. by intros (g & _ & ->). Qed.
(** A body that ends with its audit entry. *)
Ltac tokens_untouched := unfold along; body_inv; owner_inv; first [done | by eapply same_tokens_audited].
Lemma bodies_same_tokens : bodies_along same_tokens.
Proof.
  split; intros.
  - unfold updateOrganization. tokens_untouched.
  - unfold deleteOrganization. tokens_untouched.
  - unfold inviteMember. tokens_untouched.
  - unfold changeMemberRole. tokens_untouched.
  - unfold removeMember. tokens_untouched.
  - unfold createAPIKey. tokens_untouched.
  - unfold revokeAPIKey. tokens_untouched.
  - unfold createProject. tokens_untouched.
  - unfold createApplication. tokens_untouched.
  - unfold scaleApplication. tokens_untouched.
  - unfold planDelete. tokens_untouched.
  - unfold deleteApplication. tokens_untouched.
  - unfold createDomain. tokens_untouched.
  - unfold deleteDomain. tokens_untouched.
  - eapply gives_mono; [apply gives_deployImage|].
    intros e oda e' (app & _ & g & d1 & Himg & _ & _ & _ & _ & _ & _ & Haud).
    eapply same_tokens_audited; [exact Haud|].
    by destruct Himg as [(_ & _ & _ & ? & ? & _ & ->)|(_ & _ & ->)].
  - eapply gives_mono; [apply gives_requestBuild|]. intros e ob e' (app & _ & g & _ & _ & Haud).
    by eapply same_tokens_audited.
  - eapply gives_mono; [apply gives_deployment_UpdateResult|]. by intros e _ e' (x & s & _ & ->).
  - eapply gives_mono; [apply gives_build_UpdateResult|]. by intros e _ e' (x & s & _ & ->).
Qed.

(** Spent tokens stay spent, whatever is served. *)
Lemma bodies_along_mono (R R' : DB → DB → Prop) :
  (∀ d d', R d d' → R' d d') → bodies_along R → bodies_along R'.
Proof.
  intros HR Hb. split; intros; (eapply gives_mono; [apply Hb|]; intros ???; apply HR).
Qed.
Lemma signed_up_tokens email hash name slug e uo d' :
  signed_up email hash name slug e uo d' → same_tokens e.(e_db) d'.
Proof.
  intros (gm & _ & _ & _ & _ & _ & _ & _ & _ & Haud). by eapply same_tokens_audited.
Qed.
Lemma ledger_revoked d i x t b : d.(refresh_tokens) !! i = Some x →
  ledger d (set_refresh_tokens (<[i := RefreshTokenRepository.revoke t b x]> d.(refresh_tokens)) d).
Proof.
  intros Hi Hw. split; [by apply tokens_wf_revoke|]. intros hash Hs. apply spent_revoke; auto.
Qed.
Lemma http_all_ledger qs w : ledger w.(w_db) (http_all qs w).(w_db).
Proof.
  apply (http_all_moves ledger).
  - eapply bodies_along_mono; [|exact bodies_same_tokens]. intros d d'. apply ledger_same.
  - intros. by eapply ledger_same, signed_up_tokens.
  - intros. by eapply ledger_issued.
  - intros. by apply ledger_revoked.
Qed.

(** C17: a refresh token is good for one refresh: once [handleRefresh] has
    answered a token with 200, whatever requests are served after, by
    whomever and with whatever failures, the token is refused (the reply is
    an error, the database is not touched). *)
Theorem refresh_single_use body raw w reply w1 qs raw' r w3 :
  tokens_wf w.(w_db) →
  handleRefresh body raw w = (Ok reply, w1) → ¬ is_error reply →
  handleRefresh body raw' (http_all qs w1) = (r, w3) →
  ∃ reply', r = Ok reply' ∧ is_error reply' ∧ w3.(w_db) = (http_all qs w1).(w_db).
Proof.
  intros Hw E1 Hok E2. unfold handleRefresh in E1, E2.
  apply respond_cases in E1 as [(? & [= <-] & E1)|(? & ? & ? & _ & [= <-] & ? & _)]; [|done].
  destruct (Unmarshal body) as [req|]; [|done]. case_decide; [done|].
  destruct (refreshWith_cases _ _ _ _ _ Hw E1) as [_ Hend].
  destruct (ledger_refresh _ _ _ _ Hw Hend) as [Hl Hs]. destruct (Hl Hw) as [Hw1 _].
  destruct (http_all_ledger qs w1 Hw1) as [Hw2 Hkeep].
  apply respond_cases in E2 as [(reply' & -> & E2)|(er & w2 & reply' & E2 & -> & Herr & Hd & _)];
    destruct (refresh_spent _ _ _ _ _ Hw2 (Hkeep _ Hs) E2) as [[? ?] Hd2]; [done|].
  exists reply'. split; [done|]. split; [done|]. by rewrite Hd.
Qed.
End traffic.

(** ** On the sample *)

#[local] Existing Instances hexUUID hexTime hexCursor plainCredentials.
(** The only owner asks to leave, then to become a viewer; Bob signs up. *)
Definition ann_leaves : list HttpRequest :=
  [ApiRequest ("Bearer " +:+ canonical_String 2) (RemoveMember (canonical_String 1) (canonical_String 2));
   ApiRequest ("Bearer " +:+ canonical_String 2)
     (ChangeMemberRole (canonical_String 1) (canonical_String 2)
        (Some (JObject [("role", JString "viewer")])));
   SignupRequest (credentials_body "bob@example.com" "secret") 777 random_bytes].
Lemma every_organization_keeps_an_owner_witness :
  owned (http_all true "" ann_leaves sampleWorld).(w_db)
  ∧ size (http_all true "" ann_leaves sampleWorld).(w_db).(memberships) = 3%nat.
Proof.
  split; [|vm_compute; reflexivity]. apply every_organization_keeps_an_owner. exact sample_owned.
Defined.

(** The token of Ann's session is used, then again after that traffic. *)
Lemma refresh_single_use_witness :
  let w1 := (handleRefresh (refresh_body "t0") random_bytes sessionWorld).2 in
  let w2 := http_all true "" ann_leaves w1 in
  ∃ reply', (handleRefresh (refresh_body "t0") (Some (repeat 9 32)) w2).1 = Ok reply' ∧ is_error reply'.
Proof.
  destruct (handleRefresh (refresh_body "t0") random_bytes sessionWorld) as [r w1] eqn:E1. cbv zeta; cbn [snd].
  destruct (handleRefresh (refresh_body "t0") (Some (repeat 9 32)) (http_all true "" ann_leaves w1))
    as [r3 w3] eqn:E3. cbn [fst].
  pose proof (f_equal fst E1) as Er. vm_compute in Er. destruct r as [reply|]; [|discriminate Er].
  injection Er as Er.
  destruct (refresh_single_use true "" (refresh_body "t0") random_bytes sessionWorld reply w1 ann_leaves
    (Some (repeat 9 32)) r3 w3 session_tokens_wf E1) as (reply' & -> & He & _);
    [|exact E3|by exists reply'].
  intros (st & code & msg & H). rewrite H in Er. discriminate Er.
Defined.
