(* ===== verification/ApiMux.v ===== *)
(** * ApiMux: from an HTTP request to a handler

    [Routes] of services/apiserver/internal/server/server.go as
    [http.ServeMux] reads it: the patterns, how a path matches one, the
    answers 404 and 405.  A path is clean and has no percent escapes (the mux
    redirects one with an empty or dot segment before its end); [HEAD], which
    is answered like [GET] without the body, is left out. *)
From S2P Require Import Prelude Text Json Http Schema Effects Rls Outcomes DbTenancy DbWorkload.
From S2P Require Import DbCluster Wire Encoding Auth Concrete ApiCore ApiOrgs ApiApps ApiAuth.
From S2P Require Import Isolation Quotas Writes Routes Bodies Members Accounts Traffic Sample.
From stdpp Require Import base gmap strings list.
From Stdlib Require Import ZArith Lia Ascii.
Open Scope Z_scope.

(** ** Requests *)

(** [call_auth] is the Authorization header, empty when there is none;
    [call_body] is [None] for a request without content, else what the first
    JSON value of it is. *)
Record Call := mkCall {
  call_method : Method; call_url : string; call_auth : string; call_body : option wire }.

(** What a handler takes from outside the request: [uuid.New], the random
    bytes of a token and of an API key, the worker's answer to a log request. *)
Record Draws := mkDraws {
  d_fresh : uuid; d_raw : option (list Z); d_reads : list (list Z); d_logs : string → LogStream }.

(** ** Patterns *)

(** A segment of a pattern: [{name}] matches one segment, which is not empty. *)
Definition wildcard (s : string) : option string :=
  match s with
  | String "{" r => Some (String.substring 0 (String.length r - 1) r)
  | _ => None
  end.
Fixpoint match_segments (pattern path : list string) : option (list (string * string)) :=
  match pattern, path with
  | [], [] => Some []
  | p :: pattern, s :: path =>
      match wildcard p with
      | Some name => if decide (s = "") then None else cons (name, s) <$> match_segments pattern path
      | None => if decide (p = s) then match_segments pattern path else None
      end
  | _, _ => None
  end.
Definition match_path (pattern path : string) : option (list (string * string)) :=
  match_segments (split_on "/"%char pattern) (split_on "/"%char path).

(** [r.PathValue(name)] *)
Definition PathValue (values : list (string * string)) (name : string) : string :=
  match list_find (λ kv, kv.1 = name) values with Some (_, kv) => kv.2 | None => "" end.

Section mux.
Context `{UUIDText} `{TimeText} `{CursorText} `{Credentials}.

(** What a handler reads of its request. *)
Record Incoming := mkIncoming {
  in_value : string → string; in_query : string → string; in_auth : string; in_body : option wire;
  in_draws : Draws }.
Definition in_wire (r : Incoming) : wire := default None r.(in_body).
(** [s.authenticated(h)] *)
Definition api (route : Incoming → Route) (r : Incoming) : HttpRequest := ApiRequest r.(in_auth) (route r).

Definition patterns : list (Method * string * (Incoming → HttpRequest)) :=
  [(POST, "/v1/auth/signup", λ r, SignupRequest (in_wire r) r.(in_draws).(d_fresh) r.(in_draws).(d_raw));
   (POST, "/v1/auth/login", λ r, LoginRequest (in_wire r) r.(in_draws).(d_raw));
   (POST, "/v1/auth/refresh", λ r, RefreshRequest (in_wire r) r.(in_draws).(d_raw));
   (GET, "/v1/orgs/{orgId}", api (λ r, GetOrganization (r.(in_value) "orgId")));
   (PATCH, "/v1/orgs/{orgId}", api (λ r, UpdateOrganization (r.(in_value) "orgId") (in_wire r)));
   (DELETE, "/v1/orgs/{orgId}", api (λ r, DeleteOrganization (r.(in_value) "orgId")));
   (GET, "/v1/orgs/{orgId}/members", api (λ r, ListMembers (r.(in_value) "orgId")));
   (POST, "/v1/orgs/{orgId}/members", api (λ r, InviteMember (r.(in_value) "orgId") (in_wire r)));
   (PATCH, "/v1/orgs/{orgId}/members/{userId}",
      api (λ r, ChangeMemberRole (r.(in_value) "orgId") (r.(in_value) "userId") (in_wire r)));
   (DELETE, "/v1/orgs/{orgId}/members/{userId}",
      api (λ r, RemoveMember (r.(in_value) "orgId") (r.(in_value) "userId")));
   (POST, "/v1/orgs/{orgId}/api-keys",
      api (λ r, CreateAPIKey (r.(in_value) "orgId") (in_wire r) r.(in_draws).(d_reads)));
   (GET, "/v1/orgs/{orgId}/api-keys", api (λ r, ListAPIKeys (r.(in_value) "orgId")));
   (DELETE, "/v1/api-keys/{keyId}", api (λ r, RevokeAPIKey (r.(in_value) "keyId")));
   (GET, "/v1/orgs/{orgId}/quota", api (λ r, GetQuota (r.(in_value) "orgId")));
   (GET, "/v1/orgs/{orgId}/audit-logs",
      api (λ r, GetAuditLogs (r.(in_value) "orgId") (r.(in_query) "limit") (r.(in_query) "cursor")));
   (POST, "/v1/orgs/{orgId}/projects", api (λ r, CreateProject (r.(in_value) "orgId") (in_wire r)));
   (POST, "/v1/projects/{projectId}/applications",
      api (λ r, CreateApplication (r.(in_value) "projectId") (in_wire r)));
   (POST, "/v1/applications/{appId}/deployments",
      api (λ r, Deploy (r.(in_value) "appId") r.(in_body)));
   (GET, "/v1/applications/{appId}/deployments",
      api (λ r, GetDeployments (r.(in_value) "appId") (r.(in_query) "limit") (r.(in_query) "cursor")));
   (GET, "/v1/applications/{appId}/builds",
      api (λ r, GetBuilds (r.(in_value) "appId") (r.(in_query) "limit") (r.(in_query) "cursor")));
   (GET, "/v1/applications/{appId}/logs", api (λ r, GetLogs (r.(in_value) "appId") r.(in_draws).(d_logs)));
   (PATCH, "/v1/applications/{appId}",
      api (λ r, ScaleApplication (r.(in_value) "appId") (in_wire r)));
   (DELETE, "/v1/applications/{appId}", api (λ r, DeleteApplication (r.(in_value) "appId")));
   (GET, "/v1/nodes", api (λ r, GetNodes));
   (POST, "/v1/projects/{projectId}/domains",
      api (λ r, CreateDomain (r.(in_value) "projectId") (in_wire r)));
   (GET, "/v1/projects/{projectId}/domains", api (λ r, ListDomains (r.(in_value) "projectId")));
   (DELETE, "/v1/domains/{domainId}", api (λ r, DeleteDomain (r.(in_value) "domainId")))].

(** The request a path with its query names: the patterns it matches, of which
    the method's is taken. *)
Inductive Found := NoPattern | OtherMethods | Handled (q : HttpRequest).
Definition lookup_route (draws : Draws) (c : Call) : Found :=
  let '(path, query) := cut_on "?"%char c.(call_url) in
  let matching := omap (λ p, (λ v, (p.1.1, p.2, v)) <$> match_path p.1.2 path) patterns in
  match list_find (λ p, p.1.1 = c.(call_method)) matching with
  | Some (_, (_, handler, values)) =>
      Handled (handler (mkIncoming (PathValue values) (λ key, query_get key query)
                          c.(call_auth) c.(call_body) draws))
  | None => match matching with [] => NoPattern | _ => OtherMethods end
  end.

Context (bus : bool) (registryAddr : string).
(** The bodies of the mux's own answers are text. *)
Definition serve_call (draws : Draws) (c : Call) : M Reply :=
  match lookup_route draws c with
  | Handled q => http bus registryAddr q
  | OtherMethods => mret (mkReply 405 None)
  | NoPattern => mret (mkReply 404 None)
  end.
Fixpoint serve_calls (l : list (Draws * Call)) (w : World) : World :=
  match l with [] => w | (draws, c) :: l => serve_calls l (serve_call draws c w).2 end.
End mux.

(** ** The patterns do not overlap *)

(** Two patterns no path matches both of: of different lengths, or with
    different literals at one place. *)
Fixpoint apart (p q : list string) : bool :=
  match p, q with
  | [], [] => false
  | a :: p, b :: q =>
      match wildcard a, wildcard b with None, None => bool_decide (a ≠ b) | _, _ => false end || apart p q
  | _, _ => true
  end.
Lemma apart_sound p q s v v' :
  apart p q = true → match_segments p s = Some v → match_segments q s = Some v' → False.
Proof.
  revert q s v v'. induction p as [|a p IH]; intros [|b q] [|x s] v v' Ha; try done; simpl in *.
  apply orb_true_iff in Ha as [Ha|Ha].
  - destruct (wildcard a), (wildcard b); try done. apply bool_decide_eq_true in Ha.
    do 2 case_decide; by simplify_eq.
  - intros Hp Hq.
    destruct (match_segments p s) as [u|] eqn:E; [|clear Hq; by destruct (wildcard a); case_decide].
    destruct (match_segments q s) as [u'|] eqn:E'; [|clear Hp; by destruct (wildcard b); case_decide].
    by eapply IH.
Qed.

Definition same_or_apart (p q : Method * list string) : bool :=
  bool_decide (p.1 ≠ q.1) || apart p.2 q.2.
Fixpoint pairwise {A} (f : A → A → bool) (l : list A) : bool :=
  match l with [] => true | a :: l => forallb (f a) l && pairwise f l end.
Lemma pairwise_ordered {A} (f : A → A → bool) l i j x y :
  pairwise f l = true → l !! i = Some x → l !! j = Some y → (i < j)%nat → f x y = true.
Proof.
  revert i j. induction l as [|a l IH]; intros i j Hf; [done|].
  apply andb_true_iff in Hf as [Ha Hl]. destruct i as [|i], j as [|j]; simpl; try lia.
  - intros [= <-] Hy _. rewrite forallb_forall in Ha. apply Ha, list_elem_of_In. by eapply list_elem_of_lookup_2.
  - intros. by eapply IH; eauto; lia.
Qed.

Section lookup.
Context `{UUIDText} `{TimeText} `{CursorText} `{Credentials}.

Definition pattern_of (p : Method * string * (Incoming → HttpRequest)) : Method * list string :=
  (p.1.1, split_on "/"%char p.1.2).
Lemma patterns_apart : pairwise same_or_apart (pattern_of <$> patterns) = true.
Proof. reflexivity. Qed.
(** A request has one handler at most, so that the order of the patterns does
    not matter. *)
Lemma one_handler path i j p q v v' :
  patterns !! i = Some p → patterns !! j = Some q → p.1.1 = q.1.1 →
  match_path p.1.2 path = Some v → match_path q.1.2 path = Some v' → i = j.
Proof.
  assert (∀ i j p q v v', patterns !! i = Some p → patterns !! j = Some q → p.1.1 = q.1.1 →
    match_path p.1.2 path = Some v → match_path q.1.2 path = Some v' → (i < j)%nat → False) as Hlt.
  { clear. intros i j p q v v' Hi Hj Hm Hp Hq Hlt.
    assert (same_or_apart (pattern_of p) (pattern_of q) = true) as Ha.
    { eapply (pairwise_ordered same_or_apart _ i j); [exact patterns_apart| | |done].
      - by rewrite list_lookup_fmap, Hi.
      - by rewrite list_lookup_fmap, Hj. }
    unfold same_or_apart in Ha. rewrite bool_decide_false in Ha by (intros Hne; by apply Hne).
    by eapply apart_sound. }
  intros Hi Hj Hm Hp Hq. destruct (Nat.lt_trichotomy i j) as [?|[?|?]]; [exfalso|done|exfalso];
    (eapply Hlt; [exact Hi|exact Hj|..]; done) || (eapply Hlt; [exact Hj|exact Hi|..]; done).
Qed.

(** Looking up a path whose segments are known. *)
Definition found (draws : Draws) (c : Call) (segments : list string) (query : option string) : Found :=
  let matching := omap (λ p, (λ v, (p.1.1, p.2, v))
                                <$> match_segments (split_on "/"%char p.1.2) segments) patterns in
  match list_find (λ p, p.1.1 = c.(call_method)) matching with
  | Some (_, (_, handler, values)) =>
      Handled (handler (mkIncoming (PathValue values) (λ key, query_get key query)
                          c.(call_auth) c.(call_body) draws))
  | None => match matching with [] => NoPattern | _ => OtherMethods end
  end.
Lemma lookup_found draws c path query segments :
  cut_on "?"%char c.(call_url) = (path, query) → split_on "/"%char path = segments →
  lookup_route draws c = found draws c segments query.
Proof. unfold lookup_route, found, match_path. by intros -> ->. Qed.
End lookup.

(** A value that can stand in a path: not empty, no separators, no escapes. *)
Definition plain_char (c : ascii) : Prop := c ≠ "/"%char ∧ c ≠ "?"%char ∧ c ≠ "#"%char ∧ c ≠ "%"%char.
Definition plain (s : string) : Prop := s ≠ "" ∧ Forall plain_char (String.list_ascii_of_string s).
#[export] Instance plain_dec s : Decision (plain s).
Proof. unfold plain, plain_char. apply _. Defined.

Lemma plain_cut s t :
  plain s → cut_on "?"%char (s +:+ t) = (let '(a, b) := cut_on "?"%char t in (s +:+ a, b)).
Proof. intros [_ Hs]. apply cut_on_app. eapply Forall_impl; [exact Hs|]. by intros c (? & ? & ?). Qed.
Lemma plain_split s t :
  plain s → split_on "/"%char (s +:+ String "/" t) = s :: split_on "/"%char t.
Proof. intros [_ Hs]. apply split_on_app. eapply Forall_impl; [exact Hs|]. by intros c (? & ?). Qed.
Lemma plain_split_last s : plain s → split_on "/"%char s = [s].
Proof. intros [_ Hs]. apply split_on_plain. eapply Forall_impl; [exact Hs|]. by intros c (? & ?). Qed.
