(* ===== verification/Typed.v ===== *)
(** * Typed: the rows the API keeps in the database

    The types of src/infrastructure/postgres/migrations that the records of
    [Schema] do not have by themselves: a row is under its primary key, an INT
    column holds 32 bits, what is unique is, and what is written together is
    there together.  No traffic over the API breaks them. *)
From S2P Require Import Prelude Json Http Schema Effects Rls Outcomes DbTenancy DbWorkload.
From S2P Require Import DbCluster Wire Encoding Auth Concrete ApiCore ApiOrgs ApiApps ApiAuth Handlers.
From S2P Require Import Isolation Quotas Writes Routes Bodies Members Accounts Traffic ApiMux Sample.
From stdpp Require Import base gmap strings list.
From Stdlib Require Import ZArith Lia.
Open Scope Z_scope.

(** ** Tables *)

Section tables.
Context {A : Type}.
Implicit Types (t : table A) (P : uuid → A → Prop).

Lemma table_insert P t i x : P i x → map_Forall P t → map_Forall P (<[i := x]> t).
Proof. intros. by apply map_Forall_insert_2. Qed.
Lemma table_delete_where P (Q : A → Prop) `{!∀ x, Decision (Q x)} t :
  map_Forall P t → map_Forall P (delete_where Q t).
Proof. intros Ht i x [Hi _]%lookup_delete_where. by apply Ht. Qed.
Lemma table_delete P t i : map_Forall P t → map_Forall P (delete i t).
Proof. intros. by apply map_Forall_delete. Qed.
Lemma table_update_where P (Q : A → Prop) `{!∀ x, Decision (Q x)} f t :
  (∀ i x, P i x → P i (f x)) → map_Forall P t → map_Forall P (update_where Q f t).
Proof.
  intros Hf Ht i x. rewrite lookup_update_where. intros (y & Hy & ->)%fmap_Some.
  specialize (Ht _ _ Hy). case_decide; auto.
Qed.

(** No two rows agree on [f]. *)
Definition unique {B} (f : A → B) (t : table A) : Prop :=
  ∀ i j x y, t !! i = Some x → t !! j = Some y → f x = f y → i = j.
Lemma unique_insert {B} (f : A → B) t g x :
  (∀ i y, t !! i = Some y → f y ≠ f x) → unique f t → unique f (<[g := x]> t).
Proof.
  intros Hx Ht i j y z [[<- <-]|[_ Hy]]%lookup_insert_Some [[<- <-]|[_ Hz]]%lookup_insert_Some Hf;
    [done|by destruct (Hx _ _ Hz)|by destruct (Hx _ _ Hy)|by eapply Ht].
Qed.
Lemma unique_replace {B} (f : A → B) t g x x' :
  t !! g = Some x → f x' = f x → unique f t → unique f (<[g := x']> t).
Proof.
  intros Hg Hx Ht i j y z [[<- <-]|[_ Hy]]%lookup_insert_Some [[<- <-]|[_ Hz]]%lookup_insert_Some Hf;
    [done|eapply Ht; [exact Hg|exact Hz|congruence]|eapply Ht; [exact Hy|exact Hg|congruence]|by eapply Ht].
Qed.
Lemma unique_delete_where {B} (f : A → B) (Q : A → Prop) `{!∀ x, Decision (Q x)} t :
  unique f t → unique f (delete_where Q t).
Proof. intros Ht i j x y [Hx _]%lookup_delete_where [Hy _]%lookup_delete_where. by apply Ht. Qed.
Lemma fresh_in_rows {B} (f : A → B) t b :
  Forall (λ x, f x ≠ b) (rows t) → ∀ i x, t !! i = Some x → f x ≠ b.
Proof. rewrite Forall_forall. intros Ht i x Hi. apply Ht, elem_of_rows. eauto. Qed.
End tables.

(** ** Rows *)

Definition int4s (l : list Z) : Prop := Forall (λ z, int4_ok z = true) l.

Record typed (d : DB) : Prop := {
  t_organizations : map_Forall (λ i x, x.(Organization_ID) = i) d.(organizations);
  t_users : map_Forall (λ i x, x.(User_ID) = i) d.(users);
  t_emails : unique User_Email d.(users);
  t_memberships : map_Forall (λ i x, x.(Membership_ID) = i) d.(memberships);
  t_api_keys : map_Forall (λ i x, x.(APIKeyRow_key).(APIKey_ID) = i) d.(api_keys);
  t_projects : map_Forall (λ i x, x.(Project_ID) = i) d.(projects);
  t_applications : map_Forall (λ i x, x.(Application_ID) = i
    ∧ int4s [x.(Application_ReplicasDesired); x.(Application_CPUMillicores); x.(Application_MemoryMB)])
    d.(applications);
  t_deployments : map_Forall (λ i x, x.(Deployment_ID) = i
    ∧ 1 ≤ x.(Deployment_Revision) ∧ int4s [x.(Deployment_Revision)]
    ∧ (x.(Deployment_CompletedAt) = None → x.(Deployment_Status) = DeploymentStatusPending))
    d.(deployments);
  t_revisions : unique (λ x, (x.(Deployment_ApplicationID), x.(Deployment_Revision))) d.(deployments);
  t_builds : map_Forall (λ i x, x.(Build_ID) = i
    ∧ (x.(Build_CompletedAt) = None → x.(Build_Status) = BuildStatusPending ∧ x.(Build_CommitSHA) = None
        ∧ x.(Build_Image) = None ∧ x.(Build_ErrorMessage) = None)) d.(builds);
  t_refresh_tokens : map_Forall (λ i x, x.(RefreshToken_ID) = i
    ∧ (x.(RefreshToken_ReplacedByID) ≠ None → x.(RefreshToken_RevokedAt) ≠ None)) d.(refresh_tokens);
  t_domains : map_Forall (λ i x, x.(Domain_ID) = i) d.(domains);
  t_hostnames : unique Domain_Hostname d.(domains);
  t_quotas : map_Forall (λ i x, x.(ResourceQuota_OrgID) = i
    ∧ int4s [x.(ResourceQuota_MaxCPUMillicores); x.(ResourceQuota_MaxMemoryMB);
             x.(ResourceQuota_MaxContainers); x.(ResourceQuota_MaxProjects);
             x.(ResourceQuota_MaxDeploymentsPerDay)]) d.(resource_quotas);
  t_audit_logs : map_Forall (λ i x, x.(AuditLogEntry_ID) = i
    ∧ ∃ members, x.(AuditLogEntry_Metadata) = Some (JObject members)) d.(audit_logs) }.

(** Every table as it was, or changed in a way its type allows. *)
Create HintDb typed.
#[export] Hint Resolve table_delete_where table_delete unique_delete_where : typed.
Ltac typed_inv := match goal with H : typed _ |- _ => destruct H end.
Ltac typed_auto :=
  typed_inv; split; simpl;
  first [ assumption
        | solve [repeat first [apply table_delete_where | apply table_delete | apply unique_delete_where]; assumption]
        | idtac ].

Lemma typed_drop_applications P `{!∀ x, Decision (P x)} d : typed d → typed (drop_applications P d).
Proof. intros Hd. typed_auto. Qed.
Lemma typed_drop_domains P `{!∀ x, Decision (P x)} d : typed d → typed (drop_domains P d).
Proof. intros Hd. typed_auto. Qed.
Lemma typed_drop_organization o d : typed d → typed (drop_organization o d).
Proof. intros Hd. typed_auto. Qed.
Lemma typed_audited o u action ttype tid md t d d' :
  audited o u action ttype tid md t d d' → typed d → typed d'.
Proof.
  intros (g & _ & ->) Hd. typed_auto. apply table_insert; [|assumption]. split; [done|]. by eexists.
Qed.
Lemma typed_application d i a x :
  d.(applications) !! i = Some a → x.(Application_ID) = a.(Application_ID) →
  int4s [x.(Application_ReplicasDesired); x.(Application_CPUMillicores); x.(Application_MemoryMB)] →
  typed d → typed (set_applications (<[i := x]> d.(applications)) d).
Proof.
  intros Hi Hx Hn Hd. typed_auto. apply table_insert; [|assumption]. split; [|done].
  rewrite Hx. by destruct (t_applications0 i a Hi).
Qed.
Lemma max_revision_nonneg l : Forall (λ x, 1 ≤ x.(Deployment_Revision)) l → 0 ≤ max_revision l.
Proof.
  destruct l as [|x l]; simpl; [lia|]. intros [Hx Hl]%Forall_cons.
  induction Hl as [|y l Hy Hl IH]; simpl; lia.
Qed.
Lemma typed_next_revision e g i : typed e.(e_db) → 1 ≤ next_revision e g i.
Proof.
  intros Hd. unfold next_revision. match goal with |- 1 ≤ max_revision ?l + 1 =>
    assert (0 ≤ max_revision l); [|lia] end.
  apply max_revision_nonneg, Forall_forall. intros x [_ Hx]%list_elem_of_filter.
  apply elem_of_select in Hx as [_ [j Hj]]. by apply (t_deployments _ Hd j x Hj).
Qed.

(** ** Every body of a route *)

Section bodies.
Context `{UUIDText} `{TimeText} `{CursorText} `{Credentials}.
#[local] Hint Resolve gives_authorizeDeploy gives_createDeploymentTx gives_latestContainers : gives.

(** What the body did is known: its audit entry, its write, its rows. *)
Ltac audit := try (eapply typed_audited; [eassumption|]).
Ltac body_typed :=
  unfold along, keeping; body_inv; owner_inv; audit; try done; try typed_auto.
Ltac inserted := apply table_insert; [|assumption].
Ltac replaced := inserted;
  match goal with Ht : map_Forall ?P ?t, Hx : ?t !! ?i = Some ?x |- _ => pose proof (Ht i x Hx) end.

Lemma gives_both {A} (m : M A) Q Q' : gives m Q → gives m Q' → gives m (λ e a e', Q e a e' ∧ Q' e a e').
Proof. intros HQ HQ' w a w' E. destruct (HQ w a w' E), (HQ' w a w' E). done. Qed.
(** The new revision fits its column: PostgreSQL has checked it. *)
Lemma deployImage_revision id a image :
  gives (deployImage id a image) (λ _ oda _, int4_ok oda.1.2.(Deployment_Revision) = true).
Proof.
  unfold deployImage, createDeploymentTx. eapply gives_mono; [body|]. cbv beta. intros. gives_inv.
  all: simplify_eq/=; assumption.
Qed.
Lemma deployment_made_typed o i u app image e da d' :
  deployment_made o i u app image e da d' → int4_ok da.1.(Deployment_Revision) = true →
  typed e.(e_db) → typed d'.
Proof.
  intros (g & d & Himg & _ & _ & Hda & Hg & _ & Hrev & Haud) Hint Hd. audit. clear Haud.
  assert (typed d ∧ d.(deployments) = e.(e_db).(deployments)) as [Hd' Hdep].
  { destruct Himg as [(_ & _ & _ & a & s & Ha & ->)|(_ & _ & ->)]; [|done]. split; [|done].
    eapply typed_application; [exact Ha|done| |done]. by destruct (t_applications _ Hd _ _ Ha). }
  pose proof (typed_next_revision e g i Hd) as Hn. rewrite Hda in Hint |- *. simpl in Hint.
  rewrite <-Hdep. clear Himg. typed_auto.
  - inserted. simpl. split; [done|]. split; [done|]. split; [by repeat constructor|done].
  - apply unique_insert; [|assumption]. intros j y Hj [= <- Hy]. rewrite Forall_forall in Hrev.
    rewrite Hdep in Hj. apply (Hrev y); [|done]. apply elem_of_select. eauto.
Qed.

Lemma bodies_typed : bodies_along (keeping typed).
Proof.
  split; intros.
  - unfold updateOrganization. body_typed. all: by replaced.
  - unfold deleteOrganization, along, keeping. body_inv. by apply typed_drop_organization.
  - unfold inviteMember. body_typed. by inserted.
  - unfold changeMemberRole. body_typed. apply table_update_where; [|assumption]. done.
  - unfold removeMember. body_typed.
  - unfold createAPIKey. body_typed. by inserted.
  - unfold revokeAPIKey. body_typed. by replaced.
  - unfold createProject. body_typed. by inserted.
  - unfold createApplication. body_typed. inserted. split; [done|]. by repeat constructor.
  - unfold scaleApplication. body_typed. replaced. unfold int4s in *. rewrite !Forall_cons in *. simpl. naive_solver.
  - unfold planDelete. body_typed.
  - unfold deleteApplication. body_typed.
  - unfold createDomain. body_typed.
    all: match goal with Hx : <[_ := _]> _ !! _ = Some _ |- _ => rewrite lookup_insert_eq in Hx end.
    all: simplify_eq; rewrite insert_insert_eq.
    + by inserted.
    + apply unique_insert; [by apply fresh_in_rows|assumption].
  - unfold deleteDomain. body_typed.
  - eapply gives_mono; [apply gives_both; [apply gives_deployImage|apply deployImage_revision]|].
    unfold keeping. intros e oda e' [(app & _ & Hm) Hr] Hd. by eapply deployment_made_typed.
  - eapply gives_mono; [apply gives_requestBuild|]. intros e ob e' (app & _ & g & Hb & _ & Haud) Hd.
    audit. rewrite Hb. typed_auto. by inserted.
  - eapply gives_mono; [apply gives_deployment_UpdateResult|]. intros e _ e' (x & s & Hx & ->) Hd.
    simpl in *. typed_auto; [replaced; naive_solver|by eapply unique_replace].
  - eapply gives_mono; [apply gives_build_UpdateResult|]. intros e _ e' (x & s & Hx & ->) Hd.
    simpl in *. typed_auto. replaced. naive_solver.
Qed.

(** ** All traffic *)

Lemma typed_signed_up email hash name slug e uo d' :
  signed_up email hash name slug e uo d' → typed e.(e_db) → typed d'.
Proof.
  intros (gm & Hu & Ho & _ & Hemail & _ & _ & _ & _ & Haud) Hd. audit.
  rewrite Hu, Ho. typed_auto; try by inserted.
  - apply unique_insert; [by apply fresh_in_rows|assumption].
  - inserted. split; [done|]. by repeat constructor.
Qed.
Lemma typed_issued u plain t d d' : token_issued u plain t d d' → typed d → typed d'.
Proof. intros (g & _ & _ & ->) Hd. typed_auto. by inserted. Qed.
Lemma typed_revoked d i x t b :
  d.(refresh_tokens) !! i = Some x → typed d →
  typed (set_refresh_tokens (<[i := RefreshTokenRepository.revoke t b x]> d.(refresh_tokens)) d).
Proof. intros Hx Hd. typed_auto. replaced. naive_solver. Qed.

Context (bus : bool) (registryAddr : string).
Lemma http_typed q : moves (keeping typed) (http bus registryAddr q).
Proof.
  apply http_moves; [apply _|exact bodies_typed|..]; unfold keeping.
  - intros. by eapply typed_signed_up.
  - intros. by eapply typed_issued.
  - intros. by apply typed_revoked.
Qed.
(** C7: the database keeps its types.  Whatever is called over the API, by
    whomever and with whatever failures, every row stays under its primary key,
    every number fits its column, emails, host names and the revisions of an
    application stay unique, a deployment or build without an end stays pending
    and without a result, a token that was replaced is revoked, and every audit
    entry has its metadata. *)
Theorem traffic_well_typed l w :
  typed w.(w_db) → typed (serve_calls bus registryAddr l w).(w_db).
Proof.
  revert w. induction l as [|[draws c] l IH]; intros w Hw; [done|]. simpl. apply IH.
  unfold serve_call. destruct (lookup_route draws c); [done..|by apply http_typed].
Qed.
End bodies.

(** ** A first account *)

Lemma empty_typed : typed emptyDB.
Proof. split; simpl; try apply map_Forall_empty; by intros i j x y. Qed.
#[local] Existing Instances hexUUID hexTime hexCursor plainCredentials.
Definition first_account : list (Draws * Call) :=
  [(mkDraws 777 random_bytes [] (λ _, LogOpened),
    mkCall POST "/v1/auth/signup" "" (Some (credentials_body "ann@example.com" "secret")))].
Lemma traffic_well_typed_witness :
  let d := (serve_calls true "" first_account (mkWorld emptyDB noSession 0 1 [] [])).(w_db) in
  typed d ∧ size d.(users) = 1%nat ∧ size d.(resource_quotas) = 1%nat.
Proof.
  split; [|vm_compute; by split]. apply traffic_well_typed. exact empty_typed.
Defined.
