(* ===== verification/Pages.v ===== *)
(** * Pages: a list read page by page

    The cursors of the audit log and of an application's builds
    (src/internal/db/audit_log.go, build.go): a reader who follows
    [next_cursor] to its end has read what was there at the first page, in
    order and each row once, also when rows are added in the meantime. *)
From S2P Require Import Prelude Json Schema Effects Rls Outcomes DbTenancy DbWorkload.
From S2P Require Import DbCluster Auth ApiCore ApiOrgs Concrete Typed Sample.
From stdpp Require Import base gmap strings list sorting.
From Stdlib Require Import ZArith Lia.
Open Scope Z_scope.

(** ** Following the cursors *)

(** [page n cursor]: the [n]-th request; the empty cursor asks for the first
    page and ends the list. *)
Fixpoint follow {A} (fuel : nat) (page : nat → string → Res (list A * string)) (n : nat)
    (cursor : string) : option (list A) :=
  match fuel with
  | O => None
  | S fuel =>
      match page n cursor with
      | Ok (xs, next) =>
          if decide (next = "") then Some xs else app xs <$> follow fuel page (S n) next
      | Err _ => None
      end
  end.

(** ** Keyset pages of a growing table *)

Section keyset.
Context {A : Type} (at_ : A → time) (key : A → uuid).
Abbreviation newest_first := (newest_first at_ key).
Abbreviation after := (λ x, after_cursor at_ key (Some (at_ x, key x))).

(** [l] holds the rows of [l0] and later ones. *)
Record grown (l0 l : list A) : Prop := {
  grown_keys : NoDup (key <$> l);
  grown_kept x : x ∈ l0 → x ∈ l;
  grown_later x : x ∈ l → x ∈ l0 ∨ ∀ y, y ∈ l0 → at_ y < at_ x }.

Lemma key_inj l x y : NoDup (key <$> l) → x ∈ l → y ∈ l → key x = key y → x = y.
Proof.
  intros Hkeys [i Hi]%list_elem_of_lookup [j Hj]%list_elem_of_lookup Hk.
  assert (i = j) as ->; [|congruence].
  apply (NoDup_lookup _ i j (key x) Hkeys); rewrite list_lookup_fmap; [by rewrite Hi|].
  rewrite Hj. simpl. congruence.
Qed.
Lemma sorted_unique l l' :
  NoDup (key <$> l) → l ≡ₚ l' → StronglySorted newest_first l → StronglySorted newest_first l' →
  l = l'.
Proof.
  intros Hk Hp Hs Hs'. apply (StronglySorted_unique_strong newest_first); try done.
  intros x y Hx Hy. rewrite <- Hp in Hy. intros H1 H2. apply (key_inj l); [done..|].
  unfold DbWorkload.newest_first in *. lia.
Qed.
Lemma newest_first_sorted l : StronglySorted newest_first (merge_sort newest_first l).
Proof. apply StronglySorted_merge_sort; apply _. Qed.

(** What comes after a row of the sorted list. *)
Lemma after_row l0 pre x post y :
  NoDup (key <$> l0) → merge_sort newest_first l0 = pre ++ x :: post →
  (y ∈ l0 ∧ after x y) ↔ y ∈ post.
Proof.
  intros Hk E. pose proof (newest_first_sorted l0) as Hs.
  pose proof (merge_sort_Permutation newest_first l0) as Hp.
  assert (NoDup (key <$> merge_sort newest_first l0)) as Hk' by by rewrite Hp.
  rewrite <- Hp. rewrite E in *. split.
  - intros [[Hy|[->|Hy]%elem_of_cons]%elem_of_app Ha]; [..|done]; exfalso.
    + apply (StronglySorted_app_1_elem_of _ _ _ y x) in Hs; [|done|left].
      unfold after_cursor, keyset_lt, DbWorkload.newest_first in *. lia.
    + unfold after_cursor, keyset_lt in Ha. lia.
  - intros Hy. split; [set_solver|].
    rewrite fmap_app, fmap_cons in Hk'. apply NoDup_app in Hk' as (_ & _ & [Hx _]%NoDup_cons).
    assert (key x ≠ key y) by (intros Hxy; apply Hx; rewrite Hxy; by apply list_elem_of_fmap_2).
    apply StronglySorted_app_1_r in Hs. apply StronglySorted_inv in Hs as [_ Hs].
    rewrite Forall_forall in Hs. specialize (Hs y Hy).
    unfold after_cursor, keyset_lt, DbWorkload.newest_first in *. lia.
Qed.
(** The page after a row of the first list is what followed it there. *)
Lemma keyset_rows_after l0 l pre x post :
  NoDup (key <$> l0) → merge_sort newest_first l0 = pre ++ x :: post → grown l0 l →
  keyset_rows at_ key l (Some (at_ x, key x)) = post.
Proof.
  intros Hk E [Hkl Hkept Hlater].
  assert (x ∈ l0) as Hx0 by (rewrite <- (merge_sort_Permutation newest_first l0), E; set_solver).
  assert (Permutation post (filter (after x) l)) as Hp.
  { apply NoDup_Permutation.
    - apply (NoDup_fmap_1 key). rewrite <- (merge_sort_Permutation newest_first l0), E in Hk.
      rewrite fmap_app, fmap_cons in Hk. by apply NoDup_app in Hk as (_ & _ & [_ ?]%NoDup_cons).
    - apply NoDup_filter. by apply (NoDup_fmap_1 key).
    - intros y. rewrite list_elem_of_filter, <- (after_row l0 pre x post y Hk E).
      split; [naive_solver|]. intros [Ha Hy]. split; [|done].
      destruct (Hlater y Hy) as [?|Hlt]; [done|]. specialize (Hlt x Hx0).
      unfold after_cursor, keyset_lt in Ha. lia. }
  symmetry. apply sorted_unique; [..|apply newest_first_sorted].
  - rewrite <- (merge_sort_Permutation newest_first l0), E in Hk.
    rewrite fmap_app, fmap_cons in Hk. by apply NoDup_app in Hk as (_ & _ & [_ ?]%NoDup_cons).
  - unfold keyset_rows. by rewrite merge_sort_Permutation.
  - pose proof (newest_first_sorted l0) as Hs. rewrite E in Hs.
    apply StronglySorted_app_1_r in Hs. by apply StronglySorted_inv in Hs as [? _].
Qed.

(** ** Reading it to the end *)
Context `{CursorText} (l0 : list A) (log : nat → list A) (limit : nat).
Context (page : nat → string → Res (list A * string)).
Context (Hlimit : (0 < limit)%nat) (Hkeys : NoDup (key <$> l0)) (Hlog : ∀ n, grown l0 (log n)).
Definition cursor_text (c : option (time * uuid)) : string :=
  match c with Some (t, i) => encodeCursor t i | None => "" end.
Context (Hpage : ∀ n c, page n (cursor_text c)
  = Ok ((keyset_page at_ key (log n) limit c).1,
        cursor_text (keyset_page at_ key (log n) limit c).2)).

Lemma follow_rest fuel : ∀ n c pre rest,
  (length rest < fuel)%nat → merge_sort newest_first l0 = pre ++ rest →
  keyset_rows at_ key (log n) c = rest → follow fuel page n (cursor_text c) = Some rest.
Proof.
  induction fuel as [|fuel IH]; intros n c pre rest Hf E Hrest; [lia|].
  simpl. rewrite Hpage. unfold keyset_page. rewrite Hrest, take_take, length_take.
  destruct (decide (limit < (limit + 1) `min` length rest)%nat) as [Hd|Hd].
  - replace (limit `min` (limit + 1))%nat with limit by lia.
    destruct (last (take limit rest)) as [x|] eqn:El.
    2: { apply last_None in El. apply (f_equal length) in El.
         rewrite length_take, length_nil in El. lia. }
    apply last_Some in El as [init El].
    simpl. rewrite decide_False by apply encodeCursor_ne.
    rewrite <- (take_drop limit rest), El, <- app_assoc in E. simpl in E. rewrite app_assoc in E.
    pose proof (keyset_rows_after _ _ _ _ _ Hkeys E (Hlog (S n))) as Hnext.
    pose proof (IH (S n) (Some (at_ x, key x)) ((pre ++ init) ++ [x]) (drop limit rest)) as Hgo.
    simpl in Hgo. rewrite Hgo; [|rewrite length_drop; lia|by rewrite <- app_assoc|done].
    simpl. by rewrite take_drop.
  - simpl. f_equal. apply take_ge. lia.
Qed.
(** The first page is read from [l0] itself. *)
Lemma follow_all fuel :
  log 0 = l0 → (length l0 < fuel)%nat →
  follow fuel page 0 "" = Some (merge_sort newest_first l0).
Proof.
  intros H0 Hf. apply (follow_rest fuel 0 None []); [|done|].
  - by rewrite (merge_sort_Permutation newest_first l0).
  - unfold keyset_rows. rewrite H0. f_equal. clear. induction l0 as [|x l IH]; [done|].
    rewrite filter_cons_True by done. by f_equal.
Qed.
End keyset.

(** ** The audit log *)
Section audit_log.
Context `{CursorText}.
Lemma rows_keys {A} (key : A → uuid) (t : table A) :
  map_Forall (λ i x, key x = i) t → NoDup (key <$> rows t).
Proof.
  intros Ht. unfold rows. assert (key <$> (map_to_list t).*2 = (map_to_list t).*1) as ->.
  { rewrite <- list_fmap_compose. apply list_fmap_ext. intros n [i x] Hx. simpl.
    apply list_elem_of_lookup_2, elem_of_map_to_list in Hx. by apply Ht. }
  apply NoDup_fst_map_to_list.
Qed.
Definition org_log (o : uuid) (d : DB) : list AuditLogEntry :=
  select (λ e, e.(AuditLogEntry_OrgID) = o) d.(audit_logs).

Lemma page_limit_positive raw : 0 < page_limit raw.
Proof. unfold page_limit. repeat case_match; lia. Qed.
Lemma ListByOrg_page o raw c w :
  calm w → org_visible (stmt_env TxConn w) w.(w_db) o →
  let page := keyset_page AuditLogEntry_CreatedAt AuditLogEntry_ID (org_log o w.(w_db))
                (Z.to_nat (page_limit raw)) c in
  yields (AuditLogRepository.ListByOrg TxConn o (cursor_text c) (page_limit raw)) w
    (page.1, cursor_text page.2).
Proof.
  intros Hc Hv page. pose proof (page_limit_positive raw) as Hl.
  unfold AuditLogRepository.ListByOrg. eapply (yields_bind _ _ _ c).
  { destruct c as [[t i]|]; cbn [cursor_text].
    - rewrite decide_False by apply encodeCursor_ne. rewrite decodeCursor_encode.
      by apply yields_ret.
    - rewrite decide_True by done. by apply yields_ret. }
  intros w1 Hs Hc1. eapply (yields_bind _ _ _ page).
  - apply yields_wrap, yields_stmt; [done|].
    destruct Hs as [He _]. unfold env_of in He. injection He as Hdb Hsess _. unfold require. rewrite decide_True by lia. simpl.
    rewrite Hdb. do 2 f_equal. subst page. do 2 f_equal. unfold org_log, select.
    apply list_filter_iff. intros x. split; [naive_solver|]. intros <-. split; [done|].
    revert Hv. unfold org_visible. simpl. by rewrite Hsess.
  - intros w2 _ Hc2. by apply yields_ret.
Qed.

(** Two moments of the table, as two lists of which one has grown. *)
Lemma org_log_grown o d0 d :
  typed d → d0.(audit_logs) ⊆ d.(audit_logs) →
  (∀ i x j y, d.(audit_logs) !! i = Some x → d0.(audit_logs) !! i = None →
    d0.(audit_logs) !! j = Some y → y.(AuditLogEntry_CreatedAt) < x.(AuditLogEntry_CreatedAt)) →
  grown AuditLogEntry_CreatedAt AuditLogEntry_ID (org_log o d0) (org_log o d).
Proof.
  intros Hd Hsub Hnew. split.
  - eapply (sublist_NoDup _ (AuditLogEntry_ID <$> rows d.(audit_logs))).
    + apply rows_keys. intros i x Hx. by destruct (t_audit_logs _ Hd i x Hx).
    + apply fmap_sublist, sublist_filter.
  - intros x [Ho [i Hi]]%elem_of_select. apply elem_of_select. split; [done|]. exists i.
    by eapply lookup_weaken.
  - intros x [Ho [i Hi]]%elem_of_select. destruct (d0.(audit_logs) !! i) as [x'|] eqn:E.
    + left. apply elem_of_select. split; [done|]. exists i.
      pose proof (lookup_weaken _ _ _ _ E Hsub). congruence.
    + right. intros y [_ [j Hj]]%elem_of_select. by eapply Hnew.
Qed.

(** C14: reading the audit log page by page reads all of it.  Entries may be
    added between the requests, as long as they are newer; a reader who follows
    [next_cursor] until it is empty gets exactly the organization's entries of
    the moment of the first page, each once, newest first, in finitely many
    requests, whatever limit the query asks for. *)
Theorem pages_complete o raw (ws : nat → World) :
  (∀ n, calm (ws n) ∧ typed (ws n).(w_db) ∧ org_visible (stmt_env TxConn (ws n)) (ws n).(w_db) o) →
  (∀ n, (ws 0%nat).(w_db).(audit_logs) ⊆ (ws n).(w_db).(audit_logs)) →
  (∀ n i x j y, (ws n).(w_db).(audit_logs) !! i = Some x → (ws 0%nat).(w_db).(audit_logs) !! i = None →
    (ws 0%nat).(w_db).(audit_logs) !! j = Some y →
    y.(AuditLogEntry_CreatedAt) < x.(AuditLogEntry_CreatedAt)) →
  ∃ l, follow (S (size (ws 0%nat).(w_db).(audit_logs)))
         (λ n cursor, (AuditLogRepository.ListByOrg TxConn o cursor (page_limit raw) (ws n)).1) 0 ""
       = Some l
    ∧ NoDup l ∧ StronglySorted (newest_first AuditLogEntry_CreatedAt AuditLogEntry_ID) l
    ∧ ∀ x, x ∈ l ↔ x.(AuditLogEntry_OrgID) = o ∧ ∃ i, (ws 0%nat).(w_db).(audit_logs) !! i = Some x.
Proof.
  intros Hws Hkept Hnew.
  set (log n := org_log o (ws n).(w_db)).
  assert (∀ n, grown AuditLogEntry_CreatedAt AuditLogEntry_ID (log 0%nat) (log n)) as Hgrown.
  { intros n. apply org_log_grown; [apply Hws|done|]. intros. by eapply Hnew. }
  assert (∀ n x, x ∈ log n ↔ x.(AuditLogEntry_OrgID) = o
            ∧ ∃ i, (ws n).(w_db).(audit_logs) !! i = Some x) as Hin
    by (intros n x; unfold log, org_log; by rewrite elem_of_select).
  exists (merge_sort (newest_first AuditLogEntry_CreatedAt AuditLogEntry_ID) (log 0%nat)).
  split; [|split; [|split]].
  - apply (follow_all AuditLogEntry_CreatedAt AuditLogEntry_ID (log 0%nat) log
             (Z.to_nat (page_limit raw))); [|apply Hgrown|done| |done|].
    + pose proof (page_limit_positive raw). lia.
    + intros n c. destruct (Hws n) as (Hc & _ & Hv).
      destruct (ListByOrg_page o raw c _ Hc Hv) as (w' & -> & _). done.
    + unfold log, org_log, select. apply Nat.lt_succ_r. etransitivity; [apply length_filter|].
      unfold rows. by rewrite length_fmap, length_map_to_list.
  - rewrite merge_sort_Permutation. apply (NoDup_fmap_1 AuditLogEntry_ID), (Hgrown 0%nat).
  - apply newest_first_sorted.
  - intros x. by rewrite merge_sort_Permutation.
Qed.
End audit_log.

(** ** Three entries read two at a time, while a fourth arrives *)
#[local] Existing Instances hexUUID hexTime hexCursor.
Definition entry (id : uuid) (created : time) : AuditLogEntry :=
  {| AuditLogEntry_ID := id; AuditLogEntry_OrgID := 1; AuditLogEntry_ActorUserID := Some 2%N;
     AuditLogEntry_Action := "deploy"; AuditLogEntry_TargetType := "application";
     AuditLogEntry_TargetID := 20; AuditLogEntry_Metadata := Some (JObject []);
     AuditLogEntry_CreatedAt := created |}.
Definition entries (n : nat) : gmap uuid AuditLogEntry :=
  match n with
  | O => <[60%N := entry 60 10]> (<[61%N := entry 61 10]> {[62%N := entry 62 5]})
  | _ => <[63%N := entry 63 20]> (<[60%N := entry 60 10]> (<[61%N := entry 61 10]> {[62%N := entry 62 5]}))
  end.
Definition reading (n : nat) : World :=
  mkWorld (set_audit_logs (entries n) emptyDB) (mkSession (Some 2%N) (Some 1%N)) 100 1000 [] [].

Lemma entries_typed n : typed (set_audit_logs (entries n) emptyDB).
Proof.
  split; simpl; try apply map_Forall_empty; try (by intros i j x y).
  destruct n; simpl; repeat (apply map_Forall_insert_2; [split; [done|by exists []]|]);
    apply map_Forall_empty.
Qed.
Lemma pages_complete_witness :
  follow 4 (λ n cursor, (AuditLogRepository.ListByOrg TxConn 1 cursor (page_limit "2") (reading n)).1) 0 ""
    = Some [entry 61 10; entry 60 10; entry 62 5]
  ∧ ∃ l, follow 4 (λ n cursor,
             (AuditLogRepository.ListByOrg TxConn 1 cursor (page_limit "2") (reading n)).1) 0 "" = Some l
    ∧ NoDup l ∧ StronglySorted (newest_first AuditLogEntry_CreatedAt AuditLogEntry_ID) l
    ∧ ∀ x, x ∈ l ↔ x.(AuditLogEntry_OrgID) = 1%N ∧ ∃ i, entries 0 !! i = Some x.
Proof.
  split; [by vm_compute|]. apply (pages_complete 1 "2" reading).
  - intros n. split; [done|]. split; [apply entries_typed|]. by right; left.
  - intros [|n]; [done|]. by apply insert_subseteq.
  - intros [|n] i x j y Hx Hi Hy; simpl in *; [congruence|].
    apply lookup_insert_Some in Hx as [[_ <-]|[_ Hx]]; [|congruence].
    repeat (apply lookup_insert_Some in Hy as [[_ <-]|[_ Hy]]; [done|]).
    by apply lookup_singleton_Some in Hy as [_ <-].
Defined.
