(* ===== verification/Cluster.v ===== *)
(** * Cluster: what the control plane's tables keep

    The keys, foreign keys and unique columns of nodes, containers, services
    and service instances (migrations 0007 and 0008), the stamps of the
    containers, and that an instance is of a service of its container's own
    application, with what each statement and each cascade does to them. *)
From S2P Require Import Prelude Json Schema Effects Rls Outcomes DbTenancy DbWorkload.
From S2P Require Import DbCluster Wire Slug Scheduler ServiceController Handlers Isolation Typed.
From stdpp Require Import base gmap strings list.
From Stdlib Require Import ZArith Lia.
Open Scope Z_scope.

(** The instance's service is of the application its container runs. *)
Definition serves (d : DB) (x : ServiceInstance) : Prop :=
  ∃ sv c dep, d.(services) !! x.(ServiceInstance_ServiceID) = Some sv
    ∧ d.(containers) !! x.(ServiceInstance_ContainerID) = Some c
    ∧ d.(deployments) !! c.(Container_DeploymentID) = Some dep
    ∧ dep.(Deployment_ApplicationID) = sv.(Service_ApplicationID).

Record cluster (d : DB) : Prop := {
  k_nodes : map_Forall (λ i x, x.(Node_ID) = i) d.(nodes);
  k_containers : map_Forall (λ i x, x.(Container_ID) = i ∧ stamped x
    ∧ is_Some (d.(deployments) !! x.(Container_DeploymentID))
    ∧ is_Some (d.(nodes) !! x.(Container_NodeID))) d.(containers);
  k_services : map_Forall (λ i x, x.(Service_ID) = i
    ∧ is_Some (d.(applications) !! x.(Service_ApplicationID))) d.(services);
  k_service_application : unique Service_ApplicationID d.(services);
  k_dns_name : unique Service_DNSName d.(services);
  k_instances : map_Forall (λ i x, x.(ServiceInstance_ID) = i ∧ serves d x) d.(service_instances);
  k_instance_container : unique ServiceInstance_ContainerID d.(service_instances) }.

(** ** Writes of the API *)

(** Applications and deployments come, and keep their application. *)
Lemma cluster_grown d d' :
  d'.(nodes) = d.(nodes) → d'.(containers) = d.(containers) → d'.(services) = d.(services) →
  d'.(service_instances) = d.(service_instances) →
  (∀ i, is_Some (d.(applications) !! i) → is_Some (d'.(applications) !! i)) →
  (∀ i x, d.(deployments) !! i = Some x →
    ∃ x', d'.(deployments) !! i = Some x' ∧ x'.(Deployment_ApplicationID) = x.(Deployment_ApplicationID)) →
  cluster d → cluster d'.
Proof.
  intros Hn Hc Hs Hi Ha Hd []. split; rewrite ?Hn, ?Hc, ?Hs, ?Hi; try done.
  - intros i x Hx. destruct (k_containers0 i x Hx) as (? & ? & [dep Hdep] & ?). split_and!; try done.
    destruct (Hd _ _ Hdep) as (? & ? & _). by eexists.
  - intros i x Hx. destruct (k_services0 i x Hx). auto.
  - intros i x Hx. destruct (k_instances0 i x Hx) as (? & sv & c & dep & ? & ? & Hdep & ?).
    split; [done|]. destruct (Hd _ _ Hdep) as (dep' & ? & ?). exists sv, c, dep'.
    rewrite Hs, Hc. split_and!; [done..|congruence].
Qed.
Lemma cluster_same d d' :
  d'.(nodes) = d.(nodes) → d'.(containers) = d.(containers) → d'.(services) = d.(services) →
  d'.(service_instances) = d.(service_instances) → d'.(applications) = d.(applications) →
  d'.(deployments) = d.(deployments) → cluster d → cluster d'.
Proof. intros ???? Ha Hd. apply cluster_grown; try done; [by rewrite Ha|rewrite Hd; eauto]. Qed.
Lemma grown_insert {A} (t : table A) i x j : is_Some (t !! j) → is_Some (<[i := x]> t !! j).
Proof. intros. rewrite lookup_insert_is_Some'. auto. Qed.
Lemma cluster_application d i x :
  cluster d → cluster (set_applications (<[i := x]> d.(applications)) d).
Proof. apply cluster_grown; simpl; eauto using grown_insert. Qed.
Lemma cluster_deployment d i x :
  (∀ y, d.(deployments) !! i = Some y →
    x.(Deployment_ApplicationID) = y.(Deployment_ApplicationID)) →
  cluster d → cluster (set_deployments (<[i := x]> d.(deployments)) d).
Proof.
  intros Hx. apply cluster_grown; simpl; eauto. intros j y Hy.
  destruct (decide (i = j)) as [<-|]; [rewrite lookup_insert_eq|rewrite lookup_insert_ne by done]; eauto.
Qed.

(** ** Cascades *)

(** A row outlives the delete of the rows it does not belong to. *)
Lemma survives {A} (P : A → Prop) `{!∀ x, Decision (P x)} (t : table A) i x :
  t !! i = Some x → i ∉ keys_where P t → delete_where P t !! i = Some x.
Proof. intros Hx Hi. rewrite (not_in_keys_where P _ _ _ Hx) in Hi. by apply lookup_delete_where. Qed.

Lemma cluster_drop_containers P `{!∀ x, Decision (P x)} d : cluster d → cluster (drop_containers P d).
Proof.
  intros []. split; simpl; try done; try by apply unique_delete_where.
  - by apply table_delete_where.
  - intros i x [Hx Hk]%lookup_delete_where.
    destruct (k_instances0 i x Hx) as (? & sv & c & dep & ? & Hc & ? & ?). split; [done|].
    exists sv, c, dep. split; [done|]. split; [by apply survives|done].
Qed.
Lemma cluster_drop_deployments P `{!∀ x, Decision (P x)} d : cluster d → cluster (drop_deployments P d).
Proof.
  intros []. split; simpl; try done; try by apply unique_delete_where.
  - intros i x [Hx Hk]%lookup_delete_where.
    destruct (k_containers0 i x Hx) as (? & ? & [dep Hdep] & ?). split_and!; try done.
    exists dep. by apply survives.
  - intros i x [Hx Hk]%lookup_delete_where.
    destruct (k_instances0 i x Hx) as (? & sv & c & dep & ? & Hc & ? & ?). split; [done|].
    rewrite (not_in_keys_where _ _ _ _ Hc) in Hk.
    exists sv, c, dep. split_and!; [done| |by apply survives|done]. by apply lookup_delete_where.
Qed.
Lemma cluster_drop_applications P `{!∀ x, Decision (P x)} d : cluster d → cluster (drop_applications P d).
Proof.
  intros []. split; simpl; try done; try by repeat apply unique_delete_where.
  - intros i x [Hx Hk]%lookup_delete_where.
    destruct (k_containers0 i x Hx) as (? & ? & [dep Hdep] & ?). split_and!; try done.
    exists dep. by apply survives.
  - intros i x [Hx Hk]%lookup_delete_where. destruct (k_services0 i x Hx) as (? & a & Ha).
    split; [done|]. exists a. by apply survives.
  - intros i x [[Hx Hs]%lookup_delete_where Hk]%lookup_delete_where.
    destruct (k_instances0 i x Hx) as (? & sv & c & dep & Hsv & Hc & Hdep & Happ). split; [done|].
    rewrite (not_in_keys_where _ _ _ _ Hc) in Hk. rewrite (not_in_keys_where _ _ _ _ Hsv) in Hs.
    exists sv, c, dep. split_and!; [by apply lookup_delete_where..| |done].
    apply lookup_delete_where. split; [done|]. congruence.
Qed.
Lemma cluster_drop_projects P `{!∀ x, Decision (P x)} d : cluster d → cluster (drop_projects P d).
Proof.
  intros Hd. apply cluster_drop_applications.
  apply (cluster_same d); [reflexivity..|exact Hd].
Qed.
Lemma cluster_drop_organization o d : cluster d → cluster (drop_organization o d).
Proof.
  intros Hd. unfold drop_organization.
  apply cluster_drop_projects. apply cluster_drop_applications. apply cluster_drop_deployments.
  apply (cluster_same d); [reflexivity..|exact Hd].
Qed.

(** ** Writes of the scheduler *)

Lemma cluster_node d i x :
  x.(Node_ID) = i → cluster d → cluster (set_nodes (<[i := x]> d.(nodes)) d).
Proof.
  intros Hx []. split; simpl; try done; [by apply table_insert|].
  intros j c Hc. destruct (k_containers0 j c Hc) as (? & ? & ? & ?).
  split_and!; try done. by apply grown_insert.
Qed.
Lemma cluster_container d i x :
  x.(Container_ID) = i → stamped x → is_Some (d.(deployments) !! x.(Container_DeploymentID)) →
  is_Some (d.(nodes) !! x.(Container_NodeID)) →
  (∀ y, d.(containers) !! i = Some y → y.(Container_DeploymentID) = x.(Container_DeploymentID)) →
  cluster d → cluster (set_containers (<[i := x]> d.(containers)) d).
Proof.
  intros Hi Hst Hdep Hn Hx []. split; simpl; try done; [by apply table_insert|].
  intros j y Hy. destruct (k_instances0 j y Hy) as (? & sv & c & dep & ? & Hc & Hd & ?).
  split; [done|]. destruct (decide (i = y.(ServiceInstance_ContainerID))) as [->|Hne].
  - exists sv, x, dep. simpl. rewrite lookup_insert_eq, <-(Hx _ Hc). done.
  - exists sv, c, dep. simpl. by rewrite lookup_insert_ne.
Qed.

(** ** Writes of the controller manager *)

Lemma cluster_service d i x :
  d.(services) !! i = None → x.(Service_ID) = i →
  is_Some (d.(applications) !! x.(Service_ApplicationID)) →
  (∀ j y, d.(services) !! j = Some y → y.(Service_ApplicationID) ≠ x.(Service_ApplicationID)) →
  (∀ j y, d.(services) !! j = Some y → y.(Service_DNSName) ≠ x.(Service_DNSName)) →
  cluster d → cluster (set_services (<[i := x]> d.(services)) d).
Proof.
  intros Hi Hx Ha Happ Hdns []. split; simpl; try done; [by apply table_insert|by apply unique_insert..|].
  intros j y Hy. destruct (k_instances0 j y Hy) as (? & sv & c & dep & Hsv & ?). split; [done|].
  exists sv, c, dep. simpl. rewrite lookup_insert_ne; [done|congruence].
Qed.
Lemma cluster_instance d i x :
  x.(ServiceInstance_ID) = i → serves d x →
  (∀ j y, d.(service_instances) !! j = Some y →
    y.(ServiceInstance_ContainerID) ≠ x.(ServiceInstance_ContainerID)) →
  cluster d → cluster (set_service_instances (<[i := x]> d.(service_instances)) d).
Proof.
  intros Hi Hx Hne []. split; simpl; try done; [by apply table_insert|by apply unique_insert].
Qed.
Lemma cluster_instances_updated d P `{!∀ x, Decision (P x)} f :
  (∀ x, (f x).(ServiceInstance_ID) = x.(ServiceInstance_ID)
        ∧ (f x).(ServiceInstance_ContainerID) = x.(ServiceInstance_ContainerID)) →
  (∀ x, P x → serves d x → serves d (f x)) →
  cluster d → cluster (set_service_instances (update_where P f d.(service_instances)) d).
Proof.
  intros Hf Hs []. split; simpl; try done.
  - intros i y. rewrite lookup_update_where. intros (x & Hx & ->)%fmap_Some.
    destruct (k_instances0 i x Hx) as [? ?], (Hf x). case_decide; [|done].
    split; [congruence|]. by apply Hs.
  - intros i j y z. rewrite !lookup_update_where.
    intros (y' & Hy & ->)%fmap_Some (z' & Hz & ->)%fmap_Some Hyz.
    eapply k_instance_container0; [exact Hy|exact Hz|]. destruct (Hf y'), (Hf z').
    repeat case_decide; congruence.
Qed.
Lemma cluster_instances_deleted d P `{!∀ x, Decision (P x)} :
  cluster d → cluster (set_service_instances (delete_where P d.(service_instances)) d).
Proof.
  intros []. split; simpl; try done; [by apply table_delete_where|by apply unique_delete_where].
Qed.
