(* ===== verification/Platform.v ===== *)
(** * Platform: every service at work on one database

    What any of the services may do to the database, one request, message or
    tick at a time and in any order ([step]), and what holds of the database
    whatever they do ([sound]).  Agents, the builder and the balancer do not
    write it. *)
From S2P Require Import Prelude Json Http Schema Effects Rls Outcomes DbTenancy DbWorkload.
From S2P Require Import DbCluster Wire Encoding Slug Scheduler DeployController ServiceController.
From S2P Require Import LbRegistry LoadBalancer Auth Concrete ApiCore ApiOrgs ApiApps ApiAuth Handlers.
From S2P Require Import Isolation Quotas Writes Routes Bodies Members Accounts Traffic Deploys.
From S2P Require Import ApiMux Typed Cluster Sample.
From stdpp Require Import base gmap strings list.
From Stdlib Require Import ZArith Lia.
Open Scope Z_scope.

(** ** The API and the tables of the cluster *)

Lemma cluster_audited o u action ttype tid md t d d' :
  audited o u action ttype tid md t d d' → cluster d → cluster d'.
Proof. intros (g & _ & ->). by apply cluster_same. Qed.

Section bodies.
Context `{UUIDText} `{TimeText} `{CursorText} `{Credentials}.
#[local] Hint Resolve gives_authorizeDeploy gives_createDeploymentTx gives_latestContainers : gives.

Ltac audit := try (eapply cluster_audited; [eassumption|]).
Ltac body_cluster :=
  unfold along, keeping; body_inv; owner_inv; audit; try done;
  try (match goal with Hd : cluster (e_db ?e) |- _ => by apply (cluster_same (e_db e)) end).

Lemma deployment_made_cluster o i u app image e da d' :
  deployment_made o i u app image e da d' → cluster e.(e_db) → cluster d'.
Proof.
  intros (g & d & Himg & _ & _ & _ & Hg & _ & _ & Haud) Hd. audit.
  assert (cluster d ∧ d.(deployments) = e.(e_db).(deployments)) as [Hd' Hdep].
  { destruct Himg as [(_ & _ & _ & a & s & _ & ->)|(_ & _ & ->)]; [|done]. split; [|done].
    by apply cluster_application. }
  rewrite <-Hdep in Hg |- *. apply cluster_deployment; [congruence|done].
Qed.

Lemma bodies_cluster : bodies_along (keeping cluster).
Proof.
  split; intros.
  - unfold updateOrganization. body_cluster.
  - unfold deleteOrganization, along, keeping. body_inv. by apply cluster_drop_organization.
  - unfold inviteMember. body_cluster.
  - unfold changeMemberRole. body_cluster.
  - unfold removeMember. body_cluster.
  - unfold createAPIKey. body_cluster.
  - unfold revokeAPIKey. body_cluster.
  - unfold createProject. body_cluster.
  - unfold createApplication. body_cluster. by apply cluster_application.
  - unfold scaleApplication. body_cluster. all: by apply cluster_application.
  - unfold planDelete. body_cluster.
  - unfold deleteApplication. body_cluster. all: by apply cluster_drop_applications.
  - unfold createDomain. body_cluster.
  - unfold deleteDomain. body_cluster.
  - eapply gives_mono; [apply gives_deployImage|].
    unfold keeping. intros e oda e' (app & _ & Hm) Hd. by eapply deployment_made_cluster.
  - eapply gives_mono; [apply gives_requestBuild|]. intros e ob e' (app & _ & g & Hb & _ & Haud) Hd.
    audit. by apply (cluster_same (e_db e)).
  - eapply gives_mono; [apply gives_deployment_UpdateResult|]. intros e _ e' (x & s & Hx & ->) Hd.
    simpl in *. apply cluster_deployment; [|done]. intros y Hy. by simplify_eq.
  - eapply gives_mono; [apply gives_build_UpdateResult|]. intros e _ e' (x & s & Hx & ->) Hd.
    simpl in *. by apply (cluster_same (e_db e)).
Qed.

Lemma cluster_signed_up email hash name slug e uo d' :
  signed_up email hash name slug e uo d' → cluster e.(e_db) → cluster d'.
Proof.
  intros (gm & _ & _ & _ & _ & _ & _ & _ & _ & Haud) Hd. audit. by apply (cluster_same (e_db e)).
Qed.
Lemma cluster_issued u plain t d d' : token_issued u plain t d d' → cluster d → cluster d'.
Proof. intros (g & _ & _ & ->). by apply cluster_same. Qed.

Context (bus : bool) (registryAddr : string).
Lemma http_cluster q : moves (keeping cluster) (http bus registryAddr q).
Proof.
  apply http_moves; [apply _|exact bodies_cluster|..]; unfold keeping.
  - intros. by eapply cluster_signed_up.
  - intros. by eapply cluster_issued.
  - intros d i x t b _. by apply cluster_same.
Qed.

(** ** The API and the parents of the tenants' rows *)

Lemma consistent_same d d' :
  d'.(projects) = d.(projects) → d'.(applications) = d.(applications) →
  d'.(deployments) = d.(deployments) → d'.(builds) = d.(builds) → d'.(domains) = d.(domains) →
  consistent d → consistent d'.
Proof. intros Hp Ha Hd Hb Hx []. split; by rewrite ?Hp, ?Ha, ?Hd, ?Hb, ?Hx. Qed.
Lemma consistent_signed_up email hash name slug e uo d' :
  signed_up email hash name slug e uo d' → consistent e.(e_db) → consistent d'.
Proof.
  intros (gm & _ & _ & _ & _ & _ & _ & _ & _ & g & _ & ->). by apply consistent_same.
Qed.
Lemma consistent_issued u plain t d d' : token_issued u plain t d d' → consistent d → consistent d'.
Proof. intros (g & _ & _ & ->). by apply consistent_same. Qed.
Lemma http_consistent q : moves (keeping consistent) (http bus registryAddr q).
Proof.
  destruct q; simpl.
  - unfold serve, authenticated. apply moves_bind; [apply _| |].
    + intros w. destruct (Authenticate_same header w) as [[= Hd _ _] _]. by rewrite Hd.
    + intros [id|]; [|apply moves_ret, _]. intros w. pose proof (dispatch_guarded bus registryAddr r id) as Hr.
      destruct (write_permission r) as [p|]; specialize (Hr w); [|by rewrite <-Hr].
      destruct Hr as [_ Hg]. intros Hc. by destruct (Hg Hc).
  - apply signup_moves; [apply _|..]; unfold keeping; intros;
      [by eapply consistent_signed_up|by eapply consistent_issued].
  - apply login_moves; [apply _|]. unfold keeping. intros. by eapply consistent_issued.
  - apply refresh_moves; [apply _|..]; unfold keeping.
    + intros. by eapply consistent_issued.
    + intros d i x t b _. by apply consistent_same.
Qed.
End bodies.

(** ** What holds of the database *)

Record sound (d : DB) : Prop := {
  s_typed : typed d;
  s_consistent : consistent d;
  s_owned : owned d;
  s_cluster : cluster d }.

Lemma moves_sound {A} (m : M A) :
  moves (keeping typed) m → moves (keeping consistent) m → moves (keeping owned) m →
  moves (keeping cluster) m → moves (keeping sound) m.
Proof. intros Ht Hc Ho Hk w []. split; [by apply Ht|by apply Hc|by apply Ho|by apply Hk]. Qed.

(** The consumer of build.completed, from its transactions. *)
Section build_completed.
Context `{UUIDText} `{TimeText} `{CursorText} `{Credentials} (bus : bool).
Section any.
Context (R : DB → DB → Prop) `{!PreOrder R}.
Hypothesis Hresult : ∀ i st c, along R (DeploymentRepository.UpdateResult TxConn i st c).
Hypothesis Hcomplete : ∀ i msg, along R (completeBuild i msg).
Lemma handleBuildCompleted_moves data : moves R (handleBuildCompleted bus data).
Proof.
  unfold handleBuildCompleted, publishPlacement.
  repeat first [apply along_WithTx; [apply _|first [apply Hcomplete | apply Hresult]]
    | apply moves_eq; [apply _|apply bus_pure] | moves_step | apply _].
Qed.
End any.

Lemma createDeploymentTx_revision o i u app image :
  gives (createDeploymentTx o i u app image) (λ _ da _, int4_ok da.1.(Deployment_Revision) = true).
Proof.
  unfold createDeploymentTx. eapply gives_mono; [body|]. cbv beta. intros. gives_inv.
  all: simplify_eq/=; assumption.
Qed.
#[local] Hint Resolve createDeploymentTx_revision : gives.
Lemma completeBuild_revision i msg :
  gives (completeBuild i msg)
    (λ _ r _, ∀ da, r.2 = Some da → int4_ok da.1.(Deployment_Revision) = true).
Proof.
  unfold completeBuild. body_inv.
  match goal with H : _ ∨ _ |- _ => destruct H as [Hc|(Hst%dec_stable & [Hc|Hc])] end; gives_inv;
    simplify_eq/=; done.
Qed.

(** A body that knows what it recorded keeps what recording keeps. *)
Lemma completeBuild_keeps (I : DB → Prop) i msg :
  (∀ e b st sha image err d, e.(e_db).(builds) !! i = Some b →
    build_result i st sha image err b e d → I e.(e_db) → I d) →
  (∀ o i u app image e da d', deployment_made o i u app image e da d' →
    int4_ok da.1.(Deployment_Revision) = true → I e.(e_db) → I d') →
  along (keeping I) (completeBuild i msg).
Proof.
  intros Hb Hd. eapply gives_mono; [apply gives_both; [apply gives_completeBuild|apply completeBuild_revision]|].
  unfold keeping. intros e [b r] e' [(Hi & _ & Hrec) Hrev] HI. simpl in *. destruct r as [da|].
  - destruct Hrec as (_ & _ & d & app & Hres & _ & Hmade).
    eapply Hd; [exact Hmade|by apply Hrev|]. simpl. by eapply Hb.
  - destruct Hrec as (_ & err & Hres). by eapply Hb.
Qed.
Lemma handleBuildCompleted_sound data : moves (keeping sound) (handleBuildCompleted bus data).
Proof.
  apply moves_sound; (apply handleBuildCompleted_moves; [apply _|..]).
  - apply bodies_typed.
  - intros. apply completeBuild_keeps.
    + intros e b st sha image err d Hb [s ->] Hd.
      pose proof (t_builds _ Hd _ _ Hb) as [? _]. typed_auto. by apply table_insert; [|assumption].
    + intros. by eapply deployment_made_typed.
  - intros i st c. eapply gives_mono; [apply gives_deployment_UpdateResult|].
    intros e _ e' (x & s & Hx & ->) Hd. simpl in *.
    by apply (acts_replace_deployment x.(Deployment_OrgID) (e_db e) i x).
  - intros i msg. eapply gives_mono; [apply gives_completeBuild|].
    intros e [b r] e' (Hi & _ & Hrec) Hd. simpl in *.
    destruct (build_recorded_acts _ _ _ _ _ _ Hd Hi Hrec) as [Ha _]. by destruct (Ha Hd).
  - apply bodies_owned.
  - intros. apply completeBuild_keeps.
    + intros e b st sha image err d Hb [s ->] Hd. by apply (owned_same (e_db e)).
    + intros. by eapply deployment_made_owned.
  - apply bodies_cluster.
  - intros. apply completeBuild_keeps.
    + intros e b st sha image err d Hb [s ->] Hd. by apply (cluster_same (e_db e)).
    + intros. by eapply deployment_made_cluster.
Qed.
Context (registryAddr : string).
Lemma serve_call_sound draws c : moves (keeping sound) (serve_call bus registryAddr draws c).
Proof.
  unfold serve_call. destruct (lookup_route draws c); [apply moves_ret, _..|].
  apply moves_sound; [by apply http_typed|by apply http_consistent| |by apply http_cluster].
  apply http_moves; [apply _|apply bodies_owned|..]; unfold keeping.
  - intros. by eapply owned_signed_up.
  - intros. by eapply owned_issued.
  - intros d i x t b _. by apply owned_same.
Qed.
End build_completed.

(** ** The scheduler *)

Section scheduler.
Context `{UUIDText} `{TimeText}.

(** Only the tables of the cluster have changed. *)
Lemma sound_same d d' :
  d' = set_nodes d'.(nodes) (set_containers d'.(containers)
        (set_services d'.(services) (set_service_instances d'.(service_instances) d))) →
  cluster d' → sound d → sound d'.
Proof.
  intros -> Hk [Ht Hc Ho _]. split; [|by apply (consistent_same d)|by apply (owned_same d)|done].
  destruct Ht. by split.
Qed.
Lemma sound_node d i x : x.(Node_ID) = i → sound d → sound (set_nodes (<[i := x]> d.(nodes)) d).
Proof. intros Hx Hd. apply (sound_same d); [by destruct d| |done]. by apply cluster_node, Hd. Qed.

Lemma Register_sound c id h i cpu mem l : moves (keeping sound) (NodeRepository.Register c id h i cpu mem l).
Proof.
  apply moves_wrap, moves_scan, moves_run_stmt; try apply _. intros s d a d' Hst.
  unfold NodeRepository.Register_sql in Hst. stmt_inv Hst. intros Hd. apply sound_node; [|done].
  unfold NodeRepository.registered. by destruct (nodes d !! id).
Qed.
Lemma Heartbeat_sound c id t : moves (keeping sound) (NodeRepository.Heartbeat c id t).
Proof.
  apply moves_exec_affected, moves_run_stmt; try apply _. intros s d a d' Hst.
  unfold NodeRepository.Heartbeat_sql in Hst. destruct (nodes d !! id) as [n|] eqn:E; simplify_eq; [|done].
  intros Hd. apply sound_node; [|done]. exact (k_nodes _ (s_cluster _ Hd) _ _ E).
Qed.
Lemma SetStatus_sound c id t : moves (keeping sound) (NodeRepository.SetStatus c id t).
Proof.
  apply moves_exec_affected, moves_run_stmt; try apply _. intros s d a d' Hst.
  unfold NodeRepository.SetStatus_sql in Hst. destruct (nodes d !! id) as [n|] eqn:E; simplify_eq; [|done].
  intros Hd. apply sound_node; [|done]. exact (k_nodes _ (s_cluster _ Hd) _ _ E).
Qed.
Lemma container_Create_sound c dep n : moves (keeping sound) (ContainerRepository.Create c dep n).
Proof.
  apply moves_wrap, moves_scan, moves_run_stmt; try apply _. intros s d a d' Hst.
  unfold ContainerRepository.Create_sql in Hst. stmt_inv Hst. intros Hd. destruct_and?.
  apply (sound_same d); [by destruct d| |done].
  apply cluster_container; simpl; try done; [congruence|apply Hd].
Qed.
Lemma UpdateStatus_sound c id st rid : moves (keeping sound) (ContainerRepository.UpdateStatus c id st rid).
Proof.
  apply moves_exec_affected, moves_run_stmt; try apply _. intros s d a d' Hst.
  unfold ContainerRepository.UpdateStatus_sql in Hst.
  destruct (containers d !! id) as [x|] eqn:E; simplify_eq; [|done]. intros Hd.
  destruct (k_containers _ (s_cluster _ Hd) _ _ E) as (? & ? & ? & ?).
  apply (sound_same d); [by destruct d| |done].
  apply cluster_container; try done; [apply with_status_stamped| |apply Hd].
  intros y Hy. by simplify_eq.
Qed.
Lemma handle_sound cfg i : moves (keeping sound) (handle cfg i).
Proof.
  destruct i; simpl; unfold handleRegister, handleHeartbeat, sweepUnreachable, sweep_one,
    handlePlacement, place, handleStatus.
  all: repeat first [moves_step
    | apply Register_sound | apply Heartbeat_sound | apply SetStatus_sound
    | apply container_Create_sound | apply UpdateStatus_sound
    | eapply observes_moves, List_observes | eapply observes_moves, selectNode_observes
    | eapply observes_moves, checkQuota_observes | apply _ ].
Qed.
End scheduler.

(** ** The controller manager *)

Section controllers.
Context `{UUIDText}.

Lemma request_loop_sound data n : moves (keeping sound) (request_loop data n).
Proof. induction n as [|n IH]; simpl; [apply moves_ret, _|]. repeat first [moves_step | apply IH | apply _]. Qed.
Lemma deployments_tick_sound c : moves (keeping sound) (tick c).
Proof.
  unfold tick, reconcileOne, scaleUp, scaleDown, unassign_one, ReconcileRepository.ListActive,
    ContainerRepository.CountActiveByDeployment, ContainerRepository.ListByDeployment.
  repeat first [moves_step | apply request_loop_sound | apply _].
Qed.

(** The services and instances may change, nothing else. *)
Definition serving (d d' : DB) : Prop :=
  d' = set_services d'.(services) (set_service_instances d'.(service_instances) d)
  ∧ (sound d → sound d').
#[local] Instance serving_preorder : PreOrder serving.
Proof.
  split; [by intros []|]. intros d1 d2 d3 [H12 ?] [H23 ?]. split; [|auto].
  rewrite H23, H12. done.
Qed.

Lemma GetOrCreate_serving c a dns : moves serving (ServiceRepository.GetOrCreate c a dns).
Proof.
  apply moves_wrap, moves_scan, moves_run_stmt; try apply _. intros s d x d' Hst.
  unfold ServiceRepository.GetOrCreate_sql in Hst. destruct (select _ _) eqn:E.
  - stmt_inv Hst. destruct_and?. split; [by destruct d|]. intros Hd.
    apply (sound_same d); [by destruct d| |done].
    assert (∀ j y, services d !! j = Some y → Service_ApplicationID y ≠ a).
    { intros j y Hj Hy. apply (not_elem_of_nil y). rewrite <-E. apply elem_of_select. eauto. }
    apply cluster_service; simpl; try done; [by apply fresh_in_rows|apply Hd].
  - by simplify_eq.
Qed.
Lemma gives_GetOrCreate c a dns :
  gives (ServiceRepository.GetOrCreate c a dns)
    (λ e x e', cluster e.(e_db) → e'.(e_db).(services) !! x.(Service_ID) = Some x
                                  ∧ x.(Service_ApplicationID) = a).
Proof.
  apply gives_wrap, gives_scan.
  eapply gives_mono; [apply gives_run_stmt|]. intros e x e' (g & d & Hst & ->) Hd. simpl.
  unfold ServiceRepository.GetOrCreate_sql in Hst. destruct (select _ _) as [|y l] eqn:E.
  - stmt_inv Hst. by rewrite lookup_insert_eq.
  - assert (y ∈ select (λ x, Service_ApplicationID x = a) (services (e_db e)))
      as [Ha [i Hi]]%elem_of_select by (rewrite E; left).
    destruct (k_services _ Hd _ _ Hi) as [Hid _]. simplify_eq. done.
Qed.

(** The container's application is the service's. *)
Definition linked (sid cid : uuid) (d : DB) : Prop :=
  ∃ sv c dep, d.(services) !! sid = Some sv ∧ d.(containers) !! cid = Some c
    ∧ d.(deployments) !! c.(Container_DeploymentID) = Some dep
    ∧ dep.(Deployment_ApplicationID) = sv.(Service_ApplicationID).
Definition linking (sid cid : uuid) (d d' : DB) : Prop :=
  d' = set_service_instances d'.(service_instances) d ∧ (linked sid cid d → sound d → sound d').
#[local] Instance linking_preorder sid cid : PreOrder (linking sid cid).
Proof.
  split; [by intros []|]. intros d1 d2 d3 [H12 I12] [H23 I23]. split; [by rewrite H23, H12|].
  intros Hl Hd. apply I23; [|auto]. by rewrite H12.
Qed.
Lemma Upsert_linking c sid cid ip port :
  moves (linking sid cid) (ServiceInstanceRepository.Upsert c sid cid ip port).
Proof.
  apply moves_wrap, moves_scan, moves_run_stmt; try apply _. intros s d x d' Hst.
  unfold ServiceInstanceRepository.Upsert_sql in Hst. stmt_inv Hst.
  destruct (ServiceInstanceRepository.of_container cid d) eqn:E; stmt_inv Hst; (split; [by destruct d|]);
    intros Hl Hd; (apply (sound_same d); [by destruct d| |done]).
  - destruct_and?. apply cluster_instance; [done|done| |apply Hd]. intros j y Hj Hy.
    apply (not_elem_of_nil y). rewrite <-E. apply elem_of_select. eauto.
  - apply cluster_instances_updated; [done| |apply Hd]. intros y Hy _. rewrite <-Hy in Hl. exact Hl.
Qed.
Lemma DeleteByContainer_serving c cid : moves serving (ServiceInstanceRepository.DeleteByContainer c cid).
Proof.
  apply moves_exec_affected, moves_run_stmt; try apply _. intros s d x d' Hst.
  unfold ServiceInstanceRepository.DeleteByContainer_sql in Hst. stmt_inv Hst.
  split; [by destruct d|]. intros Hd.
  apply (sound_same d); [by destruct d| |done]. apply cluster_instances_deleted, Hd.
Qed.

(** What the candidates are read as: a container and its application. *)
Definition runs (cid a : uuid) (d : DB) : Prop :=
  ∃ c dep, d.(containers) !! cid = Some c ∧ d.(deployments) !! c.(Container_DeploymentID) = Some dep
    ∧ dep.(Deployment_ApplicationID) = a.
Definition candidate (d : DB) (x : ServiceInstanceCandidate) : Prop :=
  runs x.(ServiceInstanceCandidate_ContainerID) x.(ServiceInstanceCandidate_ApplicationID) d.
Lemma candidate_serving d d' x : serving d d' → candidate d x → candidate d' x.
Proof. intros [E _]. unfold candidate, runs. by rewrite E. Qed.

Lemma serving_eq {A} (m : M A) : moves eq m → moves serving m.
Proof. apply moves_eq, _. Qed.
Lemma reconcileCandidate_serving cache x w :
  sound w.(w_db) → candidate w.(w_db) x → serving w.(w_db) (reconcileCandidate cache x w).2.(w_db).
Proof.
  intros Hd (c & dep & Hc & Hdep & Ha). unfold reconcileCandidate.
  destruct (portFor _ cache) as [port|]; [|simpl; reflexivity].
  rewrite bind_try. set (dns := dnsName _ _ _).
  pose proof (GetOrCreate_serving AdminConn (ServiceInstanceCandidate_ApplicationID x) dns w) as Hg.
  pose proof (gives_GetOrCreate AdminConn (ServiceInstanceCandidate_ApplicationID x) dns w) as Hq.
  destruct (ServiceRepository.GetOrCreate AdminConn _ dns w) as [[sv|e] w1]; simpl in *; [|done].
  destruct (Hq sv w1 eq_refl) as [[Hsv Hsa] _]; [apply Hd|]. simpl in *.
  etrans; [exact Hg|]. destruct Hg as [Eg Hg].
  rewrite bind_try. set (m := ServiceInstanceRepository.Upsert _ _ _ _ _).
  assert (linking sv.(Service_ID) x.(ServiceInstanceCandidate_ContainerID) w1.(w_db) (m w1).2.(w_db))
    as [Eu Hu] by apply Upsert_linking.
  assert (serving w1.(w_db) (m w1).2.(w_db)) as Hs.
  { split; [rewrite Eu; by destruct (w_db w1)|]. apply Hu. exists sv, c, dep. rewrite Eg.
    split; [by rewrite <-Eg|]. simpl. split_and!; congruence. }
  etrans; [exact Hs|]. destruct (m w1) as [[y|e] w2]; simpl; [|done].
  apply publishUpdated_moves, _.
Qed.
Lemma reconcile_candidates_serving cache l w :
  sound w.(w_db) → Forall (candidate w.(w_db)) l →
  serving w.(w_db) (forM (reconcileCandidate cache) l w).2.(w_db).
Proof.
  intros Hd Hl. revert w Hd Hl. induction l as [|x l IH]; intros w Hd Hl; [simpl; reflexivity|].
  apply Forall_cons in Hl as [Hx Hl]. simpl. unfold mbind, M_bind.
  pose proof (reconcileCandidate_serving cache x w Hd Hx) as Hs.
  destruct (reconcileCandidate cache x w) as [[[]|e] w1]; simpl in *; [|done].
  etrans; [exact Hs|]. apply IH; [by apply Hs|].
  eapply Forall_impl; [exact Hl|]. intros y. by apply candidate_serving.
Qed.

Lemma latest_of_elem l x : latest_of l = Some x → x ∈ l.
Proof.
  unfold latest_of. intros Hx. rewrite <-(order_by_desc_perm Deployment_Revision l).
  by apply head_Some_elem_of.
Qed.
Lemma live_deployment_elem s d a x :
  live_deployment s d a = Some x →
  x.(Deployment_ApplicationID) = a.(Application_ID) ∧ ∃ i, d.(deployments) !! i = Some x.
Proof.
  unfold live_deployment. destruct (latest_of _) as [y|] eqn:E; [|done]. simpl. case_decide; [done|].
  intros [= <-]. apply latest_of_elem in E as [_ E]%list_elem_of_filter.
  by apply elem_of_select in E.
Qed.
Lemma candidates_of_spec s d a x :
  sound d → x ∈ ServiceReconcileRepository.candidates_of s d a →
  x.(ServiceInstanceCandidate_ApplicationID) = a.(Application_ID) ∧ candidate d x
  ∧ running_in d.(containers) x.(ServiceInstanceCandidate_ContainerID).
Proof.
  intros Hd Hx. unfold ServiceReconcileRepository.candidates_of in Hx.
  destruct (projects _ !! _) as [p|]; [|by apply not_elem_of_nil in Hx].
  destruct (live_deployment _ _ a) as [dep|] eqn:E; [|by apply not_elem_of_nil in Hx].
  case_decide; [|by apply not_elem_of_nil in Hx].
  apply list_elem_of_omap in Hx as (c0 & [[Hc Hrun] [i Hi]]%elem_of_select & Hn).
  destruct (nodes _ !! _); simplify_eq/=. apply live_deployment_elem in E as [Hda [j Hj]].
  destruct (k_containers _ (s_cluster _ Hd) _ _ Hi) as [Hci _].
  destruct (t_deployments _ (s_typed _ Hd) _ _ Hj) as [Hdj _].
  split; [done|]. rewrite <-Hci in Hi. split; [|by exists c0]. exists c0, dep. by rewrite Hc, Hdj.
Qed.
Lemma candidates_sound c :
  observes (ServiceReconcileRepository.ListRunningCandidates c)
    (λ e l, sound e.(e_db) → Forall (candidate e.(e_db)) l).
Proof.
  apply observes_wrap. eapply observes_mono; [apply observes_query|]. intros e l [g ->] Hd.
  apply Forall_forall. intros x [a [Hx _]]%list_elem_of_bind. by eapply candidates_of_spec.
Qed.
Lemma remove_orphans_serving ids cache : moves serving (remove_orphans cache ids).
Proof.
  revert cache. induction ids as [|cid ids IH]; intros cache; simpl; [apply moves_ret, _|].
  apply moves_bind; [apply _| |done]. unfold remove_orphan.
  repeat first [apply DeleteByContainer_serving | apply publishUpdated_moves; apply _ | moves_step | apply _].
Qed.
Lemma upsert_candidates_serving cache w :
  sound w.(w_db) → serving w.(w_db) (upsert_candidates cache w).2.(w_db).
Proof.
  unfold upsert_candidates. rewrite bind_try.
  destruct (ServiceReconcileRepository.ListRunningCandidates AdminConn w) as [r w1] eqn:E.
  destruct (observes_run _ _ _ _ _ (candidates_sound _) E) as [[[= Hdb _ _] _] Hq].
  destruct r as [l|e]; simpl; [|by rewrite Hdb]. rewrite <-Hdb. intros Hd.
  apply reconcile_candidates_serving; [done|].
  rewrite Hdb in Hd |- *. by apply (Hq l eq_refl).
Qed.
Lemma remove_stale_serving cache : moves serving (remove_stale cache).
Proof.
  unfold remove_stale. repeat first [moves_step | apply remove_orphans_serving
      | eapply observes_moves, ListOrphaned_observes | apply _].
Qed.
Lemma service_tick_serving cache w : sound w.(w_db) → serving w.(w_db) (service_tick cache w).2.(w_db).
Proof.
  intros Hd. pose proof (upsert_candidates_serving cache w Hd) as Hs. unfold service_tick, mbind, M_bind.
  destruct (upsert_candidates cache w) as [[[]|e] w1]; simpl in *; [|done].
  etrans; [exact Hs|apply remove_stale_serving].
Qed.
Lemma service_tick_sound cache : moves (keeping sound) (service_tick cache).
Proof. intros w Hd. by apply service_tick_serving. Qed.
End controllers.

(** ** The services together *)

Section platform.
Context `{UUIDText} `{TimeText} `{CursorText} `{Credentials}.

(** One request of the API, one message of the scheduler or of the builder's
    results, one tick of a controller: the clock, the draws of the database and
    the failing calls are those of any world with this database. *)
Inductive step (d : DB) : DB → Prop :=
| step_request bus addr draws c w :
    w.(w_db) = d → step d (serve_call bus addr draws c w).2.(w_db)
| step_build bus data w : w.(w_db) = d → step d (handleBuildCompleted bus data w).2.(w_db)
| step_scheduler cfg i w : w.(w_db) = d → step d (handle cfg i w).2.(w_db)
| step_deployments c w : w.(w_db) = d → step d (tick c w).2.(w_db)
| step_services cache w : w.(w_db) = d → step d (service_tick cache w).2.(w_db).

(** C2: whatever the users ask and whatever fails, in any order of the requests
    of the API, the builder's results, the scheduler's messages and sweeps and
    the ticks of both controllers, the database stays sound: its rows are of
    their types and under their keys, every row of a tenant is under a parent of
    the same organization, every organization has an owner, containers run
    deployments that exist on nodes that exist, and each service instance is of
    a service of the application its container runs. *)
Theorem platform_sound d d' : sound d → rtc step d d' → sound d'.
Proof.
  intros Hd Hs. induction Hs as [|d1 d2 d3 Hs _ IH]; [done|]. apply IH.
  destruct Hs; subst; revert Hd.
  - apply serve_call_sound.
  - apply handleBuildCompleted_sound.
  - apply handle_sound.
  - apply deployments_tick_sound.
  - apply service_tick_sound.
Qed.
End platform.

(** ** The tenants behind the balancer *)

Section tenants.
Context `{MapOrder}.

Lemma unique_instances d : cluster d → one_instance_per_container d.
Proof.
  intros Hd. unfold one_instance_per_container, rows. rewrite <-list_fmap_compose.
  apply NoDup_fmap_2_strong; [|apply NoDup_map_to_list].
  intros [i x] [j y] Hx%elem_of_map_to_list Hy%elem_of_map_to_list Hxy. simpl in *.
  assert (i = j) as <- by by eapply (k_instance_container _ Hd). congruence.
Qed.
Lemma elem_of_all_routes d rt :
  rt ∈ all_routes d ↔ ∃ i x j sv, d.(domains) !! i = Some x ∧ d.(services) !! j = Some sv
    ∧ sv.(Service_ApplicationID) = x.(Domain_ApplicationID)
    ∧ rt = mkDomainRoute x.(Domain_Hostname) sv.(Service_DNSName).
Proof.
  unfold all_routes. rewrite list_elem_of_bind. split.
  - intros (x & (sv & -> & [Ha [j Hj]]%elem_of_select)%list_elem_of_fmap & [i Hi]%elem_of_rows). eauto 10.
  - intros (i & x & j & sv & Hx & Hsv & Ha & ->). exists x. split; [|apply elem_of_rows; eauto].
    apply list_elem_of_fmap. exists sv. split; [done|]. apply elem_of_select. eauto.
Qed.

(** A registered host leads to the service of its domain's application. *)
Lemma last_route_service d i x :
  sound d → d.(domains) !! i = Some x →
  match last_route (all_routes d) x.(Domain_Hostname) with
  | Some dns => ∃ j sv, d.(services) !! j = Some sv ∧ sv.(Service_DNSName) = dns
                  ∧ sv.(Service_ApplicationID) = x.(Domain_ApplicationID)
  | None => ∀ j sv, d.(services) !! j = Some sv → sv.(Service_ApplicationID) ≠ x.(Domain_ApplicationID)
  end.
Proof.
  intros Hd Hx. unfold last_route. destruct (last _) as [rt|] eqn:E; simpl.
  - apply last_Some_elem_of, list_elem_of_filter in E as [Hh Hrt].
    apply elem_of_all_routes in Hrt as (i' & x' & j & sv & Hx' & Hsv & Ha & ->). simpl in *.
    assert (i' = i) as -> by by eapply (t_hostnames _ (s_typed _ Hd)).
    simplify_eq. eauto.
  - apply last_None in E. intros j sv Hsv Ha.
    apply (not_elem_of_nil (mkDomainRoute x.(Domain_Hostname) sv.(Service_DNSName))).
    rewrite <-E. apply list_elem_of_filter. split; [done|]. apply elem_of_all_routes. eauto 10.
Qed.

(** The healthy instances listed under a service's name are its own. *)
Definition placed (d : DB) (a : uuid) (o : uuid) (y : Instance) : Prop :=
  ∃ i si c dep, d.(service_instances) !! i = Some si ∧ si.(ServiceInstance_Healthy) = true
    ∧ y = mkInstance c.(Container_ID) si.(ServiceInstance_IP) si.(ServiceInstance_Port)
    ∧ d.(containers) !! y.(Instance_ContainerID) = Some c
    ∧ d.(deployments) !! c.(Container_DeploymentID) = Some dep
    ∧ dep.(Deployment_ApplicationID) = a ∧ dep.(Deployment_OrgID) = o.
Lemma listed_placed d r j sv a y :
  sound d → services_of d r → d.(services) !! j = Some sv →
  d.(applications) !! sv.(Service_ApplicationID) = Some a →
  y ∈ instances r sv.(Service_DNSName) →
  placed d sv.(Service_ApplicationID) a.(Application_OrgID) y.
Proof.
  intros Hd Hr Hsv Ha. rewrite Hr. intros (e & -> & [He Hin]%list_elem_of_filter)%list_elem_of_fmap.
  apply list_elem_of_omap in Hin as (si & [i Hi]%elem_of_rows & Hrow).
  unfold LoadBalancerRepository.registry_row in Hrow.
  destruct (services d !! ServiceInstance_ServiceID si) as [sv'|] eqn:Hsv'; [|done]. simpl in Hrow.
  destruct (ServiceInstance_Healthy si) eqn:Hh; simplify_eq/=.
  assert (ServiceInstance_ServiceID si = j) as <-
    by by eapply (k_dns_name _ (s_cluster _ Hd)).
  destruct (k_instances _ (s_cluster _ Hd) _ _ Hi) as (_ & sv2 & c & dep & ? & Hc & Hdep & Happ).
  destruct (k_containers _ (s_cluster _ Hd) _ _ Hc) as [Hid _]. simplify_eq.
  destruct (c_deployment _ (s_consistent _ Hd) _ _ Hdep) as (a' & Ha' & Ho).
  exists i, si, c, dep. rewrite Happ in Ha'. simplify_eq/=. split_and!; try done; by rewrite ?Hid.
Qed.

Lemma calm_resync r w :
  sound w.(w_db) → wf r → calm w →
  ∃ r' w', resync r w = (Ok r', w') ∧ wf r' ∧ services_of w.(w_db) r' ∧ routes_of w.(w_db) r'.
Proof.
  intros Hd Hwf Hcalm. unfold resync.
  destruct (resync_services_cases r w) as (r1 & w1 & E1 & Hd1 & _ & Hc1 & [[? _]|Hr1]); [done|].
  destruct (resync_routes_cases r1 w1) as (r2 & w2 & E2 & Hd2 & [[Hc _]|Hr2]); [by destruct Hc; apply Hc1|].
  exists r2, w2. unfold mbind, M_bind. rewrite E1. split; [done|]. rewrite Hr2, Hr1, Hd1.
  split; [|split].
  - apply ReplaceHostRoutes_wf, ReplaceAll_wf; [done|]. apply registry_well_listed, unique_instances, Hd.
  - intros dns. apply group_listed.
  - intros host. apply host_table_lookup.
Qed.
Lemma resolve_host d r host :
  routes_of d r → resolveDNSName (mkRequest host "") r = last_route (all_routes d) (host_name host).
Proof. intros Hr. unfold resolveDNSName. rewrite Hr. simpl. by destruct (last_route _ _). Qed.

(** A request for a service. *)
Lemma ServeHTTP_placed window backend req now d r j sv a :
  sound d → wf r → services_of d r → d.(services) !! j = Some sv →
  d.(applications) !! sv.(Service_ApplicationID) = Some a →
  resolveDNSName req r = Some sv.(Service_DNSName) →
  ∃ resp r', ServeHTTP window backend req now r = (Some resp, r')
    ∧ match resp with
      | Forwarded y _ | BadGateway y => placed d sv.(Service_ApplicationID) a.(Application_OrgID) y
      | NotFound => False
      | ServiceUnavailable => ∀ y, y ∈ instances r sv.(Service_DNSName) →
                                   ejected r now y.(Instance_ContainerID) = true
      end.
Proof.
  intros Hd Hwf Hs Hsv Ha Hres. unfold ServeHTTP. rewrite Hres.
  destruct (Next_correct r (Service_DNSName sv) now Hwf) as (o & r1 & -> & Hav & Hno & _).
  destruct o as [y|].
  - assert (placed d sv.(Service_ApplicationID) a.(Application_OrgID) y)
      by (eapply listed_placed; [done..|]; by apply Hav).
    destruct (backend y) as [status|failed];
      [by exists (Forwarded y status), r1|by eexists (BadGateway y), _].
  - exists ServiceUnavailable, r1. split; [done|].
    intros y Hy. destruct (ejected r _ _) eqn:E; [done|]. by destruct (proj1 Hno eq_refl y).
Qed.

(** C3: after a resync that no call fails, a request for a registered domain
    that names no service itself is answered by the application the domain is
    registered for, or by the balancer: it reaches only a container of that
    application's deployments, of the domain's own organization, at the address
    recorded for it; it is refused as unrouted only when the application has no
    service, and as unavailable only when each of the service's healthy
    instances is ejected. *)
Theorem hosts_reach_their_tenant window backend host i x r w :
  sound w.(w_db) → wf r → calm w →
  w.(w_db).(domains) !! i = Some x → host_name host = x.(Domain_Hostname) →
  ∃ r' w' resp r'', resync r w = (Ok r', w')
    ∧ ServeHTTP window backend (mkRequest host "") w'.(w_now) r' = (Some resp, r'')
    ∧ match resp with
      | Forwarded y _ | BadGateway y =>
          placed w.(w_db) x.(Domain_ApplicationID) x.(Domain_OrgID) y
      | NotFound => ∀ j sv, w.(w_db).(services) !! j = Some sv →
          sv.(Service_ApplicationID) ≠ x.(Domain_ApplicationID)
      | ServiceUnavailable => ∃ j sv, w.(w_db).(services) !! j = Some sv
          ∧ sv.(Service_ApplicationID) = x.(Domain_ApplicationID)
          ∧ ∀ y, y ∈ instances r' sv.(Service_DNSName) →
                 ejected r' w'.(w_now) y.(Instance_ContainerID) = true
      end.
Proof.
  intros Hd Hwf Hcalm Hx Hhost. destruct (calm_resync r w Hd Hwf Hcalm) as (r' & w' & E & Hwf' & Hs & Hr).
  exists r', w'. pose proof (resolve_host _ _ host Hr) as Hres. rewrite Hhost in Hres.
  pose proof (last_route_service _ _ _ Hd Hx) as Hroute.
  destruct (last_route _ _) as [dns|].
  2:{ exists NotFound, r'. unfold ServeHTTP. by rewrite Hres. }
  destruct Hroute as (j & sv & Hsv & <- & Happ).
  destruct (c_domain _ (s_consistent _ Hd) _ _ Hx) as [(a & Ha & Ho) _]. rewrite <-Happ in Ha.
  destruct (ServeHTTP_placed window backend (mkRequest host "") (w_now w') _ r' j sv a Hd Hwf' Hs Hsv Ha Hres)
    as (resp & r'' & Es & Hresp).
  exists resp, r''. split; [done|]. split; [done|]. rewrite <-Happ, <-Ho.
  destruct resp; [by destruct Hresp|by exists j, sv|done..].
Qed.
End tenants.

(** ** At work

    The sample application, served on its own domain. *)
#[local] Existing Instances hexUUID hexTime hexCursor plainCredentials fixed_order.

Definition shop_domain : Domain := Build_Domain 90 1 10 20 "shop.example.com" DomainTLSStatusPending 0.
Definition tenantDB : DB := set_domains {[90%N := shop_domain]} servedDB.
Definition tenantWorld : World := set_db tenantDB sampleWorld.

Ltac rows_of H :=
  repeat first [apply lookup_insert_Some in H as [[<- <-]|[_ H]] | apply lookup_singleton_Some in H as [<- <-]
               | by rewrite lookup_empty in H].
Ltac row_by_row :=
  intros i x Hx; simpl in Hx; rows_of Hx; repeat first [split | eexists | done | constructor].
Ltac pair_by_pair := intros i j x y Hx Hy; simpl in Hx, Hy; rows_of Hx; rows_of Hy; done.
Lemma tenant_sound : sound tenantDB.
Proof.
  split.
  - split; first [pair_by_pair | row_by_row].
  - split; row_by_row.
  - apply (owned_same sampleDB); [done..|]. exact sample_owned.
  - split; first [pair_by_pair | row_by_row].
Qed.

(** Ann deletes the organization, and both
    controllers look at what is left. *)
Definition ann_bearer : string := "Bearer " +:+ canonical_String 2.
Definition delete_organization : Call := mkCall DELETE ("/v1/orgs/" +:+ canonical_String 1) ann_bearer None.
Definition no_draws : Draws := mkDraws 777 None [] (λ _, LogOpened).
Definition after_delete : World := (serve_call true "" no_draws delete_organization tenantWorld).2.
Definition after_ticks : World := (tick PoolConn (service_tick ∅ after_delete).2).2.
Lemma platform_sound_witness :
  sound after_ticks.(w_db) ∧ tenantDB.(service_instances) ≠ ∅ ∧ after_ticks.(w_db).(service_instances) = ∅.
Proof.
  split; [|split; [by vm_compute|by vm_compute]].
  apply (platform_sound tenantDB after_ticks.(w_db) tenant_sound).
  eapply rtc_l; [exact (step_request tenantDB true "" no_draws delete_organization tenantWorld eq_refl)|].
  eapply rtc_l; [exact (step_services _ ∅ after_delete eq_refl)|].
  apply rtc_once. exact (step_deployments _ PoolConn (service_tick ∅ after_delete).2 eq_refl).
Defined.

Lemma hosts_reach_their_tenant_witness :
  ∃ y, placed tenantDB 20 1 y ∧ y = mkInstance 50 "10.0.0.1" 32768.
Proof.
  destruct (hosts_reach_their_tenant (10 * Second) (λ _, inl 200) "shop.example.com:443" 90 shop_domain New
    tenantWorld tenant_sound New_wf eq_refl eq_refl eq_refl) as (r' & w' & resp & r'' & E & Es & Hp).
  vm_compute in E. injection E as <- <-. vm_compute in Es. injection Es as <- _. by eexists.
Defined.
