(* ===== verification/Served.v ===== *)
(** * Served: from a running container to the tenant's domain

    When no call fails, a tick of the service instance controller lists every
    running container whose port it has heard of, and the balancer's next
    resync makes it reachable under the domains of its application. *)
From S2P Require Import Prelude Json Schema Effects Rls Outcomes DbTenancy DbWorkload DbCluster Wire Slug.
From S2P Require Import ServiceController LbRegistry LoadBalancer Concrete Handlers Isolation Typed.
From S2P Require Import Members Cluster Platform Sample.
From stdpp Require Import base gmap strings list.
From Stdlib Require Import ZArith Lia.
Open Scope Z_scope.

(** ** Draws that clash with nothing *)

Definition fresh (w : World) : Prop := ∀ g, (w.(w_gen) ≤ g)%N →
  w.(w_db).(services) !! g = None ∧ w.(w_db).(service_instances) !! g = None.
Definition freshly {A} (m : M A) : Prop := ∀ w, fresh w → fresh (m w).2.

Lemma freshly_bind {A B} (m : M A) (k : A → M B) : freshly m → (∀ a, freshly (k a)) → freshly (m ≫= k).
Proof.
  intros Hm Hk w Hw. specialize (Hm w Hw). unfold mbind, M_bind.
  destruct (m w) as [[a|e] w1]; [by apply Hk|done].
Qed.
Lemma freshly_catch {A} (m : M A) h : freshly m → (∀ e, freshly (h e)) → freshly (catch m h).
Proof.
  intros Hm Hh w Hw. specialize (Hm w Hw). unfold catch.
  destruct (m w) as [[a|e] w1]; [done|by apply Hh].
Qed.
Lemma freshly_ret {A} (a : A) : freshly (mret a).
Proof. by intros w. Qed.
Lemma freshly_fail {A} e : freshly (@fail A e).
Proof. by intros w. Qed.
Lemma freshly_wrap {A} p (m : M A) : freshly m → freshly (wrap p m).
Proof. intros. apply freshly_catch; [done|]. intros. apply freshly_fail. Qed.
Lemma freshly_try {A} (m : M A) : freshly m → freshly (try m).
Proof. intros Hm w Hw. specialize (Hm w Hw). unfold try. by destruct (m w). Qed.
Lemma freshly_emit e : freshly (emit e).
Proof. by intros w. Qed.
Lemma freshly_external : freshly external.
Proof. intros w Hw. unfold external. by destruct (w_faults w) as [|[]]. Qed.
(** A statement may use the draw it is given. *)
Lemma freshly_run_stmt {A} c (st : Stmt A) :
  (∀ s d a d' g, st s d = Ok (a, d') → s.(s_gen) ≠ g →
    d.(services) !! g = None → d.(service_instances) !! g = None →
    d'.(services) !! g = None ∧ d'.(service_instances) !! g = None) →
  freshly (run_stmt c st).
Proof.
  intros Hst. apply freshly_bind; [apply freshly_external|]. intros _ w Hw. unfold execute.
  destruct (st _ _) as [[a d]|e] eqn:E; intros g Hg; simpl in *.
  - destruct (Hw g) as [? ?]; [lia|]. eapply Hst; [exact E|simpl; lia|done..].
  - apply Hw. lia.
Qed.

Section served.
Context `{UUIDText}.

Lemma GetOrCreate_freshly c a dns : freshly (ServiceRepository.GetOrCreate c a dns).
Proof.
  apply freshly_wrap, freshly_catch; [|intros e; case_match; apply freshly_fail].
  apply freshly_run_stmt. intros s d x d' g Hst Hg Hs Hi. unfold ServiceRepository.GetOrCreate_sql in Hst.
  destruct (select _ _); stmt_inv Hst; [|done]. simpl. by rewrite lookup_insert_ne.
Qed.
Lemma Upsert_freshly c sid cid ip port : freshly (ServiceInstanceRepository.Upsert c sid cid ip port).
Proof.
  apply freshly_wrap, freshly_catch; [|intros e; case_match; apply freshly_fail].
  apply freshly_run_stmt. intros s d x d' g Hst Hg Hs Hi. unfold ServiceInstanceRepository.Upsert_sql in Hst.
  stmt_inv Hst. destruct (ServiceInstanceRepository.of_container cid d); stmt_inv Hst; simpl.
  - by rewrite lookup_insert_ne.
  - rewrite lookup_update_where, Hi. done.
Qed.
Lemma reconcileCandidate_freshly cache z : freshly (reconcileCandidate cache z).
Proof.
  unfold reconcileCandidate, publishUpdated, Publish, logf.
  repeat first [match goal with |- freshly (match ?x with _ => _ end) => destruct x end
    | apply freshly_bind; [|intros ?] | apply freshly_try | apply GetOrCreate_freshly
    | apply Upsert_freshly | apply freshly_wrap | apply freshly_emit | apply freshly_external
    | apply freshly_ret ].
Qed.

(** ** What is listed stays listed *)

#[local] Instance candidate_eq_dec : EqDecision ServiceInstanceCandidate.
Proof. solve_decision. Defined.
Definition name_of (z : ServiceInstanceCandidate) : string :=
  dnsName z.(ServiceInstanceCandidate_ProjectSlug) z.(ServiceInstanceCandidate_ApplicationName)
          z.(ServiceInstanceCandidate_ApplicationID).
(** A healthy instance of the application's service at the node's address. *)
Definition listed_at (z : ServiceInstanceCandidate) (port : Z) (d : DB) : Prop :=
  ∃ i si sv, d.(service_instances) !! i = Some si
    ∧ si.(ServiceInstance_ContainerID) = z.(ServiceInstanceCandidate_ContainerID)
    ∧ si.(ServiceInstance_IP) = z.(ServiceInstanceCandidate_NodeIP)
    ∧ si.(ServiceInstance_Port) = port ∧ si.(ServiceInstance_Healthy) = true
    ∧ d.(services) !! si.(ServiceInstance_ServiceID) = Some sv
    ∧ sv.(Service_ApplicationID) = z.(ServiceInstanceCandidate_ApplicationID).
Definition keeps_listed (z : ServiceInstanceCandidate) (port : Z) (t : table Container) (d d' : DB) : Prop :=
  d.(containers) = t → d'.(containers) = t ∧ (listed_at z port d → listed_at z port d').
#[local] Instance keeps_listed_preorder z port t : PreOrder (keeps_listed z port t).
Proof.
  split; [by intros d|]. intros d1 d2 d3 H12 H23 Ht. destruct (H12 Ht) as [H2 ?], (H23 H2). auto.
Qed.

Section listed.
Context (z : ServiceInstanceCandidate) (port : Z) (t : table Container).
Implicit Types (sid cid : uuid).

Lemma GetOrCreate_listed c a dns : moves (keeps_listed z port t) (ServiceRepository.GetOrCreate c a dns).
Proof.
  apply moves_wrap, moves_scan, moves_run_stmt; try apply _. intros s d x d' Hst Ht.
  unfold ServiceRepository.GetOrCreate_sql in Hst. destruct (select _ _); stmt_inv Hst; [|done].
  split; [done|]. intros (i & si & sv & ? & ? & ? & ? & ? & Hsv & ?). exists i, si, sv. simpl.
  destruct_and?. rewrite lookup_insert_ne by congruence. done.
Qed.
Lemma Upsert_listed c sid cid ip p :
  cid ≠ z.(ServiceInstanceCandidate_ContainerID) →
  moves (keeps_listed z port t) (ServiceInstanceRepository.Upsert c sid cid ip p).
Proof.
  intros Hne. apply moves_wrap, moves_scan, moves_run_stmt; try apply _. intros s d x d' Hst Ht.
  unfold ServiceInstanceRepository.Upsert_sql in Hst. stmt_inv Hst.
  destruct (ServiceInstanceRepository.of_container cid d); stmt_inv Hst; (split; [done|]);
    intros (i & si & sv & Hi & Hc & ?); exists i, si, sv; simpl.
  - destruct_and?. rewrite lookup_insert_ne by congruence. done.
  - rewrite lookup_update_where, Hi. simpl. rewrite decide_False by congruence. done.
Qed.
Lemma reconcileCandidate_listed cache y :
  y.(ServiceInstanceCandidate_ContainerID) ≠ z.(ServiceInstanceCandidate_ContainerID) →
  moves (keeps_listed z port t) (reconcileCandidate cache y).
Proof.
  intros Hne. unfold reconcileCandidate.
  repeat first [moves_step | apply GetOrCreate_listed | by apply Upsert_listed
               | apply publishUpdated_moves; apply _ | apply _].
Qed.
Lemma DeleteByContainer_listed c cid :
  cid ≠ z.(ServiceInstanceCandidate_ContainerID) →
  moves (keeps_listed z port t) (ServiceInstanceRepository.DeleteByContainer c cid).
Proof.
  intros Hne. apply moves_exec_affected, moves_run_stmt; try apply _. intros s d x d' Hst Ht.
  unfold ServiceInstanceRepository.DeleteByContainer_sql in Hst. stmt_inv Hst.
  split; [done|]. intros (i & si & sv & Hi & Hc & ?). exists i, si, sv. simpl.
  rewrite lookup_delete_where. split; [split; [done|congruence]|done].
Qed.
Lemma remove_orphans_listed ids cache :
  z.(ServiceInstanceCandidate_ContainerID) ∉ ids →
  moves (keeps_listed z port t) (remove_orphans cache ids).
Proof.
  revert cache. induction ids as [|cid ids IH]; intros cache Hids; simpl; [apply moves_ret, _|].
  apply not_elem_of_cons in Hids as [Hcid Hids].
  apply moves_bind; [apply _| |by intros; apply IH]. unfold remove_orphan.
  repeat first [moves_step | by apply DeleteByContainer_listed
               | apply publishUpdated_moves; apply _ | apply _].
Qed.
(** An orphan's container does not run. *)
Lemma remove_stale_listed cache :
  running_in t z.(ServiceInstanceCandidate_ContainerID) →
  moves (keeps_listed z port t) (remove_stale cache).
Proof.
  intros Hrun w. unfold remove_stale. rewrite bind_try.
  destruct (ServiceReconcileRepository.ListOrphanedInstances AdminConn w) as [ro w1] eqn:E.
  destruct (observes_run _ _ _ _ _ (ListOrphaned_observes _) E) as [[[= Hd _ _] _] Hq].
  destruct ro as [l|e]; simpl; [|by rewrite Hd].
  rewrite <-Hd. intros Ht. apply (remove_orphans_listed l cache); [|done].
  rewrite (Hq l eq_refl). simpl. rewrite list_elem_of_omap.
  intros (si & _ & [_ Hn]%orphaned_not_running). by rewrite <-Hd, Ht in Hn.
Qed.
End listed.

(** ** A candidate's turn *)

(** No two applications share a name, neither among the candidates nor with a
    service that is there. *)
Record unclashed (L : list ServiceInstanceCandidate) (d : DB) : Prop := {
  u_services : ∀ j sv y, d.(services) !! j = Some sv → y ∈ L →
    sv.(Service_DNSName) = name_of y →
    sv.(Service_ApplicationID) = y.(ServiceInstanceCandidate_ApplicationID);
  u_candidates : ∀ x y, x ∈ L → y ∈ L → name_of x = name_of y →
    x.(ServiceInstanceCandidate_ApplicationID) = y.(ServiceInstanceCandidate_ApplicationID) }.
Lemma GetOrCreate_unclashed L c y :
  y ∈ L → moves (keeping (unclashed L))
    (ServiceRepository.GetOrCreate c y.(ServiceInstanceCandidate_ApplicationID) (name_of y)).
Proof.
  intros Hy. apply moves_wrap, moves_scan, moves_run_stmt; try apply _. intros s d x d' Hst.
  unfold ServiceRepository.GetOrCreate_sql in Hst. destruct (select _ _); stmt_inv Hst; [|done].
  intros []. split; [|done]. simpl. intros j sv z [[_ <-]|[_ Hj]]%lookup_insert_Some Hz; simpl; [|by eapply u_services0].
  auto.
Qed.
Lemma Upsert_unclashed L c sid cid ip port :
  moves (keeping (unclashed L)) (ServiceInstanceRepository.Upsert c sid cid ip port).
Proof.
  apply moves_wrap, moves_scan, moves_run_stmt; try apply _. intros s d x d' Hst.
  unfold ServiceInstanceRepository.Upsert_sql in Hst. stmt_inv Hst.
  destruct (ServiceInstanceRepository.of_container cid d); stmt_inv Hst; intros []; by split.
Qed.
Lemma reconcileCandidate_unclashed L cache y :
  y ∈ L → moves (keeping (unclashed L)) (reconcileCandidate cache y).
Proof.
  intros Hy. unfold reconcileCandidate. fold (name_of y).
  repeat first [moves_step | by apply GetOrCreate_unclashed | apply Upsert_unclashed
               | apply publishUpdated_moves; apply _ | apply _].
Qed.

Lemma GetOrCreate_calm c a dns w :
  calm w → fresh w → is_Some (w.(w_db).(applications) !! a) →
  (∀ j sv, w.(w_db).(services) !! j = Some sv → sv.(Service_DNSName) = dns →
     sv.(Service_ApplicationID) = a) →
  ∃ sv w', ServiceRepository.GetOrCreate c a dns w = (Ok sv, w') ∧ calm w'.
Proof.
  intros Hc Hf Ha Hdns. unfold ServiceRepository.GetOrCreate, wrap, scan, catch.
  rewrite run_stmt_calm by done. unfold execute, ServiceRepository.GetOrCreate_sql.
  destruct (select _ _) as [|x l] eqn:E; [|by do 2 eexists].
  rewrite !require_true; [by do 2 eexists|done|]. split; [by apply Hf|].
  apply Forall_forall. intros sv [j Hj]%elem_of_rows Hsv. apply (not_elem_of_nil sv). rewrite <-E.
  apply elem_of_select. eauto.
Qed.
Lemma Upsert_calm c sid cid ip port w :
  calm w → fresh w → int4_ok port = true → is_Some (w.(w_db).(services) !! sid) →
  is_Some (w.(w_db).(containers) !! cid) →
  ∃ x w', ServiceInstanceRepository.Upsert c sid cid ip port w = (Ok x, w')
    ∧ w'.(w_db).(services) = w.(w_db).(services)
    ∧ ∃ i, w'.(w_db).(service_instances) !! i = Some x
    ∧ x.(ServiceInstance_ServiceID) = sid ∧ x.(ServiceInstance_ContainerID) = cid
    ∧ x.(ServiceInstance_IP) = ip ∧ x.(ServiceInstance_Port) = port ∧ x.(ServiceInstance_Healthy) = true.
Proof.
  intros Hc Hf Hport Hs Hcid. unfold ServiceInstanceRepository.Upsert, wrap, scan, catch.
  rewrite run_stmt_calm by done. unfold execute, ServiceInstanceRepository.Upsert_sql, encode_int4.
  rewrite Hport. cbv beta iota.
  destruct (ServiceInstanceRepository.of_container cid (w_db w)) as [|y l] eqn:E; simpl.
  - rewrite !require_true; [|done|by apply Hf]. do 2 eexists. split; [done|]. split; [done|].
    eexists. simpl. by rewrite lookup_insert_eq.
  - assert (y ∈ ServiceInstanceRepository.of_container cid (w_db w)) as [Hy [i Hi]]%elem_of_select
      by (rewrite E; left).
    rewrite require_true by done. do 2 eexists. split; [done|]. split; [done|].
    exists i. simpl. rewrite lookup_update_where, Hi. simpl. by rewrite decide_True.
Qed.

Lemma reconcileCandidate_lists L cache z port w :
  z ∈ L → sound w.(w_db) → candidate w.(w_db) z → calm w → fresh w → unclashed L w.(w_db) →
  portFor z.(ServiceInstanceCandidate_ContainerID) cache = Some port → int4_ok port = true →
  listed_at z port (reconcileCandidate cache z w).2.(w_db).
Proof.
  intros Hz Hd (c & dep & Hc & Hdep & Ha) Hcalm Hf Hu Hport Hint. unfold reconcileCandidate. rewrite Hport.
  rewrite bind_try. fold (name_of z).
  destruct (GetOrCreate_calm AdminConn z.(ServiceInstanceCandidate_ApplicationID) (name_of z) w)
    as (sv & w1 & E & Hcalm1); [done|done| |intros j y Hj Hy; by eapply (u_services _ _ Hu)|].
  { destruct (c_deployment _ (s_consistent _ Hd) _ _ Hdep) as (a & Happ & _). rewrite Ha in Happ. by eexists. }
  pose proof (GetOrCreate_serving AdminConn z.(ServiceInstanceCandidate_ApplicationID) (name_of z) w) as [Es _].
  pose proof (GetOrCreate_freshly AdminConn z.(ServiceInstanceCandidate_ApplicationID) (name_of z) w Hf) as Hf1.
  destruct (gives_GetOrCreate _ _ _ w sv w1 E) as [[Hsv Hsa] _]; [apply Hd|].
  rewrite E in Es, Hf1 |- *. simpl in *. rewrite bind_try.
  destruct (Upsert_calm AdminConn sv.(Service_ID) z.(ServiceInstanceCandidate_ContainerID)
    z.(ServiceInstanceCandidate_NodeIP) port w1) as (x & w2 & E2 & Hs2 & i & Hi & Hx); [done..| |].
  { rewrite Es. simpl. by eexists. }
  rewrite E2. simpl.
  assert (moves eq (publishUpdated z.(ServiceInstanceCandidate_ContainerID))) as Hp
    by (apply publishUpdated_moves, _).
  rewrite <-(Hp w2). destruct Hx as (Hxs & ? & ? & ? & ?). exists i, x, sv. rewrite Hs2, Hxs. by split_and!.
Qed.

(** ** A tick *)

Lemma reconcileCandidate_total cache y w : ∃ w', reconcileCandidate cache y w = (Ok tt, w').
Proof.
  assert (errorless (reconcileCandidate cache y)) as He
    by (unfold reconcileCandidate, publishUpdated; errorless_auto).
  destruct (He w) as ([] & w' & E). by exists w'.
Qed.

(** What [ListRunningCandidates] reads over the superuser connection. *)
Definition superuser : StmtEnv := mkStmtEnv noSession true 0 0.
Definition running_candidates (d : DB) : list ServiceInstanceCandidate :=
  a ← rows d.(applications); ServiceReconcileRepository.candidates_of superuser d a.
Lemma bypass_all {A} (s : StmtEnv) d (org : A → uuid) (l : list A) :
  s.(s_bypass) = true → filter (λ x, org_visible s d (org x)) l = l.
Proof. intros Hs. apply filter_all, Forall_true. intros. by left. Qed.
Lemma candidates_of_superuser s d a :
  s.(s_bypass) = true →
  ServiceReconcileRepository.candidates_of s d a = ServiceReconcileRepository.candidates_of superuser d a.
Proof.
  intros Hs. unfold ServiceReconcileRepository.candidates_of, live_deployment.
  rewrite !bypass_all by done. destruct (projects d !! _); [|done].
  destruct (latest_of _); simpl; [|done]. case_decide; [done|]. by rewrite !decide_True by by left.
Qed.
Lemma ListRunningCandidates_reads :
  reads (ServiceReconcileRepository.ListRunningCandidates AdminConn) (λ e l, l = running_candidates e.(e_db)).
Proof.
  apply reads_wrap. eapply reads_mono; [apply reads_query|]. intros e l [g ->].
  unfold running_candidates, select. rewrite bypass_all by done.
  apply list_bind_ext; [|done]. intros a. by apply candidates_of_superuser.
Qed.
Lemma ListRunningCandidates_freshly : freshly (ServiceReconcileRepository.ListRunningCandidates AdminConn).
Proof. apply freshly_wrap, freshly_run_stmt. by intros s d a d' g ->%query_id. Qed.
Lemma running_candidate d z :
  sound d → z ∈ running_candidates d →
  candidate d z ∧ running_in d.(containers) z.(ServiceInstanceCandidate_ContainerID).
Proof. intros Hd [a [Hz _]]%list_elem_of_bind. by eapply candidates_of_spec. Qed.
(** A container is a candidate once. *)
Lemma candidates_determined d x y :
  sound d → x ∈ running_candidates d → y ∈ running_candidates d →
  x.(ServiceInstanceCandidate_ContainerID) = y.(ServiceInstanceCandidate_ContainerID) → x = y.
Proof.
  intros Hd [a [Hx [i Ha]%elem_of_rows]]%list_elem_of_bind [b [Hy [j Hb]%elem_of_rows]]%list_elem_of_bind Hxy.
  assert (a = b) as <-.
  { destruct (candidates_of_spec _ _ _ _ Hd Hx) as (Hxa & (c & dep & Hc & Hdep & Hda) & _).
    destruct (candidates_of_spec _ _ _ _ Hd Hy) as (Hyb & (c' & dep' & Hc' & Hdep' & Hdb) & _).
    rewrite Hxy in Hc. simplify_eq.
    pose proof (c_application_key _ (s_consistent _ Hd) _ _ Ha).
    pose proof (c_application_key _ (s_consistent _ Hd) _ _ Hb). congruence. }
  unfold ServiceReconcileRepository.candidates_of in Hx, Hy.
  destruct (projects d !! _) as [p|]; [|by apply not_elem_of_nil in Hx].
  destruct (live_deployment _ _ a) as [dep|]; [|by apply not_elem_of_nil in Hx].
  rewrite decide_True in Hx, Hy by by left.
  apply list_elem_of_omap in Hx as (c & [_ [k Hk]]%elem_of_select & Hn).
  apply list_elem_of_omap in Hy as (c' & [_ [k' Hk']]%elem_of_select & Hn').
  destruct (k_containers _ (s_cluster _ Hd) _ _ Hk) as [Hkc _].
  destruct (k_containers _ (s_cluster _ Hd) _ _ Hk') as [Hkc' _].
  destruct (nodes d !! Container_NodeID c) eqn:En, (nodes d !! Container_NodeID c') eqn:En'; simplify_eq/=.
  congruence.
Qed.

Section tick.
Context (cache : gmap string Z) (L : list ServiceInstanceCandidate) (z : ServiceInstanceCandidate) (port : Z).
Hypothesis Hport : portFor z.(ServiceInstanceCandidate_ContainerID) cache = Some port.
Hypothesis Hint : int4_ok port = true.
Hypothesis HL : ∀ x y, x ∈ L → y ∈ L →
  x.(ServiceInstanceCandidate_ContainerID) = y.(ServiceInstanceCandidate_ContainerID) → x = y.
Hypothesis Hz : z ∈ L.

(** Once it had its turn, it is listed. *)
Lemma reconcile_candidates_list l w :
  l ⊆ L → sound w.(w_db) → Forall (candidate w.(w_db)) l → calm w → fresh w → unclashed L w.(w_db) →
  z ∈ l ∨ listed_at z port w.(w_db) →
  listed_at z port (forM (reconcileCandidate cache) l w).2.(w_db).
Proof.
  revert w. induction l as [|y l IH]; intros w Hsub Hd Hcan Hc Hf Hu Hor; simpl.
  { destruct Hor as [[]%not_elem_of_nil|]; done. }
  apply Forall_cons in Hcan as [Hy Hcan]. assert (y ∈ L) as HyL by (apply Hsub; left).
  pose proof (reconcileCandidate_serving cache y w Hd Hy) as Hs.
  pose proof (reconcileCandidate_unclashed L cache y HyL w Hu) as Hu1.
  pose proof (reconcileCandidate_calmly cache y w Hc) as Hc1.
  pose proof (reconcileCandidate_freshly cache y w Hf) as Hf1.
  assert (z = y → listed_at z port (reconcileCandidate cache y w).2.(w_db)) as Hturn
    by (intros <-; by eapply reconcileCandidate_lists).
  assert (z ≠ y → listed_at z port w.(w_db) → listed_at z port (reconcileCandidate cache y w).2.(w_db)) as Hkept.
  { intros Hne. assert (moves (keeps_listed z port (w_db w).(containers)) (reconcileCandidate cache y)) as Hk
      by (apply reconcileCandidate_listed; intros He; by apply Hne, HL).
    by apply (Hk w). }
  destruct (reconcileCandidate_total cache y w) as (w1 & E). unfold mbind, M_bind. rewrite E in *. simpl in *.
  apply IH; try done.
  - intros x Hx. apply Hsub. by right.
  - by apply Hs.
  - eapply Forall_impl; [exact Hcan|]. intros x. by apply candidate_serving.
  - destruct (decide (z = y)) as [He|Hne]; [right; by apply Hturn|].
    destruct Hor as [[?|?]%elem_of_cons|?]; [done|by left|right; by apply Hkept].
Qed.
End tick.

Lemma service_tick_lists cache z port w :
  sound w.(w_db) → calm w → fresh w →
  unclashed (running_candidates w.(w_db)) w.(w_db) → z ∈ running_candidates w.(w_db) →
  portFor z.(ServiceInstanceCandidate_ContainerID) cache = Some port → int4_ok port = true →
  listed_at z port (service_tick cache w).2.(w_db).
Proof.
  intros Hd Hc Hf Hu Hz Hport Hint. set (L := running_candidates w.(w_db)) in *.
  assert (listed_at z port (upsert_candidates cache w).2.(w_db)) as Hl.
  { unfold upsert_candidates. rewrite bind_try. destruct ListRunningCandidates_reads as [Ho Hr].
    pose proof (ListRunningCandidates_freshly w Hf) as Hf1.
    destruct (Hr w Hc) as (l & w1 & E & Hc1).
    destruct (observes_run _ _ _ _ _ Ho E) as [[[= Hdb _ _] _] Hq]. rewrite E in *. simpl in *.
    assert (l = L) as -> by exact (Hq l eq_refl).
    apply (reconcile_candidates_list cache L); rewrite ?Hdb; try done.
    - intros x y Hx Hy. by eapply candidates_determined.
    - apply Forall_forall. intros x Hx. by apply running_candidate.
    - by left. }
  pose proof (upsert_candidates_serving cache w Hd) as [Es _].
  destruct (upsert_candidates_total cache w) as ([] & w1 & E). unfold service_tick, mbind, M_bind.
  rewrite E in Hl, Es |- *. simpl in *.
  destruct (running_candidate _ _ Hd Hz) as [_ Hrun].
  eapply (remove_stale_listed z port w1.(w_db).(containers) cache); [|done|done]. by rewrite Es.
Qed.
Lemma listed_instance z port d r :
  services_of d r → listed_at z port d → ∃ j sv,
    d.(services) !! j = Some sv ∧ sv.(Service_ApplicationID) = z.(ServiceInstanceCandidate_ApplicationID)
    ∧ mkInstance z.(ServiceInstanceCandidate_ContainerID) z.(ServiceInstanceCandidate_NodeIP) port
      ∈ instances r sv.(Service_DNSName).
Proof.
  intros Hr (i & si & sv & Hi & <- & <- & <- & Hh & Hsv & Ha). exists si.(ServiceInstance_ServiceID), sv.
  split; [done|]. split; [done|]. rewrite Hr. apply list_elem_of_fmap.
  eexists (mkServiceRegistryEntry _ _ _ _). split; [reflexivity|]. apply list_elem_of_filter. split; [reflexivity|].
  apply list_elem_of_omap. exists si. split; [apply elem_of_rows; eauto|].
  unfold LoadBalancerRepository.registry_row. rewrite Hsv. simpl. by rewrite Hh.
Qed.

Context `{MapOrder}.
(** C9: a running container is reached.  When no call fails, a tick of the
    service instance controller lists every running container of a live
    deployment whose host port it has heard of; after the balancer's next
    resync, whatever its registry was, each domain of the container's
    application leads to a service that lists the container at its node's
    address; and a request for the domain is forwarded to a container of that
    application unless every one of the service's instances is ejected.  The
    service's name must not be another application's. *)
Theorem running_container_reached cache z port i x host window backend r w w2 :
  sound w.(w_db) → calm w → fresh w →
  unclashed (running_candidates w.(w_db)) w.(w_db) → z ∈ running_candidates w.(w_db) →
  portFor z.(ServiceInstanceCandidate_ContainerID) cache = Some port → int4_ok port = true →
  w.(w_db).(domains) !! i = Some x →
  x.(Domain_ApplicationID) = z.(ServiceInstanceCandidate_ApplicationID) →
  host_name host = x.(Domain_Hostname) →
  wf r → calm w2 → w2.(w_db) = (service_tick cache w).2.(w_db) →
  ∃ r' w3 dns resp r'', resync r w2 = (Ok r', w3)
    ∧ resolveDNSName (mkRequest host "") r' = Some dns
    ∧ mkInstance z.(ServiceInstanceCandidate_ContainerID) z.(ServiceInstanceCandidate_NodeIP) port
      ∈ instances r' dns
    ∧ ServeHTTP window backend (mkRequest host "") w3.(w_now) r' = (Some resp, r'')
    ∧ match resp with
      | Forwarded y _ | BadGateway y => placed w2.(w_db) x.(Domain_ApplicationID) x.(Domain_OrgID) y
      | NotFound => False
      | ServiceUnavailable => ∀ y, y ∈ instances r' dns →
                                   ejected r' w3.(w_now) y.(Instance_ContainerID) = true
      end.
Proof.
  intros Hd Hc Hf Hu Hz Hport Hint Hx Happ Hhost Hwf Hc2 Hdb.
  pose proof (service_tick_lists cache z port w Hd Hc Hf Hu Hz Hport Hint) as Hl.
  pose proof (service_tick_serving cache w Hd) as [Es Hd2]. rewrite <-Hdb in Hl, Es, Hd2. specialize (Hd2 Hd).
  assert (w2.(w_db).(domains) !! i = Some x) as Hx2 by (by rewrite Es).
  destruct (calm_resync r w2 Hd2 Hwf Hc2) as (r' & w3 & E & Hwf' & Hs & Hr).
  destruct (listed_instance z port _ r' Hs Hl) as (j & sv & Hsv & Hsa & Hin).
  pose proof (resolve_host _ _ host Hr) as Hres. rewrite Hhost in Hres.
  pose proof (last_route_service _ _ _ Hd2 Hx2) as Hroute.
  destruct (last_route _ _) as [dns|]; [|destruct (Hroute j sv Hsv); congruence].
  destruct Hroute as (j' & sv' & Hsv' & <- & Hsa').
  assert (j' = j) as -> by (eapply (k_service_application _ (s_cluster _ Hd2)); [done|done|congruence]).
  assert (sv' = sv) as -> by congruence.
  destruct (c_domain _ (s_consistent _ Hd2) _ _ Hx2) as [(a & Ha & Ho) _]. rewrite <-Hsa' in Ha.
  destruct (ServeHTTP_placed window backend (mkRequest host "") (w_now w3) _ r' j sv a Hd2 Hwf' Hs Hsv Ha Hres)
    as (resp & r'' & Eh & Hresp).
  exists r', w3, sv.(Service_DNSName), resp, r''. rewrite <-Hsa', <-Ho. done.
Qed.
End served.

(** ** On the sample

    The shop's container has just reported its port; nothing is listed yet. *)
#[local] Existing Instances hexUUID fixed_order.
Definition domainDB : DB := set_domains {[90%N := shop_domain]} sampleDB.
Definition domainWorld : World := set_db domainDB sampleWorld.
Definition shop_candidate : ServiceInstanceCandidate :=
  {| ServiceInstanceCandidate_ApplicationID := 20; ServiceInstanceCandidate_ProjectSlug := "web";
     ServiceInstanceCandidate_ApplicationName := "Shop"; ServiceInstanceCandidate_ContainerID := 50;
     ServiceInstanceCandidate_NodeIP := "10.0.0.1" |}.
Definition shop_cache : gmap string Z := {[uuid_String 50 := 32768]}.
Lemma domain_sound : sound domainDB.
Proof.
  split.
  - split; first [pair_by_pair | row_by_row].
  - split; row_by_row.
  - apply (owned_same sampleDB); [done..|]. exact sample_owned.
  - split; first [pair_by_pair | row_by_row].
Qed.
Lemma shop_candidates : running_candidates domainDB = [shop_candidate].
Proof. vm_compute. reflexivity. Qed.

Lemma running_container_reached_witness :
  ∃ r' w3 dns, resync New (service_tick shop_cache domainWorld).2 = (Ok r', w3)
    ∧ resolveDNSName (mkRequest "shop.example.com" "") r' = Some dns
    ∧ instances r' dns = [mkInstance 50 "10.0.0.1" 32768].
Proof.
  destruct (running_container_reached shop_cache shop_candidate 32768 90 shop_domain "shop.example.com"
    (10 * Second) (λ _, inl 200) New domainWorld (service_tick shop_cache domainWorld).2)
    as (r' & w3 & dns & resp & r'' & E & Hres & Hin & _).
  - exact domain_sound.
  - reflexivity.
  - intros g _. split; reflexivity.
  - simpl. rewrite shop_candidates. split.
    + intros j sv y Hj. discriminate Hj.
    + intros x y ->%list_elem_of_singleton ->%list_elem_of_singleton _. reflexivity.
  - simpl. rewrite shop_candidates. left.
  - reflexivity.
  - reflexivity.
  - reflexivity.
  - reflexivity.
  - reflexivity.
  - exact New_wf.
  - vm_compute. reflexivity.
  - reflexivity.
  - exists r', w3, dns. split; [exact E|]. split; [exact Hres|].
    vm_compute in E. injection E as <- _. vm_compute in Hres. injection Hres as <-. vm_compute. reflexivity.
Defined.
