(* ===== verification/Races.v ===== *)
(** * Races: two transactions at once

    [Pool.WithTx] begins transactions at the database's default level, READ
    COMMITTED, and no statement takes a lock: what a transaction has read may be
    overwritten before it writes.  Here the guard of handlers_members.go is run
    under two owners who leave their organization, one after the other and at
    the same time. *)
From S2P Require Import Prelude Json Schema Effects Rls Outcomes DbTenancy DbCluster Wire Auth.
From S2P Require Import ApiCore ApiOrgs Isolation Members Sample.
From stdpp Require Import base gmap strings list.
From Stdlib Require Import ZArith Lia.
Open Scope Z_scope.

(** ** A transaction in two halves *)

(** What runs on the connection of an open transaction of this user and
    organization. *)
Definition in_session {A} (u o : uuid) (m : M A) : M A := λ w,
  let '(r, w') := m (set_sess (mkSession (Some u) (Some o)) w) in (r, set_sess w.(w_sess) w').

(** The reads of [removeMember], up to its guard, and its writes. *)
Definition removeMember_look (id : Identity) (orgID targetUserID : uuid) : M MembershipRole :=
  mapped noOrganization "" (requirePermission TxConn id orgID PermMembersRemove) ;;
  targetRole ← mapped noMember "" (MembershipRepository.RoleForUser TxConn targetUserID orgID);
  guard_last_owner orgID (targetRole = MembershipRoleOwner)
    "cannot remove the organization's only remaining owner" ;;
  mret targetRole.
Definition removeMember_write (id : Identity) (orgID targetUserID : uuid) (targetRole : MembershipRole)
    : M unit :=
  mapped noMember "" (MembershipRepository.Delete TxConn orgID targetUserID) ;;
  recordAudit TxConn orgID id.(UserID) "member.remove" "membership" targetUserID
    [("role", JString (to_text targetRole))].

(** Two owners leave: both have looked before either has written. *)
Definition both_leave (o a b : uuid) : M unit :=
  ra ← in_session a o (removeMember_look (mkIdentity a None) o a);
  rb ← in_session b o (removeMember_look (mkIdentity b None) o b);
  in_session a o (removeMember_write (mkIdentity a None) o a ra) ;;
  in_session b o (removeMember_write (mkIdentity b None) o b rb).

Lemma removeMember_halves id o t w :
  removeMember id o t w = (removeMember_look id o t ≫= removeMember_write id o t) w.
Proof.
  unfold removeMember, removeMember_look, removeMember_write, mbind, M_bind.
  by repeat (case_match; simplify_eq/=).
Qed.

(** A transaction no call of which fails is its body in its session. *)
Lemma WithTx_calm {A} u o (m : M A) w :
  calm w → calmly m → u ≠ Nil → o ≠ Nil →
  WithTx u o m w = match in_session u o m w with
                   | (Ok a, w') => (Ok a, w') | (Err e, w') => (Err e, set_db w.(w_db) w') end.
Proof.
  intros Hc Hm Hu Ho. unfold WithTx, in_tx, in_session, mbind, M_bind, wrap, catch.
  rewrite external_calm by done. rewrite !decide_False by done.
  unfold SetCurrentUser, SetCurrentOrg, wrap, catch, mbind, M_bind, set_session.
  rewrite !external_calm by done. simpl.
  specialize (Hm (set_sess (mkSession (Some u) (Some o)) w) Hc). unfold set_sess in *. simpl in *.
  destruct (m _) as [[a|e] w'] eqn:E; simpl in *; [by rewrite external_calm|done].
Qed.

(** ** What the halves do *)

Section halves.
Context (o : uuid).
Implicit Types (w : World) (d : DB) (u v : uuid).

(** [u]'s transaction for [o], every call of which will succeed. *)
Record at_work (u : uuid) (w : World) : Prop := {
  aw_calm : calm w;
  aw_session : w.(w_sess) = mkSession (Some u) (Some o);
  aw_unique : members_unique w.(w_db);
  aw_organization : is_Some (w.(w_db).(organizations) !! o);
  aw_user : is_Some (w.(w_db).(users) !! u) }.
Lemma at_work_same u w w' : same w w' → calm w' → at_work u w → at_work u w'.
Proof. intros [[= Hd Hs Hn] _] Hc []. split; rewrite ?Hd, ?Hs; done. Qed.

Lemma RoleForUser_yields u v r w :
  at_work u w → member_role w.(w_db) v o r → u = v ∨ is_org_admin (stmt_env TxConn w) w.(w_db) o →
  yields (MembershipRepository.RoleForUser TxConn v o) w r.
Proof.
  intros Hw (i & m & Hi & Ho & Hv & Hr) Hvis.
  assert (membership_visible (stmt_env TxConn w) w.(w_db) m) as Hm.
  { right. simpl. rewrite (aw_session _ _ Hw), Ho, Hv. destruct Hvis as [->|]; [by left|by right]. }
  apply yields_catch.
  destruct (select (λ x, (Membership_UserID x = v ∧ Membership_OrgID x = o)
    ∧ membership_visible (stmt_env TxConn w) w.(w_db) x) w.(w_db).(memberships)) as [|x l] eqn:E.
  - exfalso. apply (not_elem_of_nil m). rewrite <-E. apply elem_of_select. eauto.
  - eapply (yields_query_row _ _ _ _ (Membership_Role <$> l)); [apply Hw|]. rewrite E. simpl. f_equal.
    assert (x ∈ x :: l) as Hx by left. rewrite <-E in Hx.
    apply elem_of_select in Hx as [[[Hxu Hxo] _] [j Hj]].
    assert (j = i) as -> by (eapply (aw_unique _ _ Hw); [done|done|congruence..]). congruence.
Qed.
Lemma owner_is_admin u w :
  at_work u w → member_role w.(w_db) u o MembershipRoleOwner → is_org_admin (stmt_env TxConn w) w.(w_db) o.
Proof.
  intros Hw (i & m & Hi & Ho & Hu & Hr). apply Exists_exists. exists m.
  split; [apply elem_of_rows; eauto|]. simpl. rewrite (aw_session _ _ Hw), Hu. auto.
Qed.
Definition owner_row d u (i : uuid) (m : Membership) : Prop :=
  d.(memberships) !! i = Some m ∧ m.(Membership_OrgID) = o ∧ m.(Membership_UserID) = u
  ∧ m.(Membership_Role) = MembershipRoleOwner.
Lemma CountOwners_yields u w :
  at_work u w → member_role w.(w_db) u o MembershipRoleOwner →
  ∃ n, yields (MembershipRepository.CountOwners TxConn o) w n
    ∧ (1 < n ↔ ∃ v, v ≠ u ∧ member_role w.(w_db) v o MembershipRoleOwner).
Proof.
  intros Hw Hu. pose proof (owner_is_admin _ _ Hw Hu) as Hadm. destruct Hu as (i & m & Hi & Ho & Hmu & Hr).
  eexists. split; [apply yields_wrap, yields_query; [apply Hw|reflexivity]|]. split.
  - intros Hn. eapply count_other in Hn as (j & y & Hji & Hj & [Hyo Hyr] & _); [|exact Hi|].
    + exists y.(Membership_UserID). split; [|by exists j, y]. intros Hyu. apply Hji.
      eapply (aw_unique _ _ Hw); [done|done|congruence..].
    + split; [done|]. right. right. by rewrite Ho.
  - intros (v & Hvu & j & y & Hj & Hyo & Hyv & Hyr).
    rewrite (count_delete _ _ i m Hi). rewrite decide_True.
    + assert (j ≠ i) by congruence.
      rewrite (count_delete _ (delete i _) j y) by (by rewrite lookup_delete_ne). rewrite decide_True.
      * match goal with |- 1 < count ?P ?t + 1 + 1 => pose proof (count_nonneg P t); lia end.
      * split; [done|]. right. right. by rewrite Hyo.
    + split; [done|]. right. right. by rewrite Ho.
Qed.

(** From [w] the computation ends with [r], having only looked. *)
Definition concludes {A} (m : M A) w (r : Res A) : Prop :=
  ∃ w', m w = (r, w') ∧ same w w' ∧ calm w' ∧ (w.(w_gen) ≤ w'.(w_gen))%N.
Lemma concludes_bind {A B} (m : M A) (k : A → M B) w a r :
  yields m w a → (∀ w', same w w' → calm w' → concludes (k a) w' r) → concludes (m ≫= k) w r.
Proof.
  intros (w1 & Hm & Hs & Hc & ?) Hk. destruct (Hk w1 Hs Hc) as (w2 & Hk2 & ? & Hc2 & ?).
  exists w2. unfold mbind, M_bind. rewrite Hm. split; [done|]. split; [by etrans|]. split; [done|lia].
Qed.
Definition last_owner_left : error := errLastOwner "cannot remove the organization's only remaining owner".

(** An owner who leaves is let go exactly when the database shows another. *)
Lemma look_concludes u w :
  at_work u w → member_role w.(w_db) u o MembershipRoleOwner →
  ∃ r, concludes (removeMember_look (mkIdentity u None) o u) w r
    ∧ ((∃ v, v ≠ u ∧ member_role w.(w_db) v o MembershipRoleOwner) ∧ r = Ok MembershipRoleOwner
       ∨ (¬ ∃ v, v ≠ u ∧ member_role w.(w_db) v o MembershipRoleOwner) ∧ r = Err last_owner_left).
Proof.
  intros Hw Hu. destruct (CountOwners_yields u w Hw Hu) as (n & _ & Hiff).
  exists (if decide (n ≤ 1) then Err last_owner_left else Ok MembershipRoleOwner). split.
  2:{ case_decide; [right|left]; (split; [|done]); rewrite <-Hiff; lia. }
  unfold removeMember_look, requirePermission, guard_last_owner.
  assert (∀ w1, same w w1 → member_role w1.(w_db) u o MembershipRoleOwner) as Hrole
    by (intros w1 [[= -> _ _] _]; exact Hu).
  apply (concludes_bind _ _ _ tt).
  - apply yields_catch, (yields_bind _ _ _ tt); [by apply yields_ret, Hw|]. intros w1 Hs1 Hc1.
    eapply yields_bind; [apply (RoleForUser_yields u); [by eapply at_work_same|by auto|by left]|].
    intros w2 _ Hc2. by apply yields_ret.
  - intros w1 Hs1 Hc1. eapply concludes_bind.
    { apply yields_catch, (RoleForUser_yields u); [by eapply at_work_same|by auto|by left]. }
    intros w2 Hs2 Hc2. assert (same w w2) as Hs by (by etrans). rewrite (decide_True _ _ eq_refl).
    destruct (CountOwners_yields u w2) as (k & Hk & Hiff'); [by eapply at_work_same|auto|].
    destruct Hs as [[= Hd _ _] _]. rewrite Hd, <-Hiff in Hiff'.
    destruct Hk as (w3 & E & ? & ? & ?). unfold concludes, mbind, M_bind. rewrite E. exists w3.
    do 2 case_decide; try lia; split; done.
Qed.

(** The writes take the member out and leave a record. *)
Lemma write_done u w :
  at_work u w → member_role w.(w_db) u o MembershipRoleOwner →
  (∀ g, (w.(w_gen) ≤ g)%N → w.(w_db).(audit_logs) !! g = None) →
  ∃ w', removeMember_write (mkIdentity u None) o u MembershipRoleOwner w = (Ok tt, w') ∧ calm w'
    ∧ w'.(w_sess) = w.(w_sess) ∧ members_unique w'.(w_db)
    ∧ w'.(w_db).(organizations) = w.(w_db).(organizations) ∧ w'.(w_db).(users) = w.(w_db).(users)
    ∧ (∀ g, (w'.(w_gen) ≤ g)%N → w'.(w_db).(audit_logs) !! g = None)
    ∧ ∀ v r, member_role w'.(w_db) v o r ↔ member_role w.(w_db) v o r ∧ v ≠ u.
Proof.
  intros Hw (i & m & Hi & Ho & Hu & Hr) Hfresh. unfold removeMember_write, recordAudit.
  unfold MembershipRepository.Delete, AuditLogRepository.Record_.
  destruct (MembershipRepository.Delete_sql o u (stmt_env TxConn w) w.(w_db)) as [[n d]|e] eqn:E; [|done].
  unfold MembershipRepository.Delete_sql in E. injection E as En Ed.
  assert (∀ x, x.(Membership_UserID) = u → membership_visible (stmt_env TxConn w) w.(w_db) x) as Hvis.
  { intros x Hx. right. left. simpl. rewrite (aw_session _ _ Hw). simpl. by rewrite Hx. }
  assert (n ≠ 0) as Hn.
  { rewrite <-En, (count_delete _ _ i m Hi), decide_True by (split; [done|by apply Hvis]).
    match goal with |- count ?P ?t + 1 ≠ 0 => pose proof (count_nonneg P t); lia end. }
  unfold mapped, catch, wrap, mbind, M_bind.
  rewrite (exec_affected_calm _ _ _ w n d) by (apply Hw || (rewrite <-En, <-Ed; reflexivity)).
  rewrite decide_False by done. cbv beta iota. unfold catch.
  rewrite run_stmt_calm by apply Hw. unfold execute, AuditLogRepository.Record_sql.
  destruct Hw as [Hc Hs Huq Horg Huser]. simpl in *. subst d.
  rewrite !require_true.
  - simpl. eexists. split; [done|]. simpl. split; [done|]. split; [done|]. split.
    { intros j k x y; simpl. rewrite !lookup_delete_where. intros [? _] [? _]. by apply Huq. }
    split; [done|]. split; [done|]. split.
    { intros g Hg. rewrite lookup_insert_ne by lia. apply Hfresh. lia. }
    intros v r. unfold member_role; simpl. setoid_rewrite lookup_delete_where. split.
    + intros (j & x & [Hj Hn'] & Hxo & Hxv & Hxr). split; [by exists j, x|]. intros ->.
      apply Hn'. split; [done|by apply Hvis].
    + intros [(j & x & Hj & Hxo & Hxv & Hxr) Hvu]. exists j, x. split_and!; try done.
      intros [[_ ?] _]. congruence.
  - simpl. split; [done|]. by repeat constructor.
  - apply Hfresh. simpl. lia.
  - apply org_visible_spec. right. left. simpl. by rewrite Hs.
Qed.

(** ** Two owners *)

(** The organization and two of its users are there, no call will fail and no
    draw will clash. *)
Record stage (a b : uuid) (w : World) : Prop := {
  st_calm : calm w;
  st_unique : members_unique w.(w_db);
  st_organization : is_Some (w.(w_db).(organizations) !! o);
  st_first : is_Some (w.(w_db).(users) !! a);
  st_second : is_Some (w.(w_db).(users) !! b);
  st_fresh : ∀ g, (w.(w_gen) ≤ g)%N → w.(w_db).(audit_logs) !! g = None }.
Lemma stage_swap a b w : stage a b w → stage b a w.
Proof. intros []. by split. Qed.
Lemma stage_at_work a b w : stage a b w → at_work a (set_sess (mkSession (Some a) (Some o)) w).
Proof. intros []. by split. Qed.

Lemma session_looks a b w :
  stage a b w → member_role w.(w_db) a o MembershipRoleOwner →
  ∃ r w', in_session a o (removeMember_look (mkIdentity a None) o a) w = (r, w')
    ∧ stage a b w' ∧ w'.(w_db) = w.(w_db)
    ∧ ((∃ v, v ≠ a ∧ member_role w.(w_db) v o MembershipRoleOwner) ∧ r = Ok MembershipRoleOwner
       ∨ (¬ ∃ v, v ≠ a ∧ member_role w.(w_db) v o MembershipRoleOwner) ∧ r = Err last_owner_left).
Proof.
  intros Hst Ha. destruct (look_concludes a _ (stage_at_work _ _ _ Hst) Ha) as (r & (w' & E & Hs & Hc & Hg) & Hr).
  unfold in_session. rewrite E. exists r, (set_sess w.(w_sess) w'). destruct Hs as [[= Hd _ _] _].
  split_and!; try done. destruct Hst. split; simpl in *; rewrite ?Hd; try done.
  intros g Hg'. apply st_fresh0. lia.
Qed.
Lemma session_writes a b w :
  stage a b w → member_role w.(w_db) a o MembershipRoleOwner →
  ∃ w', in_session a o (removeMember_write (mkIdentity a None) o a MembershipRoleOwner) w = (Ok tt, w')
    ∧ stage a b w' ∧ ∀ v r, member_role w'.(w_db) v o r ↔ member_role w.(w_db) v o r ∧ v ≠ a.
Proof.
  intros Hst Ha. destruct (write_done a _ (stage_at_work _ _ _ Hst) Ha) as (w' & E & Hc & _ & Hu & Ho & Hus & Hf & Hm);
    [apply Hst|].
  unfold in_session. rewrite E. exists (set_sess w.(w_sess) w'). split; [done|]. split; [|done].
  destruct Hst. split; simpl in *; rewrite ?Ho, ?Hus; done.
Qed.

Lemma removeMember_calmly id t : calmly (removeMember id o t).
Proof.
  unfold removeMember, requirePermission, requireAPIKeyOrgMatch, guard_last_owner, mapped, recordAudit,
    MembershipRepository.RoleForUser, MembershipRepository.CountOwners, MembershipRepository.Delete,
    AuditLogRepository.Record_, or_not_found, exec_affected.
  calm_auto.
Qed.
Lemma in_session_halves a b w :
  stage a b w → member_role w.(w_db) a o MembershipRoleOwner →
  in_session a o (removeMember (mkIdentity a None) o a) w
  = (r ← in_session a o (removeMember_look (mkIdentity a None) o a);
     in_session a o (removeMember_write (mkIdentity a None) o a r)) w.
Proof.
  intros Hst Ha. destruct (look_concludes a _ (stage_at_work _ _ _ Hst) Ha) as (r & (w' & E & Hs & _) & _).
  unfold in_session. rewrite removeMember_halves. unfold mbind, M_bind. rewrite E.
  destruct r as [r|e]; [|done]. destruct Hs as [[= _ Hs _] _]. unfold set_sess. simpl.
  rewrite <-Hs. by destruct w'.
Qed.

(** C6: the organization's two owners leave it.  One after the other, the first
    goes and the second is refused as the last owner, who stays.  At the same
    time, each looking before the other has written, which READ COMMITTED
    allows, both are let go: the organization is still there and nobody owns
    it. *)
Theorem last_owners_race a b w :
  stage a b w → a ≠ b → a ≠ Nil → b ≠ Nil → o ≠ Nil →
  (∀ v, member_role w.(w_db) v o MembershipRoleOwner ↔ v = a ∨ v = b) →
  (∃ w1 w2, WithTx a o (removeMember (mkIdentity a None) o a) w = (Ok tt, w1)
     ∧ WithTx b o (removeMember (mkIdentity b None) o b) w1 = (Err last_owner_left, w2)
     ∧ ∀ v, member_role w2.(w_db) v o MembershipRoleOwner ↔ v = b)
  ∧ ∃ w', both_leave o a b w = (Ok tt, w')
     ∧ is_Some (w'.(w_db).(organizations) !! o) ∧ ¬ has_owner w'.(w_db) o.
Proof.
  intros Hst Hab Hna Hnb Hno Hown.
  assert (member_role w.(w_db) a o MembershipRoleOwner) as Ha by (apply Hown; by left).
  assert (member_role w.(w_db) b o MembershipRoleOwner) as Hb by (apply Hown; by right).
  destruct (session_looks a b w Hst Ha) as (ra & wa & Ea & Hsa & Hda & [[_ ->]|[Hn _]]); [|destruct Hn; eauto].
  split.
  - rewrite <-Hda in Ha. destruct (session_writes a b wa Hsa Ha) as (w1 & E1 & Hs1 & Hm1).
    assert (member_role w1.(w_db) b o MembershipRoleOwner) as Hb1.
    { apply Hm1. rewrite Hda. auto. }
    destruct (session_looks b a w1 (stage_swap _ _ _ Hs1) Hb1) as (rb & w2 & E2 & Hs2 & Hd2 & [[(v & Hv & Hvo) _]|[_ ->]]).
    { exfalso. apply Hm1 in Hvo as [Hvo Hva]. rewrite Hda in Hvo. by destruct (proj1 (Hown v) Hvo). }
    exists w1, (set_db w1.(w_db) w2). rewrite !WithTx_calm by (done || apply removeMember_calmly || apply Hst || apply Hs1).
    rewrite (in_session_halves a b w), (in_session_halves b a w1) by (done || by rewrite <-Hda || by apply stage_swap).
    unfold mbind, M_bind. rewrite Ea, E1, E2. split_and!; [done..|]. simpl. intros v. rewrite Hm1, Hda, Hown. naive_solver.
  - rewrite <-Hda in Hb.
    destruct (session_looks b a wa (stage_swap _ _ _ Hsa) Hb) as (rb & wb & Eb & Hsb & Hdb & [[_ ->]|[Hn _]]).
    2:{ destruct Hn. exists a. rewrite Hda. done. }
    assert (w_db wb = w_db w) as Hd by congruence.
    destruct (session_writes a b wb (stage_swap _ _ _ Hsb)) as (w1 & E1 & Hs1 & Hm1); [by rewrite Hd|].
    destruct (session_writes b a w1 (stage_swap _ _ _ Hs1)) as (w2 & E2 & Hs2 & Hm2).
    { apply Hm1. rewrite Hdb. auto. }
    exists w2. unfold both_leave, mbind, M_bind. rewrite Ea, Eb, E1, E2. split; [done|]. split; [apply Hs2|].
    intros [v Hv]. apply Hm2 in Hv as [[Hv Hva]%Hm1 Hvb]. rewrite Hd, Hown in Hv. naive_solver.
Qed.
End halves.

(** On the sample, Vic promoted to an owner. *)
Definition twoOwnersDB : DB :=
  set_memberships (<[4%N := ann_owner]> {[5%N := Build_Membership 5 1 3 MembershipRoleOwner 0]}) sampleDB.
Definition twoOwnersWorld : World := set_db twoOwnersDB sampleWorld.
Lemma last_owners_race_witness :
  ∃ w', both_leave 1 2 3 twoOwnersWorld = (Ok tt, w') ∧ ¬ has_owner w'.(w_db) 1.
Proof.
  destruct (last_owners_race 1 2 3 twoOwnersWorld) as [_ (w' & E & _ & Hno)].
  - split; try done.
    intros i j x y Hx Hy. simpl in Hx, Hy.
    apply lookup_insert_Some in Hx as [[<- <-]|[_ [<- <-]%lookup_singleton_Some]];
      apply lookup_insert_Some in Hy as [[<- <-]|[_ [<- <-]%lookup_singleton_Some]]; done.
  - done.
  - done.
  - done.
  - done.
  - intros v. split.
    + intros (i & m & Hi & _ & <- & _). simpl in Hi.
      apply lookup_insert_Some in Hi as [[_ <-]|[_ [_ <-]%lookup_singleton_Some]]; auto.
    + intros [->| ->]; [exists 4%N, ann_owner|exists 5%N, (Build_Membership 5 1 3 MembershipRoleOwner 0)]; done.
  - by exists w'.
Defined.
