(* ===== verification/CliTypes.v ===== *)
(** * CliTypes: what the command line reads of the API's answers

    The structs of apps/cli/internal/apiclient/client.go with the decoders
    their tags give; an id is the text the server sent.  [PortSpec] is the
    record of [Schema], whose tags are the same. *)
From S2P Require Import Prelude Json Schema.
From stdpp Require Import base gmap strings list.
From Stdlib Require Import ZArith Lia.
Open Scope Z_scope.

(** A [*time.Time], and a [json.RawMessage] (nil when absent). *)
Definition into_time_option `{TimeText} (old : option time) (j : json) : option (option time) :=
  match j with JNull => Some None | _ => Some <$> into_time (default zeroTime old) j end.
Definition into_raw (_ : option json) (j : json) : option (option json) := Some (Some j).

Module Api.
Record Org := {
  Org_ID : string; Org_Slug : string; Org_Role : string }.
#[global] Instance Org_zero : Inhabited Org :=
  populate (Build_Org "" "" "").
#[global] Instance into_Org : Into Org := decode_struct
  [("id", λ m j, v ← into m.(Org_ID) j;
      Some (Build_Org v m.(Org_Slug) m.(Org_Role)));
   ("slug", λ m j, v ← into m.(Org_Slug) j;
      Some (Build_Org m.(Org_ID) v m.(Org_Role)));
   ("role", λ m j, v ← into m.(Org_Role) j;
      Some (Build_Org m.(Org_ID) m.(Org_Slug) v))].

Record AuthUser := {
  AuthUser_ID : string; AuthUser_Email : string }.
#[global] Instance AuthUser_zero : Inhabited AuthUser :=
  populate (Build_AuthUser "" "").
#[global] Instance into_AuthUser : Into AuthUser := decode_struct
  [("id", λ m j, v ← into m.(AuthUser_ID) j;
      Some (Build_AuthUser v m.(AuthUser_Email)));
   ("email", λ m j, v ← into m.(AuthUser_Email) j;
      Some (Build_AuthUser m.(AuthUser_ID) v))].

Record AuthResponse := {
  AuthResponse_User : AuthUser; AuthResponse_Org : Org; AuthResponse_AccessToken : string;
  AuthResponse_AccessTokenExpiresAt : time; AuthResponse_RefreshToken : string }.
#[global] Instance AuthResponse_zero : Inhabited AuthResponse :=
  populate (Build_AuthResponse inhabitant inhabitant "" zeroTime "").
#[global] Instance into_AuthResponse `{TimeText} : Into AuthResponse := decode_struct
  [("user", λ m j, v ← into m.(AuthResponse_User) j;
      Some (Build_AuthResponse v m.(AuthResponse_Org) m.(AuthResponse_AccessToken) m.(AuthResponse_AccessTokenExpiresAt)
      m.(AuthResponse_RefreshToken)));
   ("org", λ m j, v ← into m.(AuthResponse_Org) j;
      Some (Build_AuthResponse m.(AuthResponse_User) v m.(AuthResponse_AccessToken) m.(AuthResponse_AccessTokenExpiresAt)
      m.(AuthResponse_RefreshToken)));
   ("access_token", λ m j, v ← into m.(AuthResponse_AccessToken) j;
      Some (Build_AuthResponse m.(AuthResponse_User) m.(AuthResponse_Org) v m.(AuthResponse_AccessTokenExpiresAt)
      m.(AuthResponse_RefreshToken)));
   ("access_token_expires_at", λ m j, v ← into_time m.(AuthResponse_AccessTokenExpiresAt) j;
      Some (Build_AuthResponse m.(AuthResponse_User) m.(AuthResponse_Org) m.(AuthResponse_AccessToken) v
      m.(AuthResponse_RefreshToken)));
   ("refresh_token", λ m j, v ← into m.(AuthResponse_RefreshToken) j;
      Some (Build_AuthResponse m.(AuthResponse_User) m.(AuthResponse_Org) m.(AuthResponse_AccessToken)
      m.(AuthResponse_AccessTokenExpiresAt) v))].

Record Organization := {
  Organization_ID : string; Organization_Name : string; Organization_Slug : string;
  Organization_CreatedAt : time }.
#[global] Instance Organization_zero : Inhabited Organization :=
  populate (Build_Organization "" "" "" zeroTime).
#[global] Instance into_Organization `{TimeText} : Into Organization := decode_struct
  [("id", λ m j, v ← into m.(Organization_ID) j;
      Some (Build_Organization v m.(Organization_Name) m.(Organization_Slug) m.(Organization_CreatedAt)));
   ("name", λ m j, v ← into m.(Organization_Name) j;
      Some (Build_Organization m.(Organization_ID) v m.(Organization_Slug) m.(Organization_CreatedAt)));
   ("slug", λ m j, v ← into m.(Organization_Slug) j;
      Some (Build_Organization m.(Organization_ID) m.(Organization_Name) v m.(Organization_CreatedAt)));
   ("created_at", λ m j, v ← into_time m.(Organization_CreatedAt) j;
      Some (Build_Organization m.(Organization_ID) m.(Organization_Name) m.(Organization_Slug) v))].

Record Membership := {
  Membership_ID : string; Membership_OrgID : string; Membership_UserID : string;
  Membership_Email : string; Membership_Role : string; Membership_CreatedAt : time }.
#[global] Instance Membership_zero : Inhabited Membership :=
  populate (Build_Membership "" "" "" "" "" zeroTime).
#[global] Instance into_Membership `{TimeText} : Into Membership := decode_struct
  [("id", λ m j, v ← into m.(Membership_ID) j;
      Some (Build_Membership v m.(Membership_OrgID) m.(Membership_UserID) m.(Membership_Email) m.(Membership_Role)
      m.(Membership_CreatedAt)));
   ("org_id", λ m j, v ← into m.(Membership_OrgID) j;
      Some (Build_Membership m.(Membership_ID) v m.(Membership_UserID) m.(Membership_Email) m.(Membership_Role)
      m.(Membership_CreatedAt)));
   ("user_id", λ m j, v ← into m.(Membership_UserID) j;
      Some (Build_Membership m.(Membership_ID) m.(Membership_OrgID) v m.(Membership_Email) m.(Membership_Role)
      m.(Membership_CreatedAt)));
   ("email", λ m j, v ← into m.(Membership_Email) j;
      Some (Build_Membership m.(Membership_ID) m.(Membership_OrgID) m.(Membership_UserID) v m.(Membership_Role)
      m.(Membership_CreatedAt)));
   ("role", λ m j, v ← into m.(Membership_Role) j;
      Some (Build_Membership m.(Membership_ID) m.(Membership_OrgID) m.(Membership_UserID) m.(Membership_Email) v
      m.(Membership_CreatedAt)));
   ("created_at", λ m j, v ← into_time m.(Membership_CreatedAt) j;
      Some (Build_Membership m.(Membership_ID) m.(Membership_OrgID) m.(Membership_UserID) m.(Membership_Email)
      m.(Membership_Role) v))].

Record Project := {
  Project_ID : string; Project_OrgID : string; Project_Name : string; Project_Slug : string;
  Project_CreatedAt : time }.
#[global] Instance Project_zero : Inhabited Project :=
  populate (Build_Project "" "" "" "" zeroTime).
#[global] Instance into_Project `{TimeText} : Into Project := decode_struct
  [("id", λ m j, v ← into m.(Project_ID) j;
      Some (Build_Project v m.(Project_OrgID) m.(Project_Name) m.(Project_Slug) m.(Project_CreatedAt)));
   ("org_id", λ m j, v ← into m.(Project_OrgID) j;
      Some (Build_Project m.(Project_ID) v m.(Project_Name) m.(Project_Slug) m.(Project_CreatedAt)));
   ("name", λ m j, v ← into m.(Project_Name) j;
      Some (Build_Project m.(Project_ID) m.(Project_OrgID) v m.(Project_Slug) m.(Project_CreatedAt)));
   ("slug", λ m j, v ← into m.(Project_Slug) j;
      Some (Build_Project m.(Project_ID) m.(Project_OrgID) m.(Project_Name) v m.(Project_CreatedAt)));
   ("created_at", λ m j, v ← into_time m.(Project_CreatedAt) j;
      Some (Build_Project m.(Project_ID) m.(Project_OrgID) m.(Project_Name) m.(Project_Slug) v))].

Record Application := {
  Application_ID : string; Application_OrgID : string; Application_ProjectID : string;
  Application_Name : string; Application_Image : string; Application_ReplicasDesired : Z;
  Application_CreatedAt : time }.
#[global] Instance Application_zero : Inhabited Application :=
  populate (Build_Application "" "" "" "" "" 0 zeroTime).
#[global] Instance into_Application `{TimeText} : Into Application := decode_struct
  [("id", λ m j, v ← into m.(Application_ID) j;
      Some (Build_Application v m.(Application_OrgID) m.(Application_ProjectID) m.(Application_Name)
      m.(Application_Image) m.(Application_ReplicasDesired) m.(Application_CreatedAt)));
   ("org_id", λ m j, v ← into m.(Application_OrgID) j;
      Some (Build_Application m.(Application_ID) v m.(Application_ProjectID) m.(Application_Name) m.(Application_Image)
      m.(Application_ReplicasDesired) m.(Application_CreatedAt)));
   ("project_id", λ m j, v ← into m.(Application_ProjectID) j;
      Some (Build_Application m.(Application_ID) m.(Application_OrgID) v m.(Application_Name) m.(Application_Image)
      m.(Application_ReplicasDesired) m.(Application_CreatedAt)));
   ("name", λ m j, v ← into m.(Application_Name) j;
      Some (Build_Application m.(Application_ID) m.(Application_OrgID) m.(Application_ProjectID) v m.(Application_Image)
      m.(Application_ReplicasDesired) m.(Application_CreatedAt)));
   ("image", λ m j, v ← into m.(Application_Image) j;
      Some (Build_Application m.(Application_ID) m.(Application_OrgID) m.(Application_ProjectID) m.(Application_Name) v
      m.(Application_ReplicasDesired) m.(Application_CreatedAt)));
   ("replicas_desired", λ m j, v ← into m.(Application_ReplicasDesired) j;
      Some (Build_Application m.(Application_ID) m.(Application_OrgID) m.(Application_ProjectID) m.(Application_Name)
      m.(Application_Image) v m.(Application_CreatedAt)));
   ("created_at", λ m j, v ← into_time m.(Application_CreatedAt) j;
      Some (Build_Application m.(Application_ID) m.(Application_OrgID) m.(Application_ProjectID) m.(Application_Name)
      m.(Application_Image) m.(Application_ReplicasDesired) v))].

Record ContainerSummary := {
  ContainerSummary_NodeID : string; ContainerSummary_Status : string }.
#[global] Instance ContainerSummary_zero : Inhabited ContainerSummary :=
  populate (Build_ContainerSummary "" "").
#[global] Instance into_ContainerSummary : Into ContainerSummary := decode_struct
  [("node_id", λ m j, v ← into m.(ContainerSummary_NodeID) j;
      Some (Build_ContainerSummary v m.(ContainerSummary_Status)));
   ("status", λ m j, v ← into m.(ContainerSummary_Status) j;
      Some (Build_ContainerSummary m.(ContainerSummary_NodeID) v))].

Record Service := {
  Service_DNSName : string }.
#[global] Instance Service_zero : Inhabited Service :=
  populate (Build_Service "").
#[global] Instance into_Service : Into Service := decode_struct
  [("dns_name", λ m j, v ← into m.(Service_DNSName) j;
      Some (Build_Service v))].

Record Deployment := {
  Deployment_ID : string; Deployment_ApplicationID : string; Deployment_Image : string;
  Deployment_Revision : Z; Deployment_Status : string; Deployment_Strategy : string;
  Deployment_WorkerContainerID : option string; Deployment_ReplicasDesired : Z;
  Deployment_ReplicasRunning : Z; Deployment_Containers : list ContainerSummary;
  Deployment_Service : option Service; Deployment_CreatedAt : time;
  Deployment_CompletedAt : option time }.
#[global] Instance Deployment_zero : Inhabited Deployment :=
  populate (Build_Deployment "" "" "" 0 "" "" None 0 0 [] None zeroTime None).
#[global] Instance into_Deployment `{TimeText} : Into Deployment := decode_struct
  [("id", λ m j, v ← into m.(Deployment_ID) j;
      Some (Build_Deployment v m.(Deployment_ApplicationID) m.(Deployment_Image) m.(Deployment_Revision)
      m.(Deployment_Status) m.(Deployment_Strategy) m.(Deployment_WorkerContainerID)
      m.(Deployment_ReplicasDesired) m.(Deployment_ReplicasRunning) m.(Deployment_Containers)
      m.(Deployment_Service) m.(Deployment_CreatedAt) m.(Deployment_CompletedAt)));
   ("application_id", λ m j, v ← into m.(Deployment_ApplicationID) j;
      Some (Build_Deployment m.(Deployment_ID) v m.(Deployment_Image) m.(Deployment_Revision) m.(Deployment_Status)
      m.(Deployment_Strategy) m.(Deployment_WorkerContainerID) m.(Deployment_ReplicasDesired)
      m.(Deployment_ReplicasRunning) m.(Deployment_Containers) m.(Deployment_Service)
      m.(Deployment_CreatedAt) m.(Deployment_CompletedAt)));
   ("image", λ m j, v ← into m.(Deployment_Image) j;
      Some (Build_Deployment m.(Deployment_ID) m.(Deployment_ApplicationID) v m.(Deployment_Revision)
      m.(Deployment_Status) m.(Deployment_Strategy) m.(Deployment_WorkerContainerID)
      m.(Deployment_ReplicasDesired) m.(Deployment_ReplicasRunning) m.(Deployment_Containers)
      m.(Deployment_Service) m.(Deployment_CreatedAt) m.(Deployment_CompletedAt)));
   ("revision", λ m j, v ← into m.(Deployment_Revision) j;
      Some (Build_Deployment m.(Deployment_ID) m.(Deployment_ApplicationID) m.(Deployment_Image) v m.(Deployment_Status)
      m.(Deployment_Strategy) m.(Deployment_WorkerContainerID) m.(Deployment_ReplicasDesired)
      m.(Deployment_ReplicasRunning) m.(Deployment_Containers) m.(Deployment_Service)
      m.(Deployment_CreatedAt) m.(Deployment_CompletedAt)));
   ("status", λ m j, v ← into m.(Deployment_Status) j;
      Some (Build_Deployment m.(Deployment_ID) m.(Deployment_ApplicationID) m.(Deployment_Image) m.(Deployment_Revision)
      v m.(Deployment_Strategy) m.(Deployment_WorkerContainerID) m.(Deployment_ReplicasDesired)
      m.(Deployment_ReplicasRunning) m.(Deployment_Containers) m.(Deployment_Service)
      m.(Deployment_CreatedAt) m.(Deployment_CompletedAt)));
   ("strategy", λ m j, v ← into m.(Deployment_Strategy) j;
      Some (Build_Deployment m.(Deployment_ID) m.(Deployment_ApplicationID) m.(Deployment_Image) m.(Deployment_Revision)
      m.(Deployment_Status) v m.(Deployment_WorkerContainerID) m.(Deployment_ReplicasDesired)
      m.(Deployment_ReplicasRunning) m.(Deployment_Containers) m.(Deployment_Service)
      m.(Deployment_CreatedAt) m.(Deployment_CompletedAt)));
   ("worker_container_id", λ m j, v ← into m.(Deployment_WorkerContainerID) j;
      Some (Build_Deployment m.(Deployment_ID) m.(Deployment_ApplicationID) m.(Deployment_Image) m.(Deployment_Revision)
      m.(Deployment_Status) m.(Deployment_Strategy) v m.(Deployment_ReplicasDesired)
      m.(Deployment_ReplicasRunning) m.(Deployment_Containers) m.(Deployment_Service)
      m.(Deployment_CreatedAt) m.(Deployment_CompletedAt)));
   ("replicas_desired", λ m j, v ← into m.(Deployment_ReplicasDesired) j;
      Some (Build_Deployment m.(Deployment_ID) m.(Deployment_ApplicationID) m.(Deployment_Image) m.(Deployment_Revision)
      m.(Deployment_Status) m.(Deployment_Strategy) m.(Deployment_WorkerContainerID) v
      m.(Deployment_ReplicasRunning) m.(Deployment_Containers) m.(Deployment_Service)
      m.(Deployment_CreatedAt) m.(Deployment_CompletedAt)));
   ("replicas_running", λ m j, v ← into m.(Deployment_ReplicasRunning) j;
      Some (Build_Deployment m.(Deployment_ID) m.(Deployment_ApplicationID) m.(Deployment_Image) m.(Deployment_Revision)
      m.(Deployment_Status) m.(Deployment_Strategy) m.(Deployment_WorkerContainerID)
      m.(Deployment_ReplicasDesired) v m.(Deployment_Containers) m.(Deployment_Service)
      m.(Deployment_CreatedAt) m.(Deployment_CompletedAt)));
   ("containers", λ m j, v ← into m.(Deployment_Containers) j;
      Some (Build_Deployment m.(Deployment_ID) m.(Deployment_ApplicationID) m.(Deployment_Image) m.(Deployment_Revision)
      m.(Deployment_Status) m.(Deployment_Strategy) m.(Deployment_WorkerContainerID)
      m.(Deployment_ReplicasDesired) m.(Deployment_ReplicasRunning) v m.(Deployment_Service)
      m.(Deployment_CreatedAt) m.(Deployment_CompletedAt)));
   ("service", λ m j, v ← into m.(Deployment_Service) j;
      Some (Build_Deployment m.(Deployment_ID) m.(Deployment_ApplicationID) m.(Deployment_Image) m.(Deployment_Revision)
      m.(Deployment_Status) m.(Deployment_Strategy) m.(Deployment_WorkerContainerID)
      m.(Deployment_ReplicasDesired) m.(Deployment_ReplicasRunning) m.(Deployment_Containers) v
      m.(Deployment_CreatedAt) m.(Deployment_CompletedAt)));
   ("created_at", λ m j, v ← into_time m.(Deployment_CreatedAt) j;
      Some (Build_Deployment m.(Deployment_ID) m.(Deployment_ApplicationID) m.(Deployment_Image) m.(Deployment_Revision)
      m.(Deployment_Status) m.(Deployment_Strategy) m.(Deployment_WorkerContainerID)
      m.(Deployment_ReplicasDesired) m.(Deployment_ReplicasRunning) m.(Deployment_Containers)
      m.(Deployment_Service) v m.(Deployment_CompletedAt)));
   ("completed_at", λ m j, v ← into_time_option m.(Deployment_CompletedAt) j;
      Some (Build_Deployment m.(Deployment_ID) m.(Deployment_ApplicationID) m.(Deployment_Image) m.(Deployment_Revision)
      m.(Deployment_Status) m.(Deployment_Strategy) m.(Deployment_WorkerContainerID)
      m.(Deployment_ReplicasDesired) m.(Deployment_ReplicasRunning) m.(Deployment_Containers)
      m.(Deployment_Service) m.(Deployment_CreatedAt) v))].

Record Node := {
  Node_ID : string; Node_Hostname : string; Node_Status : string; Node_LastHeartbeatAt : time }.
#[global] Instance Node_zero : Inhabited Node :=
  populate (Build_Node "" "" "" zeroTime).
#[global] Instance into_Node `{TimeText} : Into Node := decode_struct
  [("id", λ m j, v ← into m.(Node_ID) j;
      Some (Build_Node v m.(Node_Hostname) m.(Node_Status) m.(Node_LastHeartbeatAt)));
   ("hostname", λ m j, v ← into m.(Node_Hostname) j;
      Some (Build_Node m.(Node_ID) v m.(Node_Status) m.(Node_LastHeartbeatAt)));
   ("status", λ m j, v ← into m.(Node_Status) j;
      Some (Build_Node m.(Node_ID) m.(Node_Hostname) v m.(Node_LastHeartbeatAt)));
   ("last_heartbeat_at", λ m j, v ← into_time m.(Node_LastHeartbeatAt) j;
      Some (Build_Node m.(Node_ID) m.(Node_Hostname) m.(Node_Status) v))].

Record Domain := {
  Domain_ID : string; Domain_OrgID : string; Domain_ProjectID : string;
  Domain_ApplicationID : string; Domain_Hostname : string; Domain_TLSStatus : string;
  Domain_CreatedAt : time }.
#[global] Instance Domain_zero : Inhabited Domain :=
  populate (Build_Domain "" "" "" "" "" "" zeroTime).
#[global] Instance into_Domain `{TimeText} : Into Domain := decode_struct
  [("id", λ m j, v ← into m.(Domain_ID) j;
      Some (Build_Domain v m.(Domain_OrgID) m.(Domain_ProjectID) m.(Domain_ApplicationID) m.(Domain_Hostname)
      m.(Domain_TLSStatus) m.(Domain_CreatedAt)));
   ("org_id", λ m j, v ← into m.(Domain_OrgID) j;
      Some (Build_Domain m.(Domain_ID) v m.(Domain_ProjectID) m.(Domain_ApplicationID) m.(Domain_Hostname)
      m.(Domain_TLSStatus) m.(Domain_CreatedAt)));
   ("project_id", λ m j, v ← into m.(Domain_ProjectID) j;
      Some (Build_Domain m.(Domain_ID) m.(Domain_OrgID) v m.(Domain_ApplicationID) m.(Domain_Hostname)
      m.(Domain_TLSStatus) m.(Domain_CreatedAt)));
   ("application_id", λ m j, v ← into m.(Domain_ApplicationID) j;
      Some (Build_Domain m.(Domain_ID) m.(Domain_OrgID) m.(Domain_ProjectID) v m.(Domain_Hostname)
      m.(Domain_TLSStatus) m.(Domain_CreatedAt)));
   ("hostname", λ m j, v ← into m.(Domain_Hostname) j;
      Some (Build_Domain m.(Domain_ID) m.(Domain_OrgID) m.(Domain_ProjectID) m.(Domain_ApplicationID) v
      m.(Domain_TLSStatus) m.(Domain_CreatedAt)));
   ("tls_status", λ m j, v ← into m.(Domain_TLSStatus) j;
      Some (Build_Domain m.(Domain_ID) m.(Domain_OrgID) m.(Domain_ProjectID) m.(Domain_ApplicationID)
      m.(Domain_Hostname) v m.(Domain_CreatedAt)));
   ("created_at", λ m j, v ← into_time m.(Domain_CreatedAt) j;
      Some (Build_Domain m.(Domain_ID) m.(Domain_OrgID) m.(Domain_ProjectID) m.(Domain_ApplicationID)
      m.(Domain_Hostname) m.(Domain_TLSStatus) v))].

Record APIKey := {
  APIKey_ID : string; APIKey_OrgID : string; APIKey_Name : string; APIKey_Scopes : list string;
  APIKey_CreatedBy : string; APIKey_CreatedAt : time; APIKey_RevokedAt : option time;
  APIKey_Key : string }.
#[global] Instance APIKey_zero : Inhabited APIKey :=
  populate (Build_APIKey "" "" "" [] "" zeroTime None "").
#[global] Instance into_APIKey `{TimeText} : Into APIKey := decode_struct
  [("id", λ m j, v ← into m.(APIKey_ID) j;
      Some (Build_APIKey v m.(APIKey_OrgID) m.(APIKey_Name) m.(APIKey_Scopes) m.(APIKey_CreatedBy)
      m.(APIKey_CreatedAt) m.(APIKey_RevokedAt) m.(APIKey_Key)));
   ("org_id", λ m j, v ← into m.(APIKey_OrgID) j;
      Some (Build_APIKey m.(APIKey_ID) v m.(APIKey_Name) m.(APIKey_Scopes) m.(APIKey_CreatedBy) m.(APIKey_CreatedAt)
      m.(APIKey_RevokedAt) m.(APIKey_Key)));
   ("name", λ m j, v ← into m.(APIKey_Name) j;
      Some (Build_APIKey m.(APIKey_ID) m.(APIKey_OrgID) v m.(APIKey_Scopes) m.(APIKey_CreatedBy)
      m.(APIKey_CreatedAt) m.(APIKey_RevokedAt) m.(APIKey_Key)));
   ("scopes", λ m j, v ← into m.(APIKey_Scopes) j;
      Some (Build_APIKey m.(APIKey_ID) m.(APIKey_OrgID) m.(APIKey_Name) v m.(APIKey_CreatedBy) m.(APIKey_CreatedAt)
      m.(APIKey_RevokedAt) m.(APIKey_Key)));
   ("created_by", λ m j, v ← into m.(APIKey_CreatedBy) j;
      Some (Build_APIKey m.(APIKey_ID) m.(APIKey_OrgID) m.(APIKey_Name) m.(APIKey_Scopes) v m.(APIKey_CreatedAt)
      m.(APIKey_RevokedAt) m.(APIKey_Key)));
   ("created_at", λ m j, v ← into_time m.(APIKey_CreatedAt) j;
      Some (Build_APIKey m.(APIKey_ID) m.(APIKey_OrgID) m.(APIKey_Name) m.(APIKey_Scopes) m.(APIKey_CreatedBy) v
      m.(APIKey_RevokedAt) m.(APIKey_Key)));
   ("revoked_at", λ m j, v ← into_time_option m.(APIKey_RevokedAt) j;
      Some (Build_APIKey m.(APIKey_ID) m.(APIKey_OrgID) m.(APIKey_Name) m.(APIKey_Scopes) m.(APIKey_CreatedBy)
      m.(APIKey_CreatedAt) v m.(APIKey_Key)));
   ("key", λ m j, v ← into m.(APIKey_Key) j;
      Some (Build_APIKey m.(APIKey_ID) m.(APIKey_OrgID) m.(APIKey_Name) m.(APIKey_Scopes) m.(APIKey_CreatedBy)
      m.(APIKey_CreatedAt) m.(APIKey_RevokedAt) v))].

Record Quota := {
  Quota_OrgID : string; Quota_MaxCPUMillicores : Z; Quota_MaxMemoryMB : Z;
  Quota_MaxContainers : Z; Quota_MaxProjects : Z; Quota_MaxDeploymentsPerDay : Z;
  Quota_UsedCPUMillicores : Z; Quota_UsedMemoryMB : Z; Quota_UsedContainers : Z;
  Quota_UsedProjects : Z; Quota_UsedDeploymentsToday : Z }.
#[global] Instance Quota_zero : Inhabited Quota :=
  populate (Build_Quota "" 0 0 0 0 0 0 0 0 0 0).
#[global] Instance into_Quota : Into Quota := decode_struct
  [("org_id", λ m j, v ← into m.(Quota_OrgID) j;
      Some (Build_Quota v m.(Quota_MaxCPUMillicores) m.(Quota_MaxMemoryMB) m.(Quota_MaxContainers)
      m.(Quota_MaxProjects) m.(Quota_MaxDeploymentsPerDay) m.(Quota_UsedCPUMillicores)
      m.(Quota_UsedMemoryMB) m.(Quota_UsedContainers) m.(Quota_UsedProjects)
      m.(Quota_UsedDeploymentsToday)));
   ("max_cpu_millicores", λ m j, v ← into m.(Quota_MaxCPUMillicores) j;
      Some (Build_Quota m.(Quota_OrgID) v m.(Quota_MaxMemoryMB) m.(Quota_MaxContainers) m.(Quota_MaxProjects)
      m.(Quota_MaxDeploymentsPerDay) m.(Quota_UsedCPUMillicores) m.(Quota_UsedMemoryMB)
      m.(Quota_UsedContainers) m.(Quota_UsedProjects) m.(Quota_UsedDeploymentsToday)));
   ("max_memory_mb", λ m j, v ← into m.(Quota_MaxMemoryMB) j;
      Some (Build_Quota m.(Quota_OrgID) m.(Quota_MaxCPUMillicores) v m.(Quota_MaxContainers) m.(Quota_MaxProjects)
      m.(Quota_MaxDeploymentsPerDay) m.(Quota_UsedCPUMillicores) m.(Quota_UsedMemoryMB)
      m.(Quota_UsedContainers) m.(Quota_UsedProjects) m.(Quota_UsedDeploymentsToday)));
   ("max_containers", λ m j, v ← into m.(Quota_MaxContainers) j;
      Some (Build_Quota m.(Quota_OrgID) m.(Quota_MaxCPUMillicores) m.(Quota_MaxMemoryMB) v m.(Quota_MaxProjects)
      m.(Quota_MaxDeploymentsPerDay) m.(Quota_UsedCPUMillicores) m.(Quota_UsedMemoryMB)
      m.(Quota_UsedContainers) m.(Quota_UsedProjects) m.(Quota_UsedDeploymentsToday)));
   ("max_projects", λ m j, v ← into m.(Quota_MaxProjects) j;
      Some (Build_Quota m.(Quota_OrgID) m.(Quota_MaxCPUMillicores) m.(Quota_MaxMemoryMB) m.(Quota_MaxContainers) v
      m.(Quota_MaxDeploymentsPerDay) m.(Quota_UsedCPUMillicores) m.(Quota_UsedMemoryMB)
      m.(Quota_UsedContainers) m.(Quota_UsedProjects) m.(Quota_UsedDeploymentsToday)));
   ("max_deployments_per_day", λ m j, v ← into m.(Quota_MaxDeploymentsPerDay) j;
      Some (Build_Quota m.(Quota_OrgID) m.(Quota_MaxCPUMillicores) m.(Quota_MaxMemoryMB) m.(Quota_MaxContainers)
      m.(Quota_MaxProjects) v m.(Quota_UsedCPUMillicores) m.(Quota_UsedMemoryMB)
      m.(Quota_UsedContainers) m.(Quota_UsedProjects) m.(Quota_UsedDeploymentsToday)));
   ("used_cpu_millicores", λ m j, v ← into m.(Quota_UsedCPUMillicores) j;
      Some (Build_Quota m.(Quota_OrgID) m.(Quota_MaxCPUMillicores) m.(Quota_MaxMemoryMB) m.(Quota_MaxContainers)
      m.(Quota_MaxProjects) m.(Quota_MaxDeploymentsPerDay) v m.(Quota_UsedMemoryMB)
      m.(Quota_UsedContainers) m.(Quota_UsedProjects) m.(Quota_UsedDeploymentsToday)));
   ("used_memory_mb", λ m j, v ← into m.(Quota_UsedMemoryMB) j;
      Some (Build_Quota m.(Quota_OrgID) m.(Quota_MaxCPUMillicores) m.(Quota_MaxMemoryMB) m.(Quota_MaxContainers)
      m.(Quota_MaxProjects) m.(Quota_MaxDeploymentsPerDay) m.(Quota_UsedCPUMillicores) v
      m.(Quota_UsedContainers) m.(Quota_UsedProjects) m.(Quota_UsedDeploymentsToday)));
   ("used_containers", λ m j, v ← into m.(Quota_UsedContainers) j;
      Some (Build_Quota m.(Quota_OrgID) m.(Quota_MaxCPUMillicores) m.(Quota_MaxMemoryMB) m.(Quota_MaxContainers)
      m.(Quota_MaxProjects) m.(Quota_MaxDeploymentsPerDay) m.(Quota_UsedCPUMillicores)
      m.(Quota_UsedMemoryMB) v m.(Quota_UsedProjects) m.(Quota_UsedDeploymentsToday)));
   ("used_projects", λ m j, v ← into m.(Quota_UsedProjects) j;
      Some (Build_Quota m.(Quota_OrgID) m.(Quota_MaxCPUMillicores) m.(Quota_MaxMemoryMB) m.(Quota_MaxContainers)
      m.(Quota_MaxProjects) m.(Quota_MaxDeploymentsPerDay) m.(Quota_UsedCPUMillicores)
      m.(Quota_UsedMemoryMB) m.(Quota_UsedContainers) v m.(Quota_UsedDeploymentsToday)));
   ("used_deployments_today", λ m j, v ← into m.(Quota_UsedDeploymentsToday) j;
      Some (Build_Quota m.(Quota_OrgID) m.(Quota_MaxCPUMillicores) m.(Quota_MaxMemoryMB) m.(Quota_MaxContainers)
      m.(Quota_MaxProjects) m.(Quota_MaxDeploymentsPerDay) m.(Quota_UsedCPUMillicores)
      m.(Quota_UsedMemoryMB) m.(Quota_UsedContainers) m.(Quota_UsedProjects) v))].

Record AuditLogEntry := {
  AuditLogEntry_ID : string; AuditLogEntry_OrgID : string;
  AuditLogEntry_ActorUserID : option string; AuditLogEntry_Action : string;
  AuditLogEntry_TargetType : string; AuditLogEntry_TargetID : string;
  AuditLogEntry_Metadata : option json; AuditLogEntry_CreatedAt : time }.
#[global] Instance AuditLogEntry_zero : Inhabited AuditLogEntry :=
  populate (Build_AuditLogEntry "" "" None "" "" "" None zeroTime).
#[global] Instance into_AuditLogEntry `{TimeText} : Into AuditLogEntry := decode_struct
  [("id", λ m j, v ← into m.(AuditLogEntry_ID) j;
      Some (Build_AuditLogEntry v m.(AuditLogEntry_OrgID) m.(AuditLogEntry_ActorUserID) m.(AuditLogEntry_Action)
      m.(AuditLogEntry_TargetType) m.(AuditLogEntry_TargetID) m.(AuditLogEntry_Metadata)
      m.(AuditLogEntry_CreatedAt)));
   ("org_id", λ m j, v ← into m.(AuditLogEntry_OrgID) j;
      Some (Build_AuditLogEntry m.(AuditLogEntry_ID) v m.(AuditLogEntry_ActorUserID) m.(AuditLogEntry_Action)
      m.(AuditLogEntry_TargetType) m.(AuditLogEntry_TargetID) m.(AuditLogEntry_Metadata)
      m.(AuditLogEntry_CreatedAt)));
   ("actor_user_id", λ m j, v ← into m.(AuditLogEntry_ActorUserID) j;
      Some (Build_AuditLogEntry m.(AuditLogEntry_ID) m.(AuditLogEntry_OrgID) v m.(AuditLogEntry_Action)
      m.(AuditLogEntry_TargetType) m.(AuditLogEntry_TargetID) m.(AuditLogEntry_Metadata)
      m.(AuditLogEntry_CreatedAt)));
   ("action", λ m j, v ← into m.(AuditLogEntry_Action) j;
      Some (Build_AuditLogEntry m.(AuditLogEntry_ID) m.(AuditLogEntry_OrgID) m.(AuditLogEntry_ActorUserID) v
      m.(AuditLogEntry_TargetType) m.(AuditLogEntry_TargetID) m.(AuditLogEntry_Metadata)
      m.(AuditLogEntry_CreatedAt)));
   ("target_type", λ m j, v ← into m.(AuditLogEntry_TargetType) j;
      Some (Build_AuditLogEntry m.(AuditLogEntry_ID) m.(AuditLogEntry_OrgID) m.(AuditLogEntry_ActorUserID)
      m.(AuditLogEntry_Action) v m.(AuditLogEntry_TargetID) m.(AuditLogEntry_Metadata)
      m.(AuditLogEntry_CreatedAt)));
   ("target_id", λ m j, v ← into m.(AuditLogEntry_TargetID) j;
      Some (Build_AuditLogEntry m.(AuditLogEntry_ID) m.(AuditLogEntry_OrgID) m.(AuditLogEntry_ActorUserID)
      m.(AuditLogEntry_Action) m.(AuditLogEntry_TargetType) v m.(AuditLogEntry_Metadata)
      m.(AuditLogEntry_CreatedAt)));
   ("metadata", λ m j, v ← into_raw m.(AuditLogEntry_Metadata) j;
      Some (Build_AuditLogEntry m.(AuditLogEntry_ID) m.(AuditLogEntry_OrgID) m.(AuditLogEntry_ActorUserID)
      m.(AuditLogEntry_Action) m.(AuditLogEntry_TargetType) m.(AuditLogEntry_TargetID) v
      m.(AuditLogEntry_CreatedAt)));
   ("created_at", λ m j, v ← into_time m.(AuditLogEntry_CreatedAt) j;
      Some (Build_AuditLogEntry m.(AuditLogEntry_ID) m.(AuditLogEntry_OrgID) m.(AuditLogEntry_ActorUserID)
      m.(AuditLogEntry_Action) m.(AuditLogEntry_TargetType) m.(AuditLogEntry_TargetID)
      m.(AuditLogEntry_Metadata) v))].

Record MembershipPage := {
  MembershipPage_Data : list Membership }.
#[global] Instance MembershipPage_zero : Inhabited MembershipPage :=
  populate (Build_MembershipPage []).
#[global] Instance into_MembershipPage `{TimeText} : Into MembershipPage := decode_struct
  [("data", λ m j, v ← into m.(MembershipPage_Data) j;
      Some (Build_MembershipPage v))].

Record DeploymentPage := {
  DeploymentPage_Data : list Deployment; DeploymentPage_NextCursor : option string }.
#[global] Instance DeploymentPage_zero : Inhabited DeploymentPage :=
  populate (Build_DeploymentPage [] None).
#[global] Instance into_DeploymentPage `{TimeText} : Into DeploymentPage := decode_struct
  [("data", λ m j, v ← into m.(DeploymentPage_Data) j;
      Some (Build_DeploymentPage v m.(DeploymentPage_NextCursor)));
   ("next_cursor", λ m j, v ← into m.(DeploymentPage_NextCursor) j;
      Some (Build_DeploymentPage m.(DeploymentPage_Data) v))].

Record NodePage := {
  NodePage_Data : list Node }.
#[global] Instance NodePage_zero : Inhabited NodePage :=
  populate (Build_NodePage []).
#[global] Instance into_NodePage `{TimeText} : Into NodePage := decode_struct
  [("data", λ m j, v ← into m.(NodePage_Data) j;
      Some (Build_NodePage v))].

Record DomainPage := {
  DomainPage_Data : list Domain }.
#[global] Instance DomainPage_zero : Inhabited DomainPage :=
  populate (Build_DomainPage []).
#[global] Instance into_DomainPage `{TimeText} : Into DomainPage := decode_struct
  [("data", λ m j, v ← into m.(DomainPage_Data) j;
      Some (Build_DomainPage v))].

Record APIKeyPage := {
  APIKeyPage_Data : list APIKey }.
#[global] Instance APIKeyPage_zero : Inhabited APIKeyPage :=
  populate (Build_APIKeyPage []).
#[global] Instance into_APIKeyPage `{TimeText} : Into APIKeyPage := decode_struct
  [("data", λ m j, v ← into m.(APIKeyPage_Data) j;
      Some (Build_APIKeyPage v))].

Record AuditLogPage := {
  AuditLogPage_Data : list AuditLogEntry; AuditLogPage_NextCursor : option string }.
#[global] Instance AuditLogPage_zero : Inhabited AuditLogPage :=
  populate (Build_AuditLogPage [] None).
#[global] Instance into_AuditLogPage `{TimeText} : Into AuditLogPage := decode_struct
  [("data", λ m j, v ← into m.(AuditLogPage_Data) j;
      Some (Build_AuditLogPage v m.(AuditLogPage_NextCursor)));
   ("next_cursor", λ m j, v ← into m.(AuditLogPage_NextCursor) j;
      Some (Build_AuditLogPage m.(AuditLogPage_Data) v))].
End Api.
