(* ===== verification/ApiClient.v ===== *)
(** * ApiClient: the command line's client of the API

    apps/cli/internal/apiclient/client.go, over any transport ([Do], the HTTP
    client's, which may fail) and any [TokenStore].  A call is a function of
    the store and of the transport's state; a request is the [Call] the API
    server's mux reads, below the base URL.  The request timeout shows as a
    failed call. *)
From S2P Require Import Prelude Text Json Http Schema Effects Wire ApiCore ApiMux CliTypes.
From stdpp Require Import base gmap strings list pretty.
From Stdlib Require Import ZArith Lia Ascii.
Open Scope Z_scope.

(** ** Errors *)

Record APIError := mkAPIError { APIError_Status : Z; APIError_Code : string; APIError_Message : string }.
(** [errors.Join(ErrUnauthorized, apiErr)], an [*APIError], any other error by
    its text. *)
Inductive ClientError := Unauthorized (e : APIError) | Reported (e : APIError) | Failed (msg : string).
Inductive CRes (A : Type) := COk (a : A) | CErr (e : ClientError).
Arguments COk {A} a.
Arguments CErr {A} e.

(** How a request fails to be answered: it cannot be built from the URL, or the
    HTTP client fails. *)
Inductive Failure := Unbuilt (msg : string) | Unanswered (msg : string).

(** [json.Decoder] goes on after a member of the wrong type, whose field stays
    as it is. *)
Definition lenient_string (old : string) (j : json) : string :=
  match j with JString s => s | _ => old end.
Definition lenient_error (e : string * string) (j : json) : string * string :=
  default e (decode_struct
    [("code", λ e j, Some (lenient_string e.1 j, e.2));
     ("message", λ e j, Some (e.1, lenient_string e.2 j))] e j).
Definition errorEnvelope (w : wire) : string * string :=
  default ("", "") (j ← w; decode_struct [("error", λ e j, Some (lenient_error e j))] ("", "") j).
Definition decodeAPIError (r : Reply) : APIError :=
  let '(code, message) := errorEnvelope r.(reply_body) in
  if decide (message = "")
  then mkAPIError r.(reply_status) "unexpected_status" ("unexpected status " +:+ pretty r.(reply_status))
  else mkAPIError r.(reply_status) code message.

(** ** Tokens *)

Class TokenStore (T : Type) := {
  GetAccessToken : T → string;
  GetRefreshToken : T → string;
  SetTokens : string → string → T → T;
  Save : T → option string * T;
  access_SetTokens : ∀ a r t, GetAccessToken (SetTokens a r t) = a;
  refresh_SetTokens : ∀ a r t, GetRefreshToken (SetTokens a r t) = r;
  access_Save : ∀ t, GetAccessToken (Save t).2 = GetAccessToken t;
  refresh_Save : ∀ t, GetRefreshToken (Save t).2 = GetRefreshToken t }.

(** The answer to a refresh. *)
Record refreshed := { refreshed_AccessToken : string; refreshed_RefreshToken : string }.
#[export] Instance refreshed_zero : Inhabited refreshed := populate (Build_refreshed "" "").
#[export] Instance into_refreshed : Into refreshed := decode_struct
  [("access_token", λ m j, v ← into m.(refreshed_AccessToken) j;
      Some (Build_refreshed v m.(refreshed_RefreshToken)));
   ("refresh_token", λ m j, v ← into m.(refreshed_RefreshToken) j;
      Some (Build_refreshed m.(refreshed_AccessToken) v))].

Section client.
Context `{TimeText} {T : Type} `{!TokenStore T} {S : Type} (Do : Call → S → (Reply + Failure) * S).

Definition Cl (A : Type) : Type := T * S → CRes A * (T * S).

(** What is made of the answer: [out] decodes it; [None] when nothing is
    wanted of it. *)
Definition take_reply {A} (method : Method) (path : string) (out : option (wire → option A)) (zero : A)
    (r : Reply) : CRes A :=
  if decide (300 ≤ r.(reply_status)) then
    let apiErr := decodeAPIError r in
    if decide (r.(reply_status) = 401) then CErr (Unauthorized apiErr) else CErr (Reported apiErr)
  else
    match out with
    | None => COk zero
    | Some out =>
        if decide (r.(reply_status) = 204) then COk zero
        else match out r.(reply_body) with
             | Some a => COk a
             | None => CErr (Failed ("decoding response for " +:+ Method_text method +:+ " " +:+ path))
             end
    end.
Definition failure_error (method : Method) (path : string) (f : Failure) : ClientError :=
  match f with
  | Unbuilt msg => Failed ("building request: " +:+ msg)
  | Unanswered msg => Failed ("calling apiserver " +:+ Method_text method +:+ " " +:+ path +:+ ": " +:+ msg)
  end.
Definition raw {A} (method : Method) (path : string) (body : option json) (authenticate : bool)
    (out : option (wire → option A)) (zero : A) : Cl A := λ '(t, s),
  let '(resp, s) := Do (mkCall method path
                          (if authenticate then "Bearer " +:+ GetAccessToken t else "")
                          (Some <$> body)) s in
  match resp with
  | inr f => (CErr (failure_error method path f), (t, s))
  | inl r => (take_reply method path out zero r, (t, s))
  end.
Definition refresh_request (token : string) : json := JObject [("refresh_token", JString token)].
(** [do]: on a 401, one refresh and one more attempt. *)
Definition do_ {A} (method : Method) (path : string) (body : option json)
    (out : option (wire → option A)) (zero : A) : Cl A := λ ts,
  match raw method path body true out zero ts with
  | (CErr (Unauthorized e), (t, s)) =>
      if decide (GetRefreshToken t = "") then (CErr (Unauthorized e), (t, s))
      else
        match raw POST "/v1/auth/refresh" (Some (refresh_request (GetRefreshToken t))) false
                (Some Unmarshal) (inhabitant : refreshed) (t, s) with
        | (CErr _, ts) => (CErr (Unauthorized e), ts)
        | (COk new, (t, s)) =>
            let t := SetTokens new.(refreshed_AccessToken) new.(refreshed_RefreshToken) t in
            let '(_, t) := Save t in
            raw method path body true out zero (t, s)
        end
  | r => r
  end.
(** A call that wants its answer, and one that does not. *)
Definition do_for (A : Type) `{!Into A, !Inhabited A} (method : Method) (path : string)
    (body : option json) : Cl A := do_ method path body (Some Unmarshal) inhabitant.
Definition do_nothing (method : Method) (path : string) : Cl unit := do_ method path None None tt.

(** ** The calls *)

Definition auth (path email password : string) : Cl Api.AuthResponse :=
  raw POST path (Some (JObject [("email", JString email); ("password", JString password)])) false
    (Some Unmarshal) inhabitant.
Definition Signup : string → string → Cl Api.AuthResponse := auth "/v1/auth/signup".
Definition Login : string → string → Cl Api.AuthResponse := auth "/v1/auth/login".

Definition Client_GetOrganization (orgID : string) : Cl Api.Organization :=
  do_for Api.Organization GET ("/v1/orgs/" +:+ orgID) None.
Definition Client_UpdateOrganization (orgID name : string) : Cl Api.Organization :=
  do_for Api.Organization PATCH ("/v1/orgs/" +:+ orgID) (Some (JObject [("name", JString name)])).
Definition Client_ListMembers (orgID : string) : Cl Api.MembershipPage :=
  do_for Api.MembershipPage GET ("/v1/orgs/" +:+ orgID +:+ "/members") None.
Definition Client_InviteMember (orgID email role : string) : Cl Api.Membership :=
  do_for Api.Membership POST ("/v1/orgs/" +:+ orgID +:+ "/members")
    (Some (JObject [("email", JString email); ("role", JString role)])).
Definition Client_ChangeMemberRole (orgID userID role : string) : Cl Api.Membership :=
  do_for Api.Membership PATCH ("/v1/orgs/" +:+ orgID +:+ "/members/" +:+ userID)
    (Some (JObject [("role", JString role)])).
Definition Client_RemoveMember (orgID userID : string) : Cl unit :=
  do_nothing DELETE ("/v1/orgs/" +:+ orgID +:+ "/members/" +:+ userID).
Definition Client_CreateProject (orgID name : string) : Cl Api.Project :=
  do_for Api.Project POST ("/v1/orgs/" +:+ orgID +:+ "/projects") (Some (JObject [("name", JString name)])).
Definition application_body (name image : string) (ports : list PortSpec) : json := JObject
  ([("name", JString name); ("image", JString image)]
   ++ omitempty (bool_decide (ports = [])) "ports" (to_json ports)).
Definition Client_CreateApplication (projectID name image : string) (ports : list PortSpec)
    : Cl Api.Application :=
  do_for Api.Application POST ("/v1/projects/" +:+ projectID +:+ "/applications")
    (Some (application_body name image ports)).
Definition deploy_body (image : string) : option json :=
  if decide (image = "") then None else Some (JObject [("image", JString image)]).
Definition Client_Deploy (appID image : string) : Cl Api.Deployment :=
  do_for Api.Deployment POST ("/v1/applications/" +:+ appID +:+ "/deployments") (deploy_body image).
Definition Client_ListDeployments (appID : string) : Cl Api.DeploymentPage :=
  do_for Api.DeploymentPage GET ("/v1/applications/" +:+ appID +:+ "/deployments") None.
Definition Client_DeleteApplication (appID : string) : Cl unit :=
  do_nothing DELETE ("/v1/applications/" +:+ appID).
Definition Client_ScaleApplication (appID : string) (replicas : Z) : Cl Api.Application :=
  do_for Api.Application PATCH ("/v1/applications/" +:+ appID)
    (Some (JObject [("replicas_desired", to_json replicas)])).
Definition Client_ListNodes : Cl Api.NodePage := do_for Api.NodePage GET "/v1/nodes" None.
Definition Client_CreateDomain (projectID hostname applicationID : string) : Cl Api.Domain :=
  do_for Api.Domain POST ("/v1/projects/" +:+ projectID +:+ "/domains")
    (Some (JObject [("hostname", JString hostname); ("application_id", JString applicationID)])).
Definition Client_ListDomains (projectID : string) : Cl Api.DomainPage :=
  do_for Api.DomainPage GET ("/v1/projects/" +:+ projectID +:+ "/domains") None.
Definition Client_DeleteDomain (domainID : string) : Cl unit :=
  do_nothing DELETE ("/v1/domains/" +:+ domainID).
Definition api_key_body (name : string) (scopes : list string) : json := JObject
  ([("name", JString name)] ++ omitempty (bool_decide (scopes = [])) "scopes" (to_json scopes)).
Definition Client_CreateAPIKey (orgID name : string) (scopes : list string) : Cl Api.APIKey :=
  do_for Api.APIKey POST ("/v1/orgs/" +:+ orgID +:+ "/api-keys") (Some (api_key_body name scopes)).
Definition Client_ListAPIKeys (orgID : string) : Cl Api.APIKeyPage :=
  do_for Api.APIKeyPage GET ("/v1/orgs/" +:+ orgID +:+ "/api-keys") None.
Definition Client_DeleteAPIKey (keyID : string) : Cl unit := do_nothing DELETE ("/v1/api-keys/" +:+ keyID).
Definition Client_GetQuota (orgID : string) : Cl Api.Quota :=
  do_for Api.Quota GET ("/v1/orgs/" +:+ orgID +:+ "/quota") None.
Definition audit_path (orgID cursor : string) : string :=
  "/v1/orgs/" +:+ orgID +:+ "/audit-logs"
  +:+ (if decide (cursor = "") then "" else "?cursor=" +:+ QueryEscape cursor).
Definition Client_ListAuditLogs (orgID cursor : string) : Cl Api.AuditLogPage :=
  do_for Api.AuditLogPage GET (audit_path orgID cursor) None.

(** [stream]: what the body of an opened log delivers, and how it ends.  The
    result comes with what was written. *)
Definition logs_path (appID : string) (follow : bool) : string :=
  "/v1/applications/" +:+ appID +:+ "/logs" +:+ (if follow then "?follow=true" else "").
Definition Client_FollowLogs (appID : string) (follow : bool) (stream : list string * option string)
    (ts : T * S) : (CRes unit * string) * (T * S) :=
  let '(t, s) := ts in
  let path := logs_path appID follow in
  let '(resp, s) := Do (mkCall GET path ("Bearer " +:+ GetAccessToken t) None) s in
  match resp with
  | inr (Unbuilt msg) => ((CErr (Failed msg), ""), (t, s))
  | inr f => ((CErr (failure_error GET path f), ""), (t, s))
  | inl r =>
      if decide (r.(reply_status) = 200) then
        ((match stream.2 with Some msg => CErr (Failed msg) | None => COk tt end,
          String.concat "" stream.1), (t, s))
      else ((CErr (Reported (decodeAPIError r)), ""), (t, s))
  end.
End client.
