(* ===== verification/Replies.v ===== *)
(** * Replies: what the API answers when it does not do what it was asked

    Every error of a handler goes through the envelope of
    services/apiserver/internal/server/server.go.  [error_codes] is the list of
    statuses and codes of each route; [ends] is a logic of how a computation
    ends, in which a handler is shown to answer, and to answer an error of its
    list only. *)
From S2P Require Import Prelude Json Http Schema Effects Rls Outcomes DbTenancy DbWorkload.
From S2P Require Import DbCluster Wire Encoding Auth Concrete ApiCore ApiOrgs ApiApps ApiAuth.
From S2P Require Import Routes Traffic ApiMux.
From stdpp Require Import base gmap strings list.
From Stdlib Require Import ZArith Lia.
Open Scope Z_scope.

(** ** The codes *)

Definition invalid_body : Z * string := (400, "invalid_body").
Definition unauthorized : Z * string := (401, "unauthorized").
Definition forbidden : Z * string := (403, "forbidden").
Definition not_found : Z * string := (404, "not_found").
Definition conflict : Z * string := (409, "conflict").
Definition missing_field : Z * string := (422, "missing_field").
Definition last_owner : Z * string := (422, "last_owner").
Definition quota_exceeded : Z * string := (422, "quota_exceeded").
Definition runtime_error : Z * string := (502, "runtime_error").
Definition deploy_failed : Z * string := (502, "deploy_failed").

(** Of an authenticated route, besides 401 and 500. *)
Definition route_codes (r : Route) : list (Z * string) :=
  match r with
  | GetOrganization _ | ListMembers _ | GetQuota _ => [invalid_body; not_found]
  | UpdateOrganization _ _ => [invalid_body; missing_field; forbidden; not_found]
  | DeleteOrganization _ => [invalid_body; forbidden; not_found]
  | InviteMember _ _ => [invalid_body; missing_field; forbidden; not_found; conflict]
  | ChangeMemberRole _ _ _ => [invalid_body; missing_field; forbidden; not_found; last_owner]
  | RemoveMember _ _ => [invalid_body; forbidden; not_found; last_owner]
  | CreateAPIKey _ _ _ => [invalid_body; missing_field; forbidden; not_found]
  | ListAPIKeys _ | RevokeAPIKey _ | GetAuditLogs _ _ _ => [invalid_body; forbidden; not_found]
  | CreateProject _ _ =>
      [invalid_body; missing_field; forbidden; not_found; quota_exceeded; conflict]
  | CreateApplication _ _ => [invalid_body; missing_field; forbidden; not_found; conflict]
  | Deploy _ _ => [invalid_body; forbidden; not_found; quota_exceeded; conflict; deploy_failed]
  | GetDeployments _ _ _ | GetBuilds _ _ _ => [invalid_body; not_found]
  | GetLogs _ _ => [invalid_body; not_found; runtime_error]
  | ScaleApplication _ _ => [invalid_body; missing_field; forbidden; not_found; quota_exceeded]
  | DeleteApplication _ => [invalid_body; forbidden; not_found; runtime_error]
  | GetNodes => [forbidden]
  | CreateDomain _ _ => [invalid_body; missing_field; forbidden; not_found; conflict]
  | ListDomains _ => [invalid_body; not_found]
  | DeleteDomain _ => [invalid_body; forbidden; not_found]
  end.
Definition route_success (r : Route) : list Z :=
  match r with
  | InviteMember _ _ | CreateAPIKey _ _ _ | CreateProject _ _ | CreateApplication _ _
  | CreateDomain _ _ => [201]
  | Deploy _ _ => [201; 202]
  | DeleteOrganization _ | RemoveMember _ _ | RevokeAPIKey _ | DeleteApplication _
  | DeleteDomain _ => [204]
  | _ => [200]
  end.

Section codes.
Context `{UUIDText} `{TimeText} `{CursorText} `{Credentials}.
Definition error_codes (q : HttpRequest) : list (Z * string) :=
  match q with
  | ApiRequest _ r => unauthorized :: route_codes r
  | SignupRequest _ _ _ => [invalid_body; missing_field; conflict]
  | LoginRequest _ _ | RefreshRequest _ _ => [invalid_body; unauthorized]
  end.
Definition success_codes (q : HttpRequest) : list Z :=
  match q with
  | ApiRequest _ r => route_success r
  | SignupRequest _ _ _ => [201]
  | LoginRequest _ _ | RefreshRequest _ _ => [200]
  end.
End codes.

(** The envelope of an error of the list, with a message; an error that is none
    of the API's own is answered by 500 and tells nothing. *)
Definition internal_reply : Reply :=
  writeJSON 500 (errorBody "internal_error" "an unexpected error occurred").
Definition error_reply (codes : list (Z * string)) (r : Reply) : Prop :=
  r = internal_reply
  ∨ ∃ status code message, (status, code) ∈ codes ∧ message ≠ ""
      ∧ r = writeJSON status (errorBody code message).

(** ** How a computation ends *)

Definition ends {A} (Q : A → Prop) (E : error → Prop) (m : M A) : Prop :=
  ∀ w, match (m w).1 with Ok a => Q a | Err e => E e end.
Definition any {A} (_ : A) : Prop := True.

(** Which of the sentinels an error may be or wrap, and the codes an error of
    the API may have. *)
Record errs (rows found conf : bool) (codes : list (Z * string)) (e : error) : Prop := {
  errs_rows : errors_Is e ErrNoRows = true → rows = true;
  errs_found : errors_Is e ErrNotFound = true → found = true;
  errs_conf : errors_Is e ErrConflict = true → conf = true;
  errs_api : ∀ status code message, e = APIError status code message →
    (status, code) ∈ codes ∧ message ≠ "" }.
Definition only (codes : list (Z * string)) : error → Prop := errs true true true codes.

Lemma errs_mono r n c l r' n' c' l' e :
  errs r n c l e → implb r r' = true → implb n n' = true → implb c c' = true →
  Forall (λ x, x ∈ l') l → errs r' n' c' l' e.
Proof.
  intros [Hr Hn Hc Ha] Hr' Hn' Hc' Hl. split.
  - intros Hi. by rewrite (Hr Hi) in Hr'.
  - intros Hi. by rewrite (Hn Hi) in Hn'.
  - intros Hi. by rewrite (Hc Hi) in Hc'.
  - intros s k m ->. destruct (Ha s k m eq_refl) as [Hin Hm]. split; [|done].
    rewrite Forall_forall in Hl. by apply Hl.
Qed.
Lemma errs_wrapped r n c l p e : errs r n c l e → errs r n c [] (Errorf p e).
Proof. intros [Hr Hn Hc _]. split; simpl; [done..|]. by intros s k m [=]. Qed.
Lemma only_foreign l e : (∀ s k m, e ≠ APIError s k m) → only l e.
Proof. intros He. split; [done..|]. intros s k m ->. by destruct (He s k m). Qed.
Lemma only_api l s k m : (s, k) ∈ l → m ≠ "" → only l (APIError s k m).
Proof. intros Hl Hm. split; [done..|]. by intros ? ? ? [= <- <- <-]. Qed.
Lemma errs_opaque msg : errs false false false [] (Opaque msg).
Proof. split; simpl; [done..|]. by intros ? ? ? [=]. Qed.

Section ends.
Context {A B : Type}.
Implicit Types (E : error → Prop).

Lemma ends_mono (Q Q' : A → Prop) E E' m :
  ends Q E m → (∀ a, Q a → Q' a) → (∀ e, E e → E' e) → ends Q' E' m.
Proof. intros Hm HQ HE w. specialize (Hm w). destruct (m w).1; auto. Qed.
Lemma ends_ret (Q : A → Prop) E a : Q a → ends Q E (mret a).
Proof. by intros HQ w. Qed.
Lemma ends_fail (Q : A → Prop) E e : E e → ends Q E (fail e).
Proof. by intros HE w. Qed.
Lemma ends_bind (Q : A → Prop) (Q' : B → Prop) E m (k : A → M B) :
  ends Q E m → (∀ a, Q a → ends Q' E (k a)) → ends Q' E (m ≫= k).
Proof.
  intros Hm Hk w. unfold mbind, M_bind. specialize (Hm w). destruct (m w) as [[a|e] w']; [|done].
  by apply Hk.
Qed.
Lemma ends_catch (Q : A → Prop) E E' m h :
  ends Q E m → (∀ e, E e → ends Q E' (h e)) → ends Q E' (catch m h).
Proof.
  intros Hm Hh w. unfold catch. specialize (Hm w). destruct (m w) as [[a|e] w']; [done|]. by apply Hh.
Qed.
Lemma ends_try (E : error → Prop) E' (m : M A) :
  ends any E m → ends (λ r, match r with Ok _ => True | Err e => E e end) E' (try m).
Proof. intros Hm w. unfold try. specialize (Hm w). by destruct (m w) as [[a|e] w']. Qed.
Lemma ends_wrap r n c l p (m : M A) : ends any (errs r n c l) m → ends any (errs r n c []) (wrap p m).
Proof. intros Hm. eapply ends_catch; [exact Hm|]. intros e He. by apply ends_fail, (errs_wrapped _ _ _ l). Qed.
Lemma ends_in_tx (Q : A → Prop) E m : ends Q E m → ends Q E (in_tx m).
Proof.
  intros Hm w. unfold in_tx. specialize (Hm (set_sess noSession w)).
  by destruct (m (set_sess noSession w)) as [[a|e] w'].
Qed.
End ends.
Lemma ends_gets {A} (f : World → A) E : ends any E (gets f).
Proof. done. Qed.
Lemma ends_emit ev E : ends any E (emit ev).
Proof. done. Qed.
Lemma ends_external : ends any (errs false false false []) external.
Proof. intros w. unfold external. destruct (w_faults w) as [|[msg|] ?]; simpl; [done|apply errs_opaque|done]. Qed.

(** ** Statements *)

Definition states {A} (r : bool) (st : Stmt A) : Prop :=
  ∀ s d e, st s d = Err e → errs r false false [] e.
Lemma ends_run_stmt {A} c r (st : Stmt A) : states r st → ends any (errs r false false []) (run_stmt c st).
Proof.
  intros Hst. apply ends_bind with (Q := any).
  { eapply ends_mono; [apply ends_external|done|]. intros e He. by eapply errs_mono. }
  intros _ _ w. unfold execute. destruct (st (stmt_env c w) (w_db w)) as [[a d]|e] eqn:E; [done|].
  by eapply Hst.
Qed.
Lemma states_query {A} (q : StmtEnv → DB → A) : states false (query q).
Proof. by intros s d e [=]. Qed.
Lemma states_query_row {A} (q : StmtEnv → DB → list A) : states true (query_row q).
Proof.
  intros s d e. unfold query_row. destruct (q s d); [|done]. intros [= <-].
  split; simpl; [done..|]. by intros ? ? ? [=].
Qed.
(** Statements that check and then write; [r]: they may find no row. *)
Inductive checked {A} (r : bool) : Res A → Prop :=
| checked_ok a : checked r (Ok a)
| checked_none : r = true → checked r (Err ErrNoRows)
| checked_pg code : checked r (Err (PgError code))
| checked_opaque msg : checked r (Err (Opaque msg)).
Lemma checked_bind {A B} r (m : Res A) (k : A → Res B) :
  checked r m → (∀ a, checked r (k a)) → checked r (m ≫= k).
Proof. intros [] Hk; [apply Hk|by constructor..]. Qed.
Lemma checked_require r P `{!Decision P} code : checked r (require P code).
Proof. unfold require. case_decide; constructor. Qed.
Lemma checked_int4 r z : checked r (encode_int4 z).
Proof. unfold encode_int4. destruct (int4_ok z); constructor. Qed.
Lemma checked_sum_int4 r l : checked r (sum_int4 l).
Proof.
  induction l as [|z l IH]; simpl; [constructor|]. apply checked_bind; [apply checked_require|].
  intros _. apply checked_bind; [done|]. intros; constructor.
Qed.
Lemma states_checked {A} r (st : Stmt A) : (∀ s d, checked r (st s d)) → states r st.
Proof.
  intros Hst s d e E. specialize (Hst s d). rewrite E in Hst.
  inversion Hst; subst; split; simpl; try done; by intros ? ? ? [=].
Qed.
Ltac head_of x := match x with ?f _ => head_of f | ?f => f end.
Ltac checked_step :=
  match goal with
  | |- checked _ (mbind _ _) => apply checked_bind; [|intros ?]
  | |- checked _ (require _ _) => apply checked_require
  | |- checked _ (encode_int4 _) => apply checked_int4
  | |- checked _ (sum_int4 _) => apply checked_sum_int4
  | |- checked _ (Ok _) => constructor
  | |- checked _ (Err ErrNoRows) => constructor; reflexivity
  | |- checked _ (Err _) => constructor
  | |- checked _ (mret _) => constructor
  | |- checked _ (match ?x with _ => _ end) => destruct x
  | |- checked _ (let _ := _ in _) => cbv zeta
  | |- checked _ ?x => let f := head_of x in unfold f
  end.
(** No row is found only when the statement may find none. *)
Ltac states_auto :=
  first [ apply states_query | apply states_query_row
        | solve [apply (states_checked false); intros; repeat checked_step]
        | solve [apply (states_checked true); intros; repeat checked_step] ].

(** ** Repositories *)

Lemma ends_or_not_found {A} p r n c (m : M A) :
  ends any (errs r n c []) m → ends any (errs false (r || n) c []) (or_not_found p m).
Proof.
  intros Hm. eapply ends_catch; [exact Hm|]. intros e [Hr Hn Hc Ha].
  destruct (errors_Is e ErrNoRows) eqn:E; apply ends_fail; split; simpl; try done.
  - by rewrite Hr.
  - by rewrite E.
  - intros Hi. by rewrite (Hn Hi), orb_true_r.
Qed.
Lemma ends_scan {A} r n c (m : M A) :
  ends any (errs r n c []) m → ends any (errs false (r || n) c []) (scan m).
Proof.
  intros Hm. eapply ends_catch; [exact Hm|]. intros e [Hr Hn Hc Ha].
  destruct (errors_Is e ErrNoRows) eqn:E; apply ends_fail; split; simpl; try done.
  - by rewrite Hr.
  - by rewrite E.
  - intros Hi. by rewrite (Hn Hi), orb_true_r.
Qed.
Lemma ends_or_conflict {A} p r n c (m : M A) :
  ends any (errs r n c []) m → ends any (errs r n true []) (or_conflict p m).
Proof.
  intros Hm. eapply ends_catch; [exact Hm|]. intros e He.
  destruct (isUniqueViolation e); apply ends_fail; [by split|].
  eapply errs_mono; [by apply (errs_wrapped r n c [])|by destruct r|by destruct n|by destruct c|done].
Qed.
Lemma ends_exec_affected p c r (st : Stmt Z) :
  states r st → ends any (errs r true false []) (exec_affected p c st).
Proof.
  intros Hst. apply ends_bind with (Q := any).
  - eapply ends_mono; [eapply (ends_wrap _ _ _ []); by apply ends_run_stmt|done|]. intros e He.
    eapply errs_mono; [exact He|by destruct r|done..].
  - intros n _. case_decide; [apply ends_fail; by split|by apply ends_ret].
Qed.
Lemma ends_rescan {A} p r n c (m : M A) :
  ends any (errs r n c []) m →
  ends any (errs r n c [])
    (catch m (λ e, if errors_Is e ErrNotFound then fail ErrNotFound else fail (Errorf p e))).
Proof.
  intros Hm. eapply ends_catch; [exact Hm|]. intros e He.
  destruct (errors_Is e ErrNotFound) eqn:E; apply ends_fail; [|by apply (errs_wrapped r n c [])].
  split; simpl; [done|intros _; by apply (errs_found _ _ _ _ _ He)|done|by intros ? ? ? [=]].
Qed.

(** A method's errors are those of its statement, seen through its shape. *)
Ltac repo_step :=
  match goal with
  | |- ends _ _ (or_not_found _ _) => eapply ends_or_not_found
  | |- ends _ _ (or_conflict _ _) => eapply ends_or_conflict
  | |- ends _ _ (scan _) => eapply ends_scan
  | |- ends _ _ (exec_affected _ _ _) => eapply ends_exec_affected
  | |- ends _ _ (wrap _ _) => eapply ends_wrap
  | |- ends _ _ (catch _ _) => eapply ends_rescan
  | |- ends _ _ (run_stmt _ _) => eapply ends_run_stmt
  end.
Lemma ends_weaken {A} r n c l r' n' c' l' (m : M A) :
  ends any (errs r n c l) m → implb r r' = true → implb n n' = true → implb c c' = true →
  Forall (λ x, x ∈ l') l → ends any (errs r' n' c' l') m.
Proof. intros Hm ????. eapply ends_mono; [exact Hm|done|]. intros e He. by eapply errs_mono. Qed.
Ltac repo :=
  match goal with |- ends _ _ ?x => let f := head_of x in unfold f end;
  eapply ends_weaken; [repeat repo_step; states_auto|done..].

Create HintDb ends.
#[export] Hint Resolve errs_opaque ends_external : ends.

Lemma ends_organization_Create c name slug :
  ends any (errs false false true []) (OrganizationRepository.Create c name slug).
Proof. repo. Qed.
Lemma ends_organization_Get c i :
  ends any (errs false true false []) (OrganizationRepository.Get c i).
Proof. repo. Qed.
Lemma ends_organization_Update c i name :
  ends any (errs false true false []) (OrganizationRepository.Update c i name).
Proof. repo. Qed.
Lemma ends_organization_Delete c i :
  ends any (errs false true false []) (OrganizationRepository.Delete c i).
Proof. repo. Qed.
Lemma ends_user_Create c email h :
  ends any (errs false false true []) (UserRepository.Create c email h).
Proof. repo. Qed.
Lemma ends_user_GetByEmail c email :
  ends any (errs false true false []) (UserRepository.GetByEmail c email).
Proof. repo. Qed.
Lemma ends_user_GetByID c i :
  ends any (errs false true false []) (UserRepository.GetByID c i).
Proof. repo. Qed.
Lemma ends_membership_Create c o u role :
  ends any (errs false false true []) (MembershipRepository.Create c o u role).
Proof. repo. Qed.
Lemma ends_RoleForUser c u o :
  ends any (errs false true false []) (MembershipRepository.RoleForUser c u o).
Proof. repo. Qed.
Lemma ends_ListForUser c u :
  ends any (errs false false false []) (MembershipRepository.ListForUser c u).
Proof. repo. Qed.
Lemma ends_ListByOrg c o :
  ends any (errs false false false []) (MembershipRepository.ListByOrg c o).
Proof. repo. Qed.
Lemma ends_UpdateRole c o u role :
  ends any (errs false true false []) (MembershipRepository.UpdateRole c o u role).
Proof. repo. Qed.
Lemma ends_membership_Delete c o u :
  ends any (errs false true false []) (MembershipRepository.Delete c o u).
Proof. repo. Qed.
Lemma ends_CountOwners c o :
  ends any (errs false false false []) (MembershipRepository.CountOwners c o).
Proof. repo. Qed.
Lemma ends_project_Create c o name slug :
  ends any (errs false false true []) (ProjectRepository.Create c o name slug).
Proof. repo. Qed.
Lemma ends_project_OrgID c i :
  ends any (errs false true false []) (ProjectRepository.OrgID c i).
Proof. repo. Qed.
Lemma ends_application_Create c o p name image ports :
  ends any (errs false false true []) (ApplicationRepository.Create c o p name image ports).
Proof. repo. Qed.
Lemma ends_application_Get c i :
  ends any (errs false true false []) (ApplicationRepository.Get c i).
Proof. repo. Qed.
Lemma ends_application_OrgID c i :
  ends any (errs false true false []) (ApplicationRepository.OrgID c i).
Proof. repo. Qed.
Lemma ends_UpdateImage c i image :
  ends any (errs false true false []) (ApplicationRepository.UpdateImage c i image).
Proof. repo. Qed.
Lemma ends_UpdateReplicas c i n :
  ends any (errs false true false []) (ApplicationRepository.UpdateReplicas c i n).
Proof. repo. Qed.
Lemma ends_application_Delete c i :
  ends any (errs false true false []) (ApplicationRepository.Delete c i).
Proof. repo. Qed.
Lemma ends_api_key_Create c o name scopes u hash :
  ends any (errs false false false []) (APIKeyRepository.Create c o name scopes u hash).
Proof. repo. Qed.
Lemma ends_api_key_ListByOrg c o :
  ends any (errs false false false []) (APIKeyRepository.ListByOrg c o).
Proof. repo. Qed.
Lemma ends_api_key_OrgID c i :
  ends any (errs false true false []) (APIKeyRepository.OrgID c i).
Proof. repo. Qed.
Lemma ends_api_key_Revoke c i :
  ends any (errs false true false []) (APIKeyRepository.Revoke c i).
Proof. repo. Qed.
Lemma ends_domain_Create c o p a hostname :
  ends any (errs false false true []) (DomainRepository.Create c o p a hostname).
Proof. repo. Qed.
Lemma ends_ListByProject c p :
  ends any (errs false false false []) (DomainRepository.ListByProject c p).
Proof. repo. Qed.
Lemma ends_domain_OrgID c i :
  ends any (errs false true false []) (DomainRepository.OrgID c i).
Proof. repo. Qed.
Lemma ends_UpdateTLSStatus c i st :
  ends any (errs false true false []) (DomainRepository.UpdateTLSStatus c i st).
Proof. repo. Qed.
Lemma ends_domain_Delete c i :
  ends any (errs false true false []) (DomainRepository.Delete c i).
Proof. repo. Qed.
Lemma ends_refresh_Create c u h t :
  ends any (errs false false true []) (RefreshTokenRepository.Create c u h t).
Proof. repo. Qed.
Lemma ends_GetByHash c h :
  ends any (errs false true false []) (RefreshTokenRepository.GetByHash c h).
Proof. repo. Qed.
Lemma ends_Rotate c i j :
  ends any (errs false true false []) (RefreshTokenRepository.Rotate c i j).
Proof. repo. Qed.
Lemma ends_quota_Create c o q :
  ends any (errs false false true []) (QuotaRepository.Create c o q).
Proof. repo. Qed.
Lemma ends_quota_Get c o :
  ends any (errs false true false []) (QuotaRepository.Get c o).
Proof. repo. Qed.
Lemma ends_audit_Record c o u a ty tid md :
  ends any (errs false false false []) (AuditLogRepository.Record_ c o u a ty tid md).
Proof. repo. Qed.
Lemma ends_deployment_Create c o a image u :
  ends any (errs false false true []) (DeploymentRepository.Create c o a image u).
Proof. repo. Qed.
Lemma ends_deployment_UpdateResult c i st w :
  ends any (errs false true false []) (DeploymentRepository.UpdateResult c i st w).
Proof. repo. Qed.
Lemma ends_deployment_List c a limit after :
  ends any (errs false false false []) (DeploymentRepository.ListByApplication c a limit after).
Proof. repo. Qed.
Lemma ends_Latest c a :
  ends any (errs false true false []) (DeploymentRepository.Latest c a).
Proof. repo. Qed.
Lemma ends_ListByDeployment c i :
  ends any (errs false false false []) (ContainerRepository.ListByDeployment c i).
Proof. repo. Qed.
Lemma ends_CountActive c i :
  ends any (errs false false false []) (ContainerRepository.CountActiveByDeployment c i).
Proof. repo. Qed.
Lemma ends_build_Create c o a url ref u :
  ends any (errs false false false []) (BuildRepository.Create c o a url ref u).
Proof. repo. Qed.
Lemma ends_build_UpdateResult c i st sha image err :
  ends any (errs false true false []) (BuildRepository.UpdateResult c i st sha image err).
Proof. repo. Qed.
Lemma ends_node_List c :
  ends any (errs false false false []) (NodeRepository.List c).
Proof. repo. Qed.
Lemma ends_GetByApplication c a :
  ends any (errs false true false []) (ServiceRepository.GetByApplication c a).
Proof. repo. Qed.
#[export] Hint Resolve ends_organization_Create ends_organization_Get ends_organization_Update
  ends_organization_Delete ends_user_Create ends_user_GetByEmail ends_user_GetByID
  ends_membership_Create ends_RoleForUser ends_ListForUser ends_ListByOrg ends_UpdateRole
  ends_membership_Delete ends_CountOwners ends_project_Create ends_project_OrgID
  ends_application_Create ends_application_Get ends_application_OrgID ends_UpdateImage
  ends_UpdateReplicas ends_application_Delete ends_api_key_Create ends_api_key_ListByOrg
  ends_api_key_OrgID ends_api_key_Revoke ends_domain_Create ends_ListByProject
  ends_domain_OrgID ends_UpdateTLSStatus ends_domain_Delete ends_refresh_Create
  ends_GetByHash ends_Rotate ends_quota_Create ends_quota_Get ends_audit_Record
  ends_deployment_Create ends_deployment_UpdateResult ends_deployment_List ends_Latest
  ends_ListByDeployment ends_CountActive ends_build_Create ends_build_UpdateResult
  ends_node_List ends_GetByApplication : ends.

(** ** Handlers *)

Lemma ends_mapped {A} nf cf r n c l r' n' c' codes (m : M A) :
  ends any (errs r n c l) m → (n = true → not_found ∈ codes ∧ nf ≠ "") →
  (c = true → conflict ∈ codes ∧ cf ≠ "") → implb r r' = true → Forall (λ x, x ∈ codes) l →
  ends any (errs r' n' c' codes) (mapped nf cf m).
Proof.
  intros Hm Hn Hc Hr Hl. eapply ends_catch; [exact Hm|]. intros e [He1 He2 He3 He4].
  apply ends_fail. unfold mapDBError.
  destruct (errors_Is e ErrNotFound) eqn:E; [|destruct (errors_Is e ErrConflict) eqn:E'].
  - split; simpl; [done..|]. intros ? ? ? [= <- <- <-]. by apply Hn, He2.
  - split; simpl; [done..|]. intros ? ? ? [= <- <- <-]. by apply Hc, He3.
  - split; [intros Hi; by rewrite (He1 Hi) in Hr|by rewrite E|by rewrite E'|].
    intros s k msg ->. destruct (He4 s k msg eq_refl). split; [|done]. rewrite Forall_forall in Hl. by apply Hl.
Qed.
Lemma ends_WithTx {A} (Q : A → Prop) r n c l u o (m : M A) :
  ends Q (errs r n c l) m → ends Q (errs r n c l) (WithTx u o m).
Proof.
  assert (∀ p (k : M unit), ends any (errs false false false []) k →
    ends any (errs r n c l) (wrap p k)) as Hw.
  { intros p k Hk. eapply ends_mono; [by eapply ends_wrap|done|]. intros e He.
    by eapply errs_mono. }
  assert (∀ p f, ends any (errs r n c l) (wrap p (external ;; set_session f))) as Hs.
  { intros p f. apply Hw. eapply ends_bind; [apply ends_external|]. by intros. }
  intros Hm. unfold WithTx. eapply ends_bind; [apply Hw, ends_external|]. intros _ _.
  apply ends_in_tx. eapply (ends_bind any); [case_decide; [by apply ends_ret|apply Hs]|]. intros _ _.
  eapply (ends_bind any); [case_decide; [by apply ends_ret|apply Hs]|]. intros _ _.
  eapply ends_bind; [exact Hm|]. intros a Ha.
  eapply ends_bind; [apply Hw, ends_external|]. intros _ _. by apply ends_ret.
Qed.
Lemma ends_SetCurrentOrg o : ends any (errs false false false []) (SetCurrentOrg o).
Proof. eapply ends_wrap, ends_bind; [apply ends_external|]. by intros. Qed.
Lemma ends_SetCurrentUser u : ends any (errs false false false []) (SetCurrentUser u).
Proof. eapply ends_wrap, ends_bind; [apply ends_external|]. by intros. Qed.
Lemma ends_PublishDurable s p : ends any (errs false false false []) (PublishDurable s p).
Proof. eapply ends_wrap, ends_bind; [apply ends_external|]. by intros. Qed.
#[export] Hint Resolve ends_SetCurrentOrg ends_SetCurrentUser ends_PublishDurable : ends.

(** What is decided by computing: that a code is in a list, that a message is
    not empty. *)
Lemma app_ne a b : b ≠ "" → a +:+ b ≠ "".
Proof. by destruct a. Qed.
Lemma app_ne_l a b : a ≠ "" → a +:+ b ≠ "".
Proof. by destruct a. Qed.
Ltac listed := apply (bool_decide_unpack _); vm_compute; exact I.
Ltac said := first [assumption | discriminate | apply app_ne; said | apply app_ne_l; said].
Lemma errs_said r n c codes s k m :
  (s, k) ∈ codes → m ≠ "" → errs r n c codes (APIError s k m).
Proof. intros Hl Hm. split; simpl; [done..|]. by intros ? ? ? [= <- <- <-]. Qed.
Lemma errs_text r n c codes msg : errs r n c codes (Opaque msg).
Proof. split; simpl; [done..|]. by intros ? ? ? [=]. Qed.
Lemma errs_cursor r n c codes p msg : errs r n c codes (Errorf p (Opaque msg)).
Proof. split; simpl; [done..|]. by intros ? ? ? [=]. Qed.
Lemma ends_try_bind {A B} (Q : B → Prop) E (m : M A) (k : Res A → M B) :
  ends any E m → (∀ a, ends Q E (k (Ok a))) → (∀ e, E e → ends Q E (k (Err e))) →
  ends Q E (try m ≫= k).
Proof.
  intros Hm Hok Herr. eapply ends_bind; [by apply ends_try|]. intros [a|e] He; [apply Hok|by apply Herr].
Qed.
Lemma ends_if_found {A} (Q : A → Prop) E e (m : M A) :
  E e → ends Q E m → ends Q E (if errors_Is e ErrNotFound then m else fail e).
Proof. intros He Hm. by destruct (errors_Is e ErrNotFound); [|apply ends_fail]. Qed.

Ltac ends_step :=
  match goal with
  | |- ends _ _ (mbind _ (try _)) => apply ends_try_bind; [|intros ?|intros ? ?]
  | |- ends _ _ (mbind _ _) => apply (ends_bind any); [|intros ? _]
  | |- ends _ _ (if errors_Is _ ErrNotFound then _ else fail _) => apply ends_if_found; [assumption|]
  | |- ends _ _ (match ?x with _ => _ end) => destruct x
  | |- ends _ _ (let _ := _ in _) => cbv zeta
  | |- ends any _ (mret _) => by apply ends_ret
  | |- ends _ _ (mret _) => apply ends_ret; simpl; listed
  | |- ends _ _ (fail _) => apply ends_fail;
      first [assumption | apply errs_text | apply errs_cursor | apply errs_said; [listed|said]]
  | |- ends _ _ (WithTx _ _ _) => apply ends_WithTx
  | |- ends _ _ (logf _) => apply ends_emit
  | |- ends _ _ now => apply ends_gets
  | |- ends _ _ (mapped _ _ _) =>
      eapply ends_mapped;
        [solve [eauto 3 with ends]|first [done | by intros _; split; [listed|said]]
        |first [done | by intros _; split; [listed|said]]|done|listed]
  | |- ends any ?E (catch _ _) => apply (ends_catch any E); [|intros ? ?]
  | |- ends any _ (run_stmt _ _) =>
      eapply ends_weaken; [repeat repo_step; states_auto|done..]
  | |- ends any _ (wrap _ (run_stmt _ _)) =>
      eapply ends_weaken; [repeat repo_step; states_auto|done..]
  | |- ends any _ _ => eapply ends_weaken; [solve [eauto 3 with ends]|done|done|done|listed]
  | |- ends _ _ ?x => let f := head_of x in unfold f
  end.
Ltac ends_auto := repeat ends_step.

Lemma ends_KeyMatch id o : ends any (errs false false false [not_found]) (requireAPIKeyOrgMatch id o).
Proof. unfold requireAPIKeyOrgMatch. ends_auto. Qed.
#[export] Hint Resolve ends_KeyMatch : ends.
Lemma ends_requirePermission c id o p :
  ends any (errs false true false [not_found; forbidden]) (requirePermission c id o p).
Proof. unfold requirePermission. ends_auto. Qed.
Lemma ends_requireMembership c id o :
  ends any (errs false true false [not_found]) (requireMembership c id o).
Proof. unfold requireMembership. ends_auto. Qed.
Lemma ends_requirePlatformAdmin c u :
  ends any (errs false false false [forbidden]) (requirePlatformAdmin c u).
Proof. unfold requirePlatformAdmin. ends_auto. Qed.
Lemma ends_recordAudit c o u action ttype i md :
  ends any (errs false false false []) (recordAudit c o u action ttype i md).
Proof. unfold recordAudit. ends_auto. Qed.
Lemma ends_CurrentUsage c o : ends any (errs false false false []) (QuotaRepository.CurrentUsage c o).
Proof.
  unfold QuotaRepository.CurrentUsage.
  repeat (eapply (ends_bind any); [eapply ends_weaken; [repeat repo_step; states_auto|done..]|intros ? _]).
  by apply ends_ret.
Qed.
#[export] Hint Resolve ends_requirePermission ends_requireMembership ends_requirePlatformAdmin
  ends_recordAudit ends_CurrentUsage : ends.
Lemma ends_checkProjectQuota c o :
  ends any (errs false true false [quota_exceeded]) (checkProjectQuota c o).
Proof. unfold checkProjectQuota. ends_auto. Qed.
Lemma ends_checkDeploymentQuota c o :
  ends any (errs false true false [quota_exceeded]) (checkDeploymentQuota c o).
Proof. unfold checkDeploymentQuota. ends_auto. Qed.
Lemma ends_currentAppContainers c a : ends any (errs false true false []) (currentAppContainers c a).
Proof. unfold currentAppContainers. ends_auto. Qed.
#[export] Hint Resolve ends_currentAppContainers : ends.
Lemma ends_checkResourceQuota c o a n :
  ends any (errs false true false [quota_exceeded]) (checkResourceQuota c o a n).
Proof. unfold checkResourceQuota. ends_auto. Qed.
#[export] Hint Resolve ends_checkProjectQuota ends_checkDeploymentQuota ends_checkResourceQuota : ends.

Section handlers.
Context `{UUIDText} `{TimeText} `{CursorText} `{Credentials}.
Context (bus : bool) (registryAddr : string).

Lemma ends_path_id name s : ends any (errs false false false [invalid_body]) (path_id name s).
Proof. unfold path_id. ends_auto. Qed.
Lemma ends_decode_body {A} `{!Into A, !Inhabited A} what body :
  ends any (errs false false false [invalid_body]) (decode_body (A:=A) what body).
Proof. unfold decode_body. ends_auto. Qed.
Lemma ends_decode_role s : ends any (errs false false false [missing_field]) (decode_role s).
Proof. unfold decode_role. ends_auto. Qed.
#[local] Hint Resolve ends_path_id ends_decode_body ends_decode_role : ends.
Lemma ends_guard_last_owner o (P : Prop) `{!Decision P} msg :
  msg ≠ "" → ends any (errs false false false [last_owner]) (guard_last_owner o P msg).
Proof. intros Hm. unfold guard_last_owner. ends_auto. Qed.
Lemma ends_resolve_org missing r c (m : M uuid) :
  missing ≠ "" → ends any (errs r true false []) m →
  ends any (errs r true c [not_found]) (resolve_org missing m).
Proof.
  intros Hm He. unfold resolve_org. eapply (ends_bind any).
  - eapply ends_mapped; [exact He|intros _; split; [listed|done]|done|by destruct r|done].
  - intros o _. ends_auto. all: by destruct r.
Qed.
Lemma ends_bus s p : ends any (errs false false false []) (bus_PublishDurable bus s p).
Proof. unfold bus_PublishDurable. ends_auto. Qed.
#[local] Hint Resolve ends_bus : ends.
#[local] Hint Extern 1 (ends _ _ (guard_last_owner _ _ _)) => apply ends_guard_last_owner; discriminate : ends.
#[local] Hint Extern 1 (ends _ _ (resolve_org _ _)) =>
  eapply ends_resolve_org; [discriminate|eauto 2 with ends] : ends.

(** Authenticating never fails otherwise than by 401. *)
Lemma Authenticate_cases header w : ∃ id w', Authenticate header w = (Ok id, w').
Proof.
  unfold Authenticate, try, mbind, M_bind, now, gets. repeat case_match; simplify_eq; eauto.
Qed.

(** The answer of a handler: one of its successes, or an error of its list. *)
Definition answers (ok : list Z) (codes : list (Z * string)) (m : M Reply) : Prop :=
  ∀ w, ∃ reply, (m w).1 = Ok reply ∧ (reply_status reply ∈ ok ∨ error_reply codes reply).
Lemma answers_respond ok codes (m : M Reply) :
  ends (λ r, reply_status r ∈ ok) (only codes) m → answers ok codes (respond m).
Proof.
  intros Hm w. unfold respond, catch. specialize (Hm w). destruct (m w) as [[r|e] w']; simpl in *.
  { exists r. auto. }
  destruct e; simpl; try (eexists; split; [reflexivity|right; by left]).
  eexists. split; [reflexivity|]. right. right. destruct (errs_api _ _ _ _ _ Hm _ _ _ eq_refl). eauto 6.
Qed.

(** The rows of a page, one after the other. *)
Lemma ends_deploymentResponses desired service l :
  ends any (errs false false false []) (deploymentResponses desired service l).
Proof. induction l as [|d l IH]; simpl; ends_auto. Qed.
Lemma ends_build_list a limit cursor :
  ends any (errs false false false []) (BuildRepository.ListByApplication TxConn a limit cursor).
Proof.
  unfold BuildRepository.ListByApplication. ends_auto.
Qed.
Lemma ends_publishUnassigns cs :
  ends any (errs false false false [runtime_error]) (publishUnassigns bus cs).
Proof.
  induction cs as [|c cs IH]; simpl; [ends_auto|]. destruct (Container_ContainerRuntimeID c); [|done].
  eapply (ends_bind any); [|by intros]. eapply ends_catch; [apply ends_bus|]. intros e _. ends_auto.
Qed.
#[local] Hint Resolve ends_deploymentResponses ends_build_list ends_publishUnassigns : ends.

Theorem dispatch_answers r id : answers (route_success r) (route_codes r) (dispatch bus registryAddr r id).
Proof. destruct r; simpl; apply answers_respond; ends_auto. Qed.

Lemma auth_answers q :
  match q with
  | ApiRequest _ _ => True
  | _ => answers (success_codes q) (error_codes q) (http bus registryAddr q)
  end.
Proof. destruct q; [done|..]; simpl; apply answers_respond; ends_auto. Qed.

Lemma http_answers q : answers (success_codes q) (error_codes q) (http bus registryAddr q).
Proof.
  destruct q as [header r| | |]; [|apply (auth_answers (SignupRequest _ _ _))
    |apply (auth_answers (LoginRequest _ _))|apply (auth_answers (RefreshRequest _ _))].
  intros w. simpl. unfold serve, authenticated.
  destruct (Authenticate_cases header w) as (id & w1 & E).
  unfold mbind, M_bind. rewrite E. destruct id as [id|].
  - destruct (dispatch_answers r id w1) as (reply & Hr & [Hok|[Hi|(s & k & m & Hin & Hm)]]);
      exists reply; (split; [done|]); [by left|right; by left|right; right].
    exists s, k, m. split; [by right|done].
  - eexists. split; [reflexivity|]. right. right.
    exists 401, "unauthorized", "a valid bearer access token is required". split; [left|done].
Qed.
(** C16: every request is answered.  A path no pattern matches gets 404, one
    that others' methods match 405; any other request gets one of its route's
    successes, or the error envelope with a status and code of its route's list
    and a message, or, when the database, the bus or anything else fails in a
    way the handler does not know, the internal error that tells nothing of it.
    No failure of what the server calls goes unanswered, and the empty messages
    that stand for impossible cases in the code are never sent. *)
Theorem every_request_is_answered draws c w :
  ∃ reply, (serve_call bus registryAddr draws c w).1 = Ok reply
    ∧ match lookup_route draws c with
      | NoPattern => reply = mkReply 404 None
      | OtherMethods => reply = mkReply 405 None
      | Handled q => reply_status reply ∈ success_codes q ∨ error_reply (error_codes q) reply
      end.
Proof.
  unfold serve_call. destruct (lookup_route draws c) as [| |q]; [by eexists..|]. apply http_answers.
Qed.
End handlers.
