(* ===== verification/CliBodies.v ===== *)
(** * CliBodies: what the command line and the API server read of each other

    The bodies the client of apps/cli/internal/apiclient/client.go sends, as
    the handlers decode them, and the answers of the handlers
    (services/apiserver/internal/server), as the client decodes them. *)
From S2P Require Import Prelude Json Schema Effects DbTenancy DbWorkload Wire Auth ApiCore ApiOrgs ApiApps ApiAuth.
From S2P Require Import ApiMux CliTypes ApiClient Sample.
From stdpp Require Import base gmap strings list.
From Stdlib Require Import ZArith Lia.
Open Scope Z_scope.

(** ** What the client makes of a row *)

Section views.
Context `{UUIDText}.
Definition organization_view (o : Organization) : Api.Organization :=
  Api.Build_Organization (uuid_String o.(Organization_ID)) o.(Organization_Name) o.(Organization_Slug)
    o.(Organization_CreatedAt).
Definition membership_view (m : Membership) (email : string) : Api.Membership :=
  Api.Build_Membership (uuid_String m.(Membership_ID)) (uuid_String m.(Membership_OrgID))
    (uuid_String m.(Membership_UserID)) email (to_text m.(Membership_Role)) m.(Membership_CreatedAt).
Definition project_view (p : Project) : Api.Project :=
  Api.Build_Project (uuid_String p.(Project_ID)) (uuid_String p.(Project_OrgID)) p.(Project_Name)
    p.(Project_Slug) p.(Project_CreatedAt).
Definition application_view (a : Application) : Api.Application :=
  Api.Build_Application (uuid_String a.(Application_ID)) (uuid_String a.(Application_OrgID))
    (uuid_String a.(Application_ProjectID)) a.(Application_Name) a.(Application_Image)
    a.(Application_ReplicasDesired) a.(Application_CreatedAt).
Definition deployment_view (d : Deployment) (s : ReplicaState) (dnsName : option string) : Api.Deployment :=
  Api.Build_Deployment (uuid_String d.(Deployment_ID)) (uuid_String d.(Deployment_ApplicationID))
    d.(Deployment_Image) d.(Deployment_Revision) (to_text d.(Deployment_Status)) d.(Deployment_Strategy)
    d.(Deployment_WorkerContainerID) s.(ReplicasDesired) s.(ReplicasRunning)
    ((λ c, Api.Build_ContainerSummary (uuid_String c.1) (to_text c.2)) <$> s.(Containers))
    (Api.Build_Service <$> dnsName) d.(Deployment_CreatedAt) d.(Deployment_CompletedAt).
Definition node_view (n : Node) : Api.Node :=
  Api.Build_Node (uuid_String n.(Node_ID)) n.(Node_Hostname) (to_text n.(Node_Status)) n.(Node_LastHeartbeatAt).
Definition domain_view (d : Domain) : Api.Domain :=
  Api.Build_Domain (uuid_String d.(Domain_ID)) (uuid_String d.(Domain_OrgID))
    (uuid_String d.(Domain_ProjectID)) (uuid_String d.(Domain_ApplicationID)) d.(Domain_Hostname)
    (to_text d.(Domain_TLSStatus)) d.(Domain_CreatedAt).
(** [key]: the plaintext, empty but in the answer to its creation. *)
Definition api_key_view (k : APIKey) (key : string) : Api.APIKey :=
  Api.Build_APIKey (uuid_String k.(APIKey_ID)) (uuid_String k.(APIKey_OrgID)) k.(APIKey_Name)
    k.(APIKey_Scopes) (uuid_String k.(APIKey_CreatedBy)) k.(APIKey_CreatedAt) k.(APIKey_RevokedAt) key.
Definition quota_view (q : ResourceQuota) (u : ResourceUsage) : Api.Quota :=
  Api.Build_Quota (uuid_String q.(ResourceQuota_OrgID)) q.(ResourceQuota_MaxCPUMillicores)
    q.(ResourceQuota_MaxMemoryMB) q.(ResourceQuota_MaxContainers) q.(ResourceQuota_MaxProjects)
    q.(ResourceQuota_MaxDeploymentsPerDay) u.(ResourceUsage_CPUMillicores) u.(ResourceUsage_MemoryMB)
    u.(ResourceUsage_Containers) u.(ResourceUsage_Projects) u.(ResourceUsage_DeploymentsToday).
Definition audit_view (e : AuditLogEntry) : Api.AuditLogEntry :=
  Api.Build_AuditLogEntry (uuid_String e.(AuditLogEntry_ID)) (uuid_String e.(AuditLogEntry_OrgID))
    (uuid_String <$> e.(AuditLogEntry_ActorUserID)) e.(AuditLogEntry_Action) e.(AuditLogEntry_TargetType)
    (uuid_String e.(AuditLogEntry_TargetID)) (Some (default JNull e.(AuditLogEntry_Metadata)))
    e.(AuditLogEntry_CreatedAt).
Definition auth_view (r : authResponse) : Api.AuthResponse :=
  Api.Build_AuthResponse
    (Api.Build_AuthUser (uuid_String r.(auth_User).(User_ID)) r.(auth_User).(User_Email))
    (Api.Build_Org (uuid_String r.(auth_OrgID)) r.(auth_OrgSlug) r.(auth_Role))
    r.(auth_AccessToken) r.(auth_ExpiresAt) r.(auth_RefreshToken).
(** The cursor of a page: nil when it is the last. *)
Definition cursor_view (c : string) : option string := if decide (c = "") then None else Some c.
End views.

Section answers.
Context `{UUIDText} `{TimeText}.

Ltac read_fields :=
  intros; simpl; unfold jid, jtime, into_time, into_time_option, into_raw;
  rewrite ?time_Parse_String; simpl.

Lemma read_organization o : into inhabitant (toOrganizationResponse o) = Some (organization_view o).
Proof. unfold into, Api.into_Organization. by read_fields. Qed.
Lemma read_membership m email :
  into inhabitant (toMembershipResponse m email) = Some (membership_view m email).
Proof. unfold into, Api.into_Membership, toMembershipResponse, omitempty. case_bool_decide; subst; by read_fields. Qed.
Lemma read_project p : into inhabitant (toProjectResponse p) = Some (project_view p).
Proof. unfold into, Api.into_Project. by read_fields. Qed.
Lemma read_application a :
  int64_ok a.(Application_ReplicasDesired) = true →
  into inhabitant (toApplicationResponse a) = Some (application_view a).
Proof. intros Hr. unfold into, Api.into_Application. read_fields. by wire_fields. Qed.
Definition deployment_fits (d : Deployment) (s : ReplicaState) : Prop :=
  int64_ok d.(Deployment_Revision) = true ∧ int64_ok s.(ReplicasDesired) = true
  ∧ int64_ok s.(ReplicasRunning) = true.
Lemma mapM_view {A B C} (f : B → option C) (g : A → B) (h : A → C) l :
  Forall (λ x, f (g x) = Some (h x)) l → mapM f (g <$> l) = Some (h <$> l).
Proof.
  intros Hl. apply mapM_Some. induction Hl; simpl; constructor; auto.
Qed.
Lemma read_containers (old : list Api.ContainerSummary) (l : list (uuid * ContainerStatus)) :
  into old (JArray ((λ c, JObject [("node_id", JString (uuid_String c.1)); ("status", JString (to_text c.2))]) <$> l))
  = Some ((λ c, Api.Build_ContainerSummary (uuid_String c.1) (to_text c.2)) <$> l).
Proof. apply mapM_view, Forall_forall. by intros c _. Qed.
Lemma read_deployment d s dnsName :
  deployment_fits d s →
  into inhabitant (deploymentResponse d s dnsName) = Some (deployment_view d s dnsName).
Proof.
  intros (Hr & Hd & Hn). unfold into, Api.into_Deployment, deploymentResponse, optional, omitempty, deployment_view.
  destruct (Deployment_WorkerContainerID d), dnsName, (Deployment_CompletedAt d); case_bool_decide as Hc;
    read_fields; repeat wire_step; rewrite ?read_containers; simpl;
    rewrite ?Hc; by read_fields.
Qed.

Lemma read_node n : into inhabitant (nodeResponse n) = Some (node_view n).
Proof. unfold into, Api.into_Node. by read_fields. Qed.
Lemma read_domain d : into inhabitant (toDomainResponse d) = Some (domain_view d).
Proof. unfold into, Api.into_Domain. by read_fields. Qed.
Lemma into_strings_list old (l : list string) : into old (JArray (JString <$> l)) = Some l.
Proof. rewrite <-(list_fmap_id l) at 2. by apply mapM_view, Forall_forall. Qed.
Lemma read_api_key k : into inhabitant (toAPIKeyResponse k) = Some (api_key_view k "").
Proof.
  unfold into, Api.into_APIKey, toAPIKeyResponse, apiKey_members, api_key_view.
  destruct (APIKey_RevokedAt k); read_fields; rewrite into_strings_list; by read_fields.
Qed.
Lemma read_created_api_key k key :
  into inhabitant (createAPIKeyResponse k key) = Some (api_key_view k key).
Proof.
  unfold into, Api.into_APIKey, createAPIKeyResponse, apiKey_members, api_key_view.
  destruct (APIKey_RevokedAt k); read_fields; rewrite into_strings_list; by read_fields.
Qed.
Definition quota_fits (q : ResourceQuota) (u : ResourceUsage) : Prop :=
  Forall (λ n, int64_ok n = true)
    [q.(ResourceQuota_MaxCPUMillicores); q.(ResourceQuota_MaxMemoryMB); q.(ResourceQuota_MaxContainers);
     q.(ResourceQuota_MaxProjects); q.(ResourceQuota_MaxDeploymentsPerDay);
     u.(ResourceUsage_CPUMillicores); u.(ResourceUsage_MemoryMB); u.(ResourceUsage_Containers);
     u.(ResourceUsage_Projects); u.(ResourceUsage_DeploymentsToday)].
Lemma into_JInt old z : int64_ok z = true → into old (JInt z) = Some z.
Proof. apply into_int_to_json. Qed.
Lemma read_quota q u : quota_fits q u → into inhabitant (toQuotaResponse q u) = Some (quota_view q u).
Proof.
  unfold quota_fits. rewrite !Forall_cons. intros (?&?&?&?&?&?&?&?&?&?&_).
  unfold into, Api.into_Quota. read_fields. repeat (rewrite into_JInt by done; simpl). done.
Qed.
Lemma read_audit e : into inhabitant (toAuditLogResponse e) = Some (audit_view e).
Proof.
  unfold into, Api.into_AuditLogEntry, toAuditLogResponse, audit_view.
  destruct (AuditLogEntry_ActorUserID e); by read_fields.
Qed.
Lemma read_auth r : into inhabitant (auth_json r) = Some (auth_view r).
Proof. unfold into, Api.into_AuthResponse. by read_fields. Qed.
Lemma read_refreshed a t r : into inhabitant (refresh_json a t r) = Some (Build_refreshed a r).
Proof. unfold into, into_refreshed. by read_fields. Qed.

(** Lists and pages. *)
Lemma into_rows {A B} `{!Into B, !Inhabited B} (old : list B) (f : A → json) (view : A → B) (l : list A) :
  Forall (λ x, into inhabitant (f x) = Some (view x)) l → into old (JArray (f <$> l)) = Some (view <$> l).
Proof. apply mapM_view. Qed.
Lemma read_members l :
  into inhabitant (jdata ((λ m, toMembershipResponse m.1 m.2) <$> l))
  = Some (Api.Build_MembershipPage ((λ m, membership_view m.1 m.2) <$> l)).
Proof.
  unfold into, Api.into_MembershipPage. simpl. erewrite into_rows; [done|].
  apply Forall_forall. intros m _. apply read_membership.
Qed.
Lemma read_deployments (l : list (Deployment * ReplicaState)) dnsName c :
  Forall (λ ds, deployment_fits ds.1 ds.2) l →
  into inhabitant (jpage ((λ ds, deploymentResponse ds.1 ds.2 dnsName) <$> l) c)
  = Some (Api.Build_DeploymentPage ((λ ds, deployment_view ds.1 ds.2 dnsName) <$> l) (cursor_view c)).
Proof.
  intros Hl. unfold into, Api.into_DeploymentPage. simpl.
  erewrite into_rows; [|eapply Forall_impl; [exact Hl|intros ds; apply read_deployment]]. simpl.
  unfold cursor_view. by case_decide.
Qed.
Lemma read_nodes l :
  into inhabitant (jdata (nodeResponse <$> l)) = Some (Api.Build_NodePage (node_view <$> l)).
Proof.
  unfold into, Api.into_NodePage. simpl. erewrite into_rows; [done|].
  apply Forall_forall. intros m _. apply read_node.
Qed.
Lemma read_domains l :
  into inhabitant (jdata (toDomainResponse <$> l)) = Some (Api.Build_DomainPage (domain_view <$> l)).
Proof.
  unfold into, Api.into_DomainPage. simpl. erewrite into_rows; [done|].
  apply Forall_forall. intros m _. apply read_domain.
Qed.
Lemma read_api_keys l :
  into inhabitant (jdata (toAPIKeyResponse <$> l))
  = Some (Api.Build_APIKeyPage ((λ k, api_key_view k "") <$> l)).
Proof.
  unfold into, Api.into_APIKeyPage. simpl. erewrite into_rows; [done|].
  apply Forall_forall. intros m _. apply read_api_key.
Qed.
Lemma read_audits l c :
  into inhabitant (jpage (toAuditLogResponse <$> l) c)
  = Some (Api.Build_AuditLogPage (audit_view <$> l) (cursor_view c)).
Proof.
  unfold into, Api.into_AuditLogPage. simpl.
  erewrite into_rows; [|apply Forall_forall; intros m _; apply read_audit]. simpl.
  unfold cursor_view. by case_decide.
Qed.

(** What the server reads of a request. *)
Lemma read_application_body name image ports :
  Forall PortSpec_ok ports →
  Unmarshal (Some (application_body name image ports))
  = Some (Build_createApplicationRequest name image ports).
Proof.
  intros Hp. unfold Unmarshal, application_body, omitempty, into, into_createApplicationRequest.
  case_bool_decide as Hn; [by rewrite Hn|]. simpl. by rewrite into_ports.
Qed.
Lemma read_scale n :
  int64_ok n = true →
  Unmarshal (Some (JObject [("replicas_desired", to_json n)])) = Some (Build_scaleApplicationRequest (Some n)).
Proof.
  intros Hn. unfold Unmarshal, into, into_scaleApplicationRequest. simpl.
  unfold into at 1, into_option, to_json, to_json_int. simpl. by rewrite into_JInt.
Qed.
Lemma read_api_key_body name scopes :
  Unmarshal (Some (api_key_body name scopes)) = Some (Build_createAPIKeyRequest name scopes).
Proof.
  unfold Unmarshal, api_key_body, omitempty, into, into_createAPIKeyRequest.
  case_bool_decide as Hs; [by rewrite Hs|]. simpl. unfold to_json, to_json_list, to_json_string. by rewrite into_strings_list.
Qed.

(** C39: the command line's client and the API server read each other.  Every
    body the client sends is decoded by its handler into exactly the values
    the caller passed; every answer of a handler is decoded by the client into
    the rows it was made of, with their ids as text, absent members as nil and
    the cursor of a last page as nil (for rows whose numbers fit an [int]). *)
Theorem client_and_server_agree
    (email password name role image hostname appID token key cursor : string) (ports : list PortSpec)
    (scopes : list string) (replicas : Z) (o : Organization) (p : Project) (a : Application)
    (d : Deployment) (s : ReplicaState) (dnsName : option string) (k : APIKey) (q : ResourceQuota)
    (u : ResourceUsage) (x : Domain) (auth : authResponse) (ms : list (Membership * string))
    (ds : list (Deployment * ReplicaState)) (ns : list Node) (xs : list Domain) (ks : list APIKey)
    (es : list AuditLogEntry) :
  Forall PortSpec_ok ports → Forall (λ ds, deployment_fits ds.1 ds.2) ((d, s) :: ds) → quota_fits q u →
  int64_ok replicas = true → int64_ok a.(Application_ReplicasDesired) = true →
  (Unmarshal (Some (JObject [("email", JString email); ("password", JString password)]))
     = Some (Build_credentialsRequest email password)
   ∧ Unmarshal (Some (refresh_request token)) = Some (Build_refreshRequest token)
   ∧ Unmarshal (Some (JObject [("name", JString name)])) = Some (Build_nameRequest name)
   ∧ Unmarshal (Some (JObject [("name", JString name)])) = Some (Build_createProjectRequest name "")
   ∧ Unmarshal (Some (JObject [("email", JString email); ("role", JString role)]))
     = Some (Build_inviteMemberRequest email role)
   ∧ Unmarshal (Some (JObject [("role", JString role)])) = Some (Build_changeMemberRoleRequest role)
   ∧ Unmarshal (Some (application_body name image ports)) = Some (Build_createApplicationRequest name image ports)
   ∧ match deploy_body image with
     | Some body => Unmarshal (Some body) = Some (Build_deployRequest image "" "")
     | None => inhabitant = Build_deployRequest image "" ""
     end
   ∧ Unmarshal (Some (JObject [("replicas_desired", to_json replicas)]))
     = Some (Build_scaleApplicationRequest (Some replicas))
   ∧ Unmarshal (Some (JObject [("hostname", JString hostname); ("application_id", JString appID)]))
     = Some (Build_createDomainRequest hostname appID)
   ∧ Unmarshal (Some (api_key_body name scopes)) = Some (Build_createAPIKeyRequest name scopes))
  ∧ (Unmarshal (Some (auth_json auth)) = Some (auth_view auth)
   ∧ Unmarshal (Some (toOrganizationResponse o)) = Some (organization_view o)
   ∧ Unmarshal (Some (jdata ((λ m, toMembershipResponse m.1 m.2) <$> ms)))
     = Some (Api.Build_MembershipPage ((λ m, membership_view m.1 m.2) <$> ms))
   ∧ Unmarshal (Some (toProjectResponse p)) = Some (project_view p)
   ∧ Unmarshal (Some (toApplicationResponse a)) = Some (application_view a)
   ∧ Unmarshal (Some (deploymentResponse d s dnsName)) = Some (deployment_view d s dnsName)
   ∧ Unmarshal (Some (jpage ((λ ds, deploymentResponse ds.1 ds.2 dnsName) <$> ds) cursor))
     = Some (Api.Build_DeploymentPage ((λ ds, deployment_view ds.1 ds.2 dnsName) <$> ds) (cursor_view cursor))
   ∧ Unmarshal (Some (jdata (nodeResponse <$> ns))) = Some (Api.Build_NodePage (node_view <$> ns))
   ∧ Unmarshal (Some (toDomainResponse x)) = Some (domain_view x)
   ∧ Unmarshal (Some (jdata (toDomainResponse <$> xs))) = Some (Api.Build_DomainPage (domain_view <$> xs))
   ∧ Unmarshal (Some (createAPIKeyResponse k key)) = Some (api_key_view k key)
   ∧ Unmarshal (Some (jdata (toAPIKeyResponse <$> ks)))
     = Some (Api.Build_APIKeyPage ((λ k, api_key_view k "") <$> ks))
   ∧ Unmarshal (Some (toQuotaResponse q u)) = Some (quota_view q u)
   ∧ Unmarshal (Some (jpage (toAuditLogResponse <$> es) cursor))
     = Some (Api.Build_AuditLogPage (audit_view <$> es) (cursor_view cursor))).
Proof.
  intros Hports [Hd Hds]%Forall_cons Hq Hn Ha. split; split_and!; try done.
  - by apply read_application_body.
  - unfold deploy_body. by case_decide; subst.
  - by apply read_scale.
  - apply read_api_key_body.
  - apply read_auth.
  - apply read_organization.
  - apply read_members.
  - apply read_project.
  - by apply read_application.
  - by apply read_deployment.
  - by apply read_deployments.
  - apply read_nodes.
  - apply read_domain.
  - apply read_domains.
  - apply read_created_api_key.
  - apply read_api_keys.
  - by apply read_quota.
  - apply read_audits.
Qed.
End answers.

(** ** On the sample *)

#[local] Existing Instances hexUUID hexTime.
Definition running_state : ReplicaState := mkReplicaState 2 1 [(40%N, ContainerStatusRunning)].
Lemma client_and_server_agree_witness :
  Unmarshal (Some (deploymentResponse shop_v1 running_state (Some "shop.web")))
  = Some (deployment_view shop_v1 running_state (Some "shop.web"))
  ∧ Unmarshal (Some (application_body "Shop" "nginx:1" shop.(Application_Ports)))
    = Some (Build_createApplicationRequest "Shop" "nginx:1" [Build_PortSpec 80 0 "tcp"]).
Proof.
  destruct (client_and_server_agree "" "" "Shop" "" "nginx:1" "" "" "" "" "" shop.(Application_Ports) [] 2
    acme web shop shop_v1 running_state (Some "shop.web") (Build_APIKey 1 1 "ci" [] 2 0 None) acme_quota
    (Build_ResourceUsage 1 1 0 0 0) (Build_Domain 1 1 10 20 "a.example" DomainTLSStatusPending 0)
    (mkAuthResponse ann 1 "acme" "owner" "" 0 "") [] [] [] [] [] [])
    as [(_ & _ & _ & _ & _ & _ & Happ & _) (_ & _ & _ & _ & _ & Hd & _)].
  - repeat constructor.
  - by repeat constructor.
  - by repeat constructor.
  - reflexivity.
  - reflexivity.
  - split; [exact Hd|exact Happ].
Defined.
