(* ===== verification/CliConfig.v ===== *)
(** * CliConfig: the command line's session file

    apps/cli/internal/config/config.go.  The disk is the files that can be
    read and how the calls that touch them fail; what a failing write leaves
    behind is anything. *)
From S2P Require Import Prelude Json Schema Effects Wire ApiCore ApiMux CliTypes ApiClient.
From stdpp Require Import base gmap strings list.
From Stdlib Require Import ZArith Lia.
Open Scope Z_scope.

Record Config := mkConfig {
  Config_APIURL : string; Config_AccessToken : string; Config_RefreshToken : string; Config_OrgID : string;
  Config_OrgSlug : string; Config_ProjectID : string; Config_ProjectName : string;
  Config_Applications : gmap string string; config_path : string }.

Definition config_fields : fields Config :=
  [("api_url", λ c j, v ← into c.(Config_APIURL) j;
      Some (mkConfig v c.(Config_AccessToken) c.(Config_RefreshToken) c.(Config_OrgID)
              c.(Config_OrgSlug) c.(Config_ProjectID) c.(Config_ProjectName)
              c.(Config_Applications) c.(config_path)));
   ("access_token", λ c j, v ← into c.(Config_AccessToken) j;
      Some (mkConfig c.(Config_APIURL) v c.(Config_RefreshToken) c.(Config_OrgID) c.(Config_OrgSlug)
              c.(Config_ProjectID) c.(Config_ProjectName)
              c.(Config_Applications) c.(config_path)));
   ("refresh_token", λ c j, v ← into c.(Config_RefreshToken) j;
      Some (mkConfig c.(Config_APIURL) c.(Config_AccessToken) v c.(Config_OrgID) c.(Config_OrgSlug)
              c.(Config_ProjectID) c.(Config_ProjectName)
              c.(Config_Applications) c.(config_path)));
   ("org_id", λ c j, v ← into c.(Config_OrgID) j;
      Some (mkConfig c.(Config_APIURL) c.(Config_AccessToken) c.(Config_RefreshToken) v
              c.(Config_OrgSlug) c.(Config_ProjectID) c.(Config_ProjectName)
              c.(Config_Applications) c.(config_path)));
   ("org_slug", λ c j, v ← into c.(Config_OrgSlug) j;
      Some (mkConfig c.(Config_APIURL) c.(Config_AccessToken) c.(Config_RefreshToken)
              c.(Config_OrgID) v c.(Config_ProjectID) c.(Config_ProjectName)
              c.(Config_Applications) c.(config_path)));
   ("project_id", λ c j, v ← into c.(Config_ProjectID) j;
      Some (mkConfig c.(Config_APIURL) c.(Config_AccessToken) c.(Config_RefreshToken)
              c.(Config_OrgID) c.(Config_OrgSlug) v c.(Config_ProjectName)
              c.(Config_Applications) c.(config_path)));
   ("project_name", λ c j, v ← into c.(Config_ProjectName) j;
      Some (mkConfig c.(Config_APIURL) c.(Config_AccessToken) c.(Config_RefreshToken)
              c.(Config_OrgID) c.(Config_OrgSlug) c.(Config_ProjectID) v
              c.(Config_Applications) c.(config_path)));
   ("applications", λ c j, v ← into c.(Config_Applications) j;
      Some (mkConfig c.(Config_APIURL) c.(Config_AccessToken) c.(Config_RefreshToken)
              c.(Config_OrgID) c.(Config_OrgSlug) c.(Config_ProjectID)
              c.(Config_ProjectName) v c.(config_path)))].
#[export] Instance into_Config : Into Config := decode_struct config_fields.
Definition omit_string (k s : string) : list (string * json) := omitempty (bool_decide (s = "")) k (JString s).
#[export] Instance to_json_Config : ToJSON Config := λ c, JObject
  (omit_string "api_url" c.(Config_APIURL) ++ omit_string "access_token" c.(Config_AccessToken)
   ++ omit_string "refresh_token" c.(Config_RefreshToken) ++ omit_string "org_id" c.(Config_OrgID)
   ++ omit_string "org_slug" c.(Config_OrgSlug) ++ omit_string "project_id" c.(Config_ProjectID)
   ++ omit_string "project_name" c.(Config_ProjectName)
   ++ omitempty (bool_decide (c.(Config_Applications) = ∅)) "applications" (to_json
           c.(Config_Applications))).

(** [home]: the user's, or why it is not known.  [unreadable]: why an existing
    file cannot be read.  [unwritable]: why the file cannot be written, and
    what is there after the attempt ([None]: what was there). *)
Record Disk := mkDisk {
  home : string + string; files : gmap string wire; unreadable : option string;
  no_mkdir : option string; unwritable : option (string * option wire) }.

Definition Path (d : Disk) : string + string :=
  match d.(home) with inl home => inl (home +:+ "/.platform/config.json") | inr msg => inr msg end.
(** An empty configuration, then what the file holds; the texts of errors that
    encoding/json makes are left out. *)
Definition loadFrom (path : string) (d : Disk) : Config + string :=
  let cfg := mkConfig "" "" "" "" "" "" "" ∅ path in
  match d.(files) !! path, d.(unreadable) with
  | None, _ => inl cfg
  | Some _, Some msg => inr msg
  | Some w, None =>
      match j ← w; into cfg j with
      | Some cfg => inl cfg
      | None => inr "json"
      end
  end.
Definition Load (d : Disk) : Config + string :=
  match Path d with inl path => loadFrom path d | inr msg => inr msg end.

Definition set_file (path : string) (w : wire) (d : Disk) : Disk :=
  mkDisk d.(home) (<[path := w]> d.(files)) d.(unreadable) d.(no_mkdir) d.(unwritable).
(** [Config.Save]: the error, if any, and the disk. *)
Definition save (c : Config) (d : Disk) : option string * Disk :=
  match d.(no_mkdir), d.(unwritable) with
  | Some msg, _ => (Some msg, d)
  | None, Some (msg, None) => (Some msg, d)
  | None, Some (msg, Some w) => (Some msg, set_file c.(config_path) w d)
  | None, None => (None, set_file c.(config_path) (Some (to_json c)) d)
  end.

Definition SetSession (orgID orgSlug accessToken refreshToken : string) (c : Config) : Config :=
  mkConfig c.(Config_APIURL) accessToken refreshToken orgID orgSlug "" "" ∅ c.(config_path).
Definition Config_SetTokens (accessToken refreshToken : string) (c : Config) : Config :=
  mkConfig c.(Config_APIURL) accessToken refreshToken c.(Config_OrgID) c.(Config_OrgSlug)
          c.(Config_ProjectID) c.(Config_ProjectName)
    c.(Config_Applications) c.(config_path).
Definition SetProject (id name : string) (c : Config) : Config :=
  mkConfig c.(Config_APIURL) c.(Config_AccessToken) c.(Config_RefreshToken) c.(Config_OrgID)
          c.(Config_OrgSlug) id name ∅ c.(config_path).
Definition set_url (url : string) (c : Config) : Config :=
  mkConfig url c.(Config_AccessToken) c.(Config_RefreshToken) c.(Config_OrgID) c.(Config_OrgSlug)
          c.(Config_ProjectID) c.(Config_ProjectName)
    c.(Config_Applications) c.(config_path).
Definition set_applications (m : gmap string string) (c : Config) : Config :=
  mkConfig c.(Config_APIURL) c.(Config_AccessToken) c.(Config_RefreshToken) c.(Config_OrgID)
          c.(Config_OrgSlug) c.(Config_ProjectID) c.(Config_ProjectName)
    m c.(config_path).

(** The client's store is the configuration in memory, with the disk. *)
#[export] Program Instance ConfigTokens : TokenStore (Config * Disk) := {|
  GetAccessToken t := t.1.(Config_AccessToken);
  GetRefreshToken t := t.1.(Config_RefreshToken);
  SetTokens a r t := (Config_SetTokens a r t.1, t.2);
  Save t := let '(err, d) := save t.1 t.2 in (err, (t.1, d)) |}.
Next Obligation. done. Qed.
Next Obligation. done. Qed.
Next Obligation. intros [c d]. simpl. by destruct (save c d). Qed.
Next Obligation. intros [c d]. simpl. by destruct (save c d). Qed.

(** ** What is saved is loaded *)

Lemma decode_app {A} (fs : fields A) (a b : A) l1 l2 :
  decode_struct fs a (JObject l1) = Some b →
  decode_struct fs a (JObject (l1 ++ l2)) = decode_struct fs b (JObject l2).
Proof. simpl. rewrite foldl_app. by intros ->. Qed.
Ltac field := unfold omit_string, omitempty; case_bool_decide; subst; reflexivity.
Lemma config_roundtrip (c : Config) :
  into (mkConfig "" "" "" "" "" "" "" ∅ c.(config_path)) (to_json c) = Some c.
Proof.
  destruct c as [u a r o os p pn apps path]. unfold into, into_Config, to_json, to_json_Config.
  cbn [Config_APIURL Config_AccessToken Config_RefreshToken Config_OrgID Config_OrgSlug Config_ProjectID Config_ProjectName Config_Applications config_path].
  rewrite (decode_app _ _ (mkConfig u "" "" "" "" "" "" ∅ path)) by field.
  rewrite (decode_app _ _ (mkConfig u a "" "" "" "" "" ∅ path)) by field.
  rewrite (decode_app _ _ (mkConfig u a r "" "" "" "" ∅ path)) by field.
  rewrite (decode_app _ _ (mkConfig u a r o "" "" "" ∅ path)) by field.
  rewrite (decode_app _ _ (mkConfig u a r o os "" "" ∅ path)) by field.
  rewrite (decode_app _ _ (mkConfig u a r o os p "" ∅ path)) by field.
  rewrite (decode_app _ _ (mkConfig u a r o os p pn ∅ path)) by field.
  unfold omitempty. case_bool_decide as Hm; [by rewrite Hm|].
  simpl. by rewrite into_map_to_json.
Qed.

(** the session file.  A configuration saved without an error is the one
    loaded from its path, whatever was there before; saving touches no other
    file; without a file an empty configuration is loaded; a file that holds no
    JSON is an error, never an empty session. *)
Theorem save_load (c : Config) (d d' : Disk) :
  save c d = (None, d') → d.(unreadable) = None →
  loadFrom c.(config_path) d' = inl c
  ∧ (∀ path, path ≠ c.(config_path) → loadFrom path d' = loadFrom path d)
  ∧ (∀ path, d.(files) !! path = None → loadFrom path d = inl (mkConfig "" "" "" "" "" "" "" ∅ path))
  ∧ (∀ path, d.(files) !! path = Some None → ∃ msg, loadFrom path d = inr msg).
Proof.
  unfold save. destruct (no_mkdir d); [done|]. destruct (unwritable d) as [[? []]|]; [done..|].
  intros [= <-] Hr. unfold loadFrom. split_and!.
  - simpl. rewrite lookup_insert_eq, Hr. cbn [mbind option_bind]. by rewrite config_roundtrip.
  - intros path Hp. simpl. by rewrite lookup_insert_ne.
  - by intros path ->.
  - intros path ->. rewrite Hr. by eexists.
Qed.

(** A session with one application, saved over another. *)
Definition desktop : Disk := mkDisk (inl "/home/ann") ∅ None None None.
Definition ann_config : Config :=
  mkConfig "http://localhost:8080" "a0" "t0" "1" "acme" "10" "web" {["shop" := "20"]}
    "/home/ann/.platform/config.json".
Lemma save_load_witness : Load (save ann_config (save (SetSession "1" "acme" "" "" ann_config) desktop).2).2
                          = inl ann_config.
Proof.
  destruct (save_load ann_config (save (SetSession "1" "acme" "" "" ann_config) desktop).2
              (save ann_config (save (SetSession "1" "acme" "" "" ann_config) desktop).2).2)
    as [Hl _]; [reflexivity|reflexivity|]. exact Hl.
Defined.
