(* ===== verification/CliCommands.v ===== *)
(** * CliCommands: the commands of the command line

    apps/cli/internal/cmd: the body ([RunE]) of each command, over any HTTP
    transport.  cobra's own parsing and checks of the command line come before
    it; a command starts by loading the session file, and what it prints is a
    list of lines and table rows (tabwriter's alignment is left out).
    [Format] is [time.Time.Format] with the layout the commands use. *)
From S2P Require Import Prelude Text Json Http Schema Effects Encoding ApiCore ApiMux CliTypes ApiClient CliConfig.
From stdpp Require Import base gmap strings list pretty.
From Stdlib Require Import ZArith Lia Ascii.
Open Scope Z_scope.

(** ** Text *)

(** [%q] of ASCII text (bytes beyond it are left as they are). *)
Definition hex_lower (n : nat) : ascii := ascii_of_nat (if (n <? 10)%nat then 48 + n else 87 + n).
Definition quote_char (c : ascii) : string :=
  let n := nat_of_ascii c in
  let escaped c := String "\" (String c "") in
  match n with
  | 7 => escaped "a"%char | 8 => escaped "b"%char | 9 => escaped "t"%char | 10 => escaped "n"%char
  | 11 => escaped "v"%char | 12 => escaped "f"%char | 13 => escaped "r"%char
  | 34 | 92 => escaped c
  | _ => if (n <? 32)%nat || (n =? 127)%nat
         then "\x" +:+ String (hex_lower (n / 16)) (String (hex_lower (n mod 16)) "")
         else String c ""
  end%nat.
Fixpoint quote_chars (s : string) : string :=
  match s with "" => "" | String c s => quote_char c +:+ quote_chars s end.
Definition quoted (s : string) : string :=
  String (ascii_of_nat 34) (quote_chars s +:+ String (ascii_of_nat 34) "").
(** [%-6d] *)
Definition padded (n : Z) : string :=
  let s := Itoa n in s +:+ String.concat "" (replicate (6 - String.length s) " ").

Inductive Line := Text (s : string) | Row (cells : list string).
Inductive CmdErr := FromClient (e : ClientError) | Usage (msg : string).
(** What is shown of an error: the server's message, if it has one. *)
Definition describeErr (err : CmdErr) : string :=
  match err with
  | FromClient (Unauthorized e) | FromClient (Reported e) => e.(APIError_Message)
  | FromClient (Failed msg) | Usage msg => msg
  end.

(** ** Flags *)

(** [--port containerPort[:hostPort]] *)
Definition parsePort (r : string) : PortSpec + string :=
  let '(containerPart, hostPart) := cut_on ":"%char r in
  match Atoi containerPart with
  | None => inr ("invalid --port " +:+ quoted r +:+ ": container port must be a number")
  | Some containerPort =>
      match hostPart with
      | None | Some "" => inl (Build_PortSpec containerPort 0 "tcp")
      | Some hostPart =>
          match Atoi hostPart with
          | None => inr ("invalid --port " +:+ quoted r +:+ ": host port must be a number")
          | Some hostPort => inl (Build_PortSpec containerPort hostPort "tcp")
          end
      end
  end.
Fixpoint parsePortFlags (raw : list string) : list PortSpec + string :=
  match raw with
  | [] => inl []
  | r :: raw =>
      match parsePort r with
      | inr msg => inr msg
      | inl spec => match parsePortFlags raw with inl specs => inl (spec :: specs) | inr msg => inr msg end
      end
  end.

(** ** Commands *)

(** A running command: its configuration and the disk, the transport's state,
    what it has printed. *)
Record Shell (S : Type) := mkShell { sh_store : Config * Disk; sh_server : S; sh_out : list Line }.
Arguments mkShell {S} _ _ _.
Arguments sh_store {S} _.
Arguments sh_server {S} _.
Arguments sh_out {S} _.

Section commands.
Context `{TimeText} `{MapOrder} {S : Type}.
(** The transport, by the base URL. *)
Context (Dial : string → Call → S → (Reply + Failure) * S) (Format : time → string).

Definition Cmd (A : Type) : Type := Shell S → (A + CmdErr) * Shell S.
#[local] Instance Cmd_ret : MRet Cmd := λ A a sh, (inl a, sh).
#[local] Instance Cmd_bind : MBind Cmd := λ A B k m sh,
  match m sh with (inl a, sh) => k a sh | (inr e, sh) => (inr e, sh) end.
Definition stop {A} (msg : string) : Cmd A := λ sh, (inr (Usage msg), sh).
Definition print (l : list Line) : Cmd unit := λ sh,
  (inl tt, mkShell sh.(sh_store) sh.(sh_server) (sh.(sh_out) ++ l)).
Definition config : Cmd Config := λ sh, (inl sh.(sh_store).1, sh).
Definition set_config (f : Config → Config) : Cmd unit := λ sh,
  (inl tt, mkShell (f sh.(sh_store).1, sh.(sh_store).2) sh.(sh_server) sh.(sh_out)).
(** [cfg.Save()] *)
Definition save_session : Cmd unit := λ sh,
  match Save sh.(sh_store) with
  | (None, t) => (inl tt, mkShell t sh.(sh_server) sh.(sh_out))
  | (Some msg, t) => (inr (Usage ("saving session: " +:+ msg)), mkShell t sh.(sh_server) sh.(sh_out))
  end.
(** A call of the client, which was made for the configured URL. *)
Definition call {A} (f : (Call → S → (Reply + Failure) * S) → Cl (T:=Config * Disk) (S:=S) A) : Cmd A := λ sh,
  match f (Dial sh.(sh_store).1.(Config_APIURL)) (sh.(sh_store), sh.(sh_server)) with
  | (COk a, (t, s)) => (inl a, mkShell t s sh.(sh_out))
  | (CErr e, (t, s)) => (inr (FromClient e), mkShell t s sh.(sh_out))
  end.

(** *** root.go *)

Definition session (apiURLFlag : string) : Cmd unit := λ sh,
  match Load sh.(sh_store).2 with
  | inr msg => (inr (Usage ("loading CLI config: " +:+ msg)), sh)
  | inl cfg =>
      let cfg := if decide (apiURLFlag ≠ "") then set_url apiURLFlag cfg
                 else if decide (cfg.(Config_APIURL) = "") then set_url "http://localhost:8080" cfg
                 else cfg in
      (inl tt, mkShell (cfg, sh.(sh_store).2) sh.(sh_server) sh.(sh_out))
  end.
Definition requireLogin (apiURLFlag : string) : Cmd Config :=
  session apiURLFlag ;;
  cfg ← config;
  if decide (cfg.(Config_AccessToken) = "") then stop "not logged in — run `platform login` first" else mret cfg.
Definition requireProject (apiURLFlag : string) : Cmd Config :=
  cfg ← requireLogin apiURLFlag;
  if decide (cfg.(Config_ProjectID) = "")
  then stop "no current project — run `platform create project <name>` first" else mret cfg.

Context (apiURLFlag : string).

(** *** signup.go, login.go *)

Definition start_session (resp : Api.AuthResponse) : Cmd unit :=
  set_config (SetSession resp.(Api.AuthResponse_Org).(Api.Org_ID) resp.(Api.AuthResponse_Org).(Api.Org_Slug)
                resp.(Api.AuthResponse_AccessToken) resp.(Api.AuthResponse_RefreshToken)) ;;
  save_session.
Definition welcome (verb : string) (resp : Api.AuthResponse) : list Line :=
  [Text (verb +:+ " as " +:+ resp.(Api.AuthResponse_User).(Api.AuthUser_Email) +:+ ", organization "
         +:+ resp.(Api.AuthResponse_Org).(Api.Org_Slug) +:+ " (" +:+ resp.(Api.AuthResponse_Org).(Api.Org_Role)
         +:+ ")")].
Definition signup_cmd (email password : string) : Cmd unit :=
  session apiURLFlag ;;
  resp ← call (λ Do, Signup Do email password);
  start_session resp ;; print (welcome "Signed up" resp).
Definition login_cmd (email password : string) : Cmd unit :=
  session apiURLFlag ;;
  resp ← call (λ Do, Login Do email password);
  start_session resp ;; print (welcome "Logged in" resp).

(** *** The application a name stands for *)

Definition unknown (what name where_ whereName suffix : string) : string :=
  "no known " +:+ what +:+ " " +:+ quoted name +:+ " in " +:+ where_ +:+ " " +:+ quoted whereName +:+ suffix.
Definition known_application (cfg : Config) (name suffix : string) : Cmd string :=
  match cfg.(Config_Applications) !! name with
  | Some appID => mret appID
  | None => stop (unknown "application" name "project" cfg.(Config_ProjectName) suffix)
  end.

(** *** deploy.go *)

(** Creates the application the first time and remembers its id. *)
Definition resolveApplication (cfg : Config) (name image : string) (ports : list PortSpec) : Cmd string :=
  match cfg.(Config_Applications) !! name with
  | Some id => mret id
  | None =>
      if decide (image = "")
      then stop ("application " +:+ quoted name +:+ " doesn't exist yet in project "
                 +:+ quoted cfg.(Config_ProjectName) +:+ " — pass --image to create it")
      else
        app ← call (λ Do, Client_CreateApplication Do cfg.(Config_ProjectID) name image ports);
        set_config (λ c, set_applications (<[name := app.(Api.Application_ID)]> c.(Config_Applications)) c) ;;
        save_session ;;
        mret app.(Api.Application_ID)
  end.
Definition deploy_cmd (name image : string) (ports : list string) : Cmd unit :=
  cfg ← requireProject apiURLFlag;
  match parsePortFlags ports with
  | inr msg => stop msg
  | inl portSpecs =>
      appID ← resolveApplication cfg name image portSpecs;
      d ← call (λ Do, Client_Deploy Do appID image);
      print [Text ("Deployment " +:+ d.(Api.Deployment_ID) +:+ ": revision "
                   +:+ Itoa d.(Api.Deployment_Revision) +:+ ", status " +:+ d.(Api.Deployment_Status))]
  end.
(** *** scale.go, logs.go, delete.go *)

Definition scale_cmd (name : string) (replicas : Z) : Cmd unit :=
  cfg ← requireProject apiURLFlag;
  appID ← known_application cfg name "";
  app ← call (λ Do, Client_ScaleApplication Do appID replicas);
  print [Text ("Application " +:+ name +:+ " scaled to " +:+ Itoa app.(Api.Application_ReplicasDesired)
               +:+ " replicas (desired)")].
(** [stream]: what the opened log delivers. *)
Definition follow_logs (appID : string) (follow : bool) (stream : list string * option string) : Cmd unit :=
  λ sh,
    let '((r, written), (t, s)) :=
      Client_FollowLogs (Dial sh.(sh_store).1.(Config_APIURL)) appID follow stream
        (sh.(sh_store), sh.(sh_server)) in
    let sh := mkShell t s (sh.(sh_out) ++ if decide (written = "") then [] else [Text written]) in
    match r with COk _ => (inl tt, sh) | CErr e => (inr (FromClient e), sh) end.
Definition logs_cmd (name : string) (follow : bool) (stream : list string * option string) : Cmd unit :=
  cfg ← requireProject apiURLFlag;
  appID ← known_application cfg name " — deploy it first";
  follow_logs appID follow stream.
Definition delete_cmd (name : string) : Cmd unit :=
  cfg ← requireProject apiURLFlag;
  appID ← known_application cfg name "";
  call (λ Do, Client_DeleteApplication Do appID) ;;
  set_config (λ c, set_applications (delete name c.(Config_Applications)) c) ;;
  save_session ;;
  print [Text ("Deleted application " +:+ name)].

(** *** create_project.go, create_domain.go, create_api_key.go *)

Definition create_project_cmd (name : string) : Cmd unit :=
  cfg ← requireLogin apiURLFlag;
  project ← call (λ Do, Client_CreateProject Do cfg.(Config_OrgID) name);
  set_config (SetProject project.(Api.Project_ID) project.(Api.Project_Name)) ;;
  save_session ;;
  print [Text ("Created project " +:+ project.(Api.Project_Name) +:+ " (" +:+ project.(Api.Project_ID)
               +:+ "), set as current project")].
Definition create_domain_cmd (hostname appName : string) : Cmd unit :=
  cfg ← requireProject apiURLFlag;
  if decide (appName = "") then stop "--app is required"
  else
    appID ← known_application cfg appName " — deploy it first";
    domain ← call (λ Do, Client_CreateDomain Do cfg.(Config_ProjectID) hostname appID);
    print [Text ("Registered domain " +:+ domain.(Api.Domain_Hostname) +:+ " (" +:+ domain.(Api.Domain_ID)
                 +:+ ") -> " +:+ appName)].
Definition create_api_key_cmd (name : string) : Cmd unit :=
  cfg ← requireLogin apiURLFlag;
  key ← call (λ Do, Client_CreateAPIKey Do cfg.(Config_OrgID) name []);
  print [Text ("Created API key " +:+ key.(Api.APIKey_Name) +:+ " (" +:+ key.(Api.APIKey_ID) +:+ ")");
         Text ("Key: " +:+ key.(Api.APIKey_Key));
         Text "Save this now — it will not be shown again."].

(** *** delete_domain.go, delete_api_key.go: the first row of the name *)

Definition delete_domain_cmd (hostname : string) : Cmd unit :=
  cfg ← requireProject apiURLFlag;
  page ← call (λ Do, Client_ListDomains Do cfg.(Config_ProjectID));
  let domainID := match list_find (λ d, d.(Api.Domain_Hostname) = hostname) page.(Api.DomainPage_Data) with
                  | Some (_, d) => d.(Api.Domain_ID) | None => "" end in
  if decide (domainID = "")
  then stop (unknown "domain" hostname "project" cfg.(Config_ProjectName) "")
  else
    call (λ Do, Client_DeleteDomain Do domainID) ;;
    print [Text ("Deleted domain " +:+ hostname)].
Definition delete_api_key_cmd (name : string) : Cmd unit :=
  cfg ← requireLogin apiURLFlag;
  page ← call (λ Do, Client_ListAPIKeys Do cfg.(Config_OrgID));
  let keyID := match list_find (λ k, k.(Api.APIKey_Name) = name) page.(Api.APIKeyPage_Data) with
               | Some (_, k) => k.(Api.APIKey_ID) | None => "" end in
  if decide (keyID = "")
  then stop (unknown "API key" name "organization" cfg.(Config_OrgSlug) "")
  else
    call (λ Do, Client_DeleteAPIKey Do keyID) ;;
    print [Text ("Revoked API key " +:+ name)].

(** *** invite.go, remove_member.go, set_role.go, update_org.go *)

Definition invite_cmd (email role : string) : Cmd unit :=
  cfg ← requireLogin apiURLFlag;
  if decide (role = "") then stop "--role is required"
  else
    m ← call (λ Do, Client_InviteMember Do cfg.(Config_OrgID) email role);
    print [Text ("Added " +:+ email +:+ " to " +:+ cfg.(Config_OrgSlug) +:+ " as " +:+ m.(Api.Membership_Role))].
Definition resolveMemberUserID (cfg : Config) (email : string) : Cmd string :=
  page ← call (λ Do, Client_ListMembers Do cfg.(Config_OrgID));
  match list_find (λ m, m.(Api.Membership_Email) = email) page.(Api.MembershipPage_Data) with
  | Some (_, m) => mret m.(Api.Membership_UserID)
  | None => stop (unknown "member" email "organization" cfg.(Config_OrgSlug) "")
  end.
Definition remove_member_cmd (email : string) : Cmd unit :=
  cfg ← requireLogin apiURLFlag;
  userID ← resolveMemberUserID cfg email;
  call (λ Do, Client_RemoveMember Do cfg.(Config_OrgID) userID) ;;
  print [Text ("Removed " +:+ email +:+ " from " +:+ cfg.(Config_OrgSlug))].
Definition set_role_cmd (email role : string) : Cmd unit :=
  cfg ← requireLogin apiURLFlag;
  userID ← resolveMemberUserID cfg email;
  m ← call (λ Do, Client_ChangeMemberRole Do cfg.(Config_OrgID) userID role);
  print [Text ("Set " +:+ email +:+ "'s role to " +:+ m.(Api.Membership_Role) +:+ " in " +:+ cfg.(Config_OrgSlug))].
Definition update_org_cmd (name : string) : Cmd unit :=
  cfg ← requireLogin apiURLFlag;
  if decide (name = "") then stop "--name is required"
  else
    org ← call (λ Do, Client_UpdateOrganization Do cfg.(Config_OrgID) name);
    print [Text ("Updated organization " +:+ org.(Api.Organization_ID) +:+ " -> name "
                 +:+ quoted org.(Api.Organization_Name))].

(** *** get_*.go *)

(** A table: its header and a row each, or a line when there is none. *)
Definition table {A} (none : string) (header : list string) (row : A → list string) (l : list A) : list Line :=
  match l with [] => [Text none] | _ => Row header :: (Row ∘ row <$> l) end.
Definition deployment_row (d : Api.Deployment) : list string :=
  [Itoa d.(Api.Deployment_Revision); d.(Api.Deployment_Status); d.(Api.Deployment_Image);
   Itoa d.(Api.Deployment_ReplicasRunning) +:+ "/" +:+ Itoa d.(Api.Deployment_ReplicasDesired);
   match d.(Api.Deployment_Containers) with
   | [] => "-" | l => String.concat "," (Api.ContainerSummary_NodeID <$> l)
   end;
   match d.(Api.Deployment_Service) with Some s => s.(Api.Service_DNSName) | None => "-" end;
   Format d.(Api.Deployment_CreatedAt)].
Definition get_deployments_cmd (name : string) : Cmd unit :=
  cfg ← requireProject apiURLFlag;
  appID ← known_application cfg name " — deploy it first";
  page ← call (λ Do, Client_ListDeployments Do appID);
  print (table "No deployments." ["REVISION"; "STATUS"; "IMAGE"; "REPLICAS"; "NODES"; "SERVICE"; "CREATED_AT"]
           deployment_row page.(Api.DeploymentPage_Data)).
Definition get_nodes_cmd : Cmd unit :=
  requireLogin apiURLFlag ;;
  page ← call (λ Do, Client_ListNodes Do);
  print (table "No nodes." ["ID"; "HOSTNAME"; "STATUS"; "LAST_HEARTBEAT_AT"]
           (λ n, [n.(Api.Node_ID); n.(Api.Node_Hostname); n.(Api.Node_Status); Format n.(Api.Node_LastHeartbeatAt)])
           page.(Api.NodePage_Data)).
(** The names of the applications, by id; of two names of one id the later in
    the range stays. *)
Definition app_names (apps : gmap string string) : gmap string string :=
  foldl (λ m ni, <[ni.2 := ni.1]> m) ∅ (visit apps).
Definition get_domains_cmd : Cmd unit :=
  cfg ← requireProject apiURLFlag;
  page ← call (λ Do, Client_ListDomains Do cfg.(Config_ProjectID));
  let appNames := app_names cfg.(Config_Applications) in
  print (table "No domains." ["HOSTNAME"; "APPLICATION"; "TLS_STATUS"; "CREATED_AT"]
           (λ d, [d.(Api.Domain_Hostname);
                  default d.(Api.Domain_ApplicationID) (appNames !! d.(Api.Domain_ApplicationID));
                  d.(Api.Domain_TLSStatus); Format d.(Api.Domain_CreatedAt)])
           page.(Api.DomainPage_Data)).
Definition get_org_cmd : Cmd unit :=
  cfg ← requireLogin apiURLFlag;
  org ← call (λ Do, Client_GetOrganization Do cfg.(Config_OrgID));
  print [Text ("ID:         " +:+ org.(Api.Organization_ID)); Text ("Name:       " +:+ org.(Api.Organization_Name));
         Text ("Slug:       " +:+ org.(Api.Organization_Slug));
         Text ("Created At: " +:+ Format org.(Api.Organization_CreatedAt))].
Definition get_members_cmd : Cmd unit :=
  cfg ← requireLogin apiURLFlag;
  page ← call (λ Do, Client_ListMembers Do cfg.(Config_OrgID));
  print (table "No members." ["EMAIL"; "ROLE"; "CREATED_AT"]
           (λ m, [m.(Api.Membership_Email); m.(Api.Membership_Role); Format m.(Api.Membership_CreatedAt)])
           page.(Api.MembershipPage_Data)).
Definition get_api_keys_cmd : Cmd unit :=
  cfg ← requireLogin apiURLFlag;
  page ← call (λ Do, Client_ListAPIKeys Do cfg.(Config_OrgID));
  print (table "No API keys." ["NAME"; "ID"; "STATUS"; "CREATED_AT"]
           (λ k, [k.(Api.APIKey_Name); k.(Api.APIKey_ID);
                  match k.(Api.APIKey_RevokedAt) with Some _ => "revoked" | None => "active" end;
                  Format k.(Api.APIKey_CreatedAt)])
           page.(Api.APIKeyPage_Data)).
Definition get_quota_cmd : Cmd unit :=
  cfg ← requireLogin apiURLFlag;
  q ← call (λ Do, Client_GetQuota Do cfg.(Config_OrgID));
  let line name used max := Text (name +:+ padded used +:+ " " +:+ Itoa max) in
  print [Text "RESOURCE          USED   MAX";
         line "projects          " q.(Api.Quota_UsedProjects) q.(Api.Quota_MaxProjects);
         line "containers        " q.(Api.Quota_UsedContainers) q.(Api.Quota_MaxContainers);
         line "cpu (millicores)  " q.(Api.Quota_UsedCPUMillicores) q.(Api.Quota_MaxCPUMillicores);
         line "memory (MB)       " q.(Api.Quota_UsedMemoryMB) q.(Api.Quota_MaxMemoryMB);
         line "deploys (24h)     " q.(Api.Quota_UsedDeploymentsToday) q.(Api.Quota_MaxDeploymentsPerDay)].
Definition get_audit_log_cmd (cursor : string) : Cmd unit :=
  cfg ← requireLogin apiURLFlag;
  page ← call (λ Do, Client_ListAuditLogs Do cfg.(Config_OrgID) cursor);
  match page.(Api.AuditLogPage_Data) with
  | [] => print [Text "No audit log entries."]
  | entries =>
      print (table "" ["CREATED_AT"; "ACTION"; "TARGET_TYPE"; "TARGET_ID"; "ACTOR_USER_ID"]
               (λ e, [Format e.(Api.AuditLogEntry_CreatedAt); e.(Api.AuditLogEntry_Action);
                      e.(Api.AuditLogEntry_TargetType); e.(Api.AuditLogEntry_TargetID);
                      default "-" e.(Api.AuditLogEntry_ActorUserID)]) entries) ;;
      match page.(Api.AuditLogPage_NextCursor) with
      | Some next => print [Text ""; Text ("more entries available — pass --cursor " +:+ next
                                           +:+ " to see the next page")]
      | None => mret tt
      end
  end.

(** One run of the program: the exit code and, for an error, the line on the
    standard error output. *)
Record Ran := mkRan { ran_exit : Z; ran_out : list Line; ran_error : option string; ran_disk : Disk; ran_server : S }.
Definition execute (c : Cmd unit) (d : Disk) (s : S) : Ran :=
  let '(r, sh) := c (mkShell (mkConfig "" "" "" "" "" "" "" ∅ "", d) s []) in
  match r with
  | inl _ => mkRan 0 sh.(sh_out) None sh.(sh_store).2 sh.(sh_server)
  | inr e => mkRan 1 sh.(sh_out) (Some ("Error: " +:+ describeErr e)) sh.(sh_store).2 sh.(sh_server)
  end.
End commands.
