(* ===== verification/CliSession.v ===== *)
(** * CliSession: the command line's client and the API server

    [apiserver] is the transport of [ApiClient] whose other end is the mux of
    [ApiMux], over a network that loses requests or answers.  [session_call]
    is what a call means in terms of the server's routes, without URLs: the
    client refines it, call by call. *)
From S2P Require Import Prelude Text Json Http Schema Effects Rls Outcomes DbTenancy DbWorkload.
From S2P Require Import DbCluster Wire Encoding Auth Concrete ApiCore ApiOrgs ApiApps ApiAuth Handlers.
From S2P Require Import Isolation Quotas Writes Routes Bodies Members Accounts Traffic ApiMux CliTypes.
From S2P Require Import ApiClient CliConfig Sample.
From stdpp Require Import base gmap strings list pretty.
From Stdlib Require Import ZArith Lia Ascii.
Open Scope Z_scope.

(** What becomes of a request: it is answered, it never arrives, or its answer
    is lost. *)
Inductive Net := Delivered | Refused (f : Failure) | Cut (msg : string).
(** What is to become of the requests to come, and the server's world. *)
Record Server := mkServer { attempts : list (Net * Draws); world : World }.

Section server.
Context `{UUIDText} `{TimeText} `{CursorText} `{Credentials}.
Context (bus : bool) (registryAddr : string).

Definition answer (r : Res Reply) : Reply + Failure :=
  match r with Ok reply => inl reply | Err _ => inr (Unanswered "EOF") end.
Definition exchange (serve : Draws → M Reply) (s : Server) : (Reply + Failure) * Server :=
  match s.(attempts) with
  | [] => (inr (Unanswered "connection refused"), s)
  | (Refused f, _) :: l => (inr f, mkServer l s.(world))
  | (Delivered, draws) :: l =>
      let '(r, w) := serve draws s.(world) in (answer r, mkServer l w)
  | (Cut msg, draws) :: l =>
      let '(_, w) := serve draws s.(world) in (inr (Unanswered msg), mkServer l w)
  end.
Definition apiserver (c : Call) : Server → (Reply + Failure) * Server :=
  exchange (λ draws, serve_call bus registryAddr draws c).

Context {T : Type} `{!TokenStore T}.

(** One request, by its meaning, with its Authorization header. *)
Definition ask {A} (method : Method) (path : string) (q : string → Draws → HttpRequest)
    (header : T → string) (out : option (wire → option A)) (zero : A) : Cl (T:=T) (S:=Server) A := λ '(t, s),
  let '(resp, s) := exchange (λ draws, http bus registryAddr (q (header t) draws)) s in
  match resp with
  | inr f => (CErr (failure_error method path f), (t, s))
  | inl r => (take_reply method path out zero r, (t, s))
  end.
Definition bearer (t : T) : string := "Bearer " +:+ GetAccessToken t.
Definition refresh_with (token : string) (_ : string) (draws : Draws) : HttpRequest :=
  RefreshRequest (Some (refresh_request token)) draws.(d_raw).
Definition session_call {A} (method : Method) (path : string) (q : string → Draws → HttpRequest)
    (out : option (wire → option A)) (zero : A) : Cl (T:=T) (S:=Server) A := λ ts,
  match ask method path q bearer out zero ts with
  | (CErr (Unauthorized e), (t, s)) =>
      if decide (GetRefreshToken t = "") then (CErr (Unauthorized e), (t, s))
      else
        match ask POST "/v1/auth/refresh" (refresh_with (GetRefreshToken t)) (λ _, "")
                (Some Unmarshal) (inhabitant : refreshed) (t, s) with
        | (CErr _, ts) => (CErr (Unauthorized e), ts)
        | (COk new, (t, s)) =>
            ask method path q bearer out zero
              ((Save (SetTokens new.(refreshed_AccessToken) new.(refreshed_RefreshToken) t)).2, s)
        end
  | r => r
  end.

(** ** From URLs to routes *)

Lemma exchange_ext f g s : (∀ draws w, f draws w = g draws w) → exchange f s = exchange g s.
Proof. intros Hfg. unfold exchange. destruct (attempts s) as [|[[] ?] ?]; by rewrite ?Hfg. Qed.
(** A call the mux gives to [q]. *)
Definition routed (method : Method) (path : string) (body : option json)
    (q : string → Draws → HttpRequest) : Prop :=
  ∀ header draws, lookup_route draws (mkCall method path header (Some <$> body)) = Handled (q header draws).

Lemma raw_ask {A} method path body (auth : bool) q out (zero : A) ts :
  routed method path body q →
  raw apiserver method path body auth out zero ts
  = ask method path q (if auth then bearer else λ _, "") out zero ts.
Proof.
  intros Hq. destruct ts as [t s]. unfold raw, ask, apiserver.
  erewrite (exchange_ext _ (λ draws, http bus registryAddr (q _ draws))); [|].
  2:{ intros draws w. unfold serve_call. by rewrite Hq. }
  by destruct auth.
Qed.
Lemma refresh_routed token :
  routed POST "/v1/auth/refresh" (Some (refresh_request token)) (refresh_with token).
Proof. by intros header draws. Qed.
Lemma do_session {A} method path body q out (zero : A) ts :
  routed method path body q →
  do_ apiserver method path body out zero ts = session_call method path q out zero ts.
Proof.
  intros Hq. unfold do_, session_call. rewrite (raw_ask _ _ _ true _ _ _ _ Hq).
  destruct (ask method path q bearer out zero ts) as [[a|[e|e|msg]] [t s]]; try done.
  case_decide; [done|]. rewrite (raw_ask _ _ _ false _ _ _ _ (refresh_routed _)).
  destruct (ask POST _ _ _ _ _ _) as [[new|e'] [t' s']]; [|done].
  destruct (Save _) as [? t'']. by rewrite (raw_ask _ _ _ true _ _ _ _ Hq).
Qed.
End server.

(** ** Paths *)

Lemma plain_head s : plain s → ∃ c r, s = String c r.
Proof. intros [? _]. destruct s as [|c r]; [done|]. by exists c, r. Qed.
Lemma plain_unmarked s : plain s → Forall (λ c, c ≠ "?"%char) (String.list_ascii_of_string s).
Proof. intros [_ Hs]. eapply Forall_impl; [exact Hs|]. by intros c (? & ? & ?). Qed.

(** The path before the query, and its segments. *)
Ltac no_mark := first [by apply plain_unmarked | apply (bool_decide_unpack _); vm_compute; exact I].
Ltac cut_path :=
  cbn [call_url];
  repeat (rewrite cut_on_app by no_mark); rewrite ?cut_on_plain by no_mark; reflexivity.
Ltac split_below p l :=
  match goal with
  | |- context [split_on ?c (String.append p ?x)] =>
      replace (split_on c (String.append p x)) with (l ++ split_on c x) by reflexivity
  end.
Ltac split_path :=
  first [ split_below "/v1/orgs/" ["" ; "v1"; "orgs"] | split_below "/v1/projects/" ["" ; "v1"; "projects"]
        | split_below "/v1/applications/" ["" ; "v1"; "applications"]
        | split_below "/v1/domains/" ["" ; "v1"; "domains"]
        | split_below "/v1/api-keys/" ["" ; "v1"; "api-keys"] | idtac ];
  try match goal with
      | |- context [String.append (String "/" ?p) ?y] =>
          change (String.append (String "/" p) y) with (String "/" (String.append p y))
      end;
  rewrite ?plain_split by done; try split_below "members/" ["members"]; rewrite ?plain_split_last by done; reflexivity.
Ltac find_route :=
  intros header draws; erewrite lookup_found; [|cut_path|split_path];
  repeat match goal with Hx : plain ?x |- _ => destruct (plain_head _ Hx) as (? & ? & ->); clear Hx end;
  reflexivity.

Section routes.
Context `{UUIDText} `{TimeText} `{CursorText} `{Credentials} {T : Type} `{!TokenStore T}.
Context (bus : bool) (registryAddr : string).

(** A call to an authenticated route, that wants its answer or none. *)
Definition session_for (A : Type) `{!Into A, !Inhabited A} (method : Method) (path : string)
    (route : Draws → Route) : T * Server → CRes A * (T * Server) :=
  session_call bus registryAddr method path (λ h d, ApiRequest h (route d)) (Some Unmarshal) inhabitant.
Definition session_nothing (method : Method) (path : string) (route : Draws → Route)
    : T * Server → CRes unit * (T * Server) :=
  session_call bus registryAddr method path (λ h d, ApiRequest h (route d)) None tt.
#[local] Abbreviation object kvs := (Some (JObject kvs)) (only parsing).
#[local] Abbreviation apiserver := (apiserver bus registryAddr) (only parsing).

Section calls.
Context (orgID userID projectID appID domainID keyID : string).
Context (Horg : plain orgID) (Huser : plain userID) (Hproject : plain projectID) (Happ : plain appID).
Context (Hdomain : plain domainID) (Hkey : plain keyID).

Lemma GetOrganization_routed :
  routed GET ("/v1/orgs/" +:+ orgID) None
    (λ h _, ApiRequest h (GetOrganization orgID)).
Proof. find_route. Qed.
Lemma UpdateOrganization_routed (name : string):
  routed PATCH ("/v1/orgs/" +:+ orgID) (Some (JObject [("name", JString name)]))
    (λ h _, ApiRequest h (UpdateOrganization orgID (object [("name", JString name)]))).
Proof. find_route. Qed.
Lemma ListMembers_routed :
  routed GET ("/v1/orgs/" +:+ orgID +:+ "/members") None
    (λ h _, ApiRequest h (ListMembers orgID)).
Proof. find_route. Qed.
Lemma InviteMember_routed (email : string) (role : string):
  routed POST ("/v1/orgs/" +:+ orgID +:+ "/members")
    (Some (JObject [("email", JString email); ("role", JString role)]))
    (λ h _, ApiRequest h (InviteMember orgID (object [("email", JString email); ("role", JString role)]))).
Proof. find_route. Qed.
Lemma ChangeMemberRole_routed (role : string):
  routed PATCH ("/v1/orgs/" +:+ orgID +:+ "/members/" +:+ userID) (Some (JObject [("role", JString role)]))
    (λ h _, ApiRequest h (ChangeMemberRole orgID userID (object [("role", JString role)]))).
Proof. find_route. Qed.
Lemma RemoveMember_routed :
  routed DELETE ("/v1/orgs/" +:+ orgID +:+ "/members/" +:+ userID) None
    (λ h _, ApiRequest h (RemoveMember orgID userID)).
Proof. find_route. Qed.
Lemma CreateProject_routed (name : string):
  routed POST ("/v1/orgs/" +:+ orgID +:+ "/projects") (Some (JObject [("name", JString name)]))
    (λ h _, ApiRequest h (CreateProject orgID (object [("name", JString name)]))).
Proof. find_route. Qed.
Lemma CreateApplication_routed (name : string) (image : string) (ports : list PortSpec):
  routed POST ("/v1/projects/" +:+ projectID +:+ "/applications") (Some (application_body name image ports))
    (λ h _, ApiRequest h (CreateApplication projectID (Some (application_body name image ports)))).
Proof. find_route. Qed.
Lemma Deploy_routed (image : string):
  routed POST ("/v1/applications/" +:+ appID +:+ "/deployments") (deploy_body image)
    (λ h _, ApiRequest h (Deploy appID (Some <$> deploy_body image))).
Proof. find_route. Qed.
Lemma ListDeployments_routed :
  routed GET ("/v1/applications/" +:+ appID +:+ "/deployments") None
    (λ h _, ApiRequest h (GetDeployments appID "" "")).
Proof. find_route. Qed.
Lemma DeleteApplication_routed :
  routed DELETE ("/v1/applications/" +:+ appID) None
    (λ h _, ApiRequest h (DeleteApplication appID)).
Proof. find_route. Qed.
Lemma ScaleApplication_routed (replicas : Z):
  routed PATCH ("/v1/applications/" +:+ appID) (Some (JObject [("replicas_desired", to_json replicas)]))
    (λ h _, ApiRequest h (ScaleApplication appID (object [("replicas_desired", to_json replicas)]))).
Proof. find_route. Qed.
Lemma ListNodes_routed :
  routed GET "/v1/nodes" None
    (λ h _, ApiRequest h (GetNodes)).
Proof. find_route. Qed.
Lemma CreateDomain_routed (hostname : string):
  routed POST ("/v1/projects/" +:+ projectID +:+ "/domains")
    (Some (JObject [("hostname", JString hostname); ("application_id", JString appID)]))
    (λ h _, ApiRequest h (CreateDomain projectID
      (object [("hostname", JString hostname); ("application_id", JString appID)]))).
Proof. find_route. Qed.
Lemma ListDomains_routed :
  routed GET ("/v1/projects/" +:+ projectID +:+ "/domains") None
    (λ h _, ApiRequest h (ListDomains projectID)).
Proof. find_route. Qed.
Lemma DeleteDomain_routed :
  routed DELETE ("/v1/domains/" +:+ domainID) None
    (λ h _, ApiRequest h (DeleteDomain domainID)).
Proof. find_route. Qed.
Lemma CreateAPIKey_routed (name : string) (scopes : list string):
  routed POST ("/v1/orgs/" +:+ orgID +:+ "/api-keys") (Some (api_key_body name scopes))
    (λ h d, ApiRequest h (CreateAPIKey orgID (Some (api_key_body name scopes)) d.(d_reads))).
Proof. find_route. Qed.
Lemma ListAPIKeys_routed :
  routed GET ("/v1/orgs/" +:+ orgID +:+ "/api-keys") None
    (λ h _, ApiRequest h (ListAPIKeys orgID)).
Proof. find_route. Qed.
Lemma DeleteAPIKey_routed :
  routed DELETE ("/v1/api-keys/" +:+ keyID) None
    (λ h _, ApiRequest h (RevokeAPIKey keyID)).
Proof. find_route. Qed.
Lemma GetQuota_routed :
  routed GET ("/v1/orgs/" +:+ orgID +:+ "/quota") None
    (λ h _, ApiRequest h (GetQuota orgID)).
Proof. find_route. Qed.
Lemma ListAuditLogs_routed (cursor : string):
  routed GET (audit_path orgID cursor) None
    (λ h _, ApiRequest h (GetAuditLogs orgID "" cursor)).
Proof.
  intros header draws. unfold audit_path. case_decide as Hc.
  - subst cursor. revert header draws. find_route.
  - erewrite lookup_found; [|cut_path|split_path].
    pose proof (query_get_escaped "cursor" "cursor" cursor) as Hq.
    pose proof (query_get_escaped "cursor" "limit" cursor) as Hl.
    rewrite decide_True in Hq by done. rewrite decide_False in Hl by done.
    destruct (plain_head _ Horg) as (x & x0 & ->).
    assert (query_get "limit" (Some ("cursor" +:+ String "=" (QueryEscape cursor))) = "") as Hl'
      by (apply Hl; [apply (bool_decide_unpack _); vm_compute; exact I|done]).
    assert (query_get "cursor" (Some ("cursor" +:+ String "=" (QueryEscape cursor))) = cursor) as Hq'
      by (apply Hq; [apply (bool_decide_unpack _); vm_compute; exact I|done]).
    set (raw := "cursor" +:+ String "=" (QueryEscape cursor)) in *.
    transitivity (Handled (ApiRequest header
      (GetAuditLogs (String x x0) (query_get "limit" (Some raw)) (query_get "cursor" (Some raw)))));
      [reflexivity|by rewrite Hl', Hq'].
Qed.
Lemma GetLogs_routed (follow : bool) :
  routed GET (logs_path appID follow) None (λ h d, ApiRequest h (GetLogs appID d.(d_logs))).
Proof. unfold logs_path. destruct follow; find_route. Qed.

(** A call of the client means a request to a route, whose answer is decoded,
    or only looked at for its status; the method and the path are those of the
    texts of its errors. *)
Definition reaches {A} `{!Into A, !Inhabited A} (f : Cl (T:=T) (S:=Server) A) (route : Draws → Route) : Prop :=
  ∃ method path, ∀ ts, f ts = session_for A method path route ts.
Definition reaches_unread (f : Cl (T:=T) (S:=Server) unit) (route : Draws → Route) : Prop :=
  ∃ method path, ∀ ts, f ts = session_nothing method path route ts.

(** C18: every call of the command line's client, over the API server's own
    mux and a network that loses requests or answers, is one session with the
    route it is meant for, with the arguments it was given: the path leads to
    the handler, the path's values, the query and the body are what the caller
    passed, and the answer is retried after a refresh exactly when it is 401
    (signing up, logging in and the log stream are one request each). *)
Theorem client_reaches_routes (name email role image hostname cursor password : string)
    (ports : list PortSpec) (replicas : Z) (scopes : list string) (follow : bool) :
  reaches (Client_GetOrganization apiserver orgID) (λ _, GetOrganization orgID)
  ∧ reaches (Client_UpdateOrganization apiserver orgID name)
      (λ _, UpdateOrganization orgID (object [("name", JString name)]))
  ∧ reaches (Client_ListMembers apiserver orgID) (λ _, ListMembers orgID)
  ∧ reaches (Client_InviteMember apiserver orgID email role)
      (λ _, InviteMember orgID (object [("email", JString email); ("role", JString role)]))
  ∧ reaches (Client_ChangeMemberRole apiserver orgID userID role)
      (λ _, ChangeMemberRole orgID userID (object [("role", JString role)]))
  ∧ reaches_unread (Client_RemoveMember apiserver orgID userID) (λ _, RemoveMember orgID userID)
  ∧ reaches (Client_CreateProject apiserver orgID name)
      (λ _, CreateProject orgID (object [("name", JString name)]))
  ∧ reaches (Client_CreateApplication apiserver projectID name image ports)
      (λ _, CreateApplication projectID (Some (application_body name image ports)))
  ∧ reaches (Client_Deploy apiserver appID image) (λ _, Deploy appID (Some <$> deploy_body image))
  ∧ reaches (Client_ListDeployments apiserver appID) (λ _, GetDeployments appID "" "")
  ∧ reaches_unread (Client_DeleteApplication apiserver appID) (λ _, DeleteApplication appID)
  ∧ reaches (Client_ScaleApplication apiserver appID replicas)
      (λ _, ScaleApplication appID (object [("replicas_desired", to_json replicas)]))
  ∧ reaches (Client_ListNodes apiserver) (λ _, GetNodes)
  ∧ reaches (Client_CreateDomain apiserver projectID hostname appID)
      (λ _, CreateDomain projectID (object [("hostname", JString hostname); ("application_id", JString appID)]))
  ∧ reaches (Client_ListDomains apiserver projectID) (λ _, ListDomains projectID)
  ∧ reaches_unread (Client_DeleteDomain apiserver domainID) (λ _, DeleteDomain domainID)
  ∧ reaches (Client_CreateAPIKey apiserver orgID name scopes)
      (λ d, CreateAPIKey orgID (Some (api_key_body name scopes)) d.(d_reads))
  ∧ reaches (Client_ListAPIKeys apiserver orgID) (λ _, ListAPIKeys orgID)
  ∧ reaches_unread (Client_DeleteAPIKey apiserver keyID) (λ _, RevokeAPIKey keyID)
  ∧ reaches (Client_GetQuota apiserver orgID) (λ _, GetQuota orgID)
  ∧ reaches (Client_ListAuditLogs apiserver orgID cursor) (λ _, GetAuditLogs orgID "" cursor)
  ∧ (∀ ts : T * Server, Signup apiserver email password ts
      = ask bus registryAddr POST "/v1/auth/signup"
          (λ _ d, SignupRequest (object [("email", JString email); ("password", JString password)])
                    d.(d_fresh) d.(d_raw))
          (λ _, "") (Some Unmarshal) inhabitant ts)
  ∧ (∀ ts : T * Server, Login apiserver email password ts
      = ask bus registryAddr POST "/v1/auth/login"
          (λ _ d, LoginRequest (object [("email", JString email); ("password", JString password)]) d.(d_raw))
          (λ _, "") (Some Unmarshal) inhabitant ts)
  ∧ (∀ (t : T) s, apiserver (mkCall GET (logs_path appID follow) (bearer t) None) s
      = exchange (λ d, http bus registryAddr (ApiRequest (bearer t) (GetLogs appID d.(d_logs)))) s).
Proof.
  assert (∀ A `{!Into A, !Inhabited A} method path body route,
    routed method path body (λ h d, ApiRequest h (route d)) →
    reaches (do_for apiserver A method path body) route) as Hfor.
  { intros A ? ? method path body route Hr. exists method, path. intros ts. by apply do_session. }
  assert (∀ method path route,
    routed method path None (λ h d, ApiRequest h (route d)) →
    reaches_unread (do_nothing apiserver method path) route) as Hnothing.
  { intros method path route Hr. exists method, path. intros ts. by apply do_session. }
  split_and!;
    [..|intros ts; by apply (raw_ask _ _ _ _ _ false)|intros ts; by apply (raw_ask _ _ _ _ _ false)
    |intros t s; apply exchange_ext; intros draws w; unfold serve_call; pose proof (GetLogs_routed follow) as Hl;
      by rewrite Hl];
    first [apply Hfor | apply Hnothing]; eauto using
    GetOrganization_routed, UpdateOrganization_routed, ListMembers_routed, InviteMember_routed,
    ChangeMemberRole_routed, RemoveMember_routed, CreateProject_routed, CreateApplication_routed,
    Deploy_routed, ListDeployments_routed, DeleteApplication_routed, ScaleApplication_routed,
    ListNodes_routed, CreateDomain_routed, ListDomains_routed, DeleteDomain_routed,
    CreateAPIKey_routed, ListAPIKeys_routed, DeleteAPIKey_routed, GetQuota_routed,
    ListAuditLogs_routed.
Qed.
End calls.
End routes.

(** ** On the sample *)

#[local] Existing Instances hexUUID hexTime hexCursor plainCredentials.
(** The ids of the sample, as text. *)
Lemma client_reaches_routes_witness :
  reaches (T:=Config * Disk) true "" (Client_ScaleApplication (apiserver true "") (canonical_String 20) 3)
    (λ _, ScaleApplication (canonical_String 20) (Some (JObject [("replicas_desired", to_json 3)])))
  ∧ reaches (T:=Config * Disk) true "" (Client_ListAuditLogs (apiserver true "") (canonical_String 1) "a&b=c d")
      (λ _, GetAuditLogs (canonical_String 1) "" "a&b=c d").
Proof.
  assert (∀ u, u ∈ [1; 2; 10; 20; 7; 8]%N → plain (canonical_String u)) as Hp.
  { apply Forall_forall. apply (bool_decide_unpack _). vm_compute. exact I. }
  destruct (client_reaches_routes (T:=Config * Disk) true "" (canonical_String 1) (canonical_String 2)
    (canonical_String 10) (canonical_String 20) (canonical_String 7) (canonical_String 8)
    ltac:(apply Hp; set_solver) ltac:(apply Hp; set_solver) ltac:(apply Hp; set_solver)
    ltac:(apply Hp; set_solver) ltac:(apply Hp; set_solver) ltac:(apply Hp; set_solver)
    "" "" "" "" "" "a&b=c d" "" [] 3 [] false)
    as (_&_&_&_&_&_&_&_&_&_&_&Hscale&_&_&_&_&_&_&_&_&Haudit&_).
  split; [exact Hscale|exact Haudit].
Defined.
