(* ===== verification/CliErrors.v ===== *)
(** * CliErrors: the server's errors, as the command line reports them

    The error envelope of services/apiserver/internal/server/server.go read by
    decodeAPIError of apps/cli/internal/apiclient/client.go: a user is shown
    the server's own message, with a code of the route's list. *)
From S2P Require Import Prelude Json Http Schema Effects DbWorkload Auth ApiCore ApiOrgs ApiApps ApiAuth Routes Traffic ApiMux.
From S2P Require Import Replies CliTypes ApiClient CliConfig CliCommands CliSession Concrete Sample.
From stdpp Require Import base gmap strings list.
From Stdlib Require Import ZArith Lia.
Open Scope Z_scope.

(** An envelope is read back; only an empty message is not believed. *)
Lemma decodeAPIError_envelope status code message :
  message ≠ "" →
  decodeAPIError (writeJSON status (errorBody code message)) = mkAPIError status code message.
Proof. intros Hm. unfold decodeAPIError. simpl. by rewrite decide_False. Qed.

Section client.
Context `{UUIDText} `{TimeText} `{CursorText} `{Credentials}.
Context (bus : bool) (registryAddr : string).
Context {T : Type} `{!TokenStore T}.

(** Statuses of successes and of errors. *)
Lemma success_status q s : s ∈ success_codes q → s < 300.
Proof.
  assert (∀ l : list Z, forallb (λ s, s <? 300) l = true → s ∈ l → s < 300) as Hl.
  { intros l Hb Hs. rewrite forallb_forall in Hb. apply Z.ltb_lt, Hb. by apply list_elem_of_In. }
  apply Hl. destruct q as [h r| | |]; [destruct r|..]; reflexivity.
Qed.
Definition shown_codes (q : HttpRequest) : list (Z * string) := (500, "internal_error") :: error_codes q.
Lemma error_status q s k : (s, k) ∈ shown_codes q → 300 ≤ s.
Proof.
  assert (∀ l : list (Z * string), forallb (λ x, 300 <=? x.1) l = true → (s, k) ∈ l → 300 ≤ s) as Hl.
  { intros l Hb Hs. rewrite forallb_forall in Hb.
    apply (Z.leb_le 300 s), (Hb (s, k)). by apply list_elem_of_In. }
  apply Hl. destruct q as [h r| | |]; [destruct r|..]; reflexivity.
Qed.
Lemma error_reply_shown q r :
  error_reply (error_codes q) r →
  ∃ status code message, (status, code) ∈ shown_codes q ∧ message ≠ ""
    ∧ r = writeJSON status (errorBody code message).
Proof.
  intros [->|(s & k & m & Hin & Hm & ->)].
  - do 3 eexists. split; [left|]. split; [|reflexivity]. done.
  - exists s, k, m. split; [by right|done].
Qed.

(** C19: an error of the server reaches the user as it was meant.  Of a request
    the mux gives a route, and whose answer arrives, the client makes its value,
    a complaint that a success cannot be decoded, or an API error with a status
    and code of the route's list, whose message is the server's, never empty,
    and is what the command line prints; it is taken for an expired session
    exactly when its status is 401. *)
Theorem errors_reach_the_user {A} method path body auth (out : option (wire → option A)) zero t s draws l q r :
  s.(attempts) = (Delivered, draws) :: l →
  lookup_route draws (mkCall method path (if auth : bool then "Bearer " +:+ GetAccessToken t else "")
                        (Some <$> body)) = Handled q →
  (raw (T:=T) (apiserver bus registryAddr) method path body auth out zero (t, s)).1 = r →
  ∃ reply, (http bus registryAddr q s.(world)).1 = Ok reply ∧
    ((reply_status reply ∈ success_codes q
      ∧ ((∃ a, r = COk a)
         ∨ r = CErr (Failed ("decoding response for " +:+ Method_text method +:+ " " +:+ path))))
     ∨ ∃ e, (e.(APIError_Status), e.(APIError_Code)) ∈ shown_codes q ∧ e.(APIError_Message) ≠ ""
        ∧ reply = writeJSON e.(APIError_Status) (errorBody e.(APIError_Code) e.(APIError_Message))
        ∧ r = CErr (if decide (e.(APIError_Status) = 401) then Unauthorized e else Reported e)
        ∧ describeErr (FromClient (if decide (e.(APIError_Status) = 401) then Unauthorized e else Reported e))
          = e.(APIError_Message)).
Proof.
  intros Hs Hq Hr. destruct (http_answers bus registryAddr q s.(world)) as (reply & E & Ha).
  exists reply. split; [exact E|]. subst r. unfold raw, apiserver, exchange. rewrite Hs.
  unfold serve_call. rewrite Hq. destruct (http bus registryAddr q (world s)) as [r w]. simpl in E. subst r.
  simpl. unfold take_reply. destruct Ha as [Hok|He].
  - left. split; [done|]. apply success_status in Hok. rewrite decide_False by lia.
    destruct out as [out|]; [|eauto]. case_decide; [eauto|]. destruct (out (reply_body reply)); eauto.
  - right. apply error_reply_shown in He as (st & k & m & Hin & Hm & ->).
    exists (mkAPIError st k m). rewrite decodeAPIError_envelope by done. simpl.
    rewrite decide_True by (by eapply error_status). do 3 (split; [done|]). by case_decide.
Qed.
End client.

(** ** A request without a session *)

#[local] Existing Instances hexUUID hexTime hexCursor plainCredentials.
Definition no_draws : Draws := mkDraws 0 None [] (λ _, LogOpened).
Definition stranger : Config * Disk := (mkConfig "" "" "" "" "" "" "" ∅ "", desktop).
Lemma errors_reach_the_user_witness :
  ∃ e : APIError, e.(APIError_Status) = 401
    ∧ (raw (apiserver true "") GET "/v1/nodes" None true (Some (@Some wire)) None
         (stranger, mkServer [(Delivered, no_draws)] sampleWorld)).1
      = CErr (Unauthorized e).
Proof.
  destruct (errors_reach_the_user (TokenStore0 := ConfigTokens) true "" GET "/v1/nodes" None true
    (Some (@Some wire)) None stranger (mkServer [(Delivered, no_draws)] sampleWorld) no_draws []
    (ApiRequest "Bearer " GetNodes) _ eq_refl eq_refl eq_refl)
    as (reply & Hr & [[Hok _]|(e & _ & _ & Hreply & E & _)]).
  - vm_compute in Hr. injection Hr as <-. vm_compute in Hok. by apply list_elem_of_In in Hok as [?|[]].
  - vm_compute in Hr. rewrite E. exists e. subst reply. injection Hr as <- _ _. done.
Defined.
