(* ===== verification/CliRecovery.v ===== *)
(** * CliRecovery: a session outlives its access token

    When no call fails a refresh with a live token succeeds
    ([refresh_succeeds]); so the client's call whose access token has expired
    does what it would have done with a valid one, after exchanging the refresh
    token once. *)
From S2P Require Import Prelude Text Json Http Schema Effects Rls Outcomes DbTenancy DbWorkload.
From S2P Require Import DbCluster Wire Encoding Auth Concrete ApiCore ApiOrgs ApiApps ApiAuth Handlers.
From S2P Require Import Isolation Quotas Writes Routes Bodies Members Accounts Traffic ApiMux CliTypes.
From S2P Require Import ApiClient CliBodies CliConfig CliSession Sample.
From stdpp Require Import base gmap strings list pretty.
From Stdlib Require Import ZArith Lia Ascii.
Open Scope Z_scope.

Section recovery.
Context `{UUIDText} `{TimeText} `{CursorText} `{Credentials}.

(** ** A refresh that succeeds *)

Definition live_token (token : string) (w : World) (i : uuid) (x : RefreshToken) (u : User) : Prop :=
  w.(w_db).(refresh_tokens) !! i = Some x ∧ x.(RefreshToken_TokenHash) = HashRefreshToken token
  ∧ x.(RefreshToken_RevokedAt) = None ∧ w.(w_now) ≤ x.(RefreshToken_ExpiresAt)
  ∧ w.(w_db).(users) !! x.(RefreshToken_UserID) = Some u ∧ u.(User_ID) = x.(RefreshToken_UserID).
(** New identifiers are not in use, and the new token is not one issued before. *)
Definition new_token_fresh (plain : string) (w : World) : Prop :=
  (∀ g, (w.(w_gen) ≤ g)%N → w.(w_db).(refresh_tokens) !! g = None)
  ∧ Forall (λ y, y.(RefreshToken_TokenHash) ≠ HashRefreshToken plain) (rows w.(w_db).(refresh_tokens)).

Lemma yields_checkRefresh token w i x u :
  calm w → tokens_wf w.(w_db) → live_token token w i x u → yields (checkRefresh token) w x.
Proof.
  intros Hc [Hk Hu] (Hi & Hh & Hr & He & _).
  assert (∃ l, select (λ t, t.(RefreshToken_TokenHash) = HashRefreshToken token) w.(w_db).(refresh_tokens)
               = x :: l) as [l Hl].
  { destruct (select _ _) as [|y l] eqn:E.
    - exfalso. assert (x ∈ ([] : list RefreshToken)) as []%not_elem_of_nil. rewrite <-E.
      apply elem_of_select. eauto.
    - exists l. f_equal. assert (y ∈ y :: l) as Hy by left. rewrite <-E in Hy.
      apply elem_of_select in Hy as [Hy [j Hj]].
      assert (j = i) as -> by (eapply Hu; eauto; congruence). congruence. }
  unfold checkRefresh. eapply yields_bind.
  - apply yields_catch, yields_catch, yields_catch. eapply yields_query_row; [done|]. simpl. exact Hl.
  - intros w' [[= _ _ Hn] _] Hc'. eapply yields_bind; [by exists w'; split_and!; try done; lia|].
    intros w'' _ Hc''. rewrite Hn. rewrite decide_False; [by apply yields_ret|].
    rewrite Hr. intros [?|?]; [done|lia].
Qed.
(** The statements of [issueRefresh]. *)
Lemma token_Create_calm u hash t w :
  calm w → w.(w_db).(refresh_tokens) !! w.(w_gen) = None →
  Forall (λ y, y.(RefreshToken_TokenHash) ≠ hash) (rows w.(w_db).(refresh_tokens)) →
  is_Some (w.(w_db).(users) !! u) →
  let x := new_token w.(w_gen) u hash w.(w_now) t in
  RefreshTokenRepository.Create PoolConn u hash t w
  = (Ok x, set_db (set_refresh_tokens (<[w.(w_gen) := x]> w.(w_db).(refresh_tokens)) w.(w_db))
             (set_gen (N.succ w.(w_gen)) w)).
Proof.
  intros Hc Hg Hh Hu. unfold RefreshTokenRepository.Create, or_conflict, scan, catch.
  rewrite run_stmt_calm by done. unfold execute, RefreshTokenRepository.Create_sql. simpl.
  rewrite require_true by done. by rewrite require_true.
Qed.
Lemma Rotate_calm i g x w :
  calm w → w.(w_db).(refresh_tokens) !! i = Some x → is_Some (w.(w_db).(refresh_tokens) !! g) →
  RefreshTokenRepository.Rotate PoolConn i g w
  = (Ok tt, set_db (set_refresh_tokens
               (<[i := RefreshTokenRepository.revoke w.(w_now) (Some g) x]> w.(w_db).(refresh_tokens)) w.(w_db))
             (set_gen (N.succ w.(w_gen)) w)).
Proof.
  intros Hc Hi Hg. unfold RefreshTokenRepository.Rotate, exec_affected, wrap, catch.
  unfold mbind, M_bind. rewrite run_stmt_calm by done.
  unfold execute, RefreshTokenRepository.Rotate_sql. simpl. rewrite Hi. by rewrite require_true.
Qed.
Lemma refresh_succeeds token raw w i x u :
  let plain := String.string_of_list_ascii (EncodeToString raw) in
  calm w → tokens_wf w.(w_db) → live_token token w i x u → new_token_fresh plain w → token ≠ "" →
  ∃ g d w', handleRefresh (Some (refresh_request token)) (Some raw) w
      = (Ok (writeJSON 200 (refresh_json (jwt_issue u.(User_ID) (w.(w_now) + AccessTokenTTL))
                              (w.(w_now) + AccessTokenTTL) plain)), w')
    ∧ token_at g u.(User_ID) plain w.(w_now) w.(w_db) d
    ∧ w'.(w_db) = set_refresh_tokens
        (<[i := RefreshTokenRepository.revoke w.(w_now) (Some g) x]> d.(refresh_tokens)) d
    ∧ calm w' ∧ w'.(w_now) = w.(w_now) ∧ w'.(w_trace) = w.(w_trace).
Proof.
  intros plain Hc Hwf Hx [Hfresh Hhash] Hne.
  destruct (yields_checkRefresh _ _ _ _ _ Hc Hwf Hx) as (w1 & E1 & ([= Hd1 _ Hn1] & Ht1) & Hc1 & Hg1).
  destruct Hx as (Hi & Hh & Hr & He & Hu & Huid). destruct Hwf as [Hk _].
  assert (yields (UserRepository.GetByID PoolConn x.(RefreshToken_UserID)) w1 u) as (w2 & E2 & ([= Hd2 _ Hn2] & Ht2) & Hc2 & Hg2).
  { apply yields_catch. eapply yields_query_row; [done|]. simpl. by rewrite Hd1, Hu. }
  assert (w_db w2 = w_db w) as Hd by congruence. assert (w_now w2 = w_now w) as Hn by congruence.
  assert ((w_gen w ≤ w_gen w2)%N) as Hg by lia.
  set (g := w2.(w_gen)). set (hash := HashRefreshToken plain).
  set (y := new_token g u.(User_ID) hash w.(w_now) (w.(w_now) + RefreshTokenTTL)).
  set (d := set_refresh_tokens (<[g := y]> w.(w_db).(refresh_tokens)) w.(w_db)).
  assert (w.(w_db).(refresh_tokens) !! g = None) as Hgn by (by apply Hfresh).
  assert (i ≠ g) as Hig by congruence.
  exists g, d. eexists. split; [|split; [by split_and!|]].
  - unfold handleRefresh, respond, catch, Unmarshal. simpl. rewrite decide_False by done.
    unfold refreshWith. unfold mbind at 1, M_bind at 1. rewrite E1. unfold issueRefresh.
    unfold mbind at 1, M_bind at 1. rewrite E2. unfold mbind at 1, M_bind at 1. simpl.
    unfold mbind at 1, M_bind at 1. simpl. unfold mbind at 1, M_bind at 1. fold plain. fold hash.
    rewrite token_Create_calm; [|done|by rewrite Hd|by rewrite Hd|rewrite Hd, Huid; by eexists].
    unfold mbind at 1, M_bind at 1. rewrite (Rotate_calm _ _ x); [by rewrite Hn|done| |].
    + simpl. rewrite Hd, (Hk _ _ Hi). by rewrite lookup_insert_ne.
    + simpl. rewrite lookup_insert_eq. by eexists.
  - simpl. rewrite Hd, Hn, (Hk _ _ Hi). split; [done|]. split; [done|]. split; [done|]. congruence.
Qed.

(** ** The client's call *)

Context {T : Type} `{!TokenStore T}.
Context (bus : bool) (registryAddr : string).

Lemma serve_bearer tok r w :
  Auth.strip_prefix apiKeyPrefix tok = None →
  serve bus registryAddr ("Bearer " +:+ tok) r w
  = match jwt_verify tok w.(w_now) with
    | Some u => dispatch bus registryAddr r (mkIdentity u None) w
    | None => (Ok writeAuthError, w)
    end.
Proof.
  intros Hk. unfold serve, authenticated, Authenticate. rewrite strip_prefix_app, Hk.
  unfold mbind, M_bind. simpl. unfold VerifyAccessToken. by destruct (jwt_verify tok (w_now w)).
Qed.

Lemma take_refreshed path zero access t plain :
  take_reply POST path (Some Unmarshal) zero (writeJSON 200 (refresh_json access t plain))
  = COk (Build_refreshed access plain).
Proof. reflexivity. Qed.
End recovery.

(** ** On the sample *)

#[local] Existing Instances hexUUID hexTime hexCursor plainCredentials.
(** Ann's access token has expired; her refresh token is that of
    [sessionWorld].  She asks for the quota of her organization. *)
Definition expired : Config * Disk :=
  (Config_SetTokens "stale" "t0" (set_url "http://localhost:8080" ann_config), desktop).
Definition draws0 : Draws := mkDraws 777 random_bytes [] (λ _, LogOpened).
Lemma session_tokens_fresh :
  new_token_fresh (String.string_of_list_ascii (EncodeToString (repeat 7 32))) sessionWorld.
Proof.
  split.
  - intros g Hg. apply lookup_singleton_ne. intros <-. simpl in Hg. lia.
  - apply (bool_decide_unpack _). vm_compute. exact I.
Qed.
