(* ===== verification/Cli.v ===== *)
(** * Cli: what the command line's commands keep

    Of the commands of [CliCommands], over any transport: the session and its
    file hold the last tokens that arrived ([session_never_lost]); what a login
    forgets; and,
    run against the API server itself, a walk from a sign-up to a deployment
    and the places where a command does not do what it says. *)
From S2P Require Import Prelude Text Json Http Schema Effects Rls Outcomes DbTenancy DbWorkload.
From S2P Require Import DbCluster Wire Encoding Auth Concrete ApiCore ApiOrgs ApiApps ApiAuth Handlers.
From S2P Require Import Routes Accounts Traffic ApiMux CliTypes ApiClient CliBodies CliConfig CliCommands.
From S2P Require Import CliSession CliRecovery Sample.
From stdpp Require Import base gmap strings list pretty.
From Stdlib Require Import ZArith Lia Ascii HexString.
Open Scope Z_scope.

(** ** The session file is never behind *)

(** Every call on the file works. *)
Definition healthy (d : Disk) : Prop :=
  is_Some (match d.(home) with inl h => Some h | inr _ => None end)
  ∧ d.(unreadable) = None ∧ d.(no_mkdir) = None ∧ d.(unwritable) = None.
(** The file at the user's path says what the configuration does, but for the
    URL, which the flag may have overridden. *)
Definition saved (t : Config * Disk) : Prop :=
  healthy t.2 ∧ Path t.2 = inl t.1.(config_path)
  ∧ ∃ url, loadFrom t.1.(config_path) t.2 = inl (set_url url t.1).

Section kept.
Context `{TimeText} `{MapOrder} {S : Type}.

(** An access token and a refresh token. *)
Definition tokens (c : Config) : string * string := (c.(Config_AccessToken), c.(Config_RefreshToken)).
(** The tokens an answer gives: a success of a refresh, of a sign-up or of a
    login, whose body can be read (a 204 has none: it would give two empty
    tokens). *)
Definition read_answer (A : Type) `{!Into A, !Inhabited A} (r : Reply) : option A :=
  if decide (r.(reply_status) = 204) then Some inhabitant else Unmarshal r.(reply_body).
Definition token_answer (c : Call) (r : Reply) : option (string * string) :=
  if decide (300 ≤ r.(reply_status)) then None
  else match c.(call_method), c.(call_url) with
       | POST, "/v1/auth/refresh" =>
           (λ x, (x.(refreshed_AccessToken), x.(refreshed_RefreshToken))) <$> read_answer refreshed r
       | POST, "/v1/auth/signup" | POST, "/v1/auth/login" =>
           (λ x, (x.(Api.AuthResponse_AccessToken), x.(Api.AuthResponse_RefreshToken)))
             <$> read_answer Api.AuthResponse r
       | _, _ => None
       end.
(** The tokens held after the answers of [l], by who held [held] before. *)
Definition newest (held : string * string) (l : list (Call * Reply)) : string * string :=
  foldl (λ held '(c, r), default held (token_answer c r)) held l.
(** A transport that keeps the answers that arrive, in order. *)
Definition noting (Dial : string → Call → S → (Reply + Failure) * S) (url : string) (c : Call)
    (s : S * list (Call * Reply)) : (Reply + Failure) * (S * list (Call * Reply)) :=
  let '(resp, s') := Dial url c s.1 in
  (resp, (s', match resp with inl r => s.2 ++ [(c, r)] | inr _ => s.2 end)).
End kept.

#[local] Existing Instances Cmd_ret Cmd_bind.
Section keeping.
Context `{TimeText} `{MapOrder} {S : Type}.
Context (Dial : string → Call → S → (Reply + Failure) * S) (Format : time → string) (apiURLFlag : string).
(** What is known of the transport's state when the client holds the tokens it
    received last. *)
Context (I : string * string → S → Prop).
Definition heeds (Do : Call → S → (Reply + Failure) * S) : Prop := ∀ c s held, I held s →
  let '(resp, s') := Do c s in
  I (match resp with inl r => default held (token_answer c r) | inr _ => held end) s'.
Context (Hheeds : ∀ url, heeds (Dial url)).

Lemma saved_save c d :
  healthy d → Path d = inl c.(config_path) → ∃ d', save c d = (None, d') ∧ saved (c, d').
Proof.
  intros (Hh & Hr & Hm & Hw) Hp. unfold save. rewrite Hm, Hw. eexists. split; [done|].
  split_and!; [by split_and!|done|]. exists c.(Config_APIURL). unfold loadFrom. simpl.
  rewrite lookup_insert_eq, Hr. cbn [mbind option_bind]. rewrite config_roundtrip. by destruct c.
Qed.

(** A computation of the client keeps the store saved, with the tokens it
    received last. *)
Definition kept (t : Config * Disk) (s : S) : Prop := saved t ∧ I (tokens t.1) s.
Definition keeps_saved {A} (f : Cl (T:=Config * Disk) (S:=S) A) : Prop :=
  ∀ t s, kept t s → kept (f (t, s)).2.1 (f (t, s)).2.2.
(** Only the three calls of [token_answer] can change the tokens. *)
Definition tokenless (m : Method) (p : string) : Prop :=
  ∀ auth body r, token_answer (mkCall m p auth body) r = None.
Lemma raw_saved {A} Do m p b auth out (zero : A) :
  heeds Do → tokenless m p → keeps_saved (raw Do m p b auth out zero).
Proof.
  intros HDo Hm t s [Ht HI]. unfold raw. specialize (HDo (mkCall m p (if auth then "Bearer " +:+ GetAccessToken t else "")
    (Some <$> b)) s _ HI). destruct (Do _ s) as [[r|f] s']; [|by split]. by rewrite Hm in HDo.
Qed.
(** A call for tokens, [g] being where its answer has them. *)
Lemma raw_tokens {A} `{!Into A, !Inhabited A} (g : A → string * string) Do m p b auth t s held :
  heeds Do → I held s →
  (∀ header body r, token_answer (mkCall m p header body) r
     = if decide (300 ≤ r.(reply_status)) then None else g <$> read_answer A r) →
  let '(r, (t', s')) := raw Do m p b auth (Some Unmarshal) (inhabitant : A) (t, s) in
  t' = t ∧ I (match r with COk a => g a | CErr _ => held end) s'.
Proof.
  intros HDo HI Hg. unfold raw. specialize (HDo (mkCall m p (if auth then "Bearer " +:+ GetAccessToken t else "")
    (Some <$> b)) s _ HI). destruct (Do _ s) as [[r|f] s']; [|done]. split; [done|].
  rewrite Hg in HDo. revert HDo. unfold take_reply, read_answer. repeat case_decide; try done.
  by destruct (Unmarshal (reply_body r)).
Qed.
Lemma do_saved {A} Do m p b out (zero : A) :
  heeds Do → tokenless m p → keeps_saved (do_ Do m p b out zero).
Proof.
  intros HDo Hm t s Ht. unfold do_. pose proof (raw_saved Do m p b true out zero HDo Hm t s Ht) as Hfirst.
  destruct (raw Do m p b true out zero (t, s)) as [[a|[e|e|msg]] [t1 s1]]; try done. case_decide; [done|].
  destruct Hfirst as [Hsaved HI].
  match goal with |- context [raw Do POST ?q ?rb false ?o ?z _] =>
    pose proof (raw_tokens (λ x, (x.(refreshed_AccessToken), x.(refreshed_RefreshToken))) Do POST q rb false t1 s1 _
      HDo HI ltac:(done)) as Hsecond;
    destruct (raw Do POST q rb false o z (t1, s1)) as [[new|e'] [t2 s2]] end; destruct Hsecond as [-> HI']; [|done].
  destruct t1 as [c d]. destruct Hsaved as (Hh & Hp & _).
  destruct (saved_save (Config_SetTokens new.(refreshed_AccessToken) new.(refreshed_RefreshToken) c) d Hh Hp)
    as (d' & Hs & Hsaved). cbn [SetTokens Save ConfigTokens fst snd]. rewrite Hs. by apply raw_saved.
Qed.

(** A command keeps what it started with saved, whether it fails or not. *)
Definition keeps_session {A} (c : Cmd (S:=S) A) : Prop := ∀ sh,
  kept sh.(sh_store) sh.(sh_server) → kept (c sh).2.(sh_store) (c sh).2.(sh_server).
Lemma keeps_ret {A} (a : A) : keeps_session (mret a : Cmd A).
Proof. by intros sh. Qed.
Lemma keeps_bind {A B} (m : Cmd A) (k : A → Cmd B) :
  keeps_session m → (∀ a, keeps_session (k a)) → keeps_session (m ≫= k).
Proof.
  intros Hm Hk sh Hs. unfold mbind, Cmd_bind. specialize (Hm sh Hs). destruct (m sh) as [[a|e] sh']; [|done].
  by apply Hk.
Qed.
Lemma keeps_stop {A} msg : keeps_session (stop msg : Cmd A).
Proof. by intros sh. Qed.
Lemma keeps_print l : keeps_session (print l).
Proof. by intros sh. Qed.
Lemma keeps_config : keeps_session config.
Proof. by intros sh. Qed.
Lemma keeps_call {A} f :
  (∀ Do, heeds Do → keeps_saved (f Do)) → keeps_session (call Dial f : Cmd A).
Proof.
  intros Hf sh Hs. unfold call.
  pose proof (Hf (Dial sh.(sh_store).1.(Config_APIURL)) (Hheeds _) sh.(sh_store) sh.(sh_server) Hs) as Ht.
  by destruct (f _ _) as [[a|e] [t s]].
Qed.
(** A change of the configuration that is saved at once. *)
Lemma keeps_change (f : Config → Config) {A} (k : Cmd A) :
  (∀ c, (f c).(config_path) = c.(config_path)) → (∀ c, tokens (f c) = tokens c) → keeps_session k →
  keeps_session (set_config f ;; save_session ;; k).
Proof.
  intros Hf Ht Hk [[c d] s l] [(Hh & Hp & _) HI]. unfold mbind, Cmd_bind. simpl in *.
  destruct (saved_save (f c) d Hh) as (d' & Hs & Hsaved); [by rewrite Hf|].
  unfold save_session. simpl. rewrite Hs. apply Hk. split; [done|]. simpl. by rewrite Ht.
Qed.
(** A sign-up or a login: the tokens of the answer are the session's. *)
Lemma start_session_keeps resp l sh :
  saved sh.(sh_store) → I (resp.(Api.AuthResponse_AccessToken), resp.(Api.AuthResponse_RefreshToken)) sh.(sh_server) →
  let sh' := ((start_session resp ;; print l) sh).2 in kept sh'.(sh_store) sh'.(sh_server).
Proof.
  destruct sh as [[c d] s out]. intros (Hh & Hp & _) HI. unfold start_session, mbind, Cmd_bind. simpl in *.
  match goal with |- context [save_session (mkShell (?c', _) _ _)] =>
    destruct (saved_save c' d Hh Hp) as (d' & Hs & Hsaved) end.
  unfold save_session. simpl. rewrite Hs. by split.
Qed.
Lemma keeps_auth p email password verb :
  p = "/v1/auth/signup" ∨ p = "/v1/auth/login" →
  keeps_session (resp ← call Dial (λ Do, auth Do p email password);
                 start_session resp ;; print (welcome verb resp)).
Proof.
  intros Hp [[c d] s l] [Hsaved HI].
  assert (∀ header body r, token_answer (mkCall POST p header body) r
    = if decide (300 ≤ r.(reply_status)) then None
      else (λ x, (x.(Api.AuthResponse_AccessToken), x.(Api.AuthResponse_RefreshToken)))
             <$> read_answer Api.AuthResponse r) as Hanswer by (destruct Hp; by subst p).
  unfold mbind, Cmd_bind, call, auth. cbn [sh_store sh_server sh_out fst snd].
  pose proof (raw_tokens (λ x, (x.(Api.AuthResponse_AccessToken), x.(Api.AuthResponse_RefreshToken)))
    (Dial c.(Config_APIURL)) POST p (Some (JObject [("email", JString email); ("password", JString password)])) false
    (c, d) s _ (Hheeds _) HI Hanswer) as Hr.
  destruct (raw _ _ _ _ _ _ _ _) as [[resp|e] [t s']]; destruct Hr as [-> Hr]; [|by split].
  by apply (start_session_keeps resp _ (mkShell (c, d) s' l)).
Qed.
Lemma keeps_logs appID follow stream : keeps_session (follow_logs Dial appID follow stream).
Proof.
  intros sh [Hs HI]. unfold follow_logs, Client_FollowLogs. destruct (sh_store sh) as [c d].
  match goal with |- context [Dial ?u ?q ?s] => pose proof (Hheeds u q s _ HI) as HI' end.
  destruct (Dial _ _ _) as [[r|[m|m]] s']; try by split.
  assert (I (tokens c) s') as HI2.
  { revert HI'. unfold token_answer. simpl. by case_decide. }
  case_decide; [destruct stream.2|]; by split.
Qed.

(** Every command of the program, with its arguments. *)
Inductive Command :=
| SignupCmd (email password : string) | LoginCmd (email password : string)
| CreateProjectCmd (name : string) | CreateDomainCmd (hostname appName : string) | CreateAPIKeyCmd (name : string)
| DeployCmd (name image : string) (ports : list string) | ScaleCmd (name : string) (replicas : Z)
| LogsCmd (name : string) (follow : bool) (stream : list string * option string)
| DeleteCmd (name : string) | DeleteDomainCmd (hostname : string) | DeleteAPIKeyCmd (name : string)
| InviteCmd (email role : string) | RemoveMemberCmd (email : string) | SetRoleCmd (email role : string)
| UpdateOrgCmd (name : string) | GetDeploymentsCmd (name : string) | GetNodesCmd | GetDomainsCmd | GetOrgCmd
| GetMembersCmd | GetAPIKeysCmd | GetQuotaCmd | GetAuditLogCmd (cursor : string).
Definition command (c : Command) : Cmd unit :=
  match c with
  | SignupCmd email password => signup_cmd Dial apiURLFlag email password
  | LoginCmd email password => login_cmd Dial apiURLFlag email password
  | CreateProjectCmd name => create_project_cmd Dial apiURLFlag name
  | CreateDomainCmd hostname appName => create_domain_cmd Dial apiURLFlag hostname appName
  | CreateAPIKeyCmd name => create_api_key_cmd Dial apiURLFlag name
  | DeployCmd name image ports => deploy_cmd Dial apiURLFlag name image ports
  | ScaleCmd name replicas => scale_cmd Dial apiURLFlag name replicas
  | LogsCmd name follow stream => logs_cmd Dial apiURLFlag name follow stream
  | DeleteCmd name => delete_cmd Dial apiURLFlag name
  | DeleteDomainCmd hostname => delete_domain_cmd Dial apiURLFlag hostname
  | DeleteAPIKeyCmd name => delete_api_key_cmd Dial apiURLFlag name
  | InviteCmd email role => invite_cmd Dial apiURLFlag email role
  | RemoveMemberCmd email => remove_member_cmd Dial apiURLFlag email
  | SetRoleCmd email role => set_role_cmd Dial apiURLFlag email role
  | UpdateOrgCmd name => update_org_cmd Dial apiURLFlag name
  | GetDeploymentsCmd name => get_deployments_cmd Dial Format apiURLFlag name
  | GetNodesCmd => get_nodes_cmd Dial Format apiURLFlag
  | GetDomainsCmd => get_domains_cmd Dial Format apiURLFlag
  | GetOrgCmd => get_org_cmd Dial Format apiURLFlag
  | GetMembersCmd => get_members_cmd Dial Format apiURLFlag
  | GetAPIKeysCmd => get_api_keys_cmd Dial Format apiURLFlag
  | GetQuotaCmd => get_quota_cmd Dial apiURLFlag
  | GetAuditLogCmd cursor => get_audit_log_cmd Dial Format apiURLFlag cursor
  end.
(** What follows the loading of the session: it cannot be read, or it is
    [cfg]. *)
Definition after_session {A} (c : Cmd (S:=S) A) : Prop :=
  ∀ sh, healthy sh.(sh_store).2 →
    (∃ msg, c sh = (inr (Usage msg), sh))
    ∨ ∃ cfg, session apiURLFlag sh = (inl tt, mkShell (cfg, sh.(sh_store).2) sh.(sh_server) sh.(sh_out))
             ∧ (I (tokens cfg) sh.(sh_server) → kept (c sh).2.(sh_store) (c sh).2.(sh_server)).
Lemma session_saved : after_session (session apiURLFlag).
Proof.
  intros [[c d] s l] Hd. unfold session. simpl in *. destruct (Load d) as [cfg|msg] eqn:E; [right|left; by eexists].
  unfold Load in E. destruct (Path d) as [path|] eqn:Ep; [|done].
  assert (config_path cfg = path) as Hpath.
  { unfold loadFrom in E. destruct (files d !! path) as [w|]; [|by simplify_eq].
    destruct (unreadable d); [done|]. destruct w as [j|]; [|done]. cbn [mbind option_bind] in E.
    destruct (into _ j) as [c'|] eqn:Ej; [|done]. injection E as ->.
    revert Ej. unfold into, into_Config.
    eapply (decode_struct_keeps (λ c, c.(config_path) = path)); [|done].
    unfold config_fields. repeat constructor; intros a v a' <-; cbn [snd];
      destruct (into _ v); by intros; simplify_eq/=. }
  assert (∀ url, saved (set_url url cfg, d)) as Hsaved.
  { intros url. split_and!; [done|simpl; congruence|]. exists cfg.(Config_APIURL). simpl.
    rewrite Hpath, E. by destruct cfg. }
  specialize (Hsaved cfg.(Config_APIURL)) as Hs.
  assert (set_url cfg.(Config_APIURL) cfg = cfg) as Hset by (by destruct cfg). rewrite Hset in Hs.
  eexists. split; [done|]. intros HI. simpl. split; [|done]. by repeat case_decide.
Qed.
Lemma after_bind {A B} (m : Cmd A) (k : A → Cmd B) :
  after_session m → (∀ a, keeps_session (k a)) → after_session (m ≫= k).
Proof.
  intros Hm Hk sh Hd. unfold mbind, Cmd_bind. destruct (Hm sh Hd) as [[msg ->]|(cfg & E & Hs)]; [left; by eexists|].
  right. exists cfg. split; [done|]. intros HI. specialize (Hs HI). destruct (m sh) as [[a|e] sh']; [|done].
  by apply Hk.
Qed.
Lemma requireLogin_saved : after_session (requireLogin apiURLFlag).
Proof.
  apply after_bind; [exact session_saved|]. intros _. apply keeps_bind; [apply keeps_config|].
  intros cfg. case_decide; [apply keeps_stop|apply keeps_ret].
Qed.
Lemma requireProject_saved : after_session (requireProject apiURLFlag).
Proof.
  apply after_bind; [exact requireLogin_saved|]. intros cfg. case_decide; [apply keeps_stop|apply keeps_ret].
Qed.

Ltac tokenless_tac :=
  intros ? ? ?; unfold token_answer; cbn [call_method call_url]; case_decide; reflexivity.
Ltac keeps_step :=
  lazymatch goal with
  | |- keeps_session (let _ := _ in _) => cbv zeta
  | |- keeps_session (match ?x with _ => _ end) => destruct x
  | |- keeps_session (set_config _ ≫= _) => apply keeps_change; [done|done|]
  | |- keeps_session (call _ (λ Do, Signup Do _ _) ≫= _) => apply keeps_auth; by left
  | |- keeps_session (call _ (λ Do, Login Do _ _) ≫= _) => apply keeps_auth; by right
  | |- keeps_session (_ ≫= _) => apply keeps_bind; [|intros]
  | |- keeps_session (call _ _) => apply keeps_call; intros
  | |- keeps_session (known_application _ _ _) => unfold known_application
  | |- keeps_session (resolveMemberUserID _ _ _) => unfold resolveMemberUserID
  | |- keeps_session (resolveApplication _ _ _ _ _) => unfold resolveApplication
  | |- keeps_session (print _) => apply keeps_print
  | |- keeps_session (mret _) => apply keeps_ret
  | |- keeps_session (stop _) => apply keeps_stop
  | |- keeps_session (follow_logs _ _ _ _) => apply keeps_logs
  | |- keeps_saved _ => apply do_saved; [assumption|tokenless_tac]
  end.
Lemma command_saved c : after_session (command c).
Proof.
  destruct c; simpl;
    (apply after_bind;
      [first [exact session_saved | exact requireProject_saved | exact requireLogin_saved]|intros]);
    repeat keeps_step.
Qed.
End keeping.

Section never_lost.
Context `{TimeText} `{MapOrder} {S : Type}.
Context (Dial : string → Call → S → (Reply + Failure) * S) (Format : time → string) (apiURLFlag : string).
Lemma noting_heeds p0 url : heeds (λ held s, held = newest p0 s.2) (noting Dial url).
Proof.
  intros c [s l] held ->. unfold noting. simpl. destruct (Dial url c s) as [[r|f] s']; [|done].
  simpl. unfold newest. by rewrite foldl_app.
Qed.

(** C20: no command loses its session.  On a disk that works, whatever the
    command, its arguments, the server and the network do: either the session
    file could not be read, and nothing was sent or written, or the command
    starts from the tokens of the file ([cfg]) and ends, successfully or not,
    holding the last pair of tokens that reached it: that of the last refresh,
    sign-up or login it was answered with success, or those it started from
    when there was none.  The file holds that session too, and the next command
    starts from it (but for the URL, which its flag may override).  An answer
    that the network loses gives no tokens. *)
Theorem session_never_lost (c : Command) cfg0 d s :
  healthy d →
  let start := mkShell (cfg0, d) (s, []) [] in
  let '(r, sh) := command (noting Dial) Format apiURLFlag c start in
  (∃ msg, r = inr (Usage msg) ∧ sh = start)
  ∨ ∃ cfg, session apiURLFlag start = (inl tt, mkShell (cfg, d) (s, []) [])
     ∧ tokens sh.(sh_store).1 = newest (tokens cfg) sh.(sh_server).2
     ∧ healthy sh.(sh_store).2
     ∧ ∀ cfg1 (s' : S) out, ∃ url,
         session apiURLFlag (mkShell (cfg1, sh.(sh_store).2) s' out)
         = (inl tt, mkShell (set_url url sh.(sh_store).1, sh.(sh_store).2) s' out).
Proof.
  intros Hd start.
  destruct (session apiURLFlag start) as [r0 sh0] eqn:E0.
  destruct (command_saved (noting Dial) Format apiURLFlag
    (λ held s, held = newest (tokens sh0.(sh_store).1) s.2) (noting_heeds _) c start Hd)
    as [[msg ->]|(cfg & E & Hs)]; [left; by eexists|].
  rewrite E in E0. injection E0 as <- <-. specialize (Hs eq_refl).
  destruct (command _ _ _ c _) as [r [[c' d'] s' l']]. right. exists cfg.
  destruct Hs as [(Hh & Hp & url & Hl) HI]. simpl in *. split_and!; try done.
  intros cfg1 s1 out. unfold session, Load. simpl. rewrite Hp, Hl.
  repeat case_decide; eexists; by destruct c'.
Qed.
End never_lost.

Section forgets.
Context `{TimeText} `{MapOrder} {S : Type}.
Context (Dial : string → Call → S → (Reply + Failure) * S) (Format : time → string) (apiURLFlag : string).

(** The commands that work on the current project. *)
Definition needs_project (c : Command) : bool :=
  match c with
  | CreateDomainCmd _ _ | DeployCmd _ _ _ | ScaleCmd _ _ | LogsCmd _ _ _ | DeleteCmd _ | DeleteDomainCmd _
  | GetDeploymentsCmd _ | GetDomainsCmd => true
  | _ => false
  end.
Lemma without_project c t s l :
  saved t → t.1.(Config_ProjectID) = "" → needs_project c = true →
  ∃ msg sh, command Dial Format apiURLFlag c (mkShell t s l) = (inr (Usage msg), sh) ∧ sh.(sh_server) = s.
Proof.
  intros (Hh & Hp & url & Hl) Hno Hc.
  assert (∃ msg sh, requireProject apiURLFlag (mkShell t s l) = (inr (Usage msg), sh) ∧ sh.(sh_server) = s)
    as (msg & sh & E & Hs).
  { destruct (session apiURLFlag (mkShell t s l)) as [r sh] eqn:E.
    assert (r = inl tt ∧ sh.(sh_server) = s ∧ sh.(sh_store).1.(Config_ProjectID) = "") as (-> & Hs & Hno').
    { revert E. unfold session, Load. simpl. rewrite Hp, Hl.
      repeat case_decide; intros [= <- <-]; split_and!; try done; by destruct t as [[] ?]. }
    unfold requireProject, requireLogin, mbind, Cmd_bind. rewrite E. simpl.
    case_decide; simpl; [by do 2 eexists|]. rewrite decide_True by done. by do 2 eexists. }
  exists msg, sh. split; [|done].
  destruct c; try discriminate Hc; simpl; unfold create_domain_cmd, deploy_cmd, scale_cmd, logs_cmd, delete_cmd,
    delete_domain_cmd, get_deployments_cmd, get_domains_cmd, mbind, Cmd_bind; by rewrite E.
Qed.

Lemma always_heeds url : heeds (λ _ _, True) (Dial url).
Proof. intros c s held _. by destruct (Dial url c s). Qed.
(** C40: logging in forgets the project.  A login that succeeds leaves a session
    without a project and without applications: the next command, if it works
    on a project, ends with an error before anything is sent, whatever the
    server holds. *)
Theorem login_forgets_project email password cfg0 d s sh c :
  healthy d → login_cmd Dial apiURLFlag email password (mkShell (cfg0, d) s []) = (inl tt, sh) →
  sh.(sh_store).1.(Config_Applications) = ∅
  ∧ (needs_project c = true → ∀ s',
     ∃ msg sh', command Dial Format apiURLFlag c (mkShell sh.(sh_store) s' []) = (inr (Usage msg), sh')
                ∧ sh'.(sh_server) = s').
Proof.
  intros Hd E. pose proof (command_saved Dial Format apiURLFlag (λ _ _, True) always_heeds
    (LoginCmd email password) (mkShell (cfg0, d) s []) Hd) as Hs. simpl in Hs. rewrite E in Hs.
  destruct Hs as [[msg Hs]|(cfg & _ & Hs)]; [discriminate Hs|]. destruct (Hs Logic.I) as [Hsaved _].
  clear Hs. rename Hsaved into Hs. simpl in Hs.
  assert (sh.(sh_store).1.(Config_ProjectID) = "" ∧ sh.(sh_store).1.(Config_Applications) = ∅) as [Hp Ha].
  { revert E. unfold login_cmd, mbind, Cmd_bind. destruct (session _ _) as [[[]|e] sh1]; [|done].
    destruct (call _ _ sh1) as [[resp|e] sh2]; [|done].
    unfold start_session, mbind, Cmd_bind, save_session. simpl.
    destruct (save _ _) as [[msg|] d']; simpl; [done|]. by intros [= <-]. }
  split; [done|]. intros Hc s'. by apply without_project.
Qed.
End forgets.

(** ** Against the API server *)

#[local] Existing Instances hexUUID hexTime hexCursor plainCredentials fixed_order.

(** Every request is delivered; request [i] draws its own random bytes. *)
Definition draws (i : Z) : Draws := mkDraws (Z.to_N (5000 + i)) (Some (repeat i 32)) [repeat i 64] (λ _, LogOpened).
Definition delivered (n : nat) : list (Net * Draws) := (λ i, (Delivered, draws (Z.of_nat i))) <$> seq 1 n.
(** A second passes. *)
Definition later (s : Server) : Server :=
  let w := s.(world) in
  mkServer s.(attempts) (mkWorld w.(w_db) w.(w_sess) (w.(w_now) + Second) w.(w_gen) w.(w_faults) w.(w_trace)).
(** One command after the other, in the same home directory. *)
Fixpoint platform (cs : list Command) (d : Disk) (s : Server) : list (Z * list Line * option string) * (Disk * Server) :=
  match cs with
  | [] => ([], (d, s))
  | c :: cs =>
      let ran := execute (command (λ _, apiserver true "localhost:5000") HexString.of_Z "" c) d s in
      let '(rest, ds) := platform cs ran.(ran_disk) (later ran.(ran_server)) in
      ((ran.(ran_exit), ran.(ran_out), ran.(ran_error)) :: rest, ds)
  end.
Definition newcomer : Server := mkServer (delivered 30) (mkWorld emptyDB noSession (100 * Second) 1000 [] []).

(** From nothing to a deployment. *)
Lemma walkthrough :
  (platform [SignupCmd "bob@example.com" "secret"; CreateProjectCmd "Shop"; DeployCmd "web" "nginx:1" ["80:8080"];
             ScaleCmd "web" 3; GetDeploymentsCmd "web"] desktop newcomer).1
  = [(0, [Text "Signed up as bob@example.com, organization bob-00000000 (owner)"], None);
     (0, [Text "Created project Shop (00000000-0000-0000-0000-0000000003f4), set as current project"], None);
     (0, [Text "Deployment 00000000-0000-0000-0000-000000000408: revision 1, status pending"], None);
     (0, [Text "Application web scaled to 3 replicas (desired)"], None);
     (0, [Row ["REVISION"; "STATUS"; "IMAGE"; "REPLICAS"; "NODES"; "SERVICE"; "CREATED_AT"];
          Row ["1"; "pending"; "nginx:1"; "0/3"; "-"; "-"; "0x17bfac7c00"]], None)].
Proof. vm_compute. reflexivity. Qed.
(** After logging in again, the project and its applications cannot be reached:
    no command finds them by name, and their names are taken. *)
Lemma login_locks_out :
  (platform [SignupCmd "bob@example.com" "secret"; CreateProjectCmd "Shop"; DeployCmd "web" "nginx:1" [];
             LoginCmd "bob@example.com" "secret"; ScaleCmd "web" 2; CreateProjectCmd "Shop"] desktop newcomer).1.*2
  = [None; None; None; None;
     Some "Error: no current project — run `platform create project <name>` first";
     Some "Error: a project with this slug already exists in this organization"].
Proof. vm_compute. reflexivity. Qed.
(** A key whose name was revoked before cannot be revoked: the command takes
    the first key of the name, which is the revoked one. *)
Lemma revoked_name_shadows :
  (platform [SignupCmd "bob@example.com" "secret"; CreateAPIKeyCmd "ci"; DeleteAPIKeyCmd "ci";
             CreateAPIKeyCmd "ci"; DeleteAPIKeyCmd "ci"; GetAPIKeysCmd] desktop newcomer).1
  !! 4%nat = Some (1, [], Some "Error: no api key with this id in an organization you belong to").
Proof. vm_compute. reflexivity. Qed.
(** With an expired access token the quota is shown, after a refresh; the log
    is not, because that call does not refresh. *)
Definition stale : Disk :=
  (save (Config_SetTokens "stale" "t0" (set_applications {["shop" := canonical_String 20]}
           (set_url "http://localhost:8080" ann_config))) desktop).2.
Definition returning : Server := mkServer (delivered 9) sessionWorld.
Lemma logs_do_not_refresh :
  (platform [LogsCmd "shop" false (["hello"], None); GetNodesCmd; LogsCmd "shop" false (["hello"], None)]
     stale returning).1
  = [(1, [], Some "Error: a valid bearer access token is required");
     (0, [Row ["ID"; "HOSTNAME"; "STATUS"; "LAST_HEARTBEAT_AT"];
          Row [canonical_String 41; "b"; "healthy"; "0x12a05f2000"];
          Row [canonical_String 40; "a"; "healthy"; "0x174876e800"]], None);
     (0, [Text "hello"], None)].
Proof. vm_compute. reflexivity. Qed.

#[local] Abbreviation dial := (λ _ : string, apiserver true "localhost:5000") (only parsing).
(** The nodes after an expired token: three answers arrive, the second brings
    the pair that the session and its file then hold. *)
Lemma session_never_lost_witness :
  let '(_, sh) := command (noting dial) HexString.of_Z "" GetNodesCmd (mkShell (ann_config, stale) (returning, []) []) in
  healthy sh.(sh_store).2 ∧ length sh.(sh_server).2 = 3%nat
  ∧ tokens sh.(sh_store).1 = newest ("stale", "t0") sh.(sh_server).2
  ∧ tokens sh.(sh_store).1
    = (canonical_String 2, String.string_of_list_ascii (EncodeToString (repeat 2 32))).
Proof.
  assert (healthy stale) as Hd by (split_and!; try reflexivity; by eexists).
  pose proof (session_never_lost dial HexString.of_Z "" GetNodesCmd ann_config stale returning Hd) as Hend.
  cbv zeta in Hend.
  destruct (command (noting dial) HexString.of_Z "" GetNodesCmd _) as [r sh] eqn:E.
  destruct Hend as [(msg & -> & _)|(cfg & Hcfg & Ht & Hh & _)].
  - apply (f_equal fst) in E. vm_compute in E. discriminate E.
  - split; [exact Hh|]. apply (f_equal (λ x, tokens x.2.(sh_store).1)) in Hcfg. simpl in Hcfg.
    assert (tokens cfg = ("stale", "t0")) as Hcfg' by (rewrite <-Hcfg; vm_compute; reflexivity).
    rewrite Hcfg' in Ht. split; [|split; [exact Ht|]].
    + apply (f_equal (λ x, length x.2.(sh_server).2)) in E. vm_compute in E. symmetry. exact E.
    + apply (f_equal (λ x, tokens x.2.(sh_store).1)) in E. cbn [snd] in E. rewrite <-E. vm_compute. reflexivity.
Defined.
(** Bob signs up, then logs in again, and cannot deploy. *)
Lemma login_forgets_project_witness :
  let ds := (platform [SignupCmd "bob@example.com" "secret"; CreateProjectCmd "Shop"] desktop newcomer).2 in
  let '(r, sh) := login_cmd dial "" "bob@example.com" "secret" (mkShell (ann_config, ds.1) ds.2 []) in
  r = inl tt
  ∧ ∃ msg sh', command dial HexString.of_Z "" (DeployCmd "web" "nginx:1" []) (mkShell sh.(sh_store) ds.2 [])
               = (inr (Usage msg), sh') ∧ sh'.(sh_server) = ds.2.
Proof.
  intros ds. assert (healthy ds.1) as Hd by (vm_compute; split_and!; try reflexivity; by eexists).
  destruct (login_cmd dial "" "bob@example.com" "secret" (mkShell (ann_config, ds.1) ds.2 [])) as [r sh] eqn:E.
  assert (r = inl tt) as -> by (apply (f_equal fst) in E; vm_compute in E; symmetry; exact E).
  clearbody ds. split; [reflexivity|].
  destruct (login_forgets_project dial HexString.of_Z "" "bob@example.com" "secret" ann_config ds.1 ds.2 sh
    (DeployCmd "web" "nginx:1" []) Hd E) as [_ Hno].
  apply Hno. reflexivity.
Defined.
